(* ===== verification/_CoqProject ===== *)
-Q . S2P
Prelude.v
GoStrings.v
Unicode.v
GoTime.v
GoFloat.v
Sha256.v
Signature.v
Json.v
JsonEncode.v
Result.v
Runtime.v
Recorder.v
Action.v
WizApi.v
DeepCopy.v
Scheme.v
JsmPayload.v
JsmProvider.v
Executor.v
Registry.v
Dispatcher.v
Mock.v
System.v
Httpx.v
ServeMux.v
Config.v
Instruments.v
Telemetry.v
Startup.v
Public.v
Convergence.v
Interleaving.v
Labels.v
Lifecycle.v
Main.v
Delivery.v
Concurrent.v
Admission.v
