(* ===== verification/Prelude.v ===== *)
(** * webhookd: a verification development

    webhookd receives webhooks from Jira Service Management, checks their
    HMAC signature, and turns an approved ticket into a [SAMLGroupMapping]
    resource in Kubernetes, answering when the operator has reconciled it.

    ** The program

    - [internal/webhook/signature.go]: the signature scheme.
    - [internal/webhook/jsm]: the JSM provider: payload decoding, field
      extraction, the resource, readiness, the response body.
    - [internal/webhook/executor.go]: server-side apply, then a watch until
      the resource is ready or a deadline passes.
    - [internal/webhook/dispatcher.go], [registry.go]: routing a request to a
      provider, and its result to a response; which providers exist.
    - [internal/httpx]: the middleware around the dispatcher.
    - [internal/webhook/wizapi], [internal/k8s]: the resource types with
      their deep copies, the scheme and the clients.
    - [internal/observability]: the instruments, the log handler that adds
      trace ids, the tracer provider.
    - [internal/config], [cmd/webhookd]: configuration from the environment,
      wiring, start and shutdown.

    A request passes the middleware, reaches [Dispatcher.ServeHTTP], which
    reads the body, calls [Provider.VerifySignature] and [Provider.Handle],
    hands the [Action] to [Executor.Execute], and writes the result.

    ** How it is modelled

    Code is a shallow embedding.  Pure functions are functions; fallible ones
    return [result] (a sum); code with effects is in the monad [M] of
    [Runtime], a function from a [world] to an [outcome] (a value or a panic)
    and the world left.  The world holds what the program shares: the
    cluster, the HTTP connection with its committed status, headers and body,
    the requests and the status recorders (addressed by index, so that a
    pointer that is passed around stays one object), the limiter map, the
    clock as a sequence of readings, and the telemetry: counters, histogram
    observations, log records, span events.

    Integers are [Z] with their wrap-around written out ([wrap64]), bytes are
    [string], maps are [gmap], errors are the type [error] with [errors.Is]
    as [Is].  Error texts of the program are kept; those of libraries are
    abbreviated, since the program only forwards them.

    ** Files

    - [Prelude]: tactics, hint databases, lemmas on bytes and strings,
      [error], [result].
    - [GoStrings], [Unicode], [GoTime], [GoFloat], [Sha256]: what the program
      uses of [strings], [strconv], [encoding/hex], [unicode/utf8], [time],
      [crypto/hmac] and of float64 (over [SpecFloat]).
    - [Json], [JsonEncode]: [encoding/json]: the parser with the raw bytes of
      every value, and the encoder.
    - [Signature]: [signature.go].
    - [Result]: [result.go].
    - [Runtime], [Recorder]: the world; [http.ResponseWriter] and the status
      recorder of [middleware.go].
    - [Action]: [action.go], [provider.go]; the class [PureProvider] is what
      a provider promises the dispatcher.
    - [WizApi]: [wizapi/types.go], as values.
    - [DeepCopy]: [wizapi/zz_generated.deepcopy.go], over a heap of arrays in
      which slices and pointers are addresses.  The class [View] says what
      value an object in memory stands for and which addresses it reaches.
    - [Scheme]: [wizapi/groupversion_info.go], [k8s/scheme.go].
    - [JsmPayload]: [jsm/payload.go], [jsm/extract.go].
    - [JsmProvider], Module [Jsm]: [jsm/provider.go], [cr.go], [response.go],
      [signature.go].
    - [Executor]: [executor.go].
    - [Registry]: [registry.go].
    - [Dispatcher]: [dispatcher.go]; the class [ExecutorSpec] is what an
      executor promises it.
    - [Mock]: [providertest/mock.go], another instance of the interface.
    - [System]: dispatcher, JSM provider and executor together.
    - [Httpx]: [middleware.go], [ratelimit.go] and the probes of [admin.go].
    - [ServeMux]: what the program uses of [http.ServeMux].
    - [Config]: [config.go].
    - [Instruments]: [observability/metrics.go].
    - [Telemetry]: [observability/logging.go], [observability/tracing.go].
    - [Startup]: [jsm/init.go], [k8s/client.go], [buildDispatcher] of
      [main.go].
    - [Public]: [buildPublicHandler] and the wiring of [run] in [main.go]:
      the mux inside the middleware chain.
    - [Convergence]: what is left in the cluster by histories of requests, with
      the operator at work; the class [ApiServer] is what the API server keeps.
    - [Interleaving]: executions as sequences of API calls, interleaved.
    - [Labels]: every sample the public listener records, against the
      instruments it is recorded with.
    - [Lifecycle]: [NewAdminMux] of [admin.go]; [startServer],
      [waitForShutdown], [drainServers] and [shutdownTracerProvider] of
      [main.go] as a timed state machine: listeners, connections, the error
      channel, the clock and the deadlines of the calls that block.
    - [Main]: [NewServer] of [server.go]; [run] up to the listeners, with its
      error paths and the deferred flush, and [realMain], which composes it
      with [Lifecycle].
    - [Delivery]: the write timeout of [NewServer] against the wait of the
      executor.
    - [Concurrent]: [getLimiter] of [ratelimit.go], called by any number of
      goroutines.
    - [Admission]: [RateLimit] as the atomic steps of concurrent requests, over
      a token bucket.

    Code outside the repository is a class with the laws the program relies
    on: [K8sClient] (controller-runtime), [ApiErrors] (apimachinery: its
    predicates see through wrapped errors), [Tracer] (OpenTelemetry: a child
    span has its parent's trace), [UUID] (not empty), [RateLimiter]
    (x/time/rate; [TokenBucketLaws] is the bucket its documentation
    describes, in exact arithmetic), [OTelHTTP] (otelhttp: it runs the handler once, on a copy
    of the request), [K8sLibrary] (client constructors), [MetaV1] (the
    deep copies of the embedded types), [ApiServer] (server-side apply, which
    merges by field ownership and counts changes of the spec, and reads),
    [RuntimeScheme] (apimachinery's
    scheme), [Prometheus] (the registry: it takes valid, distinct names),
    [OTelSDK] (exporter, resource), [UnicodeTables] (case mapping and
    printability beyond ASCII).  Each has a concrete instance in
    a module named [...Sample], on which the witnesses run.

    ** What is proved

    - Signatures ([Signature]): acceptance is characterised exactly, a
      signature binds one timestamp and body, sign-then-verify, the class of
      every refusal; the replay window holds for timestamps within 292 years
      of the clock, and fails open beyond.
    - Payloads ([JsmPayload]): the several decoding passes equal one pass
      over the syntax tree; extraction on every JSON value; what an encoder
      writes decodes to what was written.
    - The provider ([Jsm]): when [Handle] asks for an apply and for which
      resource; the class of its errors; readiness; resource names of
      different tickets differ; the response can be read back.
    - The executor ([Executor]): what it sends, and the cases of what it does
      to the cluster ([executed], [waited]); a Ready answer rests on an
      accepted object; the wait is decided by the first event that passes the
      check, by the close of the watch or by the deadline, whichever is first;
      rejected applies are classified.
    - The dispatcher ([Dispatcher]): every request is answered, in one of six
      ways ([disposed]); only an authenticated request changes the cluster.
    - The program ([System], [Public], [Main]): every request to the public
      listener of a program that started is answered; a change of the cluster comes from a
      genuine, approved ticket and is the apply of its resource; a 200 means a
      no-op or a ready resource.  [System] proves this of the dispatcher,
      [Public] lifts it through mux and middleware to the handler [run]
      serves, for every configuration that loads, and [run_public] to the server of a
      started program.
    - The program over time ([Convergence], [Interleaving]): the mappings in
      the cluster are those of the genuine, approved tickets, the last one
      written winning, also when executions are interleaved; a repeated
      delivery changes the executor's stamps only, and succeeds when the
      resource is ready.
    - The middleware ([Httpx]): panics are contained, requests are counted
      and identified, refusals of the limiter reach neither handler nor
      cluster; concurrent requests for a provider share one bucket, however
      they are interleaved ([Concurrent]).
    - The rate limit ([Admission]): in any interval of any run at most the
      burst plus the rate times its length is admitted for a provider, plus
      what requests being refused had reserved; the handler is a run of the
      steps this is proved of; a client that waits for Retry-After is admitted.
    - Answers ([Delivery]): with the default timeouts the answer to a sync that
      times out is lost; which timeouts let every answer arrive.
    - Kubernetes objects ([DeepCopy], [Scheme]): a deep copy stands for the
      same value and shares no memory with the original; it is the value the
      other files, in which objects are values, use; the scheme knows every
      type the client is given.
    - Observability ([Instruments], [Labels], [Telemetry]): registration
      cannot fail for build information in UTF-8; every sample recorded while
      serving has the kind, the labels and the label values its instrument
      was declared with; a log record carries the span's ids whatever the
      logger was derived by; what is sampled and exported.
    - Configuration and wiring ([Config], [Startup]): when [Load] succeeds
      and with what; wiring a loaded configuration cannot panic and yields
      exactly the enabled providers, set up from the settings they are named
      after.
    - The process ([Lifecycle], [Main]): a start either yields two servers or
      flushes and reports, the servers with the configured timeouts; readiness
      is reported exactly while serving, the listener goroutines never block,
      and shutdown ends within twice the shutdown timeout, hung requests and
      exporter or not; status 0 means that a signal asked for it and that every
      connection was drained.

    ** Fuel and bounds

    Recursion that is not structural takes fuel derived from its input, and
    enough of it: [Json.parse] runs [parse_value] with [fuel_for], twice the
    length of its input plus one, and [parse_value_fuel] shows that more
    changes nothing; runes and unquoting take the length of the string
    ([runes_go_fuel], [unquote_go_fuel]); each step of them consumes a byte.
    The watch loop recurses on the deliveries of the watch, and ends because
    its context has a deadline ([select_loop_ends]).  JSON nesting is limited
    to 10000, as in [encoding/json].

    ** What is not modelled

    What [http.Server] does with its settings, but for the write deadline; the
    pace at which its [Shutdown] polls (it may return at any time from the
    moment no connection is busy); how the tracer provider flushes (it ends by
    itself or when its context is done);
    the Prometheus and pprof handlers (parameters of [NewAdminMux]); slog's
    rendering of a record to bytes (a line is a level, a message and a tree of
    attributes); the rounding of the bucket that [x/time/rate] keeps in floating point; the
    stack in the record of a panic; the mutex of the registry, which is filled
    and read by one goroutine.  Of concurrent requests the rate limiter and
    the API calls of executions are interleaved; the other theorems are about
    one request in an arbitrary world.  API calls are instantaneous except
    for the opening of a watch and the delivery of its events.  In [Convergence] nobody but the program and
    the operator, which writes statuses, changes the objects. *)

From stdpp Require Export base numbers list gmap strings fin_maps pretty.
From Stdlib Require Export ZArith Lia.
From Stdlib Require Import Ascii.

#[global] Open Scope Z_scope.

(** ** Notation scope, hint databases *)

Declare Scope webhookd_scope.
Delimit Scope webhookd_scope with wh.

Create HintDb webhookd.
Create HintDb bytes.
Create Rewrite HintDb bytes.

(** ** Tactics *)

(** Split every [match] and [if] of the goal or a hypothesis, clean up. *)
Ltac case_all :=
  repeat (case_match || (progress simplify_eq/=)).

(** Split a boolean guard into the proposition it decides. *)
Ltac bool_to_prop :=
  repeat match goal with
  | H : (_ && _)%bool = true |- _ => apply andb_true_iff in H as [? ?]
  | H : (_ || _)%bool = false |- _ => apply orb_false_iff in H as [? ?]
  | H : (_ <=? _) = true |- _ => apply Z.leb_le in H
  | H : (_ <=? _) = false |- _ => apply Z.leb_gt in H
  | H : (_ <? _) = true |- _ => apply Z.ltb_lt in H
  | H : (_ <? _) = false |- _ => apply Z.ltb_ge in H
  | H : (_ =? _) = true |- _ => apply Z.eqb_eq in H
  | H : (_ =? _) = false |- _ => apply Z.eqb_neq in H
  end.

(** ** Bytes *)

(** A Go [string] and a Go [[]byte] are both sequences of 8-bit bytes: both
    are Rocq [string]s here, whose characters are exactly the 256 bytes. *)
Definition ord (c : ascii) : Z := Z.of_N (N_of_ascii c).
Definition chr (z : Z) : ascii := ascii_of_N (Z.to_N z).
Definition single (c : ascii) : string := String c EmptyString.

Lemma ord_range (c : ascii) : 0 <= ord c < 256.
Proof. unfold ord. pose proof (N_ascii_bounded c). lia. Qed.

Lemma chr_ord (c : ascii) : chr (ord c) = c.
Proof. unfold chr, ord. rewrite N2Z.id. apply ascii_N_embedding. Qed.

Lemma ord_chr (z : Z) : 0 <= z < 256 -> ord (chr z) = z.
Proof. intros ?. unfold chr, ord. rewrite N_ascii_embedding; lia. Qed.

Lemma ord_inj (c d : ascii) : ord c = ord d -> c = d.
Proof. intros H. by rewrite <- (chr_ord c), H, chr_ord. Qed.

#[export] Hint Resolve ord_range : bytes.
#[export] Hint Rewrite chr_ord : bytes.

(** ** Machine integers *)

Definition maxInt64 : Z := 2 ^ 63 - 1.
Definition minInt64 : Z := - 2 ^ 63.
Definition int64 (z : Z) : Prop := minInt64 <= z <= maxInt64.

(** Two's complement wrap-around of Go's [int64] arithmetic. *)
Definition wrap64 (z : Z) : Z := (z + 2 ^ 63) mod 2 ^ 64 - 2 ^ 63.

#[export] Instance int64_dec z : Decision (int64 z).
Proof. unfold int64. apply _. Defined.

Ltac unfold64 := unfold int64, wrap64, maxInt64, minInt64 in *.

Lemma wrap64_int64 (z : Z) : int64 (wrap64 z).
Proof. unfold64. pose proof (Z.mod_pos_bound (z + 2 ^ 63) (2 ^ 64)). lia. Qed.

Lemma wrap64_id (z : Z) : int64 z -> wrap64 z = z.
Proof. unfold64. intros ?. rewrite Z.mod_small; lia. Qed.

(** [wrap64 z] differs from [z] by a multiple of the word size. *)
Lemma wrap64_cong (z : Z) : exists k, wrap64 z = z + k * 2 ^ 64.
Proof.
  exists (- ((z + 2 ^ 63) / 2 ^ 64)). unfold wrap64.
  pose proof (Z.div_mod (z + 2 ^ 63) (2 ^ 64)). lia.
Qed.

#[export] Hint Resolve wrap64_int64 : webhookd.

(** ** Strings *)

Lemma append_cons (c : ascii) (a b : string) :
  String c a +:+ b = String c (a +:+ b).
Proof. done. Qed.

Lemma append_nil_l (s : string) : "" +:+ s = s.
Proof. done. Qed.

Lemma append_nil_r (s : string) : (s +:+ "") = s.
Proof. induction s as [|c s IH]; [done|]. by rewrite append_cons, IH. Qed.

Lemma append_assoc (a b c : string) : (a +:+ b) +:+ c = a +:+ (b +:+ c).
Proof. induction a as [|x a IH]; [done|]. by rewrite !append_cons, IH. Qed.

Lemma length_append (a b : string) :
  String.length (a +:+ b) = (String.length a + String.length b)%nat.
Proof. induction a as [|x a IH]; [done|]. rewrite append_cons. cbn. by f_equal. Qed.

Lemma append_inj_l (a b c : string) : a +:+ b = a +:+ c -> b = c.
Proof. apply (inj (String.app a)). Qed.

Lemma append_inj_len (a1 a2 b1 b2 : string) :
  String.length a1 = String.length a2 ->
  a1 +:+ b1 = a2 +:+ b2 -> a1 = a2 /\ b1 = b2.
Proof.
  revert a2. induction a1 as [|x a1 IH]; intros [|y a2] Hlen Heq; try done.
  rewrite !append_cons in Heq. injection Heq as -> Heq.
  destruct (IH a2) as [-> ->]; [by injection Hlen|done|done].
Qed.

#[export] Hint Rewrite append_nil_l append_nil_r append_assoc append_cons length_append : bytes.

(** Membership of a byte in a string. *)
Fixpoint sIn (c : ascii) (s : string) : Prop :=
  match s with
  | EmptyString => False
  | String d s => d = c \/ sIn c s
  end.

Fixpoint sForall (P : ascii -> Prop) (s : string) : Prop :=
  match s with
  | EmptyString => True
  | String d s => P d /\ sForall P s
  end.

Lemma sForall_impl (P Q : ascii -> Prop) (s : string) :
  (forall c, P c -> Q c) -> sForall P s -> sForall Q s.
Proof. intros HPQ. induction s; naive_solver. Qed.

Lemma sForall_app (P : ascii -> Prop) (a b : string) :
  sForall P (a +:+ b) <-> sForall P a /\ sForall P b.
Proof.
  induction a as [|c a IH]; [cbn; naive_solver|].
  rewrite append_cons. cbn. rewrite IH. tauto.
Qed.

Lemma sForall_notin (P : ascii -> Prop) (c : ascii) (s : string) :
  sForall P s -> ~ P c -> ~ sIn c s.
Proof. induction s; naive_solver. Qed.

(** Two strings that agree up to the first occurrence of a separator. *)
Lemma split_at_unique (c : ascii) (a1 a2 b1 b2 : string) :
  ~ sIn c a1 -> ~ sIn c a2 ->
  a1 +:+ String c b1 = a2 +:+ String c b2 -> a1 = a2 /\ b1 = b2.
Proof.
  revert a2. induction a1 as [|x a1 IH]; intros [|y a2] H1 H2 Heq;
    rewrite ?append_cons in Heq; cbn in *.
  - by injection Heq as ->.
  - injection Heq as <- _. tauto.
  - injection Heq as -> _. tauto.
  - injection Heq as -> Heq. destruct (IH a2) as [-> ->]; tauto.
Qed.

(** ** Error values *)

(** A Go [error] is a tree.  [Sentinel] is a package-level variable made by
    [errors.New]: its identity is the variable ([name]), its text [msg].
    [Errorf] is the value of [fmt.Errorf]: the rendered text and the operands
    of its [%w] verbs.  [Opaque] is an error value of a library, known by its
    text only: the program never compares it with a sentinel. *)
Inductive error :=
| Sentinel (name msg : string)
| Opaque (msg : string)
| Errorf (msg : string) (wrapped : list error).

(** [err.Error()] *)
Definition ErrorText (e : error) : string :=
  match e with
  | Sentinel _ m => m
  | Opaque m => m
  | Errorf m _ => m
  end.

(** [errors.Is(e, target)] for a sentinel [target], given by its name: the
    pre-order walk of the tree that [Unwrap] spans. *)
Fixpoint Is (e : error) (target : string) : bool :=
  match e with
  | Sentinel n _ => String.eqb n target
  | Opaque _ => false
  | Errorf _ ws => existsb (fun w => Is w target) ws
  end.

(** [fmt.Errorf("%w: %w", a, b)], the form most call sites use. *)
Definition wrap2 (a b : error) : error :=
  Errorf (ErrorText a +:+ ": " +:+ ErrorText b) [a; b].

(** [fmt.Errorf("what: %w", e)] *)
Definition wrapped (what : string) (e : error) : error := Errorf (what +:+ ": " +:+ ErrorText e) [e].

(** ** Results *)

Inductive result (A : Type) :=
| Ok (a : A)
| Err (e : error).
Arguments Ok {A} a.
Arguments Err {A} e.

#[export] Instance result_ret : MRet result := @Ok.
#[export] Instance result_bind : MBind result := fun A B f r =>
  match r with
  | Ok a => f a
  | Err e => Err e
  end.

#[export] Instance Ok_inj {A} : Inj (=) (=) (@Ok A).
Proof. by intros a b [= ->]. Qed.

Definition is_ok {A} (r : result A) : bool :=
  match r with Ok _ => true | Err _ => false end.

Lemma bind_Ok {A B} (r : result A) (f : A -> result B) (b : B) :
  (r ≫= f) = Ok b <-> exists a, r = Ok a /\ f a = Ok b.
Proof. destruct r as [a|e]; cbn; naive_solver. Qed.

Lemma bind_Err {A B} (r : result A) (f : A -> result B) (e : error) :
  (r ≫= f) = Err e <-> r = Err e \/ exists a, r = Ok a /\ f a = Err e.
Proof. destruct r as [a|e']; cbn; naive_solver. Qed.
