(* ===== verification/GoStrings.v ===== *)
(** * The string functions of Go's standard library that webhookd calls

    [strings], [strconv], [encoding/hex], [unicode/utf8] and
    [net/textproto] on byte strings, executable.  The two Unicode tables the
    library consults above ASCII (simple lower-casing and printability) are
    the class [UnicodeTables], a parameter of every definition that needs
    them. *)

From Stdlib Require Import Ascii.
From S2P Require Import Prelude.

(** ** Byte classes *)

Definition in_range (lo hi : Z) (c : ascii) : bool := (lo <=? ord c) && (ord c <=? hi).

Definition dquote : ascii := chr 34.
Definition backslash : ascii := chr 92.

Fixpoint drop_bytes (n : nat) (s : string) : string :=
  match n, s with
  | O, _ => s
  | S n, String _ s => drop_bytes n s
  | S _, EmptyString => EmptyString
  end.

Fixpoint take_bytes (n : nat) (s : string) : string :=
  match n, s with
  | S n, String c s => String c (take_bytes n s)
  | _, _ => EmptyString
  end.

(** ** strings.CutPrefix, strings.IndexByte, strings.SplitSeq *)

(** [after, found := strings.CutPrefix(s, p)]: [Some after] when found. *)
Fixpoint CutPrefix (s p : string) {struct p} : option string :=
  match p, s with
  | EmptyString, _ => Some s
  | String c p, String d s => if bool_decide (c = d) then CutPrefix s p else None
  | String _ _, EmptyString => None
  end.

Lemma CutPrefix_Some (s p r : string) : CutPrefix s p = Some r <-> s = p +:+ r.
Proof.
  revert s. induction p as [|c p IH]; intros s; cbn [CutPrefix].
  - split; [by intros [= ->]|by intros ->].
  - destruct s as [|d s]; [rewrite append_cons; done|].
    case_bool_decide as H; rewrite append_cons; [subst; rewrite IH|].
    + split; [by intros ->|by intros [= ->]].
    + split; [done|intros [=]; congruence].
Qed.

(** The part of [s] before the first byte [c], when there is one. *)
Fixpoint before_byte (c : ascii) (s : string) : option string :=
  match s with
  | EmptyString => None
  | String d s =>
      if bool_decide (d = c) then Some EmptyString
      else match before_byte c s with
           | Some r => Some (String d r)
           | None => None
           end
  end.

Lemma before_byte_spec (c : ascii) (s : string) :
  match before_byte c s with
  | Some a => exists b, s = a +:+ String c b /\ ~ sIn c a
  | None => ~ sIn c s
  end.
Proof.
  induction s as [|x s IH]; cbn [before_byte]; [by intros []|]. case_bool_decide as Hx.
  - subst. exists s. split; [done|]. by intros [].
  - destruct (before_byte c s) as [a|].
    + destruct IH as (b & -> & Ha). exists b. split; [done|]. cbn. naive_solver.
    + cbn. naive_solver.
Qed.

Lemma drop_bytes_app (a b : string) : drop_bytes (String.length a) (a +:+ b) = b.
Proof. induction a as [|c a IH]; [done|]. rewrite append_cons. exact IH. Qed.

(** [strings.SplitSeq(s, sep)] for a one-byte separator: all pieces, the empty
    ones included; the empty string has one (empty) piece. *)
Fixpoint Split (sep : ascii) (s : string) : list string :=
  match s with
  | EmptyString => [EmptyString]
  | String c s =>
      if bool_decide (c = sep) then EmptyString :: Split sep s
      else match Split sep s with
           | [] => [single c]
           | p :: ps => String c p :: ps
           end
  end.

(** ** encoding/hex *)

Definition hexval (c : ascii) : option Z :=
  if in_range 48 57 c then Some (ord c - 48)
  else if in_range 97 102 c then Some (ord c - 87)
  else if in_range 65 70 c then Some (ord c - 55)
  else None.

Definition hexdigit (z : Z) : ascii := chr (if z <? 10 then 48 + z else 87 + z).

Definition InvalidByteError : error := Opaque "encoding/hex: invalid byte".
Definition ErrLength : error := Opaque "encoding/hex: odd length hex string".

(** [hex.DecodeString]: both cases of digits, pairs from the left; an odd
    trailing digit is [ErrLength], any other byte [InvalidByteError]. *)
Fixpoint hex_DecodeString (s : string) : result string :=
  match s with
  | EmptyString => Ok EmptyString
  | String p EmptyString =>
      match hexval p with Some _ => Err ErrLength | None => Err InvalidByteError end
  | String p (String q r) =>
      match hexval p, hexval q with
      | Some a, Some b =>
          match hex_DecodeString r with
          | Ok t => Ok (String (chr (16 * a + b)) t)
          | Err e => Err e
          end
      | _, _ => Err InvalidByteError
      end
  end.

(** [hex.EncodeToString], what a signer calls. *)
Fixpoint hex_EncodeToString (s : string) : string :=
  match s with
  | EmptyString => EmptyString
  | String c s =>
      String (hexdigit (ord c / 16)) (String (hexdigit (ord c mod 16)) (hex_EncodeToString s))
  end.

Lemma hexval_hexdigit (z : Z) : 0 <= z < 16 -> hexval (hexdigit z) = Some z.
Proof.
  intros Hz. assert (z = 0 \/ z = 1 \/ z = 2 \/ z = 3 \/ z = 4 \/ z = 5 \/ z = 6 \/ z = 7
    \/ z = 8 \/ z = 9 \/ z = 10 \/ z = 11 \/ z = 12 \/ z = 13 \/ z = 14 \/ z = 15) as H by lia.
  destruct_or!; subst z; reflexivity.
Qed.

Lemma hex_roundtrip (s : string) : hex_DecodeString (hex_EncodeToString s) = Ok s.
Proof.
  induction s as [|c s IH]; [done|]. cbn [hex_EncodeToString hex_DecodeString].
  pose proof (ord_range c).
  rewrite !hexval_hexdigit, IH; [|apply Z.mod_pos_bound; lia|].
  - by rewrite <- Z.div_mod, chr_ord by lia.
  - split; [apply Z.div_pos; lia|apply Z.div_lt_upper_bound; lia].
Qed.

Lemma hex_EncodeToString_nonempty (s : string) : s <> "" -> hex_EncodeToString s <> "".
Proof. by destruct s. Qed.

(** ** strconv *)

Definition ErrSyntax : error := Opaque "invalid syntax".
Definition ErrRange : error := Opaque "value out of range".

Definition digit (c : ascii) : option Z :=
  if in_range 48 57 c then Some (ord c - 48) else None.

(** The digit loop of [strconv.ParseUint(s, 10, 64)], [n] the value so far. *)
Fixpoint ParseUint_go (n : Z) (s : string) : result Z :=
  match s with
  | EmptyString => Ok n
  | String c s =>
      match digit c with
      | None => Err ErrSyntax
      | Some d =>
          if 2 ^ 64 - 1 <? n * 10 + d then Err ErrRange
          else ParseUint_go (n * 10 + d) s
      end
  end.

Definition ParseUint (s : string) : result Z :=
  match s with EmptyString => Err ErrSyntax | _ => ParseUint_go 0 s end.

(** [strconv.ParseInt(s, 10, 64)] *)
Definition ParseInt (s : string) : result Z :=
  let '(neg, digits) :=
    match s with
    | String c r =>
        if bool_decide (c = "+"%char) then (false, r)
        else if bool_decide (c = "-"%char) then (true, r)
        else (false, s)
    | EmptyString => (false, s)
    end in
  un ← ParseUint digits;
  if neg then (if 2 ^ 63 <? un then Err ErrRange else Ok (- un))
  else (if 2 ^ 63 <=? un then Err ErrRange else Ok un).

(** [strconv.Itoa] and [strconv.FormatInt(_, 10)] *)
Definition Itoa (z : Z) : string := pretty z.

(** [strconv.ParseBool] *)
Definition ParseBool (s : string) : result bool :=
  if bool_decide (s ∈ ["1"; "t"; "T"; "TRUE"; "true"; "True"]) then Ok true
  else if bool_decide (s ∈ ["0"; "f"; "F"; "FALSE"; "false"; "False"]) then Ok false
  else Err ErrSyntax.

(** The bytes an accepted decimal number is made of. *)
Definition num_byte (c : ascii) : Prop := c = "+"%char \/ c = "-"%char \/ in_range 48 57 c = true.

Lemma ParseUint_go_bytes (n m : Z) (s : string) :
  ParseUint_go n s = Ok m -> sForall num_byte s.
Proof.
  revert n. induction s as [|c s IH]; intros n; [done|]. cbn.
  unfold digit. destruct (in_range 48 57 c) eqn:Hc; [|done].
  case_match; [done|]. intros ?%IH. split; [by right; right|done].
Qed.

Lemma ParseUint_bytes (m : Z) (s : string) : ParseUint s = Ok m -> sForall num_byte s.
Proof. destruct s; [done|]. apply ParseUint_go_bytes. Qed.

Lemma ParseInt_bytes (s : string) (z : Z) : ParseInt s = Ok z -> sForall num_byte s.
Proof.
  unfold ParseInt. destruct s as [|c r]; [done|].
  repeat case_bool_decide; intros (u & Hu%ParseUint_bytes & _)%bind_Ok;
    cbn in *; unfold num_byte in *; tauto.
Qed.

Lemma ParseUint_go_range (n m : Z) (s : string) :
  0 <= n < 2 ^ 64 -> ParseUint_go n s = Ok m -> 0 <= m < 2 ^ 64.
Proof.
  revert n. induction s as [|c s IH]; intros n Hn; cbn; [by intros [= <-]|].
  unfold digit. destruct (in_range 48 57 c) eqn:Hc; [|done].
  unfold in_range in Hc. bool_to_prop.
  case_match; [done|]. bool_to_prop. apply IH. lia.
Qed.

Lemma ParseInt_range (s : string) (z : Z) : ParseInt s = Ok z -> int64 z.
Proof.
  unfold ParseInt. destruct (match s with EmptyString => _ | _ => _ end) as [neg ds].
  intros (u & Hu & Hz)%bind_Ok.
  assert (0 <= u < 2 ^ 64).
  { destruct ds; [done|]. by apply (ParseUint_go_range 0) in Hu. }
  unfold64. destruct neg; case_match; simplify_eq; bool_to_prop; lia.
Qed.

(** Library errors are not sentinels of the program. *)
Lemma ParseInt_err (s : string) (e : error) : ParseInt s = Err e -> e = ErrSyntax \/ e = ErrRange.
Proof.
  assert (forall n t, ParseUint_go n t = Err e -> e = ErrSyntax \/ e = ErrRange) as Hgo.
  { intros n t. revert n. induction t as [|c t IH]; intros n; cbn; [done|].
    repeat case_match; [|eauto|]; intros [= <-]; auto. }
  unfold ParseInt. destruct (match s with EmptyString => _ | _ => _ end) as [neg ds].
  intros [Hu|(u & Hu & Hz)]%bind_Err.
  - destruct ds; [cbn in Hu; simplify_eq; auto|by eapply Hgo].
  - destruct neg; case_match; simplify_eq; auto.
Qed.

Lemma ParseInt_err_Is (s t : string) (e : error) : ParseInt s = Err e -> Is e t = false.
Proof. by intros [-> | ->]%ParseInt_err. Qed.

#[export] Hint Resolve ParseInt_err_Is : webhookd.
