(* ===== verification/Unicode.v ===== *)
(** * UTF-8 and the Unicode-aware functions of [strings], [strconv], [net/textproto]

    [utf8.DecodeRune] / [utf8.AppendRune] with Go's treatment of invalid
    bytes, then [strings.TrimSpace], [strings.ToLower], [strconv.Quote] (the
    [%q] verb) and header-key canonicalisation. *)

From Stdlib Require Import Ascii.
From S2P Require Import Prelude GoStrings.

(** ** unicode/utf8 *)

Definition RuneError : Z := 0xFFFD.

Definition byte2 (b0 : Z) (c1 : ascii) : Z := (b0 - 0xC0) * 64 + (ord c1 - 0x80).
Definition byte3 (b0 : Z) (c1 c2 : ascii) : Z :=
  (b0 - 0xE0) * 4096 + (ord c1 - 0x80) * 64 + (ord c2 - 0x80).
Definition byte4 (b0 : Z) (c1 c2 c3 : ascii) : Z :=
  (b0 - 0xF0) * 262144 + (ord c1 - 0x80) * 4096 + (ord c2 - 0x80) * 64 + (ord c3 - 0x80).

(** The range the second byte must lie in, by the first (Go's
    [acceptRanges]). *)
Definition accept_lo (b0 : Z) : Z := if b0 =? 0xE0 then 0xA0 else if b0 =? 0xF0 then 0x90 else 0x80.
Definition accept_hi (b0 : Z) : Z := if b0 =? 0xED then 0x9F else if b0 =? 0xF4 then 0x8F else 0xBF.
Definition cont (c : ascii) : bool := in_range 0x80 0xBF c.

(** [utf8.DecodeRuneInString]: the rune, its width in bytes, and what
    follows.  An invalid sequence is one byte wide and reads as [RuneError]. *)
Definition DecodeRune (s : string) : option (Z * nat * string) :=
  match s with
  | EmptyString => None
  | String c0 s1 =>
      let b0 := ord c0 in
      let bad := Some (RuneError, 1%nat, s1) in
      if b0 <? 0x80 then Some (b0, 1%nat, s1)
      else if (0xC2 <=? b0) && (b0 <=? 0xDF) then
        match s1 with
        | String c1 s2 => if cont c1 then Some (byte2 b0 c1, 2%nat, s2) else bad
        | _ => bad
        end
      else if (0xE0 <=? b0) && (b0 <=? 0xEF) then
        match s1 with
        | String c1 (String c2 s3) =>
            if in_range (accept_lo b0) (accept_hi b0) c1 && cont c2
            then Some (byte3 b0 c1 c2, 3%nat, s3) else bad
        | _ => bad
        end
      else if (0xF0 <=? b0) && (b0 <=? 0xF4) then
        match s1 with
        | String c1 (String c2 (String c3 s4)) =>
            if in_range (accept_lo b0) (accept_hi b0) c1 && cont c2 && cont c3
            then Some (byte4 b0 c1 c2 c3, 4%nat, s4) else bad
        | _ => bad
        end
      else bad
  end.

Definition valid_rune (r : Z) : bool :=
  ((0 <=? r) && (r <=? 0x10FFFF)) && negb ((0xD800 <=? r) && (r <=? 0xDFFF)).

(** [utf8.AppendRune]: a value that is not a rune is written as [RuneError]. *)
Definition EncodeRune (r0 : Z) : string :=
  let r := if valid_rune r0 then r0 else RuneError in
  let tail (k : Z) := chr (0x80 + (r / k) mod 64) in
  if r <? 0x80 then single (chr r)
  else if r <? 0x800 then String (chr (0xC0 + r / 64)) (single (tail 1))
  else if r <? 0x10000 then
    String (chr (0xE0 + r / 4096)) (String (tail 64) (single (tail 1)))
  else String (chr (0xF0 + r / 262144)) (String (tail 4096) (String (tail 64) (single (tail 1)))).

(** The runes of a string, the invalid bytes as [RuneError].  [fuel] bounds
    the number of runes: every rune is at least one byte wide, so the length
    of the string is enough ([runes_go_fuel]). *)
Fixpoint runes_go (fuel : nat) (s : string) : list Z :=
  match fuel with
  | O => []
  | S fuel =>
      match DecodeRune s with
      | Some (r, _, rest) => r :: runes_go fuel rest
      | None => []
      end
  end.
Definition runes (s : string) : list Z := runes_go (String.length s) s.

Definition encode_runes (rs : list Z) : string :=
  foldr (fun r acc => EncodeRune r +:+ acc) EmptyString rs.

Lemma DecodeRune_shorter (s rest : string) (r : Z) (w : nat) :
  DecodeRune s = Some (r, w, rest) -> (String.length rest < String.length s)%nat.
Proof. unfold DecodeRune. intros H. repeat case_match; simplify_eq; cbn; lia. Qed.

Lemma runes_go_fuel (n m : nat) (s : string) :
  (String.length s <= n)%nat -> (String.length s <= m)%nat -> runes_go n s = runes_go m s.
Proof.
  revert m s. induction n as [|n IH]; intros [|m] s Hn Hm; cbn [runes_go]; try done.
  - destruct s; [done|cbn in *; lia].
  - destruct s; [done|cbn in *; lia].
  - destruct (DecodeRune s) as [[[r w] rest]|] eqn:E; [|done].
    apply DecodeRune_shorter in E. f_equal. apply IH; lia.
Qed.

(** ** Decoding inverts encoding *)

Lemma ord_tail (x : Z) : ord (chr (0x80 + x mod 64)) = 0x80 + x mod 64.
Proof. pose proof (Z.mod_pos_bound x 64). apply ord_chr. lia. Qed.

Lemma cont_tail (x : Z) : cont (chr (0x80 + x mod 64)) = true.
Proof.
  unfold cont, in_range. rewrite ord_tail. pose proof (Z.mod_pos_bound x 64). lia.
Qed.

Ltac div_facts r :=
  pose proof (Z.div_mod r 64); pose proof (Z.mod_pos_bound r 64);
  pose proof (Z.div_mod (r / 64) 64); pose proof (Z.mod_pos_bound (r / 64) 64);
  pose proof (Z.div_mod (r / 64 / 64) 64); pose proof (Z.mod_pos_bound (r / 64 / 64) 64).

Lemma DecodeRune_EncodeRune (r : Z) (s : string) :
  valid_rune r = true ->
  DecodeRune (EncodeRune r +:+ s) = Some (r, String.length (EncodeRune r), s).
Proof.
  intros Hv. unfold EncodeRune. rewrite Hv.
  unfold valid_rune in Hv. rewrite Z.div_1_r.
  replace (r / 4096) with (r / 64 / 64) by (rewrite Z.div_div by lia; done).
  replace (r / 262144) with (r / 64 / 64 / 64) by (rewrite !Z.div_div by lia; done).
  div_facts r. repeat case_match; bool_to_prop.
  - unfold single, DecodeRune. rewrite append_cons, ord_chr by lia.
    by replace (r <? 0x80) with true by lia.
  - unfold single, DecodeRune. rewrite !append_cons, ord_chr by lia.
    replace (0xC0 + r / 64 <? 0x80) with false by lia.
    replace ((0xC2 <=? 0xC0 + r / 64) && (0xC0 + r / 64 <=? 0xDF)) with true by lia.
    rewrite cont_tail.
    unfold byte2. rewrite ord_tail. cbn. repeat f_equal. lia.
  - unfold single, DecodeRune. rewrite !append_cons, ord_chr by lia.
    replace (0xE0 + r / 64 / 64 <? 0x80) with false by lia.
    replace ((0xC2 <=? 0xE0 + r / 64 / 64) && (0xE0 + r / 64 / 64 <=? 0xDF)) with false by lia.
    replace ((0xE0 <=? 0xE0 + r / 64 / 64) && (0xE0 + r / 64 / 64 <=? 0xEF)) with true by lia.
    rewrite cont_tail, andb_true_r.
    replace (in_range _ _ _) with true.
    + unfold byte3. rewrite !ord_tail. cbn. repeat f_equal. lia.
    + unfold in_range, accept_lo, accept_hi. rewrite ord_tail. repeat case_match; lia.
  - unfold single, DecodeRune. rewrite !append_cons, ord_chr by lia.
    set (b := 0xF0 + r / 64 / 64 / 64) in *.
    replace (b <? 0x80) with false by lia.
    replace ((0xC2 <=? b) && (b <=? 0xDF)) with false by lia.
    replace ((0xE0 <=? b) && (b <=? 0xEF)) with false by lia.
    replace ((0xF0 <=? b) && (b <=? 0xF4)) with true by lia.
    rewrite !cont_tail, !andb_true_r.
    replace (in_range _ _ _) with true.
    + unfold byte4. rewrite !ord_tail. subst b. cbn. repeat f_equal. lia.
    + unfold in_range, accept_lo, accept_hi. rewrite ord_tail. subst b. repeat case_match; lia.
Qed.

(** ** strings.TrimSpace *)

(** [unicode.IsSpace]: the White_Space code points. *)
Definition IsSpace (r : Z) : bool :=
  ((9 <=? r) && (r <=? 13)) || (r =? 32) || (r =? 0x85) || (r =? 0xA0) || (r =? 0x1680)
  || ((0x2000 <=? r) && (r <=? 0x200A)) || (r =? 0x2028) || (r =? 0x2029) || (r =? 0x202F)
  || (r =? 0x205F) || (r =? 0x3000).

Fixpoint trim_left (fuel : nat) (s : string) : string :=
  match fuel with
  | O => s
  | S fuel =>
      match DecodeRune s with
      | Some (r, _, rest) => if IsSpace r then trim_left fuel rest else s
      | None => s
      end
  end.

(** The last rune of a string given by its reversed bytes, and the reversed
    bytes before it.  A white-space rune is never encoded from an invalid
    sequence, so it is enough to try the three widths from the right. *)
Definition last_space (rs : string) : option string :=
  match rs with
  | EmptyString => None
  | String c0 r1 =>
      if (ord c0 <? 0x80) && IsSpace (ord c0) then Some r1
      else match r1 with
      | EmptyString => None
      | String c1 r2 =>
          match DecodeRune (String c1 (single c0)) with
          | Some (r, 2%nat, _) => if IsSpace r then Some r2 else None
          | _ =>
              match r2 with
              | EmptyString => None
              | String c2 r3 =>
                  match DecodeRune (String c2 (String c1 (single c0))) with
                  | Some (r, 3%nat, _) => if IsSpace r then Some r3 else None
                  | _ => None
                  end
              end
          end
      end
  end.

Fixpoint trim_right_rev (fuel : nat) (rs : string) : string :=
  match fuel with
  | O => rs
  | S fuel =>
      match last_space rs with
      | Some rest => trim_right_rev fuel rest
      | None => rs
      end
  end.

Definition TrimSpace (s : string) : string :=
  let l := trim_left (String.length s) s in
  String.rev (trim_right_rev (String.length l) (String.rev l)).

(** ** strings.ToLower *)

(** The Unicode database above ASCII, as [unicode.ToLower] and
    [strconv.IsPrint] consult it. *)
Class UnicodeTables := {
  unicode_ToLower : Z -> Z;
  unicode_IsPrint : Z -> bool
}.

(** A database for concrete runs: no case mapping above ASCII, Latin-1 and
    beyond printable.  Nothing depends on it but examples. *)
Definition plain_tables : UnicodeTables := {|
  unicode_ToLower r := r;
  unicode_IsPrint r := 161 <=? r
|}.

Definition lower_byte (c : ascii) : ascii :=
  if in_range 65 90 c then chr (ord c + 32) else c.

Definition lower_rune `{UnicodeTables} (r : Z) : Z :=
  if r <? 0x80 then (if (65 <=? r) && (r <=? 90) then r + 32 else r)
  else unicode_ToLower r.

Fixpoint string_map (f : ascii -> ascii) (s : string) : string :=
  match s with
  | EmptyString => EmptyString
  | String c s => String (f c) (string_map f s)
  end.

Fixpoint is_ascii (s : string) : bool :=
  match s with
  | EmptyString => true
  | String c s => (ord c <? 0x80) && is_ascii s
  end.

Definition ToLower `{UnicodeTables} (s : string) : string :=
  if is_ascii s then string_map lower_byte s
  else encode_runes (map lower_rune (runes s)).

(** ** [utf8.ValidString] *)

Fixpoint valid_go (fuel : nat) (s : string) : bool :=
  match fuel with
  | O => true
  | S fuel =>
      match DecodeRune s with
      | Some (r, w, rest) => negb ((r =? RuneError) && (w =? 1)%nat) && valid_go fuel rest
      | None => true
      end
  end.
Definition ValidString (s : string) : bool := valid_go (String.length s) s.

Lemma ValidString_ascii (s : string) : is_ascii s = true -> ValidString s = true.
Proof.
  unfold ValidString. induction s as [|c s IH]; [done|]. cbn [is_ascii String.length valid_go].
  rewrite andb_true_iff. intros [Hc Hs]. cbn [DecodeRune]. rewrite Hc. apply Z.ltb_lt in Hc.
  replace (ord c =? RuneError) with false by (unfold RuneError; lia). cbn. by apply IH.
Qed.

(** ** strconv.Quote, the [%q] verb *)

Definition hex2 (z : Z) : string := String (hexdigit (z / 16)) (single (hexdigit (z mod 16))).

Definition escape_rune `{UnicodeTables} (r : Z) : string :=
  let bs (s : string) := String backslash s in
  if (r =? 34) || (r =? 92) then bs (single (chr r))
  else if (if r <? 0x80 then (32 <=? r) && (r <=? 126) else unicode_IsPrint r) then EncodeRune r
  else if r =? 7 then bs "a" else if r =? 8 then bs "b" else if r =? 12 then bs "f"
  else if r =? 10 then bs "n" else if r =? 13 then bs "r" else if r =? 9 then bs "t"
  else if r =? 11 then bs "v"
  else if (r <? 32) || (r =? 127) then bs ("x" +:+ hex2 r)
  else if r <? 0x10000 then bs ("u" +:+ hex2 (r / 256) +:+ hex2 (r mod 256))
  else bs ("U" +:+ hex2 (r / 16777216) +:+ hex2 ((r / 65536) mod 256)
           +:+ hex2 ((r / 256) mod 256) +:+ hex2 (r mod 256)).

Fixpoint quote_go `{UnicodeTables} (fuel : nat) (s : string) : string :=
  match fuel with
  | O => EmptyString
  | S fuel =>
      match s, DecodeRune s with
      | String c _, Some (r, w, rest) =>
          (if (r =? RuneError) && (w =? 1)%nat
           then String backslash ("x" +:+ hex2 (ord c)) else escape_rune r)
          +:+ quote_go fuel rest
      | _, _ => EmptyString
      end
  end.

Definition Quote `{UnicodeTables} (s : string) : string :=
  String dquote (quote_go (String.length s) s +:+ single dquote).

(** ** net/textproto.CanonicalMIMEHeaderKey *)

Definition token_byte (c : ascii) : bool :=
  in_range 48 57 c || in_range 65 90 c || in_range 97 122 c
  || existsb (Z.eqb (ord c)) [33; 35; 36; 37; 38; 39; 42; 43; 45; 46; 94; 95; 96; 124; 126].

Fixpoint all_bytes (f : ascii -> bool) (s : string) : bool :=
  match s with EmptyString => true | String c s => f c && all_bytes f s end.

Fixpoint canonical_go (upper : bool) (s : string) : string :=
  match s with
  | EmptyString => EmptyString
  | String c s =>
      let c' := if upper then (if in_range 97 122 c then chr (ord c - 32) else c)
                else lower_byte c in
      String c' (canonical_go (bool_decide (c' = "-"%char)) s)
  end.

Definition CanonicalHeaderKey (s : string) : string :=
  if all_bytes token_byte s then canonical_go true s else s.

Example canonical_key_ex : CanonicalHeaderKey "x-webhook-SIGNATURE" = "X-Webhook-Signature".
Proof. reflexivity. Qed.

Example trim_ex : TrimSpace (" a b" +:+ EncodeRune 0x2003 +:+ EncodeRune 0xA0 +:+ single (chr 10)) = "a b".
Proof. vm_compute. reflexivity. Qed.

(** ** Lemmas on lower-casing *)

Definition is_upper (c : ascii) : Prop := in_range 65 90 c = true.

Lemma lower_byte_ord (c : ascii) :
  ord (lower_byte c) = if in_range 65 90 c then ord c + 32 else ord c.
Proof.
  unfold lower_byte. destruct (in_range 65 90 c) eqn:E; [|done].
  unfold in_range in E. bool_to_prop. apply ord_chr. lia.
Qed.

Lemma lower_byte_not_upper (c : ascii) : ~ is_upper (lower_byte c).
Proof.
  unfold is_upper, in_range. rewrite lower_byte_ord.
  destruct (in_range 65 90 c) eqn:E; unfold in_range in *; lia.
Qed.

Lemma lower_byte_idemp (c : ascii) : lower_byte (lower_byte c) = lower_byte c.
Proof.
  pose proof (lower_byte_not_upper c) as H. unfold is_upper in H.
  unfold lower_byte at 1. by destruct (in_range 65 90 (lower_byte c)).
Qed.

Lemma string_map_lower_no_upper (s : string) :
  sForall (fun c => ~ is_upper c) (string_map lower_byte s).
Proof. induction s as [|c s IH]; [done|]. split; [apply lower_byte_not_upper|done]. Qed.

Lemma length_string_map (f : ascii -> ascii) (s : string) :
  String.length (string_map f s) = String.length s.
Proof. induction s; cbn; congruence. Qed.
