(* ===== verification/GoTime.v ===== *)
(** * Go's [time] package, as far as webhookd uses it

    [time.Duration] is an [int64] of nanoseconds.  [time.Time] is Go's wall
    clock pair: seconds since year 1 as an [int64], and nanoseconds.  [Sub]
    is the library's algorithm with its wrap-around and saturation;
    [Sub_clamp] shows it computes the exact difference clamped to the range
    of a [Duration]. *)

From Stdlib Require Import Ascii.
From S2P Require Import Prelude GoStrings.

(** ** time.Duration *)

Definition Nanosecond : Z := 1.
Definition Microsecond : Z := 1000.
Definition Millisecond : Z := 1000000.
Definition Second : Z := 1000000000.
Definition Minute : Z := 60 * Second.
Definition minDuration : Z := minInt64.
Definition maxDuration : Z := maxInt64.

(** Exactly [n] decimal digits of [z], most significant first. *)
Fixpoint digits_fixed (n : nat) (z : Z) : string :=
  match n with
  | O => EmptyString
  | S n => digits_fixed n (z / 10) +:+ single (chr (48 + z mod 10))
  end.

(** Drop trailing zeros. *)
Fixpoint strip_zeros (s : string) : string :=
  match s with
  | EmptyString => EmptyString
  | String c s =>
      match strip_zeros s with
      | EmptyString => if bool_decide (c = "0"%char) then EmptyString else single c
      | t => String c t
      end
  end.

(** [fmtFrac]: the fraction [u / 10^prec], without trailing zeros. *)
Definition fmtFrac (u : Z) (prec : nat) : string :=
  match strip_zeros (digits_fixed prec u) with
  | EmptyString => EmptyString
  | t => String "." t
  end.

(** [Duration.String], what [%s] prints. *)
Definition Duration_String (d : Z) : string :=
  let u := Z.abs d in
  let sign := if d <? 0 then "-" else "" in
  let micro := String (chr 0xC2) (String (chr 0xB5) "s") in
  let body :=
    if u =? 0 then "0s"
    else if u <? Microsecond then Itoa u +:+ "ns"
    else if u <? Millisecond then Itoa (u / 1000) +:+ fmtFrac u 3 +:+ micro
    else if u <? Second then Itoa (u / 1000000) +:+ fmtFrac u 6 +:+ "ms"
    else
      let secs := u / Second in
      let s := Itoa (secs mod 60) +:+ fmtFrac u 9 +:+ "s" in
      let mins := secs / 60 in
      if mins =? 0 then s
      else
        let m := Itoa (mins mod 60) +:+ "m" +:+ s in
        let hours := mins / 60 in
        if hours =? 0 then m else Itoa hours +:+ "h" +:+ m in
  sign +:+ body.

Example duration_string_ex :
  map Duration_String [20 * Second; 5 * Minute; 1500 * Millisecond; 3661 * Second; 0]
  = ["20s"; "5m0s"; "1.5s"; "1h1m1s"; "0s"].
Proof. vm_compute. reflexivity. Qed.

(** ** time.Time *)

(** [t_sec]: seconds since January 1, year 1 (Go's internal epoch);
    [t_nsec]: nanoseconds within the second. *)
Record Time := mkTime { t_sec : Z; t_nsec : Z }.

#[export] Instance Time_eq_dec : EqDecision Time.
Proof. solve_decision. Defined.

Definition wf_time (t : Time) : Prop := int64 (t_sec t) /\ 0 <= t_nsec t < Second.

(** Seconds from the internal epoch to the Unix epoch. *)
Definition unixToInternal : Z := 62135596800.

(** [time.Unix(sec, 0)]: the addition is [int64] arithmetic. *)
Definition Unix (sec : Z) : Time := mkTime (wrap64 (sec + unixToInternal)) 0.

Definition Time_Equal (t u : Time) : bool := (t_sec t =? t_sec u) && (t_nsec t =? t_nsec u).

Definition Time_Before (t u : Time) : bool :=
  (t_sec t <? t_sec u) || ((t_sec t =? t_sec u) && (t_nsec t <? t_nsec u)).

(** [addSec]: seconds saturate. *)
Definition addSec (s d : Z) : Z :=
  let sum := wrap64 (s + d) in
  if Bool.eqb (s <? sum) (0 <? d) then sum
  else if 0 <? d then maxInt64 else - maxInt64.

(** [t.Add(d)]: Go's division truncates towards zero. *)
Definition Time_Add (t : Time) (d : Z) : Time :=
  let dsec := Z.quot d Second in
  let nsec := t_nsec t + Z.rem d Second in
  if Second <=? nsec then mkTime (addSec (t_sec t) (dsec + 1)) (nsec - Second)
  else if nsec <? 0 then mkTime (addSec (t_sec t) (dsec - 1)) (nsec + Second)
  else mkTime (addSec (t_sec t) dsec) nsec.

(** [t.Sub(u)] for times without a common monotonic reading. *)
Definition Time_Sub (t u : Time) : Z :=
  let d := wrap64 (wrap64 (wrap64 (t_sec t - t_sec u) * Second) + (t_nsec t - t_nsec u)) in
  if Time_Equal (Time_Add u d) t then d
  else if Time_Before t u then minDuration
  else maxDuration.

(** The exact difference, in nanoseconds, as an unbounded integer. *)
Definition diff_ns (t u : Time) : Z :=
  (t_sec t - t_sec u) * Second + (t_nsec t - t_nsec u).

Definition clamp64 (z : Z) : Z := Z.max minInt64 (Z.min maxInt64 z).

(** ** [Sub] is the clamped exact difference *)

Lemma wrap64_eq (a b k : Z) : a = b + k * 2 ^ 64 -> wrap64 a = wrap64 b.
Proof.
  intros ->. unfold wrap64. f_equal.
  replace (b + k * 2 ^ 64 + 2 ^ 63) with (b + 2 ^ 63 + k * 2 ^ 64) by lia.
  apply Z.mod_add. lia.
Qed.

Lemma Sub_raw (t u : Time) :
  wrap64 (wrap64 (wrap64 (t_sec t - t_sec u) * Second) + (t_nsec t - t_nsec u))
  = wrap64 (diff_ns t u).
Proof.
  destruct (wrap64_cong (t_sec t - t_sec u)) as [k Hk]. rewrite Hk.
  destruct (wrap64_cong ((t_sec t - t_sec u + k * 2 ^ 64) * Second)) as [j Hj]. rewrite Hj.
  apply (wrap64_eq _ _ (k * Second + j)). unfold diff_ns. lia.
Qed.

(** Seconds added without overflow. *)
Lemma addSec_exact (s d : Z) : int64 s -> int64 (s + d) -> addSec s d = s + d.
Proof.
  intros Hs Hd. unfold addSec. rewrite wrap64_id by done.
  case_match eqn:E; [done|]. apply Bool.eqb_false_iff in E. exfalso. apply E. lia.
Qed.

(** Whatever happens, the sum is exact or saturated away from the operands. *)
Lemma addSec_cases (s d : Z) :
  int64 s -> Z.abs d < 2 ^ 63 ->
  addSec s d = s + d \/ (maxInt64 < s + d /\ addSec s d = maxInt64)
  \/ (s + d < - maxInt64 /\ (addSec s d = - maxInt64 \/ addSec s d = s + d)).
Proof.
  intros Hs Hd. destruct (decide (int64 (s + d))) as [H|H].
  - left. by apply addSec_exact.
  - right. unfold addSec. destruct (wrap64_cong (s + d)) as [k Hk].
    pose proof (wrap64_int64 (s + d)). unfold64.
    destruct (Z.leb_spec 0 d).
    + left. split; [lia|]. destruct (Z.ltb_spec 0 d); [|lia].
      case_match eqn:E; [apply Bool.eqb_true_iff in E; lia|done].
    + right. split; [lia|]. left. destruct (Z.ltb_spec 0 d); [lia|].
      case_match eqn:E; [|done]. apply Bool.eqb_true_iff in E. lia.
Qed.

Lemma quot_rem_Second (d : Z) :
  d = Second * Z.quot d Second + Z.rem d Second /\ - Second < Z.rem d Second < Second.
Proof.
  unfold Second. split; [apply Z.quot_rem'|].
  pose proof (Z.rem_bound_abs d 1000000000). lia.
Qed.

(** When [Add] gives [t] back, [d] is the exact difference. *)
Lemma Add_Equal_inv (t u : Time) :
  wf_time t -> wf_time u ->
  Time_Equal (Time_Add u (wrap64 (diff_ns t u))) t = true -> int64 (diff_ns t u).
Proof.
  intros [Ht Htn] [Hu Hun] E.
  pose proof (wrap64_int64 (diff_ns t u)) as Hw.
  destruct (wrap64_cong (diff_ns t u)) as [k Hk].
  destruct (decide (int64 (diff_ns t u))) as [|Hn]; [done|exfalso].
  set (d := wrap64 (diff_ns t u)) in *.
  destruct (quot_rem_Second d) as [Hd Hr].
  assert (Z.abs (Z.quot d Second) < 2 ^ 62) as Hq by (unfold64; unfold Second in *; lia).
  unfold Time_Equal, Time_Add in E. repeat case_match; cbn in E; bool_to_prop;
    (match goal with _ : addSec ?s ?x = _ |- _ =>
       destruct (addSec_cases s x) as [?|[[??]|[? [?|?]]]] end);
    unfold diff_ns in *; unfold64; unfold Second in *; lia.
Qed.

Lemma Add_exact (t u : Time) :
  wf_time t -> wf_time u -> int64 (diff_ns t u) -> Time_Equal (Time_Add u (diff_ns t u)) t = true.
Proof.
  intros [Ht Htn] [Hu Hun] Hd. set (d := diff_ns t u) in *.
  destruct (quot_rem_Second d) as [Hq Hr].
  unfold Time_Equal, Time_Add.
  assert (forall x, u.(t_sec) + x = t.(t_sec) -> addSec (t_sec u) x = t_sec t) as Hx.
  { intros x Heq. rewrite addSec_exact; [done|done|by rewrite Heq]. }
  repeat case_match; cbn; bool_to_prop;
    (rewrite Hx; [|subst d; unfold diff_ns, Second in *; lia]);
    apply andb_true_iff; split; apply Z.eqb_eq; subst d; unfold diff_ns, Second in *; lia.
Qed.

(** [Time.Sub] returns the exact difference clamped to the [Duration] range. *)
Lemma Sub_clamp (t u : Time) :
  wf_time t -> wf_time u -> Time_Sub t u = clamp64 (diff_ns t u).
Proof.
  intros Ht Hu. unfold Time_Sub. rewrite Sub_raw. unfold clamp64.
  destruct (decide (int64 (diff_ns t u))) as [Hd|Hd].
  - rewrite wrap64_id by done. rewrite Add_exact by done. unfold64. lia.
  - destruct (Time_Equal _ _) eqn:E; [by apply Add_Equal_inv in E|].
    destruct Ht as [??], Hu as [??].
    unfold Time_Before, minDuration, maxDuration, diff_ns in *. unfold64.
    case_match eqn:B; unfold Second in *; lia.
Qed.

(** ** Formatting: [t.UTC().Format(time.RFC3339)] *)

(** Days since March 1, year 0 to a proleptic Gregorian date. *)
Definition civil (days : Z) : Z * Z * Z :=
  let era := days / 146097 in
  let doe := days mod 146097 in
  let yoe := (doe - doe / 1460 + doe / 36524 - doe / 146096) / 365 in
  let doy := doe - (365 * yoe + yoe / 4 - yoe / 100) in
  let mp := (5 * doy + 2) / 153 in
  let day := doy - (153 * mp + 2) / 5 + 1 in
  let month := if mp <? 10 then mp + 3 else mp - 9 in
  let year := yoe + era * 400 + (if month <=? 2 then 1 else 0) in
  (year, month, day).

Definition pad4 (z : Z) : string :=
  if z <? 10000 then digits_fixed 4 z else Itoa z.

Definition Format_RFC3339 (t : Time) : string :=
  let days := t_sec t / 86400 in
  let secs := t_sec t mod 86400 in
  let '(y, m, d) := civil (days + 306) in
  pad4 y +:+ "-" +:+ digits_fixed 2 m +:+ "-" +:+ digits_fixed 2 d +:+ "T"
  +:+ digits_fixed 2 (secs / 3600) +:+ ":" +:+ digits_fixed 2 ((secs / 60) mod 60)
  +:+ ":" +:+ digits_fixed 2 (secs mod 60) +:+ "Z".

Example rfc3339_ex :
  map (fun s => Format_RFC3339 (Unix s)) [0; 1700000000; 951827696; 1767225599]
  = ["1970-01-01T00:00:00Z"; "2023-11-14T22:13:20Z"; "2000-02-29T12:34:56Z"; "2025-12-31T23:59:59Z"].
Proof. vm_compute. reflexivity. Qed.
