(* ===== verification/GoFloat.v ===== *)
(** * Go's [float64], [strconv.ParseFloat] and [time.ParseDuration]

    IEEE binary64 arithmetic is the Standard Library's [SpecFloat] at
    precision 53 and maximal exponent 1024.  [ParseFloat] follows the scanner
    of strconv (decimal and hexadecimal, underscores, the special values) and
    rounds the exact value once, to nearest even, which is what its fast and
    slow paths both compute.  [ParseDuration] follows the loop of package
    time, its float64 fraction included. *)

From Stdlib Require Import Ascii SpecFloat.
From S2P Require Import Prelude GoStrings Unicode GoTime.

(** ** binary64 *)

Definition prec64 : Z := 53.
Definition emax64 : Z := 1024.

Abbreviation float64 := spec_float.

Definition f64_of_Z (z : Z) : float64 := binary_normalize prec64 emax64 z 0 false.
Definition f64_mul : float64 -> float64 -> float64 := SFmul prec64 emax64.
Definition f64_div : float64 -> float64 -> float64 := SFdiv prec64 emax64.

(** [m * 2^e] rounded. *)
Definition f64_of_bin (neg : bool) (m : Z) (e : Z) : float64 :=
  match m with
  | Zpos p => binary_round prec64 emax64 neg p e
  | _ => S754_zero neg
  end.

(** [m * 10^e] rounded: exactly an integer, or one correctly rounded division. *)
Definition f64_of_dec (neg : bool) (m : Z) (e : Z) : float64 :=
  match m with
  | Zpos p =>
      if 0 <=? e then binary_round prec64 emax64 neg (Z.to_pos (m * 10 ^ e)) 0
      else
        let '(q, ez, l) := SFdiv_core_binary prec64 emax64 m 0 (10 ^ (- e)) 0 in
        binary_round_aux prec64 emax64 neg q ez l
  | _ => S754_zero neg
  end.

(** Go's comparisons: false as soon as an operand is NaN. *)
Definition f64_lt (x y : float64) : bool := SFltb x y.
Definition f64_le (x y : float64) : bool := SFleb x y.

(** [uint64(x)] of a non-negative finite value below 2^64. *)
Definition f64_to_uint64 (x : float64) : Z :=
  match x with
  | S754_finite false m e => Z.shiftl (Zpos m) e
  | _ => 0
  end.

(** ** strconv.ParseFloat *)

Definition lower_ord (c : ascii) : Z := Z.lor (ord c) 32.

Definition digit_of (hex : bool) (c : ascii) : option Z :=
  if in_range 48 57 c then Some (ord c - 48)
  else if hex && ((97 <=? lower_ord c) && (lower_ord c <=? 102)) then Some (lower_ord c - 87)
  else None.

(** The state of the digit loop: the mantissa, the digits counted, the place
    of the point, and the three flags. *)
Record fscan := mkFscan {
  fs_mant : Z; fs_nd : Z; fs_dp : Z; fs_dot : bool; fs_digits : bool; fs_under : bool
}.

Fixpoint scan_digits (hex : bool) (st : fscan) (s : string) : fscan * string :=
  match s with
  | EmptyString => (st, s)
  | String c r =>
      if bool_decide (c = "_"%char) then
        scan_digits hex (mkFscan (fs_mant st) (fs_nd st) (fs_dp st) (fs_dot st) (fs_digits st) true) r
      else if bool_decide (c = "."%char) then
        if fs_dot st then (st, s)
        else scan_digits hex (mkFscan (fs_mant st) (fs_nd st) (fs_nd st) true (fs_digits st) (fs_under st)) r
      else
        match digit_of hex c with
        | None => (st, s)
        | Some v =>
            if (v =? 0) && (fs_nd st =? 0) then
              scan_digits hex (mkFscan 0 0 (fs_dp st - 1) (fs_dot st) true (fs_under st)) r
            else
              scan_digits hex (mkFscan (fs_mant st * (if hex then 16 else 10) + v) (fs_nd st + 1)
                                 (fs_dp st) (fs_dot st) true (fs_under st)) r
        end
  end.

Fixpoint scan_exp_digits (e : Z) (under : bool) (s : string) : Z * bool * string :=
  match s with
  | EmptyString => (e, under, s)
  | String c r =>
      if bool_decide (c = "_"%char) then scan_exp_digits e true r
      else if in_range 48 57 c then
        scan_exp_digits (if e <? 10000 then e * 10 + (ord c - 48) else e) under r
      else (e, under, s)
  end.

(** [underscoreOK] on the bytes after the sign: [saw] is the kind of the last
    byte: 0 start, 1 digit, 2 underscore, 3 other. *)
Fixpoint underscore_go (hex : bool) (saw : Z) (s : string) : bool :=
  match s with
  | EmptyString => negb (saw =? 2)
  | String c r =>
      match digit_of hex c with
      | Some _ => underscore_go hex 1 r
      | None =>
          if bool_decide (c = "_"%char) then (saw =? 1) && underscore_go hex 2 r
          else negb (saw =? 2) && underscore_go hex 3 r
      end
  end.

Definition underscoreOK (s : string) : bool :=
  match s with
  | String z (String x r) =>
      if bool_decide (z = "0"%char)
         && ((lower_ord x =? 98) || (lower_ord x =? 111) || (lower_ord x =? 120))
      then underscore_go (lower_ord x =? 120) 1 r
      else underscore_go false 0 s
  | _ => underscore_go false 0 s
  end.

Definition float_error (e : error) : error := Errorf ("strconv.ParseFloat: parsing: " +:+ ErrorText e) [e].

Definition cut_sign (s : string) : bool * string :=
  match s with
  | String c r => if bool_decide (c = "+"%char) then (false, r)
                  else if bool_decide (c = "-"%char) then (true, r) else (false, s)
  | EmptyString => (false, s)
  end.

(** The special values, letters in any case. *)
Definition special (s : string) : option float64 :=
  let '(neg, r) := cut_sign s in
  let l := string_map lower_byte r in
  if String.eqb l "inf" || String.eqb l "infinity" then Some (S754_infinity neg)
  else if String.eqb (string_map lower_byte s) "nan" then Some S754_nan
  else None.

Definition is_infinite (x : float64) : bool := match x with S754_infinity _ => true | _ => false end.

Definition ParseFloat (s : string) : result float64 :=
  match special s with
  | Some x => Ok x
  | None =>
      let '(neg, s1) := cut_sign s in
      let '(hex, s2) :=
        match s1 with
        | String z (String x (String _ _ as r)) =>
            if bool_decide (z = "0"%char) && (lower_ord x =? 120) then (true, r) else (false, s1)
        | _ => (false, s1)
        end in
      let '(st, s3) := scan_digits hex (mkFscan 0 0 0 false false false) s2 in
      if negb (fs_digits st) then Err (float_error ErrSyntax)
      else
        let dp := if fs_dot st then fs_dp st else fs_nd st in
        let dp := if hex then dp * 4 else dp in
        let nd := if hex then fs_nd st * 4 else fs_nd st in
        let exp :=
          match s3 with
          | String c r =>
              if lower_ord c =? (if hex then 112 else 101) then
                let '(eneg, r1) := cut_sign r in
                match r1 with
                | String d _ =>
                    if in_range 48 57 d then
                      let '(e, under, rest) := scan_exp_digits 0 (fs_under st) r1 in
                      Some (if eneg then - e else e, under, rest)
                    else None
                | EmptyString => None
                end
              else if hex then None else Some (0, fs_under st, s3)
          | EmptyString => if hex then None else Some (0, fs_under st, s3)
          end in
        match exp with
        | Some (e, under, EmptyString) =>
            if under && negb (underscoreOK s1) then Err (float_error ErrSyntax)
            else
              let x := if hex then f64_of_bin neg (fs_mant st) (dp + e - nd)
                       else f64_of_dec neg (fs_mant st) (dp + e - nd) in
              if is_infinite x then Err (float_error ErrRange) else Ok x
        | _ => Err (float_error ErrSyntax)
        end
  end.

(** ** time.ParseDuration *)

(** [leadingInt]: [None] on overflow of 2^63. *)
Fixpoint leadingInt (x : Z) (s : string) : option (Z * string) :=
  match s with
  | String c r =>
      if in_range 48 57 c then
        if 2 ^ 63 / 10 <? x then None
        else
          let x := x * 10 + (ord c - 48) in
          if 2 ^ 63 <? x then None else leadingInt x r
      else Some (x, s)
  | EmptyString => Some (x, s)
  end.

(** [leadingFraction]: after an overflow the digits are skipped. *)
Fixpoint leadingFraction (x scale : Z) (overflow : bool) (s : string) : Z * Z * string :=
  match s with
  | String c r =>
      if in_range 48 57 c then
        if overflow then leadingFraction x scale true r
        else if (2 ^ 63 - 1) / 10 <? x then leadingFraction x scale true r
        else
          let y := x * 10 + (ord c - 48) in
          if 2 ^ 63 <? y then leadingFraction x scale true r
          else leadingFraction y (scale * 10) false r
      else (x, scale, s)
  | EmptyString => (x, scale, s)
  end.

(** The unit: the bytes up to a digit or a point. *)
Fixpoint unit_bytes (s : string) : string * string :=
  match s with
  | String c r =>
      if bool_decide (c = "."%char) || in_range 48 57 c then (EmptyString, s)
      else let '(u, rest) := unit_bytes r in (String c u, rest)
  | EmptyString => (EmptyString, s)
  end.

(** [unitMap]; the micro sign is U+00B5 or U+03BC. *)
Definition unitMap (u : string) : option Z :=
  if String.eqb u "ns" then Some 1
  else if String.eqb u "us" || String.eqb u (EncodeRune 0xB5 +:+ "s") || String.eqb u (EncodeRune 0x3BC +:+ "s")
  then Some 1000
  else if String.eqb u "ms" then Some 1000000
  else if String.eqb u "s" then Some Second
  else if String.eqb u "m" then Some Minute
  else if String.eqb u "h" then Some (60 * Minute)
  else None.

Definition duration_error : error := Opaque "time: invalid duration".

(** [10^k] as the float64 the loop of [leadingFraction] multiplies up. *)
Definition f64_scale (scale : Z) : float64 := f64_of_Z scale.

(** One term: its value in nanoseconds and the rest of the input. *)
Definition duration_term (s : string) : option (Z * string) :=
  match s with
  | String c _ =>
      if bool_decide (c = "."%char) || in_range 48 57 c then
        '(v, s1) ← leadingInt 0 s;
        let pre := negb (String.length s =? String.length s1)%nat in
        let '(f, scale, s2, post) :=
          match s1 with
          | String p r =>
              if bool_decide (p = "."%char) then
                let '(f, scale, rest) := leadingFraction 0 1 false r in
                (f, scale, rest, negb (String.length r =? String.length rest)%nat)
              else (0, 1, s1, false)
          | EmptyString => (0, 1, s1, false)
          end in
        if negb pre && negb post then None
        else
          let '(u, s3) := unit_bytes s2 in
          if String.eqb u "" then None
          else
            unit_ ← unitMap u;
            if 2 ^ 63 / unit_ <? v then None
            else
              let v := v * unit_ in
              let v := if 0 <? f
                       then v + f64_to_uint64 (f64_mul (f64_of_Z f) (f64_div (f64_of_Z unit_) (f64_scale scale)))
                       else v in
              if 2 ^ 63 <? v then None else Some (v, s3)
      else None
  | EmptyString => None
  end.

(** The loop; every term consumes input, so the input's length is enough fuel. *)
Fixpoint duration_terms (fuel : nat) (d : Z) (s : string) : option Z :=
  match s with
  | EmptyString => Some d
  | _ =>
      match fuel with
      | O => None
      | S fuel =>
          '(v, rest) ← duration_term s;
          if 2 ^ 63 <? d + v then None else duration_terms fuel (d + v) rest
      end
  end.

Definition ParseDuration (s0 : string) : result Z :=
  let '(neg, s) := cut_sign s0 in
  if String.eqb s "0" then Ok 0
  else if String.eqb s "" then Err duration_error
  else
    match duration_terms (String.length s) 0 s with
    | None => Err duration_error
    | Some d =>
        if neg then Ok (wrap64 (- d))
        else if 2 ^ 63 - 1 <? d then Err duration_error
        else Ok d
    end.

(** ** Tests *)

Example ParseFloat_tests :
  map (fun s => match ParseFloat s with
                | Ok x => Some (x, f64_lt x (f64_of_Z 0), f64_lt (f64_of_Z 1) x)
                | Err _ => None end)
      ["0.5"; "1e2"; "-3"; ".25"; "1_0.5"; "0x1p-2"; "1__0"; "1e"; "nan"; "1e400"]
  = [Some (S754_finite false 4503599627370496 (-53), false, false);
     Some (S754_finite false 7036874417766400 (-46), false, true);
     Some (S754_finite true 6755399441055744 (-51), true, false);
     Some (S754_finite false 4503599627370496 (-54), false, false);
     Some (S754_finite false 5910974510923776 (-49), false, true);
     Some (S754_finite false 4503599627370496 (-54), false, false);
     None; None; Some (S754_nan, false, false); None].
Proof. vm_compute. reflexivity. Qed.

(** 0.1 is correctly rounded: 0x3FB999999999999A. *)
Example ParseFloat_tenth : ParseFloat "0.1" = Ok (S754_finite false 7205759403792794 (-56)).
Proof. vm_compute. reflexivity. Qed.

Example ParseDuration_tests :
  map (fun s => match ParseDuration s with Ok d => Some d | Err _ => None end)
      ["25s"; "1h15m30.918273645s"; "-1.5h"; "0"; "+0"; "1"; ""; "3000000h"; ".s"; "1.0us"; "-9223372036854775808ns"]
  = [Some (25 * Second); Some 4530918273645; Some (- 5400 * Second); Some 0; Some 0; None; None; None; None;
     Some 1000; Some (- 2 ^ 63)].
Proof. vm_compute. reflexivity. Qed.

