(* ===== verification/Sha256.v ===== *)
(** * HMAC-SHA256: [crypto/sha256] and [crypto/hmac]

    FIPS 180-4 and RFC 2104 on byte strings, executable, so that a signature
    can be computed inside the logic: the witnesses of the signature theorems
    use real MACs.  The examples at the end are the published test vectors. *)

From Stdlib Require Import Ascii.
From S2P Require Import Prelude GoStrings.

(** ** 32-bit words *)

Definition w32 (z : Z) : Z := Z.land z 0xffffffff.
Definition rotr (n x : Z) : Z := Z.lor (Z.shiftr x n) (w32 (Z.shiftl x (32 - n))).
Definition Ch (x y z : Z) : Z := Z.lxor (Z.land x y) (Z.land (Z.lxor x 0xffffffff) z).
Definition Maj (x y z : Z) : Z :=
  Z.lxor (Z.lxor (Z.land x y) (Z.land x z)) (Z.land y z).
Definition Sigma0 (x : Z) : Z := Z.lxor (Z.lxor (rotr 2 x) (rotr 13 x)) (rotr 22 x).
Definition Sigma1 (x : Z) : Z := Z.lxor (Z.lxor (rotr 6 x) (rotr 11 x)) (rotr 25 x).
Definition sigma0 (x : Z) : Z := Z.lxor (Z.lxor (rotr 7 x) (rotr 18 x)) (Z.shiftr x 3).
Definition sigma1 (x : Z) : Z := Z.lxor (Z.lxor (rotr 17 x) (rotr 19 x)) (Z.shiftr x 10).

(** The constants as FIPS 180-4 defines them: the first 32 bits of the
    fractional parts of the cube roots (round constants) and square roots
    (initial state) of the first primes. *)
Definition is_prime (n : Z) : bool :=
  forallb (fun d => negb (n mod Z.of_nat d =? 0)) (seq 2 (Z.to_nat n - 2)).

Definition primes : list Z := List.filter is_prime (map Z.of_nat (seq 2 310)).

(** The integer cube root of [n], of at most [bits] bits, from the top bit. *)
Fixpoint cbrt_go (bits : nat) (acc n : Z) : Z :=
  match bits with
  | O => acc
  | S bits =>
      let x := acc + 2 ^ Z.of_nat bits in
      cbrt_go bits (if x * x * x <=? n then x else acc) n
  end.

Definition K256 : list Z := Eval vm_compute in map (fun p => w32 (cbrt_go 36 0 (p * 2 ^ 96))) primes.

Record hstate := HState { hA : Z; hB : Z; hC : Z; hD : Z; hE : Z; hF : Z; hG : Z; hH : Z }.

Definition init256 : hstate := Eval vm_compute in
  match map (fun p => w32 (Z.sqrt (p * 2 ^ 64))) primes with
  | a :: b :: c :: d :: e :: f :: g :: h :: _ => HState a b c d e f g h
  | _ => HState 0 0 0 0 0 0 0 0
  end.

(** ** Compression *)

(** The last sixteen schedule words are kept, most recent first. *)
Definition next_w (ws : list Z) : Z :=
  match ws with
  | _ :: w2 :: _ :: _ :: _ :: _ :: w7 :: _ :: _ :: _ :: _ :: _ :: _ :: _ :: w15 :: w16 :: _ =>
      w32 (sigma1 w2 + w7 + sigma0 w15 + w16)
  | _ => 0
  end.

Fixpoint schedule (n : nat) (ws : list Z) : list Z :=
  match n with
  | O => []
  | S n => let w := next_w ws in w :: schedule n (w :: take 15 ws)
  end.

Definition round (st : hstate) (kw : Z * Z) : hstate :=
  let '(HState a b c d e f g h) := st in
  let t1 := h + Sigma1 e + Ch e f g + fst kw + snd kw in
  let t2 := Sigma0 a + Maj a b c in
  HState (w32 (t1 + t2)) a b c (w32 (d + t1)) e f g.

Definition compress (st : hstate) (block : list Z) : hstate :=
  let ws := block ++ schedule 48 (reverse block) in
  let '(HState a b c d e f g h) := foldl round st (zip K256 ws) in
  HState (w32 (hA st + a)) (w32 (hB st + b)) (w32 (hC st + c)) (w32 (hD st + d))
         (w32 (hE st + e)) (w32 (hF st + f)) (w32 (hG st + g)) (w32 (hH st + h)).

(** ** Padding and the message loop *)

Fixpoint words (s : string) : list Z :=
  match s with
  | String a (String b (String c (String d r))) =>
      (((ord a * 256 + ord b) * 256 + ord c) * 256 + ord d) :: words r
  | _ => []
  end.

Fixpoint zeros (n : nat) : string :=
  match n with O => EmptyString | S n => String (chr 0) (zeros n) end.

Fixpoint be_bytes (n : nat) (z : Z) : string :=
  match n with
  | O => EmptyString
  | S n => be_bytes n (z / 256) +:+ single (chr (z mod 256))
  end.

Definition pad (s : string) : string :=
  let len := Z.of_nat (String.length s) in
  s +:+ String (chr 0x80) (zeros (Z.to_nat ((55 - len) mod 64))) +:+ be_bytes 8 (8 * len).

(** [fuel] counts blocks; the number of words is more than enough. *)
Fixpoint blocks (fuel : nat) (st : hstate) (ws : list Z) : hstate :=
  match fuel, ws with
  | S fuel, _ :: _ => blocks fuel (compress st (take 16 ws)) (drop 16 ws)
  | _, _ => st
  end.

Definition digest (st : hstate) : string :=
  let w := be_bytes 4 in
  w (hA st) +:+ w (hB st) +:+ w (hC st) +:+ w (hD st)
  +:+ w (hE st) +:+ w (hF st) +:+ w (hG st) +:+ w (hH st).

(** [sha256.Sum256] *)
Definition sha256 (s : string) : string :=
  let ws := words (pad s) in digest (blocks (length ws) init256 ws).

(** ** HMAC *)

Fixpoint xor_bytes (k : Z) (s : string) : string :=
  match s with
  | EmptyString => EmptyString
  | String c s => String (chr (Z.lxor (ord c) k)) (xor_bytes k s)
  end.

Definition hmac_key (secret : string) : string :=
  let k := if (64 <? String.length secret)%nat then sha256 secret else secret in
  k +:+ zeros (64 - String.length k).

(** [mac := hmac.New(sha256.New, secret); mac.Write(msg); mac.Sum(nil)] *)
Definition hmac_sha256 (secret msg : string) : string :=
  let k := hmac_key secret in
  sha256 (xor_bytes 0x5c k +:+ sha256 (xor_bytes 0x36 k +:+ msg)).

(** A MAC is 32 bytes long. *)
Lemma length_be_bytes (n : nat) (z : Z) : String.length (be_bytes n z) = n.
Proof. revert z. induction n as [|n IH]; intros z; [done|]. cbn. rewrite length_append, IH. cbn. lia. Qed.

Lemma length_sha256 (s : string) : String.length (sha256 s) = 32%nat.
Proof. unfold sha256, digest. by rewrite !length_append, !length_be_bytes. Qed.

Lemma length_hmac_sha256 (k m : string) : String.length (hmac_sha256 k m) = 32%nat.
Proof. apply length_sha256. Qed.

(** FIPS 180-4: the digest of "abc". *)
Example sha256_abc :
  hex_EncodeToString (sha256 "abc")
  = "ba7816bf8f01cfea414140de5dae2223b00361a396177a9cb410ff61f20015ad".
Proof. vm_compute. reflexivity. Qed.

(** FIPS 180-4: the two-block message. *)
Example sha256_two_blocks :
  hex_EncodeToString (sha256 "abcdbcdecdefdefgefghfghighijhijkijkljklmklmnlmnomnopnopq")
  = "248d6a61d20638b8e5c026930c3e6039a33ce45964ff2167f6ecedd419db06c1".
Proof. vm_compute. reflexivity. Qed.

(** RFC 4231, test case 2. *)
Example hmac_rfc4231 :
  hex_EncodeToString (hmac_sha256 "Jefe" "what do ya want for nothing?")
  = "5bdcc146bf60754e6a042426089575c75a003f089d2739839dec58b964ec3843".
Proof. vm_compute. reflexivity. Qed.
