(* ===== verification/Signature.v ===== *)
(** * Signature and timestamp verification ([internal/webhook/signature.go])

    The trust boundary: [VerifyHMAC], [VerifyTimestamp], their composition
    [Verify] and the canonical message [v0:<timestamp>:<body>].  A Go [error]
    result is an [option error], [None] for [nil]. *)

From Stdlib Require Import Ascii.
From S2P Require Import Prelude GoStrings GoTime Sha256.

(** ** Sentinels and constants *)

Definition ErrMalformed : error := Sentinel "webhook.ErrMalformed" "malformed signature header".
Definition ErrInvalidSignature : error := Sentinel "webhook.ErrInvalidSignature" "invalid signature".
Definition ErrTimestampMissing : error := Sentinel "webhook.ErrTimestampMissing" "missing timestamp header".
Definition ErrTimestampMalformed : error :=
  Sentinel "webhook.ErrTimestampMalformed" "malformed timestamp header".
Definition ErrTimestampSkewed : error :=
  Sentinel "webhook.ErrTimestampSkewed" "timestamp outside accepted skew window".

Definition signaturePrefix : string := "sha256=".
Definition canonicalVersion : string := "v0".

(** ** The code *)

Definition VerifyHMAC (secret canonical received : string) : option error :=
  match CutPrefix received signaturePrefix with
  | None | Some EmptyString =>
      Some (Errorf (ErrorText ErrMalformed +:+ ": missing " +:+ single dquote
                    +:+ signaturePrefix +:+ single dquote +:+ " prefix") [ErrMalformed])
  | Some hexSig =>
      match hex_DecodeString hexSig with
      | Err err =>
          Some (Errorf (ErrorText ErrMalformed +:+ ": hex decode: " +:+ ErrorText err)
                       [ErrMalformed; err])
      | Ok want =>
          let got := hmac_sha256 secret canonical in
          if bool_decide (got = want) then None else Some ErrInvalidSignature
      end
  end.

(** [delta = -delta] is [int64] negation: it leaves [minDuration] negative. *)
Definition VerifyTimestamp (headerVal : string) (now : Time) (skew : Z) : option error :=
  if bool_decide (headerVal = "") then Some ErrTimestampMissing
  else
    match ParseInt headerVal with
    | Err err => Some (wrap2 ErrTimestampMalformed err)
    | Ok secs =>
        let ts := Unix secs in
        let delta := Time_Sub now ts in
        let delta := if delta <? 0 then wrap64 (- delta) else delta in
        if skew <? delta then
          Some (Errorf (ErrorText ErrTimestampSkewed +:+ ": |now-ts|=" +:+ Duration_String delta
                        +:+ ", skew=" +:+ Duration_String skew) [ErrTimestampSkewed])
        else None
    end.

Definition canonicalMessage (tsHeader body : string) : string :=
  (canonicalVersion +:+ ":" +:+ tsHeader +:+ ":") +:+ body.

Definition Verify (secret sigHeader tsHeader body : string) (now : Time) (skew : Z) : option error :=
  match VerifyTimestamp tsHeader now skew with
  | Some err => Some err
  | None => VerifyHMAC secret (canonicalMessage tsHeader body) sigHeader
  end.

(** What a signer computes, from the repository's description of the scheme. *)
Definition sign (secret tsHeader body : string) : string :=
  signaturePrefix +:+ hex_EncodeToString (hmac_sha256 secret (canonicalMessage tsHeader body)).

(** ** HMAC *)

Lemma hmac_nonempty (k m : string) : hmac_sha256 k m <> "".
Proof. intros H. pose proof (length_hmac_sha256 k m) as L. by rewrite H in L. Qed.

(** [VerifyHMAC] accepts exactly the [sha256=<hex>] encodings of the MAC. *)
Lemma VerifyHMAC_ok (secret canonical received : string) :
  VerifyHMAC secret canonical received = None <->
  exists h, received = signaturePrefix +:+ h /\ hex_DecodeString h = Ok (hmac_sha256 secret canonical).
Proof.
  unfold VerifyHMAC. split.
  - destruct (CutPrefix received signaturePrefix) as [h|] eqn:E; [|done].
    apply CutPrefix_Some in E. destruct h as [|c h]; [done|].
    destruct (hex_DecodeString _) as [want|] eqn:D; [|done].
    case_bool_decide as G; [|done]. intros _. exists (String c h). by rewrite G.
  - intros (h & Hr & Hd). rewrite (proj2 (CutPrefix_Some _ _ _) Hr).
    destruct h as [|c h].
    + cbn in Hd. injection Hd as Hd. by destruct (hmac_nonempty secret canonical).
    + rewrite Hd. by rewrite bool_decide_eq_true_2.
Qed.

(** A refusal is one of the two documented classes. *)
Lemma VerifyHMAC_err (secret canonical received : string) (e : error) :
  VerifyHMAC secret canonical received = Some e ->
  (Is e "webhook.ErrMalformed" = true /\
     forall h, received = signaturePrefix +:+ h -> h = "" \/ exists e', hex_DecodeString h = Err e')
  \/ (e = ErrInvalidSignature /\
      exists h want, received = signaturePrefix +:+ h /\ hex_DecodeString h = Ok want
                     /\ want <> hmac_sha256 secret canonical).
Proof.
  unfold VerifyHMAC. destruct (CutPrefix received signaturePrefix) as [[|c h]|] eqn:E.
  - intros [= <-]. left. split; [done|]. apply CutPrefix_Some in E.
    intros h Hh. left. rewrite E in Hh. by apply append_inj_l in Hh.
  - apply CutPrefix_Some in E. destruct (hex_DecodeString _) as [want|err] eqn:D.
    + case_bool_decide as G; [done|]. intros [= <-]. right. split; [done|].
      exists (String c h), want. naive_solver.
    + intros [= <-]. left. split; [done|]. intros h' Hh'. right. rewrite E in Hh'.
      apply append_inj_l in Hh'. subst h'. eauto.
  - intros [= <-]. left. split; [done|]. intros h Hh.
    by rewrite (proj2 (CutPrefix_Some _ _ _) Hh) in E.
Qed.

(** ** Timestamps *)

(** The age the code computes: [now - ts] in nanoseconds, [ts] built with
    [int64] seconds. *)
Definition age (now : Time) (secs : Z) : Z := diff_ns now (Unix secs).

Lemma Unix_wf (secs : Z) : wf_time (Unix secs).
Proof. split; cbn; [apply wrap64_int64|unfold Second; lia]. Qed.

(** The comparison of [VerifyTimestamp] on a parsed timestamp. *)
Lemma skew_check (now : Time) (secs skew : Z) :
  wf_time now -> 0 <= skew < maxDuration ->
  let delta := Time_Sub now (Unix secs) in
  (skew <? (if delta <? 0 then wrap64 (- delta) else delta)) = false
  <-> Z.abs (age now secs) <= skew \/ age now secs <= minDuration.
Proof.
  intros Hn Hs delta. subst delta. rewrite Sub_clamp by auto using Unix_wf.
  fold (age now secs). unfold clamp64.
  destruct (decide (age now secs <= minDuration)) as [H|H].
  - replace (Z.max _ _) with minInt64 by (unfold minDuration in *; unfold64; lia).
    change (minInt64 <? 0) with true. change (wrap64 (- minInt64)) with minInt64.
    split; [by right|intros _; unfold64; lia].
  - rewrite Z.max_r by (unfold minDuration in *; unfold64; lia).
    case_match; bool_to_prop.
    + rewrite wrap64_id by (unfold minDuration in *; unfold64; lia).
      rewrite Z.ltb_ge. unfold minDuration, maxDuration in *. unfold64. lia.
    + rewrite Z.ltb_ge. unfold minDuration, maxDuration in *. unfold64. lia.
Qed.

Lemma VerifyTimestamp_ok (hdr : string) (now : Time) (skew : Z) :
  wf_time now -> 0 <= skew < maxDuration ->
  VerifyTimestamp hdr now skew = None <->
  exists secs, ParseInt hdr = Ok secs
    /\ (Z.abs (age now secs) <= skew \/ age now secs <= minDuration).
Proof.
  intros Hn Hs. unfold VerifyTimestamp. case_bool_decide as He.
  - subst hdr. cbn. naive_solver.
  - destruct (ParseInt hdr) as [secs|err] eqn:P; [|naive_solver].
    pose proof (skew_check now secs skew Hn Hs) as Hk. cbv zeta in Hk |- *.
    destruct (skew <? _).
    + split; [done|]. intros (? & [= <-] & H). by apply Hk in H.
    + split; [|done]. intros _. exists secs. split; [done|]. by apply Hk.
Qed.

(** Where neither the clock nor the timestamp leaves the 292 years a
    [Duration] can express, the check is the documented window. *)
Lemma age_unix (now : Time) (secs : Z) :
  int64 (secs + unixToInternal) ->
  age now secs = (t_sec now - unixToInternal) * Second + t_nsec now - secs * Second.
Proof. intros H. unfold age, diff_ns, Unix. cbn. rewrite wrap64_id by done. lia. Qed.

(** ** The canonical message *)

(** A timestamp the parser accepts contains no colon, so the boundary between
    timestamp and body cannot be moved. *)
Lemma ParseInt_no_colon (s : string) (z : Z) : ParseInt s = Ok z -> ~ sIn ":" s.
Proof.
  intros H%ParseInt_bytes. apply (sForall_notin num_byte); [done|].
  unfold num_byte. by intros [?|[?|?]].
Qed.

Lemma canonicalMessage_inj (t1 t2 b1 b2 : string) (z1 z2 : Z) :
  ParseInt t1 = Ok z1 -> ParseInt t2 = Ok z2 ->
  canonicalMessage t1 b1 = canonicalMessage t2 b2 -> t1 = t2 /\ b1 = b2.
Proof.
  intros H1%ParseInt_no_colon H2%ParseInt_no_colon H. unfold canonicalMessage in H.
  rewrite !append_assoc in H. apply append_inj_l, append_inj_l in H.
  by apply split_at_unique in H.
Qed.

(** ** Properties *)

(** C10: [Verify] returns [nil] exactly when the timestamp header is a decimal
    [int64] within the accepted range and the signature header is
    [sha256=<hex>] of the HMAC-SHA256, under the shared secret, of
    [v0:<timestamp>:<body>].  The accepted range is the documented window
    [|now - ts| <= skew] plus, because the negation of the most negative
    [Duration] wraps, every timestamp at least 2^63 ns in the future, the age
    being the one computed, in which [time.Unix] wraps too. *)
Theorem Verify_accepts_iff (secret sigHeader tsHeader body : string) (now : Time) (skew : Z) :
  wf_time now -> 0 <= skew < maxDuration ->
  Verify secret sigHeader tsHeader body now skew = None <->
  (exists secs, ParseInt tsHeader = Ok secs
     /\ (Z.abs (age now secs) <= skew \/ age now secs <= minDuration))
  /\ (exists h, sigHeader = signaturePrefix +:+ h
       /\ hex_DecodeString h = Ok (hmac_sha256 secret (canonicalMessage tsHeader body))).
Proof.
  intros Hn Hs. rewrite <- VerifyTimestamp_ok, <- VerifyHMAC_ok by done.
  unfold Verify. destruct (VerifyTimestamp _ _ _); naive_solver.
Qed.

(** A clock reading of 2023-11-14T22:13:20Z and the default skew. *)
Definition now0 : Time := Unix 1700000000.

Lemma now0_wf : wf_time now0.
Proof. apply Unix_wf. Qed.

Lemma Verify_accepts_iff_witness :
  wf_time now0 /\ 0 <= 5 * Minute < maxDuration /\
  Verify "topsecret" (sign "topsecret" "1700000100" "payload") "1700000100" "payload"
         now0 (5 * Minute) = None.
Proof.
  split; [apply now0_wf|]. split; [split; [apply Z.leb_le|apply Z.ltb_lt]; reflexivity|].
  apply (Verify_accepts_iff "topsecret" _ "1700000100" "payload" now0 (5 * Minute)).
  - apply now0_wf.
  - split; [apply Z.leb_le|apply Z.ltb_lt]; reflexivity.
  - split.
    + exists 1700000100. split; [reflexivity|]. left. apply Z.leb_le. reflexivity.
    + eexists. split; [reflexivity|]. apply hex_roundtrip.
Defined.

(** The documented window, in nanoseconds since the epoch. *)
Definition in_window (now : Time) (skew secs : Z) : Prop :=
  let t := (t_sec now - unixToInternal) * Second + t_nsec now in t - skew <= secs * Second <= t + skew.

Lemma VerifyTimestamp_in_window (hdr : string) (now : Time) (skew secs : Z) :
  wf_time now -> 0 <= skew < maxDuration -> hdr <> "" -> ParseInt hdr = Ok secs ->
  int64 (secs + unixToInternal) -> int64 (age now secs) -> age now secs <> minDuration ->
  match VerifyTimestamp hdr now skew with
  | None => in_window now skew secs
  | Some e => Is e "webhook.ErrTimestampSkewed" = true /\ Is e "webhook.ErrTimestampMissing" = false
      /\ Is e "webhook.ErrTimestampMalformed" = false /\ ~ in_window now skew secs
  end.
Proof.
  intros Hn Hs He P Hu Ha Hmin. unfold VerifyTimestamp, in_window. rewrite bool_decide_false, P by done.
  pose proof (skew_check now secs skew Hn Hs) as Hk. cbv zeta in Hk |- *.
  rewrite age_unix in Hk, Ha, Hmin by done. destruct (skew <? _); cbn.
  - do 3 (split; [done|]). intros Hin. assert (true = false) as [=]. apply Hk. left. lia.
  - destruct (proj1 Hk eq_refl) as [H|H]; [lia|]. unfold minDuration in *. unfold64. lia.
Qed.

(** C34: For every clock and timestamp that differ by less than 2^63 ns (292
    years), [VerifyTimestamp] decides the documented window, and its errors
    tell the cases apart: it accepts exactly the decimal [int64]s within
    [[now-skew, now+skew]], bounds included; its error is
    [ErrTimestampSkewed] exactly for those outside, [ErrTimestampMissing]
    exactly for an empty header, and [ErrTimestampMalformed] exactly for a
    header that is not empty and does not parse. *)
Theorem VerifyTimestamp_window (hdr : string) (now : Time) (skew : Z) :
  let fails id := exists e, VerifyTimestamp hdr now skew = Some e /\ Is e id = true in
  wf_time now -> 0 <= skew < maxDuration ->
  (forall secs, ParseInt hdr = Ok secs ->
     int64 (secs + unixToInternal) /\ int64 (age now secs) /\ age now secs <> minDuration) ->
  (VerifyTimestamp hdr now skew = None <-> exists secs, ParseInt hdr = Ok secs /\ in_window now skew secs)
  /\ (fails "webhook.ErrTimestampSkewed" <-> exists secs, ParseInt hdr = Ok secs /\ ~ in_window now skew secs)
  /\ (fails "webhook.ErrTimestampMissing" <-> hdr = "")
  /\ (fails "webhook.ErrTimestampMalformed" <-> hdr <> "" /\ exists err, ParseInt hdr = Err err).
Proof.
  intros fails Hn Hs Hrange. subst fails. cbv beta. destruct (decide (hdr = "")) as [->|He].
  - change (VerifyTimestamp "" now skew) with (Some ErrTimestampMissing).
    destruct (ParseInt "") eqn:P; [done|]. naive_solver.
  - destruct (ParseInt hdr) as [secs|err] eqn:P.
    + destruct (Hrange secs eq_refl) as (Hu & Ha & Hmin).
      pose proof (VerifyTimestamp_in_window hdr now skew secs Hn Hs He P Hu Ha Hmin) as Hw.
      destruct (VerifyTimestamp hdr now skew) as [e|]; [destruct Hw as (H1 & H2 & H3 & Hw)|]; naive_solver congruence.
    + unfold VerifyTimestamp. rewrite bool_decide_false, P by done.
      pose proof (fun id => ParseInt_err_Is _ id _ P) as Hid.
      split; [naive_solver|]. split; [split; [intros (e & [= <-] & Hi)|naive_solver]|].
      { cbn in Hi. by rewrite Hid in Hi. }
      split; [split; [intros (e & [= <-] & Hi)|done]|]. { cbn in Hi. by rewrite Hid in Hi. }
      split; [eauto|]. intros _. by eexists.
Qed.

Lemma VerifyTimestamp_window_witness :
  VerifyTimestamp "1699999700" now0 (5 * Minute) = None
  /\ exists secs, ParseInt "1699999700" = Ok secs /\ in_window now0 (5 * Minute) secs.
Proof.
  assert (0 <= 5 * Minute < maxDuration) as Hs
    by (split; [apply Z.leb_le|apply Z.ltb_lt]; reflexivity).
  assert (VerifyTimestamp "1699999700" now0 (5 * Minute) = None) as Hv by (vm_compute; reflexivity).
  split; [exact Hv|].
  destruct (VerifyTimestamp_window "1699999700" now0 (5 * Minute) now0_wf Hs) as [W _]; [|apply W; exact Hv].
  intros secs [= <-]. split; [|split].
  - split; apply Z.leb_le; vm_compute; reflexivity.
  - split; apply Z.leb_le; vm_compute; reflexivity.
  - vm_compute. discriminate.
Defined.

(** C40: The replay check fails open on far-future timestamps: whenever the
    timestamp lies at least 2^63 ns (292 years) after the clock, and is not so
    large that [time.Unix] wraps (seconds since year 1 fit [int64]), the
    subtraction saturates at the most negative [Duration], whose negation is
    itself, and [VerifyTimestamp] returns [nil]. *)
Theorem VerifyTimestamp_far_future_accepted (hdr : string) (secs : Z) (now : Time) (skew : Z) :
  wf_time now -> 0 <= skew < maxDuration ->
  ParseInt hdr = Ok secs -> int64 (secs + unixToInternal) ->
  (t_sec now - unixToInternal) * Second + t_nsec now + 2 ^ 63 <= secs * Second ->
  VerifyTimestamp hdr now skew = None.
Proof.
  intros Hn Hs HP Hu Hfar. apply VerifyTimestamp_ok; [done|done|].
  exists secs. split; [done|]. right. rewrite age_unix by done.
  unfold minDuration. unfold64. lia.
Qed.

(** A signer that sends milliseconds instead of seconds is accepted, and its
    requests never expire. *)
Lemma VerifyTimestamp_far_future_witness :
  VerifyTimestamp "1700000000000" now0 (5 * Minute) = None.
Proof.
  apply (VerifyTimestamp_far_future_accepted "1700000000000" 1700000000000 now0 (5 * Minute)).
  - apply now0_wf.
  - split; [apply Z.leb_le|apply Z.ltb_lt]; reflexivity.
  - reflexivity.
  - split; apply Z.leb_le; vm_compute; reflexivity.
  - apply Z.leb_le. vm_compute. reflexivity.
Defined.

(** Sign-then-verify: a request signed as the scheme describes, with a
    timestamp inside the window, passes [Verify]. *)
Theorem Verify_sign (secret tsHeader body : string) (secs : Z) (now : Time) (skew : Z) :
  wf_time now -> 0 <= skew < maxDuration ->
  ParseInt tsHeader = Ok secs -> Z.abs (age now secs) <= skew ->
  Verify secret (sign secret tsHeader body) tsHeader body now skew = None.
Proof.
  intros Hn Hs HP Ha. unfold Verify.
  rewrite (proj2 (VerifyTimestamp_ok tsHeader now skew Hn Hs)) by eauto.
  apply VerifyHMAC_ok. eexists. split; [done|apply hex_roundtrip].
Qed.

Lemma Verify_sign_witness :
  Verify "k" (sign "k" "1700000000" "{}") "1700000000" "{}" now0 (5 * Minute) = None.
Proof.
  apply (Verify_sign "k" "1700000000" "{}" 1700000000).
  - apply now0_wf.
  - split; [apply Z.leb_le|apply Z.ltb_lt]; reflexivity.
  - reflexivity.
  - apply Z.leb_le. reflexivity.
Defined.

(** C33: A signature header authenticates one timestamp and one body: when the
    same header passes [Verify] under the same secret for two requests, they
    carry the same timestamp and body, or two different canonical messages
    with the same HMAC are exhibited.  Bytes cannot be moved between the
    timestamp and the body. *)
Theorem Verify_binds (secret sig t1 b1 t2 b2 : string) (n1 n2 : Time) (k1 k2 : Z) :
  Verify secret sig t1 b1 n1 k1 = None -> Verify secret sig t2 b2 n2 k2 = None ->
  (t1 = t2 /\ b1 = b2)
  \/ (canonicalMessage t1 b1 <> canonicalMessage t2 b2
      /\ hmac_sha256 secret (canonicalMessage t1 b1) = hmac_sha256 secret (canonicalMessage t2 b2)).
Proof.
  unfold Verify. intros H1 H2.
  destruct (VerifyTimestamp t1 n1 k1) eqn:T1; [done|].
  destruct (VerifyTimestamp t2 n2 k2) eqn:T2; [done|].
  apply VerifyHMAC_ok in H1 as (h1 & -> & D1), H2 as (h2 & Eh & D2).
  apply append_inj_l in Eh as <-. rewrite D1 in D2. apply (inj Ok) in D2.
  destruct (decide (canonicalMessage t1 b1 = canonicalMessage t2 b2)) as [E|]; [left|by right].
  assert (forall t n k, VerifyTimestamp t n k = None -> exists z, ParseInt t = Ok z) as Hparse.
  { intros t n k. unfold VerifyTimestamp. case_bool_decide; [done|].
    destruct (ParseInt t); [eauto|done]. }
  destruct (Hparse _ _ _ T1) as [z1 ?], (Hparse _ _ _ T2) as [z2 ?].
  by eapply canonicalMessage_inj.
Qed.

Lemma Verify_binds_witness :
  let sig := sign "k" "1700000000" "{}" in
  Verify "k" sig "1700000000" "{}" now0 (5 * Minute) = None /\
  (("1700000000" = "1700000000" /\ "{}" = "{}")
   \/ (canonicalMessage "1700000000" "{}" <> canonicalMessage "1700000000" "{}"
       /\ hmac_sha256 "k" (canonicalMessage "1700000000" "{}")
          = hmac_sha256 "k" (canonicalMessage "1700000000" "{}"))).
Proof.
  assert (Verify "k" (sign "k" "1700000000" "{}") "1700000000" "{}" now0 (5 * Minute) = None) as H
    by (vm_compute; reflexivity).
  split; [exact H|]. exact (Verify_binds _ _ _ _ _ _ _ _ _ _ H H).
Defined.

(** [Verify] refuses with the class of the first check that fails: a
    timestamp failure is reported whatever the signature is, and the
    signature classes appear only once the timestamp has been accepted. *)
Theorem Verify_error_class (secret sig ts body : string) (now : Time) (skew : Z) (e : error) :
  Verify secret sig ts body now skew = Some e ->
  (VerifyTimestamp ts now skew = Some e
     /\ (forall sig' secret' body', Verify secret' sig' ts body' now skew = Some e)
     /\ (Is e "webhook.ErrTimestampMissing" || Is e "webhook.ErrTimestampMalformed"
         || Is e "webhook.ErrTimestampSkewed") = true)
  \/ (VerifyTimestamp ts now skew = None
      /\ (Is e "webhook.ErrMalformed" || Is e "webhook.ErrInvalidSignature") = true).
Proof.
  unfold Verify. destruct (VerifyTimestamp ts now skew) as [e'|] eqn:T.
  - intros [= ->]. left. split; [done|]. split; [done|].
    revert T. unfold VerifyTimestamp. case_bool_decide; [by intros [= <-]|].
    destruct (ParseInt ts) eqn:P; [case_match; by intros [= <-]|].
    intros [= <-]. cbn. by rewrite !(ParseInt_err_Is _ _ _ P).
  - intros H. right. split; [done|].
    by destruct (VerifyHMAC_err _ _ _ _ H) as [[-> _]|[-> _]].
Qed.

Lemma Verify_error_class_witness :
  Verify "k" "sha256=zz" "1700000000" "{}" now0 (5 * Minute) <> None /\
  exists e, Verify "k" "sha256=zz" "" "{}" now0 (5 * Minute) = Some e
    /\ Is e "webhook.ErrTimestampMissing" = true.
Proof.
  split; [vm_compute; discriminate|].
  exists ErrTimestampMissing.
  assert (Verify "k" "sha256=zz" "" "{}" now0 (5 * Minute) = Some ErrTimestampMissing) as H by reflexivity.
  split; [exact H|].
  destruct (Verify_error_class _ _ _ _ _ _ _ H) as [_|[D _]]; [reflexivity|discriminate D].
Defined.
