(* ===== verification/Json.v ===== *)
(** * Go's [encoding/json] on byte strings

    The decoder: the grammar of [json.Unmarshal]'s scanner (white space,
    literals, numbers, strings with their escapes, the nesting limit),
    strings unquoted the way Go does it (invalid UTF-8 and lone surrogates
    become U+FFFD), and object members kept with the exact bytes of their
    value, which is what a [json.RawMessage] holds.  The parser recurses on
    fuel; [parse_value_fuel] shows the input's length is enough.
    [parse_raw] shows that the raw bytes of a member parse to the member's
    value again: decoding in several passes is decoding in one. *)

From Stdlib Require Import Ascii.
From S2P Require Import Prelude GoStrings Unicode.

(** ** Values *)

(** Object members in source order, duplicates included: the key, the bytes
    of the value, the value. *)
Inductive json :=
| JNull
| JBool (b : bool)
| JNumber (lit : string)
| JString (s : string)
| JArray (l : list json)
| JObject (m : list (string * string * json)).

(** ** Scanner *)

Definition is_ws (c : ascii) : bool :=
  (ord c =? 32) || (ord c =? 9) || (ord c =? 13) || (ord c =? 10).

Fixpoint skip_ws (s : string) : string :=
  match s with
  | String c r => if is_ws c then skip_ws r else s
  | EmptyString => EmptyString
  end.

Definition is_digit (c : ascii) : bool := in_range 48 57 c.
Definition is_hex (c : ascii) : bool := match hexval c with Some _ => true | None => false end.

(** The bytes that may follow a backslash, [u] apart. *)
Definition esc_byte (c : ascii) : bool :=
  existsb (Z.eqb (ord c)) [98; 102; 110; 114; 116; 92; 47; 34].

(** The body of a string literal, after the opening quote: its raw bytes up
    to the closing quote, and what follows the quote. *)
Fixpoint scan_string (s : string) : option (string * string) :=
  match s with
  | EmptyString => None
  | String c r =>
      if bool_decide (c = dquote) then Some (EmptyString, r)
      else if bool_decide (c = backslash) then
        match r with
        | String e r1 =>
            if esc_byte e then
              match scan_string r1 with
              | Some (raw, rest) => Some (String c (String e raw), rest)
              | None => None
              end
            else if bool_decide (e = "u"%char) then
              match r1 with
              | String h1 (String h2 (String h3 (String h4 r5))) =>
                  if is_hex h1 && is_hex h2 && is_hex h3 && is_hex h4 then
                    match scan_string r5 with
                    | Some (raw, rest) =>
                        Some (String c (String e (String h1 (String h2 (String h3 (String h4 raw))))), rest)
                    | None => None
                    end
                  else None
              | _ => None
              end
            else None
        | EmptyString => None
        end
      else if ord c <? 0x20 then None
      else
        match scan_string r with
        | Some (raw, rest) => Some (String c raw, rest)
        | None => None
        end
  end.

(** [getu4]: the value of a [\uXXXX] escape at the head of a string. *)
Definition getu4 (s : string) : option (Z * string) :=
  match s with
  | String b (String u (String h1 (String h2 (String h3 (String h4 r))))) =>
      if bool_decide (b = backslash) && bool_decide (u = "u"%char) then
        match hexval h1, hexval h2, hexval h3, hexval h4 with
        | Some a, Some b, Some c, Some d => Some (4096 * a + 256 * b + 16 * c + d, r)
        | _, _, _, _ => None
        end
      else None
  | _ => None
  end.

Definition is_surrogate (r : Z) : bool := (0xD800 <=? r) && (r <? 0xE000).

(** [utf16.DecodeRune] *)
Definition utf16_DecodeRune (r1 r2 : Z) : Z :=
  if ((0xD800 <=? r1) && (r1 <? 0xDC00)) && ((0xDC00 <=? r2) && (r2 <? 0xE000))
  then (r1 - 0xD800) * 1024 + (r2 - 0xDC00) + 0x10000
  else RuneError.

Definition unescape (e : ascii) : ascii :=
  let z := ord e in
  chr (if z =? 98 then 8 else if z =? 102 then 12 else if z =? 110 then 10
       else if z =? 114 then 13 else if z =? 116 then 9 else z).

(** One step of [unquoteBytes] on a scanned literal: the decoded bytes and
    what is left. *)
Definition unquote_step (s : string) : option (string * string) :=
  match s with
  | EmptyString => None
  | String c r =>
      if bool_decide (c = backslash) then
        match r with
        | EmptyString => None
        | String e r1 =>
            if bool_decide (e = "u"%char) then
              match getu4 s with
              | None => None
              | Some (rr, rest) =>
                  if is_surrogate rr then
                    match getu4 rest with
                    | Some (rr1, rest1) =>
                        let dec := utf16_DecodeRune rr rr1 in
                        if dec =? RuneError then Some (EncodeRune RuneError, rest)
                        else Some (EncodeRune dec, rest1)
                    | None => Some (EncodeRune RuneError, rest)
                    end
                  else Some (EncodeRune rr, rest)
              end
            else Some (single (unescape e), r1)
        end
      else
        match DecodeRune s with
        | Some (rr, _, rest) => Some (EncodeRune rr, rest)
        | None => None
        end
  end.

Fixpoint unquote_go (fuel : nat) (s : string) : string :=
  match fuel with
  | O => EmptyString
  | S fuel =>
      match unquote_step s with
      | Some (out, rest) => out +:+ unquote_go fuel rest
      | None => EmptyString
      end
  end.

Definition unquote (raw : string) : string := unquote_go (String.length raw) raw.

(** ** Numbers *)

Fixpoint take_digits (s : string) : string * string :=
  match s with
  | String c r =>
      if is_digit c then let '(d, rest) := take_digits r in (String c d, rest)
      else (EmptyString, s)
  | EmptyString => (EmptyString, EmptyString)
  end.

(** At least one digit. *)
Definition take_digits1 (s : string) : option (string * string) :=
  match take_digits s with
  | (EmptyString, _) => None
  | p => Some p
  end.

Definition scan_int (s : string) : option (string * string) :=
  match s with
  | String c r => if bool_decide (c = "0"%char) then Some (single c, r) else take_digits1 s
  | EmptyString => None
  end.

Definition scan_frac (s : string) : option (string * string) :=
  match s with
  | String c r =>
      if bool_decide (c = "."%char) then
        match take_digits1 r with Some (d, rest) => Some (String c d, rest) | None => None end
      else Some (EmptyString, s)
  | EmptyString => Some (EmptyString, s)
  end.

Definition is_sign (c : ascii) : bool := bool_decide (c = "+"%char) || bool_decide (c = "-"%char).

Definition scan_exp (s : string) : option (string * string) :=
  match s with
  | String c r =>
      if bool_decide (c = "e"%char) || bool_decide (c = "E"%char) then
        match r with
        | String g r1 =>
            if is_sign g then
              match take_digits1 r1 with
              | Some (d, rest) => Some (String c (String g d), rest)
              | None => None
              end
            else
              match take_digits1 r with
              | Some (d, rest) => Some (String c d, rest)
              | None => None
              end
        | EmptyString => None
        end
      else Some (EmptyString, s)
  | EmptyString => Some (EmptyString, s)
  end.

Definition scan_number (s : string) : option (string * string) :=
  let '(sign, s0) :=
    match s with
    | String c r => if bool_decide (c = "-"%char) then (single c, r) else (EmptyString, s)
    | EmptyString => (EmptyString, s)
    end in
  '(i, s1) ← scan_int s0;
  '(f, s2) ← scan_frac s1;
  '(x, s3) ← scan_exp s2;
  Some (sign +:+ i +:+ f +:+ x, s3).

(** ** Parser *)

Inductive pres :=
| POk (v : json) (rest : string)
| PErr
| PFuel.

Definition maxNestingDepth : Z := 10000.

(** The bytes of [s] before its suffix [rest]. *)
Definition raw_of (s rest : string) : string :=
  take_bytes (String.length s - String.length rest) s.

(** The next byte after white space. *)
Definition next_byte (s : string) : option (ascii * string) :=
  match skip_ws s with
  | String c r => Some (c, r)
  | EmptyString => None
  end.

(** Scalars: everything but objects and arrays. *)
Definition parse_scalar (c : ascii) (r : string) : pres :=
  let s := String c r in
  if bool_decide (c = dquote) then
    match scan_string r with
    | Some (raw, rest) => POk (JString (unquote raw)) rest
    | None => PErr
    end
  else if bool_decide (c = "t"%char) then
    match CutPrefix s "true" with Some rest => POk (JBool true) rest | None => PErr end
  else if bool_decide (c = "f"%char) then
    match CutPrefix s "false" with Some rest => POk (JBool false) rest | None => PErr end
  else if bool_decide (c = "n"%char) then
    match CutPrefix s "null" with Some rest => POk JNull rest | None => PErr end
  else if bool_decide (c = "-"%char) || is_digit c then
    match scan_number s with
    | Some (lit, rest) => POk (JNumber lit) rest
    | None => PErr
    end
  else PErr.

(** [parse_value] reads one value at the head of [s]; [parse_members] and
    [parse_elems] read what follows the first brace or bracket, [acc] holding
    the members or elements read so far. *)
Fixpoint parse_value (fuel : nat) (depth : Z) (s : string) {struct fuel} : pres :=
  match fuel with
  | O => PFuel
  | S fuel =>
      match s with
      | EmptyString => PErr
      | String c r =>
          if bool_decide (c = "{"%char) then
            if maxNestingDepth <=? depth then PErr
            else
              match next_byte r with
              | Some (c1, r1) =>
                  if bool_decide (c1 = "}"%char) then POk (JObject []) r1
                  else parse_members fuel (depth + 1) [] (String c1 r1)
              | None => PErr
              end
          else if bool_decide (c = "["%char) then
            if maxNestingDepth <=? depth then PErr
            else
              match next_byte r with
              | Some (c1, r1) =>
                  if bool_decide (c1 = "]"%char) then POk (JArray []) r1
                  else parse_elems fuel (depth + 1) [] (String c1 r1)
              | None => PErr
              end
          else parse_scalar c r
      end
  end
with parse_members (fuel : nat) (depth : Z) (acc : list (string * string * json)) (s : string)
    {struct fuel} : pres :=
  match fuel with
  | O => PFuel
  | S fuel =>
      match s with
      | EmptyString => PErr
      | String q r =>
          if bool_decide (q = dquote) then
            match scan_string r with
            | None => PErr
            | Some (key, r1) =>
                match next_byte r1 with
                | None => PErr
                | Some (col, r2) =>
                    if bool_decide (col = ":"%char) then
                      let v0 := skip_ws r2 in
                      match parse_value fuel depth v0 with
                      | PErr => PErr
                      | PFuel => PFuel
                      | POk v r3 =>
                          let acc := acc ++ [(unquote key, raw_of v0 r3, v)] in
                          match next_byte r3 with
                          | None => PErr
                          | Some (c, r4) =>
                              if bool_decide (c = ","%char) then
                                parse_members fuel depth acc (skip_ws r4)
                              else if bool_decide (c = "}"%char) then POk (JObject acc) r4
                              else PErr
                          end
                      end
                    else PErr
                end
            end
          else PErr
      end
  end
with parse_elems (fuel : nat) (depth : Z) (acc : list json) (s : string) {struct fuel} : pres :=
  match fuel with
  | O => PFuel
  | S fuel =>
      match parse_value fuel depth s with
      | PErr => PErr
      | PFuel => PFuel
      | POk v r3 =>
          let acc := acc ++ [v] in
          match next_byte r3 with
          | None => PErr
          | Some (c, r4) =>
              if bool_decide (c = ","%char) then parse_elems fuel depth acc (skip_ws r4)
              else if bool_decide (c = "]"%char) then POk (JArray acc) r4
              else PErr
          end
      end
  end.

(** Two calls per byte at most: an array's bracket, then its element. *)
Definition fuel_for (s : string) : nat := S (2 * String.length s).

(** A whole document: one value, white space around it, nothing after. *)
Definition parse (s : string) : option json :=
  match parse_value (fuel_for s) 0 (skip_ws s) with
  | POk v rest => match skip_ws rest with EmptyString => Some v | _ => None end
  | _ => None
  end.

(** Write a JSON text with single quotes for double quotes. *)
Definition squote (s : string) : string :=
  string_map (fun c => if ord c =? 39 then dquote else c) s.

Example parse_ex :
  parse (squote " {'a': [1, -2.5e3, true], 'b\u00e9':'x\n' , 'c' : null}")
  = Some (JObject
      [("a", "[1, -2.5e3, true]", JArray [JNumber "1"; JNumber "-2.5e3"; JBool true]);
       ("b" +:+ EncodeRune 0xE9, squote "'x\n'", JString ("x" +:+ single (chr 10)));
       ("c", "null", JNull)]).
Proof. vm_compute. reflexivity. Qed.

Example parse_bad_ex :
  map (fun s => parse (squote s)) ["{'a':01}"; "{'a':1,}"; "[1"; "'a"; ""; "{'a'1}"; "nul"; "1 2"]
  = replicate 8 None.
Proof. vm_compute. reflexivity. Qed.

(** ** Scanning is local

    Each scanner splits its input into the bytes it consumed and the rest,
    and consumes the same bytes whatever follows them.  A number is delimited
    by what follows, so the new rest must not continue one ([stop]). *)

Definition nodigit (s : string) : bool :=
  match s with EmptyString => true | String c _ => negb (is_digit c) end.

Definition stop (s : string) : bool :=
  match s with
  | EmptyString => true
  | String c _ =>
      negb (is_digit c || bool_decide (c = "."%char)
            || (bool_decide (c = "e"%char) || bool_decide (c = "E"%char)))
  end.

Lemma skip_ws_inv (s : string) :
  exists w, s = w +:+ skip_ws s
    /\ forall c x, skip_ws s = String c x -> forall x', skip_ws (w +:+ String c x') = String c x'.
Proof.
  induction s as [|c s (w & Hw & Hs)]; cbn [skip_ws].
  - exists "". split; [done|]. intros; done.
  - destruct (is_ws c) eqn:Ec.
    + exists (String c w). rewrite append_cons, <- Hw. split; [done|].
      intros d x Hd x'. rewrite append_cons. cbn [skip_ws]. rewrite Ec. by eapply Hs.
    + exists "". split; [done|]. intros d x [= -> ->] x'. change ("" +:+ String d x') with (String d x').
      cbn [skip_ws]. by rewrite Ec.
Qed.

Lemma next_byte_inv (s r : string) (c : ascii) :
  next_byte s = Some (c, r) ->
  exists w, s = w +:+ String c r /\ forall r', next_byte (w +:+ String c r') = Some (c, r').
Proof.
  unfold next_byte. destruct (skip_ws_inv s) as (w & Hw & Hs).
  destruct (skip_ws s) as [|d x]; [done|]. intros [= -> ->].
  exists w. split; [done|]. intros r'. by rewrite (Hs c r).
Qed.

(** The byte that follows a value is a delimiter, or white space. *)
Lemma next_byte_stop (s r : string) (c : ascii) :
  next_byte s = Some (c, r) -> stop (single c) = true -> stop s = true.
Proof.
  unfold next_byte. destruct s as [|d s]; [done|]. cbn [skip_ws].
  destruct (is_ws d) eqn:E; [|by intros [= -> ->]]. intros _ _.
  unfold is_ws in E. cbn. unfold is_digit, in_range.
  repeat (case_bool_decide; [subst d; vm_compute in E; discriminate|]).
  rewrite !orb_false_r, negb_true_iff. lia.
Qed.

Lemma scan_string_inv (s raw rest : string) :
  scan_string s = Some (raw, rest) ->
  s = raw +:+ String dquote rest /\ forall r', scan_string (raw +:+ String dquote r') = Some (raw, r').
Proof.
  revert raw rest.
  induction s as [s IH] using (induction_ltof1 _ String.length). unfold ltof in IH.
  intros raw rest. destruct s as [|c r]; [done|]. cbn [scan_string].
  case_bool_decide as Hq; [intros [= <- <-]; subst; split; [done|];
    intros r'; change ("" +:+ String dquote r') with (String dquote r'); cbn [scan_string];
    by rewrite bool_decide_eq_true_2|].
  case_bool_decide as Hb.
  - destruct r as [|e r1]; [done|]. destruct (esc_byte e) eqn:Ee.
    + destruct (scan_string r1) as [[raw1 rest1]|] eqn:E1; [|done]. intros [= <- <-].
      destruct (IH r1 ltac:(cbn; lia) _ _ E1) as [-> Hr]. rewrite !append_cons. split; [done|].
      intros r'. rewrite !append_cons. cbn [scan_string].
      by rewrite (bool_decide_eq_false_2 _ Hq), (bool_decide_eq_true_2 _ Hb), Ee, Hr.
    + case_bool_decide as Hu; [|done]. destruct r1 as [|h1 [|h2 [|h3 [|h4 r5]]]]; try done.
      destruct (is_hex h1 && is_hex h2 && is_hex h3 && is_hex h4) eqn:Eh; [|done].
      destruct (scan_string r5) as [[raw1 rest1]|] eqn:E1; [|done]. intros [= <- <-].
      destruct (IH r5 ltac:(cbn; lia) _ _ E1) as [-> Hr]. rewrite !append_cons. split; [done|].
      intros r'. rewrite !append_cons. cbn [scan_string].
      by rewrite (bool_decide_eq_false_2 _ Hq), (bool_decide_eq_true_2 _ Hb), Ee,
        (bool_decide_eq_true_2 _ Hu), Eh, Hr.
  - destruct (ord c <? 32) eqn:Ec; [done|].
    destruct (scan_string r) as [[raw1 rest1]|] eqn:E1; [|done]. intros [= <- <-].
    destruct (IH r ltac:(cbn; lia) _ _ E1) as [-> Hr]. rewrite !append_cons. split; [done|].
    intros r'. rewrite !append_cons. cbn [scan_string].
    by rewrite (bool_decide_eq_false_2 _ Hq), (bool_decide_eq_false_2 _ Hb), Ec, Hr.
Qed.

Lemma take_digits_inv (s d r : string) :
  take_digits s = (d, r) ->
  s = d +:+ r /\ forall r', nodigit r' = true -> take_digits (d +:+ r') = (d, r').
Proof.
  assert (forall r', nodigit r' = true -> take_digits r' = ("", r')) as Hnd.
  { intros [|c r'] H; [done|]. cbn in *. by destruct (is_digit c). }
  revert d r. induction s as [|c s IH]; intros d r; cbn [take_digits].
  - by intros [= <- <-].
  - destruct (is_digit c) eqn:Ec; [|by intros [= <- <-]].
    destruct (take_digits s) as [d1 r1] eqn:E1. intros [= <- <-].
    destruct (IH _ _ eq_refl) as [-> Hr]. rewrite append_cons. split; [done|].
    intros r' Hr'. rewrite append_cons. cbn [take_digits]. by rewrite Ec, Hr.
Qed.

Lemma take_digits1_inv (s d r : string) :
  take_digits1 s = Some (d, r) ->
  s = d +:+ r /\ d <> "" /\ forall r', nodigit r' = true -> take_digits1 (d +:+ r') = Some (d, r').
Proof.
  unfold take_digits1. destruct (take_digits s) as [[|c d1] r1] eqn:E; [done|].
  intros [= <- <-]. destruct (take_digits_inv _ _ _ E) as [-> Hr].
  split; [done|]. split; [done|]. intros r' Hr'. by rewrite Hr.
Qed.

Lemma stop_nodigit (s : string) : stop s = true -> nodigit s = true.
Proof. destruct s as [|c s]; [done|]. cbn. by destruct (is_digit c). Qed.

Lemma scan_frac_stop (s : string) : stop s = true -> scan_frac s = Some ("", s).
Proof.
  destruct s as [|c s]; [done|]. cbn. case_bool_decide; [|done].
  by rewrite orb_true_r.
Qed.

Lemma scan_exp_stop (s : string) : stop s = true -> scan_exp s = Some ("", s).
Proof.
  destruct s as [|c s]; [done|]. cbn [scan_exp stop].
  destruct (bool_decide (c = "e"%char) || bool_decide (c = "E"%char)); [|done].
  by rewrite orb_true_r.
Qed.

(** The optional parts of a number start with a byte that is neither a digit
    nor, for the exponent, a point. *)
Lemma scan_frac_inv (s d r : string) :
  scan_frac s = Some (d, r) ->
  s = d +:+ r /\ forall r', nodigit r' = true -> (d = "" -> scan_frac r' = Some ("", r')) ->
    scan_frac (d +:+ r') = Some (d, r') /\ nodigit (d +:+ r') = true.
Proof.
  destruct s as [|c s]; cbn [scan_frac].
  - intros [= <- <-]. split; [done|]. intros r' ? H. by rewrite append_nil_l, (H eq_refl).
  - case_bool_decide as Hc.
    + destruct (take_digits1 s) as [[d1 r1]|] eqn:E; [|done]. intros [= <- <-].
      destruct (take_digits1_inv _ _ _ E) as (-> & _ & Hr). rewrite append_cons. split; [done|].
      intros r' ? _. rewrite append_cons. cbn [scan_frac].
      rewrite (bool_decide_eq_true_2 _ Hc), Hr by done. by subst c.
    + intros [= <- <-]. split; [done|]. intros r' ? H. by rewrite append_nil_l, (H eq_refl).
Qed.

Lemma scan_exp_inv (s d r : string) :
  scan_exp s = Some (d, r) ->
  s = d +:+ r /\ forall r', stop r' = true ->
    scan_exp (d +:+ r') = Some (d, r') /\ nodigit (d +:+ r') = true
    /\ scan_frac (d +:+ r') = Some ("", d +:+ r').
Proof.
  assert (forall r', stop r' = true -> scan_exp ("" +:+ r') = Some ("", r')
    /\ nodigit ("" +:+ r') = true /\ scan_frac ("" +:+ r') = Some ("", "" +:+ r')) as Hnil.
  { intros r' Hr'. change ("" +:+ r') with r'.
    auto using scan_exp_stop, scan_frac_stop, stop_nodigit. }
  destruct s as [|c s]; cbn [scan_exp]; [intros [= <- <-]; by split|].
  destruct (bool_decide (c = "e"%char) || bool_decide (c = "E"%char)) eqn:Ec;
    [|intros [= <- <-]; by split].
  assert (forall x, nodigit (String c x) = true /\ scan_frac (String c x) = Some ("", String c x)) as Hc.
  { intros x. apply orb_true_iff in Ec as [?%bool_decide_eq_true|?%bool_decide_eq_true]; by subst c. }
  destruct s as [|g r1]; [done|]. destruct (is_sign g) eqn:Eg.
  - destruct (take_digits1 r1) as [[d1 rest]|] eqn:E; [|done]. intros [= <- <-].
    destruct (take_digits1_inv _ _ _ E) as (-> & _ & Hr). rewrite !append_cons. split; [done|].
    intros r' Hr'. rewrite !append_cons. split; [|apply Hc].
    cbn [scan_exp]. by rewrite Ec, Eg, Hr by auto using stop_nodigit.
  - destruct (take_digits1 (String g r1)) as [[d1 rest]|] eqn:E; [|done]. intros [= <- <-].
    destruct (take_digits1_inv _ _ _ E) as (Hs & Hd & Hr). rewrite append_cons, Hs. split; [done|].
    intros r' Hr'. rewrite append_cons. split; [|apply Hc].
    destruct d1 as [|g' d1]; [done|]. rewrite append_cons in Hs. injection Hs as <- _.
    specialize (Hr r' (stop_nodigit _ Hr')). rewrite append_cons in Hr |- *.
    cbn [scan_exp]. by rewrite Ec, Eg, Hr.
Qed.

Lemma scan_int_inv (s d r : string) :
  scan_int s = Some (d, r) ->
  s = d +:+ r /\ (exists c q, d = String c q /\ is_digit c = true)
  /\ forall r', nodigit r' = true -> scan_int (d +:+ r') = Some (d, r').
Proof.
  destruct s as [|c s]; [done|]. cbn [scan_int]. case_bool_decide as Hc.
  - intros [= <- <-]. split; [done|]. split; [exists c, ""; by subst c|].
    intros r' _. unfold single. rewrite append_cons. cbn [scan_int].
    by rewrite (bool_decide_eq_true_2 _ Hc).
  - intros H. destruct (take_digits1_inv _ _ _ H) as (Hs & Hd & Hr).
    destruct d as [|c' d]; [done|]. rewrite append_cons in Hs. pose proof Hs as [= <- ->].
    split; [done|]. split.
    + exists c, d. split; [done|]. unfold take_digits1 in H. cbn [take_digits] in H.
      destruct (is_digit c); [done|]. done.
    + intros r' Hr'. specialize (Hr r' Hr'). rewrite append_cons in Hr |- *.
      cbn [scan_int]. by rewrite (bool_decide_eq_false_2 _ Hc).
Qed.

Lemma scan_number_inv (s lit rest : string) :
  scan_number s = Some (lit, rest) ->
  s = lit +:+ rest /\ lit <> ""
  /\ forall r', stop r' = true -> scan_number (lit +:+ r') = Some (lit, r').
Proof.
  unfold scan_number.
  set (sg := match s with EmptyString => _ | String c r => _ end).
  assert (s = sg.1 +:+ sg.2 /\ forall c q, is_digit c = true ->
    match sg.1 +:+ String c q with
    | EmptyString => ("", sg.1 +:+ String c q)
    | String c0 r => if bool_decide (c0 = "-"%char) then (single c0, r) else ("", sg.1 +:+ String c q)
    end = (sg.1, String c q)) as [Hs Hsg].
  { subst sg. destruct s as [|c r]; [split; [done|]; intros c q Hc|].
    - cbn [fst snd]. rewrite append_nil_l. case_bool_decide; [by subst c|done].
    - case_bool_decide as Hm; cbn [fst snd]; (split; [done|]); intros c' q Hc'.
      + unfold single. rewrite append_cons. by rewrite (bool_decide_eq_true_2 _ Hm).
      + rewrite append_nil_l. case_bool_decide; [by subst c'|done]. }
  destruct sg as [sign s0]. cbn [fst snd] in *. intros H.
  destruct (scan_int s0) as [[i s1]|] eqn:Ei; [|done]. cbn in H.
  destruct (scan_frac s1) as [[f s2]|] eqn:Ef; [|done]. cbn in H.
  destruct (scan_exp s2) as [[x s3]|] eqn:Ex; [|done]. cbn in H. injection H as <- <-.
  destruct (scan_int_inv _ _ _ Ei) as (-> & (c & q & -> & Hc) & Hi).
  destruct (scan_frac_inv _ _ _ Ef) as (-> & Hf).
  destruct (scan_exp_inv _ _ _ Ex) as (-> & Hx).
  rewrite !append_assoc. split; [done|]. split; [by destruct sign|].
  intros r' Hr'. rewrite !append_assoc.
  destruct (Hx r' Hr') as (Hx1 & Hx2 & Hx3).
  destruct (Hf (x +:+ r') Hx2 (fun _ => Hx3)) as [Hf1 Hf2].
  rewrite append_cons, Hsg by done. specialize (Hi _ Hf2). rewrite append_cons in Hi.
  rewrite Hi. cbn. rewrite Hf1. cbn. rewrite Hx1. cbn. by rewrite ?append_assoc.
Qed.

Lemma parse_scalar_inv (c : ascii) (r rest : string) (v : json) :
  parse_scalar c r = POk v rest ->
  exists q, r = q +:+ rest
    /\ forall r', stop r' = true -> parse_scalar c (q +:+ r') = POk v r'.
Proof.
  assert (forall p, CutPrefix (String c r) (String c p) = Some rest ->
    r = p +:+ rest /\ forall r', CutPrefix (String c (p +:+ r')) (String c p) = Some r') as Hlit.
  { intros p H%CutPrefix_Some. rewrite append_cons in H. injection H as ->.
    split; [done|]. intros r'. by apply CutPrefix_Some. }
  unfold parse_scalar. repeat case_bool_decide; simplify_eq.
  - destruct (scan_string r) as [[raw rest1]|] eqn:E; [|done]. intros [= <- <-].
    destruct (scan_string_inv _ _ _ E) as [-> Hr]. exists (raw +:+ single dquote).
    rewrite !append_assoc. split; [done|]. intros r' _. rewrite append_assoc. unfold single.
    rewrite append_cons, append_nil_l. by rewrite Hr.
  - destruct (CutPrefix _ _) eqn:E; [|done]. intros [= <- <-].
    destruct (Hlit _ E) as [-> Hr]. eexists. split; [done|]. intros r' _. by rewrite Hr.
  - destruct (CutPrefix _ _) eqn:E; [|done]. intros [= <- <-].
    destruct (Hlit _ E) as [-> Hr]. eexists. split; [done|]. intros r' _. by rewrite Hr.
  - destruct (CutPrefix _ _) eqn:E; [|done]. intros [= <- <-].
    destruct (Hlit _ E) as [-> Hr]. eexists. split; [done|]. intros r' _. by rewrite Hr.
  - intros Hn. cbn [orb] in *. destruct (scan_number _) as [[lit rest1]|] eqn:E; [|done].
    injection Hn as <- <-. destruct (scan_number_inv _ _ _ E) as (Hs & Hl & Hr).
    destruct lit as [|c' q]; [done|]. rewrite append_cons in Hs. injection Hs as <- ->.
    exists q. split; [done|]. intros r' Hr'. specialize (Hr r' Hr'). rewrite append_cons in Hr.
    by rewrite Hr.
  - destruct (is_digit c) eqn:Ed; [|done]. cbn [orb].
    destruct (scan_number _) as [[lit rest1]|] eqn:E; [|done]. intros [= <- <-].
    destruct (scan_number_inv _ _ _ E) as (Hs & Hl & Hr).
    destruct lit as [|c' q]; [done|]. rewrite append_cons in Hs. injection Hs as <- ->.
    exists q. split; [done|]. intros r' Hr'. specialize (Hr r' Hr'). rewrite append_cons in Hr.
    by rewrite Hr.
Qed.

Lemma raw_of_app (p rest : string) : raw_of (p +:+ rest) rest = p.
Proof.
  unfold raw_of. rewrite length_append, Nat.add_sub.
  induction p as [|c p IH]; [by destruct rest|]. rewrite append_cons. cbn. by rewrite IH.
Qed.

(** [f] consumes a non-empty prefix of [s] and gives [v], whatever follows. *)
Definition consumes (f : string -> pres) (s : string) (v : json) (rest : string) : Prop :=
  exists c q, s = String c q +:+ rest
    /\ forall r', stop r' = true -> f (String c q +:+ r') = POk v r'.

Definition local_value (n : nat) : Prop := forall d s v rest,
  parse_value n d s = POk v rest -> consumes (parse_value n d) s v rest.
Definition local_members (n : nat) : Prop := forall d acc s v rest,
  parse_members n d acc s = POk v rest -> consumes (parse_members n d acc) s v rest.
Definition local_elems (n : nat) : Prop := forall d acc s v rest,
  parse_elems n d acc s = POk v rest -> consumes (parse_elems n d acc) s v rest.

Lemma local_value_S (n : nat) : local_members n -> local_elems n -> local_value (S n).
Proof.
  intros Hm He d s v rest. destruct s as [|c r]; [done|].
  intros H. cbn [parse_value] in H. revert H.
  case_bool_decide as Hb; [|case_bool_decide as Hs].
  - destruct (maxNestingDepth <=? d) eqn:Hd; [done|].
    destruct (next_byte r) as [[c1 r1]|] eqn:E; [|done].
    destruct (next_byte_inv _ _ _ E) as (w & -> & Hw).
    case_bool_decide as Hc.
    + intros [= <- <-]. exists c, (w +:+ single c1). rewrite !append_cons, append_assoc.
      split; [done|]. intros r' _.
      rewrite !append_cons, append_assoc. unfold single. rewrite append_cons, append_nil_l.
      cbn [parse_value]. by rewrite (bool_decide_eq_true_2 _ Hb), Hd, Hw, (bool_decide_eq_true_2 _ Hc).
    + intros (c2 & q & Hq & Hl)%Hm. rewrite append_cons in Hq. injection Hq as <- ->.
      exists c, (w +:+ String c1 q). rewrite !append_cons, append_assoc, append_cons.
      split; [done|]. intros r' Hr'. rewrite !append_cons, append_assoc, append_cons.
      cbn [parse_value]. rewrite (bool_decide_eq_true_2 _ Hb), Hd, Hw, (bool_decide_eq_false_2 _ Hc).
      by apply Hl.
  - destruct (maxNestingDepth <=? d) eqn:Hd; [done|].
    destruct (next_byte r) as [[c1 r1]|] eqn:E; [|done].
    destruct (next_byte_inv _ _ _ E) as (w & -> & Hw).
    case_bool_decide as Hc.
    + intros [= <- <-]. exists c, (w +:+ single c1). rewrite !append_cons, append_assoc.
      split; [done|]. intros r' _.
      rewrite !append_cons, append_assoc. unfold single. rewrite append_cons, append_nil_l.
      cbn [parse_value]. by rewrite (bool_decide_eq_false_2 _ Hb), (bool_decide_eq_true_2 _ Hs), Hd, Hw,
        (bool_decide_eq_true_2 _ Hc).
    + intros (c2 & q & Hq & Hl)%He. rewrite append_cons in Hq. injection Hq as <- ->.
      exists c, (w +:+ String c1 q). rewrite !append_cons, append_assoc, append_cons.
      split; [done|]. intros r' Hr'. rewrite !append_cons, append_assoc, append_cons.
      cbn [parse_value]. rewrite (bool_decide_eq_false_2 _ Hb), (bool_decide_eq_true_2 _ Hs), Hd, Hw,
        (bool_decide_eq_false_2 _ Hc). by apply Hl.
  - intros (q & -> & Hl)%parse_scalar_inv. exists c, q. rewrite append_cons. split; [done|].
    intros r' Hr'. rewrite append_cons. cbn [parse_value].
    by rewrite (bool_decide_eq_false_2 _ Hb), (bool_decide_eq_false_2 _ Hs), Hl.
Qed.

Lemma skip_ws_nonempty (s rest q : string) (c : ascii) :
  skip_ws s = String c q +:+ rest ->
  exists w, s = w +:+ String c q +:+ rest
    /\ forall x, skip_ws (w +:+ String c x) = String c x.
Proof.
  intros H. destruct (skip_ws_inv s) as (w & Hw & Hs). exists w.
  rewrite H in Hw, Hs. split; [done|]. rewrite append_cons in Hs. intros x. by eapply Hs.
Qed.

(** What follows a member or an element: a separator, then another one, or
    the closing byte [cl]. *)
Lemma local_tail (more : string -> pres) (done_ : json) (cl : ascii) (r3 rest : string) (v : json) :
  stop (single cl) = true ->
  (forall s, more s = POk v rest -> consumes more s v rest) ->
  match next_byte r3 with
  | None => PErr
  | Some (c, r4) =>
      if bool_decide (c = ","%char) then more (skip_ws r4)
      else if bool_decide (c = cl) then POk done_ r4 else PErr
  end = POk v rest ->
  stop r3 = true /\ exists q, r3 = q +:+ rest /\ (forall r', stop r' = true -> stop (q +:+ r') = true /\
    match next_byte (q +:+ r') with
    | None => PErr
    | Some (c, r4) =>
        if bool_decide (c = ","%char) then more (skip_ws r4)
        else if bool_decide (c = cl) then POk done_ r4 else PErr
    end = POk v r').
Proof.
  intros Hcl Hmore. destruct (next_byte r3) as [[c r4]|] eqn:E; [|done].
  destruct (next_byte_inv _ _ _ E) as (w & -> & Hw).
  case_bool_decide as Hc; [|case_bool_decide as Hd; [|done]].
  - intros (c2 & q & Hq & Hl)%Hmore. destruct (skip_ws_nonempty _ _ _ _ Hq) as (w2 & -> & Hw2).
    split; [by eapply next_byte_stop; [done|subst c]|].
    exists (w +:+ String c (w2 +:+ String c2 q)). rewrite ?append_assoc, ?append_cons, ?append_assoc.
    split; [done|]. intros r' Hr'. rewrite ?append_assoc, ?append_cons, ?append_assoc, ?append_cons.
    split; [by eapply next_byte_stop; [apply Hw|subst c]|].
    rewrite Hw, (bool_decide_eq_true_2 _ Hc), Hw2. specialize (Hl r' Hr').
    by rewrite append_cons in Hl.
  - intros [= <- <-]. split; [by eapply next_byte_stop; [done|subst c]|].
    exists (w +:+ single c). rewrite append_assoc. split; [done|]. intros r' _.
    rewrite append_assoc. unfold single. rewrite append_cons, append_nil_l.
    split; [by eapply next_byte_stop; [apply Hw|subst c]|].
    by rewrite Hw, (bool_decide_eq_false_2 _ Hc), (bool_decide_eq_true_2 _ Hd).
Qed.

Lemma local_members_S (n : nat) : local_value n -> local_members n -> local_members (S n).
Proof.
  intros Hv Hm d acc s v rest. destruct s as [|c r]; [done|].
  intros H. cbn [parse_members] in H. revert H. case_bool_decide as Hq; [|done].
  destruct (scan_string r) as [[key r1]|] eqn:Ek; [|done].
  destruct (scan_string_inv _ _ _ Ek) as [-> Hk].
  destruct (next_byte r1) as [[col r2]|] eqn:E1; [|done].
  destruct (next_byte_inv _ _ _ E1) as (w1 & -> & Hw1).
  case_bool_decide as Hcol; [|done]. cbv zeta.
  destruct (parse_value n d (skip_ws r2)) as [v1 r3| |] eqn:Ev; [|done|done].
  destruct (Hv _ _ _ _ Ev) as (c2 & pv & Hpv & Hvl). rewrite Hpv, raw_of_app.
  destruct (skip_ws_nonempty _ _ _ _ Hpv) as (w2 & -> & Hw2).
  intros (Hst & qt & -> & Ht)%local_tail; [|done|intros ?; apply Hm].
  exists c, (key +:+ String dquote (w1 +:+ String col (w2 +:+ String c2 pv +:+ qt))).
  rewrite ?append_cons, ?append_assoc, ?append_cons, ?append_assoc, ?append_cons, ?append_assoc, ?append_cons, ?append_assoc.
  split; [done|]. intros r' Hr'. destruct (Ht r' Hr') as [Hst' Ht'].
  rewrite ?append_cons, ?append_assoc, ?append_cons, ?append_assoc, ?append_cons, ?append_assoc, ?append_cons, ?append_assoc.
  cbn [parse_members]. rewrite (bool_decide_eq_true_2 _ Hq), Hk, Hw1, (bool_decide_eq_true_2 _ Hcol).
  cbv zeta. rewrite Hw2. specialize (Hvl _ Hst'). rewrite append_cons in Hvl. rewrite Hvl.
  rewrite <- append_cons, raw_of_app. done.
Qed.

Lemma local_elems_S (n : nat) : local_value n -> local_elems n -> local_elems (S n).
Proof.
  intros Hv He d acc s v rest H. cbn [parse_elems] in H. revert H.
  destruct (parse_value n d s) as [v1 r3| |] eqn:Ev; [|done|done].
  destruct (Hv _ _ _ _ Ev) as (c2 & pv & -> & Hvl). cbv zeta.
  intros (Hst & qt & -> & Ht)%local_tail; [|done|intros ?; apply He].
  exists c2, (pv +:+ qt). rewrite !append_cons, append_assoc. split; [done|].
  intros r' Hr'. destruct (Ht r' Hr') as [Hst' Ht'].
  rewrite append_cons, append_assoc. cbn [parse_elems]. rewrite <- append_cons, Hvl by done. done.
Qed.

Lemma parse_local (n : nat) : local_value n /\ local_members n /\ local_elems n.
Proof.
  induction n as [|n (Hv & Hm & He)]; [by repeat split; intros ?|].
  auto using local_value_S, local_members_S, local_elems_S.
Qed.

(** ** The fuel is enough, and more of it changes nothing *)

Lemma length_skip_ws (s : string) : (String.length (skip_ws s) <= String.length s)%nat.
Proof. induction s as [|c s IH]; cbn; [lia|]. destruct (is_ws c); cbn; lia. Qed.

Lemma length_next_byte (s r : string) (c : ascii) :
  next_byte s = Some (c, r) -> (String.length r < String.length s)%nat.
Proof.
  unfold next_byte. pose proof (length_skip_ws s). destruct (skip_ws s); [done|].
  intros [= -> ->]. cbn in *. lia.
Qed.

Lemma length_scan_string (s raw r : string) :
  scan_string s = Some (raw, r) -> (String.length r < String.length s)%nat.
Proof. intros [-> _]%scan_string_inv. rewrite length_append. cbn. lia. Qed.

Lemma length_parse_value (n : nat) (d : Z) (s rest : string) (v : json) :
  parse_value n d s = POk v rest -> (String.length rest < String.length s)%nat.
Proof.
  intros H. destruct (proj1 (parse_local n) _ _ _ _ H) as (c & q & -> & _).
  rewrite length_append. cbn. lia.
Qed.

Ltac lengths :=
  repeat match goal with
  | H : next_byte _ = Some _ |- _ => apply length_next_byte in H
  | H : scan_string _ = Some _ |- _ => apply length_scan_string in H
  | H : parse_value _ _ _ = POk _ _ |- _ => apply length_parse_value in H
  end;
  repeat match goal with
  | _ : context [skip_ws ?r] |- _ => unless (String.length (skip_ws r) <= String.length r)%nat by assumption;
      pose proof (length_skip_ws r)
  | |- context [skip_ws ?r] => unless (String.length (skip_ws r) <= String.length r)%nat by assumption;
      pose proof (length_skip_ws r)
  end; cbn [String.length] in *; lia.

Lemma parse_fuel (n : nat) :
  (forall d s, (2 * String.length s < n)%nat -> parse_value n d s <> PFuel)
  /\ (forall d acc s, (2 * String.length s < n)%nat -> parse_members n d acc s <> PFuel)
  /\ (forall d acc s, (2 * String.length s + 1 < n)%nat -> parse_elems n d acc s <> PFuel).
Proof.
  induction n as [|n (IHv & IHm & IHe)]; [repeat split; intros; lia|]. repeat split.
  - intros d s Hn. destruct s as [|c r]; [done|]. cbn [parse_value].
    repeat case_match; try done; (apply IHm || apply IHe || idtac);
      try (lengths). unfold parse_scalar. repeat case_match; done.
  - intros d acc s Hn. destruct s as [|c r]; [done|]. cbn [parse_members]. cbv zeta.
    repeat case_match; try done; try (apply IHm; lengths).
    match goal with H : parse_value _ _ _ = PFuel |- _ => apply IHv in H; [done|lengths] end.
  - intros d acc s Hn. cbn [parse_elems]. cbv zeta.
    repeat case_match; try done; try (apply IHe; lengths).
    match goal with H : parse_value _ _ _ = PFuel |- _ => apply IHv in H; [done|lengths] end.
Qed.

Lemma parse_value_fuel (d : Z) (s : string) : parse_value (fuel_for s) d s <> PFuel.
Proof. apply parse_fuel. unfold fuel_for. lia. Qed.

(** More fuel changes nothing. *)
Lemma parse_fuel_mono (n : nat) :
  (forall m d s, (n <= m)%nat -> parse_value n d s <> PFuel ->
     parse_value m d s = parse_value n d s)
  /\ (forall m d acc s, (n <= m)%nat -> parse_members n d acc s <> PFuel ->
     parse_members m d acc s = parse_members n d acc s)
  /\ (forall m d acc s, (n <= m)%nat -> parse_elems n d acc s <> PFuel ->
     parse_elems m d acc s = parse_elems n d acc s).
Proof.
  induction n as [|n (IHv & IHm & IHe)]; [by repeat split; intros|].
  repeat split; intros [|m]; try (intros; lia).
  - intros d s Hm. destruct s as [|c r]; [done|]. cbn [parse_value].
    repeat case_match; try done; intros; (apply IHm || apply IHe); (done || lia).
  - intros d acc s Hm. destruct s as [|c r]; [done|]. cbn [parse_members]. cbv zeta.
    case_bool_decide; [|done]. destruct (scan_string r) as [[key r1]|]; [|done].
    destruct (next_byte r1) as [[col r2]|]; [|done]. case_bool_decide; [|done].
    destruct (parse_value n d (skip_ws r2)) eqn:Ev; [| |done]; intros Hf;
      (rewrite (IHv m); [rewrite Ev|lia|by rewrite Ev]); [|done].
    repeat case_match; try done. apply IHm; (done || lia).
  - intros d acc s Hm. cbn [parse_elems]. cbv zeta.
    destruct (parse_value n d s) eqn:Ev; [| |done]; intros Hf;
      (rewrite (IHv m); [rewrite Ev|lia|by rewrite Ev]); [|done].
    repeat case_match; try done. apply IHe; (done || lia).
Qed.

(** Less nesting around it keeps a successful parse. *)
Lemma parse_depth_mono (n : nat) :
  (forall d d' s v rest, d' <= d ->
     parse_value n d s = POk v rest -> parse_value n d' s = POk v rest)
  /\ (forall d d' acc s v rest, d' <= d ->
     parse_members n d acc s = POk v rest -> parse_members n d' acc s = POk v rest)
  /\ (forall d d' acc s v rest, d' <= d ->
     parse_elems n d acc s = POk v rest -> parse_elems n d' acc s = POk v rest).
Proof.
  induction n as [|n (IHv & IHm & IHe)]; [by repeat split; intros|]. repeat split.
  - intros d d' s v rest Hd. destruct s as [|c r]; [done|]. cbn [parse_value].
    assert ((maxNestingDepth <=? d) = false -> (maxNestingDepth <=? d') = false) as Hdd by lia.
    repeat case_bool_decide; try done;
      (destruct (maxNestingDepth <=? d) eqn:E; [done|rewrite Hdd by done]);
      (destruct (next_byte r) as [[c1 r1]|]; [|done]); case_bool_decide; try done.
    + apply IHm; lia.
    + apply IHe; lia.
  - intros d d' acc s v rest Hd. destruct s as [|c r]; [done|]. cbn [parse_members]. cbv zeta.
    case_bool_decide; [|done]. destruct (scan_string r) as [[key r1]|]; [|done].
    destruct (next_byte r1) as [[col r2]|]; [|done]. case_bool_decide; [|done].
    destruct (parse_value n d (skip_ws r2)) as [v1 r3| |] eqn:Ev; [|done|done].
    rewrite (IHv d d' _ v1 r3) by done.
    destruct (next_byte r3) as [[c4 r4]|]; [|done]. repeat case_bool_decide; try done. by apply IHm.
  - intros d d' acc s v rest Hd. cbn [parse_elems]. cbv zeta.
    destruct (parse_value n d s) as [v1 r3| |] eqn:Ev; [|done|done].
    rewrite (IHv d d' _ v1 r3) by done.
    destruct (next_byte r3) as [[c4 r4]|]; [|done]. repeat case_bool_decide; try done. by apply IHe.
Qed.

(** ** Raw members *)

(** [raw] is the text of [v] as it was read somewhere in a document. *)
Definition read_as (raw : string) (v : json) : Prop :=
  exists n d, 0 <= d /\ parse_value n d raw = POk v "".

Lemma parse_value_read_as (n : nat) (d : Z) (s rest : string) (v : json) :
  0 <= d -> parse_value n d s = POk v rest -> read_as (raw_of s rest) v.
Proof.
  intros Hd H. destruct (proj1 (parse_local n) _ _ _ _ H) as (c & q & -> & Hl).
  exists n, d. split; [done|]. rewrite raw_of_app, <- (append_nil_r (String c q)). by apply Hl.
Qed.

Definition members_read (m : list (string * string * json)) : Prop :=
  Forall (fun kv => read_as (kv.1.2) (kv.2)) m.

Lemma parse_members_read (n : nat) (d : Z) acc (s rest : string) (v : json) :
  0 <= d -> members_read acc -> parse_members n d acc s = POk v rest ->
  exists m, v = JObject m /\ members_read m.
Proof.
  intros Hd. revert acc s. induction n as [|n IH]; intros acc s Hacc; [done|].
  destruct s as [|c r]; [done|]. cbn [parse_members]. cbv zeta.
  destruct (bool_decide _); [|done]. destruct (scan_string r) as [[key r1]|]; [|done].
  destruct (next_byte r1) as [[col r2]|]; [|done]. destruct (bool_decide _); [|done].
  destruct (parse_value n d (skip_ws r2)) as [v1 r3| |] eqn:Ev; [|done|done].
  assert (members_read (acc ++ [(unquote key, raw_of (skip_ws r2) r3, v1)])).
  { apply Forall_app. split; [done|]. constructor; [|done]. by eapply parse_value_read_as. }
  destruct (next_byte r3) as [[c4 r4]|]; [|done]. repeat case_bool_decide; try done.
  - by apply IH.
  - intros [= <- <-]. eauto.
Qed.

Lemma parse_value_object_read (n : nat) (d : Z) (s rest : string) m :
  0 <= d -> parse_value n d s = POk (JObject m) rest -> members_read m.
Proof.
  destruct n as [|n]; [done|]. destruct s as [|c r]; [done|]. intros Hd. cbn [parse_value].
  case_bool_decide; [|case_bool_decide].
  - case_match; [done|]. destruct (next_byte r) as [[c1 r1]|]; [|done].
    case_bool_decide; [by intros [= <- <-]; constructor|].
    intros (m' & [= ->] & ?)%parse_members_read; [done|lia|constructor].
  - case_match; [done|]. destruct (next_byte r) as [[c1 r1]|]; [|done].
    case_bool_decide; [done|]. generalize (@nil json), (String c1 r1).
    clear. induction n as [|n IH]; intros acc s; [done|]. cbn [parse_elems]. cbv zeta.
    repeat case_match; try done. apply IH.
  - unfold parse_scalar. repeat case_match; done.
Qed.

(** Nothing that starts with white space is a value. *)
Lemma parse_value_no_ws (n : nat) (d : Z) (s rest : string) (v : json) :
  parse_value n d s = POk v rest -> skip_ws s = s.
Proof.
  destruct n as [|n]; [done|]. destruct s as [|c r]; [done|]. cbn [parse_value skip_ws].
  destruct (is_ws c) eqn:E; [|done]. intros H. exfalso. revert H.
  unfold is_ws in E. unfold parse_scalar, is_digit, in_range.
  repeat (case_bool_decide; [subst c; vm_compute in E; discriminate|]). cbn [orb].
  replace ((48 <=? ord c) && (ord c <=? 57)) with false by lia. done.
Qed.

Lemma read_as_parse (raw : string) (v : json) : read_as raw v -> parse raw = Some v.
Proof.
  intros (n & d & Hd & H). unfold parse. rewrite (parse_value_no_ws _ _ _ _ _ H).
  apply (proj1 (parse_depth_mono n) d 0) in H; [|done].
  set (k := max n (fuel_for raw)).
  assert (parse_value k 0 raw = POk v "") as Hk.
  { rewrite (proj1 (parse_fuel_mono n)); [done|lia|by rewrite H]. }
  rewrite (proj1 (parse_fuel_mono (fuel_for raw))) in Hk; [by rewrite Hk|lia|].
  apply parse_value_fuel.
Qed.

(** The bytes kept for a member of an object parse to the member's value:
    what [json.Unmarshal] makes of a [json.RawMessage] is the value the
    enclosing document had there. *)
Lemma parse_raw (s k raw : string) (v : json) m :
  parse s = Some (JObject m) -> (k, raw, v) ∈ m -> parse raw = Some v.
Proof.
  unfold parse. destruct (parse_value _ _ _) as [v' rest| |] eqn:E; [|done|done].
  destruct (skip_ws rest); [|done]. intros [= ->] Hin.
  apply parse_value_object_read in E; [|done].
  apply read_as_parse. unfold members_read in E. rewrite Forall_forall in E. exact (E _ Hin).
Qed.

(** The text of a null is "null", and nothing else is. *)
Lemma parse_value_null (n : nat) (d : Z) (s rest : string) :
  parse_value n d s = POk JNull rest -> s = "null" +:+ rest.
Proof.
  destruct n as [|n]; [done|]. destruct s as [|c r]; [done|]. cbn [parse_value].
  assert (forall k d' acc t, parse_members k d' acc t <> POk JNull rest) as Hm.
  { induction k as [|k IH]; intros d' acc t; [done|]. destruct t; [done|]. cbn [parse_members].
    cbv zeta. repeat case_match; (done || apply IH). }
  assert (forall k d' acc t, parse_elems k d' acc t <> POk JNull rest) as He.
  { induction k as [|k IH]; intros d' acc t; [done|]. cbn [parse_elems].
    cbv zeta. repeat case_match; (done || apply IH). }
  repeat case_bool_decide; try (repeat case_match; (done || by intros ?%Hm || by intros ?%He)).
  unfold parse_scalar. repeat case_bool_decide; try (repeat case_match; done).
  destruct (CutPrefix _ _) eqn:E; [|done]. intros [= ->]. by apply CutPrefix_Some in E.
Qed.

Lemma read_as_null (raw : string) (v : json) : read_as raw v -> raw = "null" <-> v = JNull.
Proof.
  intros H. pose proof (read_as_parse _ _ H) as Hp. split.
  - intros ->. vm_compute in Hp. by injection Hp as <-.
  - intros ->. destruct H as (n & d & _ & H%parse_value_null). done.
Qed.

Lemma parse_raw_null (s k raw : string) (v : json) m :
  parse s = Some (JObject m) -> (k, raw, v) ∈ m -> raw = "null" <-> v = JNull.
Proof.
  unfold parse. destruct (parse_value _ _ _) as [v' rest| |] eqn:E; [|done|done].
  destruct (skip_ws rest); [|done]. intros [= ->] Hin.
  apply parse_value_object_read in E; [|done].
  apply read_as_null. unfold members_read in E. rewrite Forall_forall in E. exact (E _ Hin).
Qed.
