(* ===== verification/JsonEncode.v ===== *)
(** * Go's [json.Encoder]

    The encoder for the values webhookd writes: objects of strings and
    integers, HTML escaping on, invalid UTF-8 written as [\ufffd].  The file
    ends with the round trip: what is encoded parses, to the same members. *)

From Stdlib Require Import Ascii.
From S2P Require Import Prelude GoStrings Unicode Json.

(** ** Values and their text *)

Inductive jsonv :=
| VString (s : string)
| VInt (z : Z)
| VObject (m : list (string * jsonv)).

(** The bytes copied through: printable ASCII but for the quote, the
    backslash and the three bytes HTML escaping protects. *)
Definition html_safe (z : Z) : bool :=
  ((32 <=? z) && (z <? 128)) && negb (existsb (Z.eqb z) [34; 92; 38; 60; 62]).

(** [\u00XX] *)
Definition u00 (z : Z) : string := String backslash ("u00" +:+ hex2 z).

(** What [appendString] writes for one ASCII byte. *)
Definition escape_ascii (z : Z) : string :=
  let bs (c : ascii) := String backslash (single c) in
  if html_safe z then single (chr z)
  else if (z =? 34) || (z =? 92) then bs (chr z)
  else if z =? 8 then bs "b"%char else if z =? 12 then bs "f"%char else if z =? 10 then bs "n"%char
  else if z =? 13 then bs "r"%char else if z =? 9 then bs "t"%char
  else u00 z.

(** One rune of the input and its text. *)
Definition escape_step (s : string) : option (string * string) :=
  match DecodeRune s with
  | None => None
  | Some (r, w, rest) =>
      Some (if r <? 128 then escape_ascii r
            else if (r =? RuneError) && (w =? 1)%nat then String backslash "ufffd"
            else if (r =? 0x2028) || (r =? 0x2029) then
              String backslash ("u202" +:+ single (hexdigit (r mod 16)))
            else take_bytes w s, rest)
  end.

Fixpoint escape_go (fuel : nat) (s : string) : string :=
  match fuel with
  | O => EmptyString
  | S fuel =>
      match escape_step s with
      | Some (out, rest) => out +:+ escape_go fuel rest
      | None => EmptyString
      end
  end.

Definition encode_string (s : string) : string :=
  String dquote (escape_go (String.length s) s +:+ single dquote).

(** The members of an object after the brace, and the closing brace. *)
Definition members_text (enc : jsonv -> string) : bool -> list (string * jsonv) -> string :=
  fix go (first : bool) (m : list (string * jsonv)) : string :=
    match m with
    | [] => "}"
    | (k, x) :: m =>
        (if first then "" else ",") +:+ encode_string k +:+ ":" +:+ enc x +:+ go false m
    end.

Fixpoint encode (v : jsonv) : string :=
  match v with
  | VString s => encode_string s
  | VInt z => Itoa z
  | VObject m => "{" +:+ members_text encode true m
  end.

(** What [json.NewEncoder(w).Encode(v)] writes. *)
Definition Encode (v : jsonv) : string := encode v +:+ single (chr 10).

Example Encode_ex :
  Encode (VObject [("status", VString "ok"); ("n", VInt (-7)); ("x", VString (squote "<'>"))])
  = squote "{'status':'ok','n':-7,'x':'\u003c\'\u003e'}" +:+ single (chr 10).
Proof. vm_compute. reflexivity. Qed.

(** ** Round trip of strings *)

(** What a string reads back as: itself, its invalid bytes replaced by U+FFFD. *)
Definition sanitize (s : string) : string := encode_runes (runes s).

Lemma scan_plain (c : ascii) (t raw rest : string) :
  c <> dquote -> c <> backslash -> 32 <= ord c ->
  scan_string t = Some (raw, rest) -> scan_string (String c t) = Some (String c raw, rest).
Proof.
  intros Hq Hb Hc Ht. cbn [scan_string].
  rewrite (bool_decide_eq_false_2 _ Hq), (bool_decide_eq_false_2 _ Hb).
  by replace (ord c <? 32) with false by lia; rewrite Ht.
Qed.

(** A property of one step of the encoder: the scanner reads its output back
    as one piece, and unquoting that piece gives the rune. *)
Definition reads_back (out : string) (r : Z) : Prop :=
  (1 <= String.length out)%nat
  /\ (forall t raw rest, scan_string t = Some (raw, rest) ->
        scan_string (out +:+ t) = Some (out +:+ raw, rest))
  /\ (forall t, unquote_step (out +:+ t) = Some (EncodeRune r, t)).

Lemma unquote_step_rune (s rest : string) (r : Z) (w : nat) (c : ascii) t :
  s = String c t -> c <> backslash -> DecodeRune s = Some (r, w, rest) ->
  unquote_step s = Some (EncodeRune r, rest).
Proof.
  intros -> Hb H. cbn [unquote_step]. by rewrite (bool_decide_eq_false_2 _ Hb), H.
Qed.

Lemma reads_back_safe (z : Z) : html_safe z = true -> reads_back (single (chr z)) z.
Proof.
  intros H. unfold html_safe in H. cbn [existsb] in H.
  assert (0 <= z < 256) as Hz by lia.
  assert (chr z <> dquote) as Hq by (intros E; apply (f_equal ord) in E; rewrite ord_chr in E by done;
    change (ord dquote) with 34 in E; lia).
  assert (chr z <> backslash) as Hb by (intros E; apply (f_equal ord) in E; rewrite ord_chr in E by done;
    change (ord backslash) with 92 in E; lia).
  split; [done|]. unfold single. split.
  - intros t raw rest Ht. rewrite !append_cons, !append_nil_l. apply scan_plain; [done|done| |done].
    rewrite ord_chr by done. lia.
  - intros t. rewrite append_cons, append_nil_l.
    eapply unquote_step_rune; [done|done|]. unfold DecodeRune. rewrite ord_chr by done.
    by replace (z <? 128) with true by lia.
Qed.

Lemma reads_back_short (e : ascii) (z : Z) :
  esc_byte e = true -> e <> "u"%char -> single (unescape e) = EncodeRune z ->
  reads_back (String backslash (single e)) z.
Proof.
  intros He Hu Hz. split; [cbn; lia|]. unfold single. split.
  - intros t raw rest Ht. rewrite !append_cons, !append_nil_l. cbn [scan_string].
    change (bool_decide (backslash = dquote)) with false.
    change (bool_decide (backslash = backslash)) with true. by rewrite He, Ht.
  - intros t. rewrite !append_cons, append_nil_l. cbn [unquote_step].
    change (bool_decide (backslash = backslash)) with true.
    by rewrite (bool_decide_eq_false_2 _ Hu), Hz.
Qed.

Lemma reads_back_u (h1 h2 h3 h4 : ascii) (a b c d z : Z) :
  hexval h1 = Some a -> hexval h2 = Some b -> hexval h3 = Some c -> hexval h4 = Some d ->
  z = 4096 * a + 256 * b + 16 * c + d -> is_surrogate z = false ->
  reads_back (String backslash (String "u" (String h1 (String h2 (String h3 (single h4)))))) z.
Proof.
  intros H1 H2 H3 H4 -> Hs. split; [cbn; lia|]. unfold single. split.
  - intros t raw rest Ht. rewrite !append_cons, !append_nil_l. cbn [scan_string].
    change (bool_decide (backslash = dquote)) with false.
    change (bool_decide (backslash = backslash)) with true.
    change (esc_byte "u") with false. change (bool_decide ("u"%char = "u"%char)) with true.
    unfold is_hex. rewrite H1, H2, H3, H4. cbn [andb]. by rewrite Ht.
  - intros t. rewrite !append_cons, append_nil_l. cbn [unquote_step].
    change (bool_decide (backslash = backslash)) with true.
    change (bool_decide ("u"%char = "u"%char)) with true. cbn [getu4].
    change (bool_decide (backslash = backslash)) with true.
    change (bool_decide ("u"%char = "u"%char)) with true. cbn [andb].
    by rewrite H1, H2, H3, H4, Hs.
Qed.

Lemma reads_back_u00 (z : Z) : 0 <= z < 256 -> reads_back (u00 z) z.
Proof.
  intros Hz. apply (reads_back_u "0" "0" _ _ 0 0 (z / 16) (z mod 16)); [done|done| | | |].
  - apply hexval_hexdigit. split; [apply Z.div_pos|apply Z.div_lt_upper_bound]; lia.
  - apply hexval_hexdigit, Z.mod_pos_bound. lia.
  - rewrite (Z.div_mod z 16) at 1 by lia. lia.
  - unfold is_surrogate. lia.
Qed.

Lemma reads_back_ascii (z : Z) : 0 <= z < 128 -> reads_back (escape_ascii z) z.
Proof.
  intros Hz. unfold escape_ascii. destruct (html_safe z) eqn:H; [by apply reads_back_safe|].
  destruct ((z =? 34) || (z =? 92)) eqn:E.
  { apply orb_true_iff in E as [?|?]; bool_to_prop; subst z; by apply reads_back_short. }
  repeat (case_match; [bool_to_prop; subst z; by apply reads_back_short|]).
  apply reads_back_u00. lia.
Qed.

(** A multi-byte rune is copied byte by byte. *)
Lemma scan_high (out t raw rest : string) :
  sForall (fun c => 128 <= ord c) out -> scan_string t = Some (raw, rest) ->
  scan_string (out +:+ t) = Some (out +:+ raw, rest).
Proof.
  intros Ho Ht. induction out as [|c out IH]; [done|]. destruct Ho as [Hc Ho].
  rewrite !append_cons. apply scan_plain; [| |lia|by apply IH];
    intros ->; vm_compute in Hc; by apply Hc.
Qed.

(** Replay the tests a case analysis has recorded. *)
Ltac replay :=
  repeat match goal with
  | H : ?b = true |- context [?b] => rewrite H
  | H : ?b = false |- context [?b] => rewrite H
  end.

(** The bytes of a rune wider than one byte. *)
Lemma DecodeRune_bytes (s rest : string) (r : Z) (w : nat) :
  DecodeRune s = Some (r, w, rest) -> w <> 1%nat ->
  s = take_bytes w s +:+ rest /\ sForall (fun c => 128 <= ord c) (take_bytes w s)
  /\ (1 <= String.length (take_bytes w s))%nat
  /\ forall t, DecodeRune (take_bytes w s +:+ t) = Some (r, w, t).
Proof.
  unfold DecodeRune at 1. intros H Hw.
  repeat case_match; simplify_eq; cbn [take_bytes]; rewrite ?append_cons, ?append_nil_l;
    (split; [done|]; split; [|split; [cbn; lia|];
      intros t; unfold DecodeRune; rewrite ?append_cons, ?append_nil_l; by replay]);
    unfold cont, in_range in *; bool_to_prop; cbn;
    unfold accept_lo in *; repeat case_match; repeat split; lia.
Qed.

Lemma DecodeRune_width1 (s rest : string) (r : Z) :
  DecodeRune s = Some (r, 1%nat, rest) -> r = RuneError \/ 0 <= r < 128.
Proof.
  unfold DecodeRune. intros H. destruct s as [|c s]; [done|]. pose proof (ord_range c).
  repeat case_match; simplify_eq; bool_to_prop; auto; lia.
Qed.

Lemma DecodeRune_wide (s rest : string) (r : Z) (w : nat) :
  DecodeRune s = Some (r, w, rest) -> w <> 1%nat -> 128 <= r.
Proof.
  unfold DecodeRune. intros H Hw. destruct s as [|c s]; [done|].
  unfold byte2, byte3, byte4, cont, in_range, accept_lo in *.
  repeat case_match; simplify_eq; bool_to_prop; lia.
Qed.

Lemma escape_step_reads_back (s rest out : string) :
  escape_step s = Some (out, rest) ->
  exists r w, DecodeRune s = Some (r, w, rest) /\ reads_back out r.
Proof.
  unfold escape_step. destruct (DecodeRune s) as [[[r w] rest']|] eqn:E; [|done].
  intros [= <- <-]. exists r, w. split; [done|].
  destruct (r <? 128) eqn:Er.
  { bool_to_prop. apply reads_back_ascii.
    destruct (decide (w = 1%nat)) as [->|Hw].
    - apply DecodeRune_width1 in E as [->|?]; [by vm_compute in Er|done].
    - apply DecodeRune_wide in E; [lia|done]. }
  destruct ((r =? RuneError) && (w =? 1)%nat) eqn:Eb.
  { apply andb_true_iff in Eb as [Eb _]. bool_to_prop. subst r.
    by apply (reads_back_u "f" "f" "f" "d" 15 15 15 13). }
  destruct ((r =? 0x2028) || (r =? 0x2029)) eqn:El.
  { apply orb_true_iff in El as [?|?]; bool_to_prop; subst r;
      [by apply (reads_back_u "2" "0" "2" "8" 2 0 2 8)|by apply (reads_back_u "2" "0" "2" "9" 2 0 2 9)]. }
  assert (w <> 1%nat) as Hw.
  { intros ->. apply DecodeRune_width1 in E as [->|?]; [done|bool_to_prop; lia]. }
  destruct (DecodeRune_bytes _ _ _ _ E Hw) as (_ & Hhigh & Hlen & Hdec).
  split; [done|]. split; [intros; by apply scan_high|].
  intros t. specialize (Hdec t). destruct (take_bytes w s) as [|c q]; [cbn in Hlen; lia|].
  rewrite append_cons in *. eapply unquote_step_rune; [done| |done].
  intros ->. destruct Hhigh as [Hc _]. vm_compute in Hc. by apply Hc.
Qed.

Lemma unquote_step_shorter (s out rest : string) :
  unquote_step s = Some (out, rest) -> (String.length rest < String.length s)%nat.
Proof.
  assert (forall t z rest, getu4 t = Some (z, rest) -> (String.length rest < String.length t)%nat) as Hu.
  { intros t z rest'. unfold getu4. intros H. repeat case_match; simplify_eq; cbn; lia. }
  unfold unquote_step. intros H.
  repeat case_match; simplify_eq;
    repeat match goal with
    | H : getu4 _ = Some _ |- _ => apply Hu in H
    | H : DecodeRune _ = Some _ |- _ => apply DecodeRune_shorter in H
    end; cbn [String.length] in *; lia.
Qed.

Lemma unquote_go_fuel (n m : nat) (s : string) :
  (String.length s <= n)%nat -> (String.length s <= m)%nat -> unquote_go n s = unquote_go m s.
Proof.
  revert m s. induction n as [|n IH]; intros [|m] s Hn Hm; cbn [unquote_go]; try done.
  - destruct s; [done|cbn in *; lia].
  - destruct s; [done|cbn in *; lia].
  - destruct (unquote_step s) as [[out rest]|] eqn:E; [|done].
    apply unquote_step_shorter in E. f_equal. apply IH; lia.
Qed.

(** Unquoting the escaped text of a string gives its runes back. *)
Lemma escape_go_roundtrip (n : nat) (s : string) :
  (String.length s <= n)%nat ->
  (forall rest, scan_string (escape_go n s +:+ String dquote rest) = Some (escape_go n s, rest))
  /\ unquote (escape_go n s) = encode_runes (runes_go n s).
Proof.
  revert s. induction n as [|n IH]; intros s Hn.
  { split; [intros; reflexivity|done]. }
  cbn [escape_go runes_go]. destruct (escape_step s) as [[out rest]|] eqn:E.
  - destruct (escape_step_reads_back _ _ _ E) as (r & w & Hd & Hlen & Hscan & Hun).
    rewrite Hd. pose proof (DecodeRune_shorter _ _ _ _ Hd).
    destruct (IH rest ltac:(lia)) as [IHs IHu]. split.
    + intros rest0. rewrite append_assoc. by apply Hscan.
    + change (encode_runes (r :: runes_go n rest)) with (EncodeRune r +:+ encode_runes (runes_go n rest)).
      rewrite <- IHu. unfold unquote. rewrite length_append.
      destruct (String.length out) as [|k] eqn:Eo; [lia|]. cbn [Nat.add unquote_go].
      rewrite Hun. f_equal. apply unquote_go_fuel; lia.
  - unfold escape_step in E. destruct (DecodeRune s) as [[[??]?]|]; [done|].
    split; [intros; reflexivity|done].
Qed.

(** A string literal reads back as the string, its invalid bytes replaced. *)
Lemma encode_string_roundtrip (s rest : string) (n : nat) (d : Z) :
  parse_value (S n) d (encode_string s +:+ rest) = POk (JString (sanitize s)) rest.
Proof.
  unfold encode_string. rewrite append_cons, append_assoc. unfold single.
  rewrite append_cons, append_nil_l. cbn [parse_value].
  change (bool_decide (dquote = "{"%char)) with false.
  change (bool_decide (dquote = "["%char)) with false.
  unfold parse_scalar. change (bool_decide (dquote = dquote)) with true.
  destruct (escape_go_roundtrip (String.length s) s) as [-> ->]; [done|]. done.
Qed.

(** Plain ASCII is unchanged. *)
Lemma sanitize_ascii (s : string) : is_ascii s = true -> sanitize s = s.
Proof.
  unfold sanitize, runes. induction s as [|c s IH]; [done|]. cbn [is_ascii].
  intros [Hc Hs]%andb_true_iff. cbn [String.length runes_go]. unfold DecodeRune. rewrite Hc.
  change (encode_runes (ord c :: runes_go (String.length s) s))
    with (EncodeRune (ord c) +:+ encode_runes (runes_go (String.length s) s)).
  rewrite IH by done. bool_to_prop. unfold EncodeRune. pose proof (ord_range c).
  replace (valid_rune (ord c)) with true by (unfold valid_rune; lia).
  replace (ord c <? 128) with true by lia. by rewrite chr_ord.
Qed.

(** ** Round trip of integers *)

Lemma is_digit_pretty (x : N) : (x < 10)%N -> is_digit (pretty_N_char x) = true.
Proof.
  intros Hx. assert (x = 0 \/ x = 1 \/ x = 2 \/ x = 3 \/ x = 4 \/ x = 5 \/ x = 6 \/ x = 7 \/ x = 8 \/ x = 9)%N
    as Hc by lia.
  naive_solver.
Qed.

Lemma pretty_nonzero (x : N) : (0 < x < 10)%N -> pretty_N_char x <> "0"%char.
Proof.
  intros Hx. assert (x = 1 \/ x = 2 \/ x = 3 \/ x = 4 \/ x = 5 \/ x = 6 \/ x = 7 \/ x = 8 \/ x = 9)%N
    as Hc by lia.
  naive_solver.
Qed.

(** The digits of a positive number: none else, the first not zero. *)
Lemma pretty_N_go_digits (x : N) (s : string) :
  (0 < x)%N -> exists c q, pretty_N_go x s = String c q +:+ s
    /\ is_digit c = true /\ c <> "0"%char /\ sForall (fun c => is_digit c = true) q.
Proof.
  revert s. induction (N.lt_wf_0 x) as [x _ IH]. intros s Hx.
  rewrite pretty_N_go_step by done.
  destruct (decide (x < 10)%N) as [Hs|Hs].
  - rewrite N.div_small, pretty_N_go_0, N.mod_small by done.
    exists (pretty_N_char x), "". repeat split; auto using is_digit_pretty, pretty_nonzero.
  - destruct (IH (x `div` 10)%N) with (s := String (pretty_N_char (x `mod` 10)) s) as (c & q & -> & Hc & H0 & Hq).
    { apply N.div_lt; lia. }
    { apply N.div_str_pos. lia. }
    exists c, (q +:+ single (pretty_N_char (x `mod` 10))).
    rewrite !append_cons, append_assoc. repeat split; auto.
    apply sForall_app. split; [done|]. split; [|done]. apply is_digit_pretty. by apply N.mod_lt.
Qed.

Lemma take_digits_all (q rest : string) :
  sForall (fun c => is_digit c = true) q -> nodigit rest = true ->
  take_digits (q +:+ rest) = (q, rest).
Proof.
  intros Hq Hr. induction q as [|c q IH].
  - rewrite append_nil_l. destruct rest as [|c r]; [done|]. cbn in *. by destruct (is_digit c).
  - destruct Hq as [Hc Hq]. rewrite append_cons. cbn [take_digits]. by rewrite Hc, IH.
Qed.

Lemma scan_int_pretty (x : N) (rest : string) :
  stop rest = true -> scan_int (pretty x +:+ rest) = Some (pretty x, rest).
Proof.
  intros Hr. unfold pretty, pretty_N. case_decide as Hx.
  - subst. reflexivity.
  - destruct (pretty_N_go_digits x "" ltac:(lia)) as (c & q & -> & Hc & H0 & Hq).
    rewrite append_nil_r, append_cons. cbn [scan_int]. rewrite (bool_decide_eq_false_2 _ H0).
    unfold take_digits1. cbn [take_digits]. rewrite Hc.
    by rewrite take_digits_all by auto using stop_nodigit.
Qed.

Lemma pretty_N_head (x : N) : exists c q, pretty x = String c q /\ is_digit c = true.
Proof.
  unfold pretty, pretty_N. case_decide; [by do 2 eexists|].
  destruct (pretty_N_go_digits x "" ltac:(lia)) as (c & q & -> & Hc & _).
  rewrite append_nil_r. by do 2 eexists.
Qed.

Lemma Itoa_cases (z : Z) : exists sign x, (sign = "" \/ sign = "-") /\ Itoa z = sign +:+ pretty (x : N).
Proof.
  unfold Itoa. destruct z as [|p|p].
  - exists "", 0%N. by auto.
  - exists "", (N.pos p). by auto.
  - exists "-", (N.pos p). by auto.
Qed.

Lemma scan_number_int (c : ascii) (q i rest : string) :
  c <> "-"%char -> scan_int (String c q) = Some (i, rest) -> stop rest = true ->
  scan_number (String c q) = Some (i, rest)
  /\ scan_number (String "-" (String c q)) = Some (String "-" i, rest).
Proof.
  intros Hc Hi Hr. unfold scan_number. rewrite (bool_decide_eq_false_2 _ Hc).
  change (bool_decide ("-"%char = "-"%char)) with true. cbv iota beta zeta.
  rewrite Hi. cbn [mbind option_bind]. rewrite (scan_frac_stop _ Hr). cbn [mbind option_bind].
  rewrite (scan_exp_stop _ Hr). cbn [mbind option_bind]. rewrite !append_nil_r, append_nil_l. done.
Qed.

Lemma parse_scalar_Itoa (z : Z) (rest : string) :
  stop rest = true ->
  exists c q, Itoa z = String c q /\ is_ws c = false
    /\ c <> "{"%char /\ c <> "["%char /\ c <> "}"%char
    /\ parse_scalar c (q +:+ rest) = POk (JNumber (Itoa z)) rest.
Proof.
  intros Hr. destruct (Itoa_cases z) as (sign & x & Hsign & E). rewrite E.
  destruct (pretty_N_head x) as (c & q & Ex & Hc).
  pose proof (scan_int_pretty x rest Hr) as Hs.
  assert (forall P : ascii -> Prop, (forall d, in_range 48 57 d = true -> P d) -> P c) as Hdig by auto.
  assert (c <> "-"%char) as Hm by (apply Hdig; intros d Hd ->; done).
  rewrite Ex, append_cons in Hs. destruct (scan_number_int c (q +:+ rest) _ rest Hm Hs Hr) as [Hn0 Hn1].
  destruct Hsign as [-> | ->]; rewrite ?append_nil_l in *.
  - exists c, q. rewrite Ex.
    repeat split; try (apply Hdig; intros d Hd ->; done).
    { unfold is_ws. apply Hdig. intros d. unfold in_range. lia. }
    unfold parse_scalar. cbv zeta. rewrite !bool_decide_eq_false_2 by (apply Hdig; intros d Hd ->; done).
    rewrite Hc, Hn0. done.
  - exists "-"%char, (pretty x). repeat split; try done.
    unfold parse_scalar. cbv zeta. rewrite Ex, append_cons, Hn1. done.
Qed.

(** ** Round trip of objects *)

(** The syntax tree an encoded value reads back as. *)
Fixpoint tree (v : jsonv) : json :=
  match v with
  | VString s => JString (sanitize s)
  | VInt z => JNumber (Itoa z)
  | VObject m => JObject (map (fun '(k, x) => (sanitize k, encode x, tree x)) m)
  end.

Fixpoint nesting (v : jsonv) : Z :=
  match v with
  | VObject m => 1 + foldr Z.max 0 (map (fun kv => nesting kv.2) m)
  | _ => 0
  end.

Lemma jsonv_nested_ind (P : jsonv -> Prop) :
  (forall s, P (VString s)) -> (forall z, P (VInt z)) ->
  (forall m, Forall (fun kv => P kv.2) m -> P (VObject m)) -> forall v, P v.
Proof.
  intros Hs Hi Ho. fix IH 1. intros [s|z|m]; [apply Hs|apply Hi|].
  apply Ho. induction m as [|[k x] m IHm]; constructor; [apply IH|apply IHm].
Qed.

Definition reads (v : jsonv) : Prop := forall d rest,
  0 <= d -> d + nesting v <= maxNestingDepth -> stop rest = true ->
  exists n, parse_value n d (encode v +:+ rest) = POk (tree v) rest.

Lemma encode_head (v : jsonv) : exists c q, encode v = String c q /\ is_ws c = false.
Proof.
  destruct v as [s|z|m]; [by do 2 eexists| |by do 2 eexists].
  destruct (parse_scalar_Itoa z "" eq_refl) as (c & q & E & Hc & _). exists c, q. by rewrite <- E.
Qed.

Lemma skip_ws_encode (v : jsonv) (rest : string) : skip_ws (encode v +:+ rest) = encode v +:+ rest.
Proof. destruct (encode_head v) as (c & q & -> & Hc). rewrite append_cons. cbn. by rewrite Hc. Qed.

Lemma members_text_false (m : list (string * jsonv)) :
  members_text encode false m
  = match m with [] => "}" | _ => "," +:+ members_text encode true m end.
Proof. by destruct m as [|[k x] m]. Qed.

Lemma stop_members (m : list (string * jsonv)) (rest : string) :
  stop (members_text encode false m +:+ rest) = true.
Proof. rewrite members_text_false. by destruct m. Qed.

(** One member: the key, the colon, the value, then the rest of the list. *)
Lemma parse_members_step n d acc k x m rest :
  parse_value n d (encode x +:+ members_text encode false m +:+ rest)
  = POk (tree x) (members_text encode false m +:+ rest) ->
  parse_members (S n) d acc (members_text encode true ((k, x) :: m) +:+ rest)
  = match m with
    | [] => POk (JObject (acc ++ [(sanitize k, encode x, tree x)])) rest
    | _ => parse_members n d (acc ++ [(sanitize k, encode x, tree x)]) (members_text encode true m +:+ rest)
    end.
Proof.
  intros Hx. change (members_text encode true ((k, x) :: m))
    with (encode_string k +:+ ":" +:+ encode x +:+ members_text encode false m).
  unfold encode_string. rewrite !append_assoc, append_cons, !append_assoc.
  change (single dquote +:+ ?t) with (String dquote t).
  cbn [parse_members]. change (bool_decide (dquote = dquote)) with true. cbv iota.
  destruct (escape_go_roundtrip (String.length k) k) as [Hscan Hun]; [done|].
  rewrite Hscan. change (":" +:+ ?t) with (String ":" t). unfold next_byte at 1.
  cbn [skip_ws]. change (is_ws ":"%char) with false. cbv iota.
  change (bool_decide (":"%char = ":"%char)) with true. cbv iota zeta.
  rewrite skip_ws_encode, Hx, raw_of_app, Hun. fold (sanitize k).
  rewrite members_text_false. destruct m as [|[k' x'] m]; [done|].
  rewrite append_assoc. change ("," +:+ ?t) with (String "," t). unfold next_byte.
  cbn [skip_ws]. change (is_ws ","%char) with false. cbv iota.
  change (bool_decide (","%char = ","%char)) with true. cbv iota. done.
Qed.

Lemma parse_members_text (m : list (string * jsonv)) : forall d acc rest,
  m <> [] -> 0 <= d -> Forall (fun kv => reads kv.2 /\ d + nesting kv.2 <= maxNestingDepth) m ->
  exists n, parse_members n d acc (members_text encode true m +:+ rest)
    = POk (JObject (acc ++ map (fun '(k, x) => (sanitize k, encode x, tree x)) m)) rest.
Proof.
  induction m as [|[k x] m IH]; intros d acc rest Hm Hd HF; [done|].
  inversion HF as [|? ? [Hx Hn] HF']; subst.
  destruct (Hx d (members_text encode false m +:+ rest) Hd Hn (stop_members _ _)) as [n1 H1]. cbn [snd] in H1.
  destruct m as [|kx m'].
  - exists (S n1). by rewrite (parse_members_step _ _ _ _ _ _ _ H1).
  - destruct (IH d (acc ++ [(sanitize k, encode x, tree x)]) rest) as [n2 H2]; [done|done|done|].
    assert (parse_value (n1 + n2) d (encode x +:+ members_text encode false (kx :: m') +:+ rest)
            = POk (tree x) (members_text encode false (kx :: m') +:+ rest)) as H1'.
    { rewrite (proj1 (parse_fuel_mono n1) (n1 + n2)%nat) by (lia || by rewrite H1). done. }
    exists (S (n1 + n2)). rewrite (parse_members_step _ _ _ _ _ _ _ H1').
    rewrite (proj1 (proj2 (parse_fuel_mono n2)) (n1 + n2)%nat) by (lia || by rewrite H2).
    rewrite H2. by rewrite <- app_assoc.
Qed.

Lemma nesting_members (m : list (string * jsonv)) (b : Z) :
  foldr Z.max 0 (map (fun kv => nesting kv.2) m) <= b -> Forall (fun kv => nesting kv.2 <= b) m.
Proof. induction m as [|kv m IH]; cbn; constructor; [lia|apply IH; lia]. Qed.

Lemma nesting_nonneg (v : jsonv) : 0 <= nesting v.
Proof.
  destruct v as [| |m]; cbn; try lia.
  induction m as [|kv m IH]; cbn; lia.
Qed.

Lemma encode_reads (v : jsonv) : reads v.
Proof.
  induction v as [s|z|m IH] using jsonv_nested_ind; intros d rest Hd Hn Hr.
  - exists 1%nat. apply encode_string_roundtrip.
  - exists 1%nat. destruct (parse_scalar_Itoa z rest Hr) as (c & q & E & _ & H1 & H2 & _ & Hp).
    cbn [encode]. rewrite E at 1. rewrite append_cons. cbn [parse_value].
    by rewrite (bool_decide_eq_false_2 _ H1), (bool_decide_eq_false_2 _ H2), Hp.
  - cbn [nesting] in Hn. change (encode (VObject m) +:+ rest)
      with (String "{" (members_text encode true m +:+ rest)).
    assert ((maxNestingDepth <=? d) = false) as Hdepth.
    { assert (0 <= foldr Z.max 0 (map (fun kv : string * jsonv => nesting kv.2) m))
        by (clear; induction m; cbn; lia). lia. }
    destruct m as [|[k x] m].
    { exists 1%nat. cbn [parse_value]. change (bool_decide ("{"%char = "{"%char)) with true.
      cbv iota. by rewrite Hdepth. }
    destruct (parse_members_text ((k, x) :: m) (d + 1) [] rest) as [n Hp]; [done|lia| |].
    { pose proof (nesting_members ((k, x) :: m) (maxNestingDepth - d - 1) ltac:(lia)) as HN.
      rewrite Forall_forall in *. intros kv Hkv. split; [by apply IH|]. specialize (HN _ Hkv). cbn in HN. lia. }
    exists (S n). cbn [parse_value]. change (bool_decide ("{"%char = "{"%char)) with true.
    cbv iota. rewrite Hdepth.
    change (members_text encode true ((k, x) :: m) +:+ rest) with
      (String dquote ((escape_go (String.length k) k +:+ single dquote) +:+ ":" +:+ encode x +:+ members_text encode false m) +:+ rest) in *.
    rewrite append_cons in *. unfold next_byte. cbn [skip_ws]. change (is_ws dquote) with false. cbv iota.
    change (bool_decide (dquote = "}"%char)) with false. cbv iota. exact Hp.
Qed.

(** What the encoder writes parses, to the same members in the same order. *)
Lemma parse_encode (v : jsonv) : nesting v <= maxNestingDepth -> parse (encode v) = Some (tree v).
Proof.
  intros Hn. destruct (encode_reads v 0 "" ltac:(lia) ltac:(lia) eq_refl) as [n H].
  rewrite append_nil_r in H. apply read_as_parse. by exists n, 0.
Qed.

(** So does the document with the newline [Encode] ends it with. *)
Lemma parse_Encode (v : jsonv) : nesting v <= maxNestingDepth -> parse (Encode v) = Some (tree v).
Proof.
  intros Hn. unfold Encode. destruct (encode_reads v 0 (single (chr 10)) ltac:(lia) ltac:(lia) eq_refl) as [n H].
  unfold parse. rewrite skip_ws_encode. set (s := encode v +:+ single (chr 10)) in *.
  assert (parse_value (fuel_for s) 0 s = POk (tree v) (single (chr 10))) as ->; [|done].
  rewrite <- H.
  rewrite <- (proj1 (parse_fuel_mono n) (n + fuel_for s)%nat 0 s) by (lia || by rewrite H).
  symmetry. apply parse_fuel_mono; [lia|]. apply parse_value_fuel.
Qed.

(** Strings that are valid UTF-8 read back unchanged. *)
Definition valid_utf8 (s : string) : Prop := sanitize s = s.

#[export] Instance valid_utf8_dec s : Decision (valid_utf8 s).
Proof. unfold valid_utf8. apply _. Defined.
