(* ===== verification/Result.v ===== *)
(** * Executor outcomes ([internal/webhook/result.go])

    [ResultKind], its label, its HTTP status, and [ExecResult], the value the
    executor hands back to the dispatcher. *)

From S2P Require Import Prelude.

(** A Go [int] enumeration: the seven constants in [iota] order, and any
    other integer, which the two methods map to their default. *)
Inductive ResultKind :=
| ResultNoop
| ResultReady
| ResultTransientFailure
| ResultBadRequest
| ResultUnprocessable
| ResultInternalError
| ResultTimeout
| ResultOther (n : Z).

#[export] Instance ResultKind_eq_dec : EqDecision ResultKind.
Proof. solve_decision. Defined.

Definition ResultKind_String (k : ResultKind) : string :=
  match k with
  | ResultNoop => "noop"
  | ResultReady => "ready"
  | ResultTransientFailure => "transient_failure"
  | ResultBadRequest => "bad_request"
  | ResultUnprocessable => "unprocessable"
  | ResultInternalError => "internal_error"
  | ResultTimeout => "timeout"
  | ResultOther _ => "unknown"
  end.

Definition HTTPStatus (k : ResultKind) : Z :=
  match k with
  | ResultNoop | ResultReady => 200
  | ResultBadRequest => 400
  | ResultUnprocessable => 422
  | ResultTransientFailure => 503
  | ResultTimeout => 504
  | ResultInternalError => 500
  | ResultOther _ => 500
  end.

Record ExecResult := mkExecResult {
  Kind : ResultKind;
  Reason : string;
  CRName : string;
  Namespace : string;
  ObservedGeneration : Z
}.

(** [ExecResult{Kind: k, Reason: r}], the other fields zero. *)
Definition plainResult (k : ResultKind) (reason : string) : ExecResult :=
  mkExecResult k reason "" "" 0.
