(* ===== verification/Runtime.v ===== *)
(** * The world a request handler runs in

    The state webhookd's handlers read and change, and the monad they are
    written in: a state-passing computation that returns or panics.  The
    world holds the clock, the Prometheus instruments, the log, the span
    events, the cluster (a parameter: the Kubernetes API is not part of the
    program), the rate limiters (likewise), the heap of [*http.Request]s and
    of status recorders (both are shared by pointer between middlewares), and
    the connection's response.  [net/http]'s [ResponseWriter], [Header] and
    [Error] are modelled here. *)

From Stdlib Require Import Ascii.
From S2P Require Import Prelude GoStrings Unicode GoTime.

(** ** Requests and contexts *)

Record SpanContext := mkSpanContext { TraceID : string; SpanID : string }.

(** What the handlers store in or read from a [context.Context]: the request
    id, the active span when it is valid, and the instant (in nanoseconds on
    the world's clock) at which the context is done, if any. *)
Record Context := mkContext {
  ctx_request_id : option string;
  ctx_span : option SpanContext;
  ctx_done : option Z
}.

Abbreviation header := (gmap string (list string)).

(** [h.Get(key)]: the key is canonicalised, the first value returned. *)
Definition Header_Get (h : header) (key : string) : string :=
  match h !! CanonicalHeaderKey key with
  | Some (v :: _) => v
  | _ => ""
  end.

Definition Header_Set (key v : string) (h : header) : header :=
  <[CanonicalHeaderKey key := [v]]> h.

(** A request body: the bytes the peer sends, and the error the reader ends
    with when it is not a clean end of file. *)
Record Body := mkBody { b_data : string; b_err : option error }.

(** What the handlers and the mux use of [r.URL]: the decoded path, the
    escaped one, and the query. *)
Record URL_t := mkURL { URL_Path_ : string; EscapedPath : string; RawQuery : string }.

Record Request := mkRequest {
  Method : string;
  RequestURI : string;
  ProtoAtLeast11 : bool;
  URL : URL_t;
  Pattern : string;
  PathValues : gmap string string;
  Header : header;
  ContentLength : Z;
  ReqBody : Body;
  ReqContext : Context
}.

Definition URL_Path (r : Request) : string := URL_Path_ (URL r).

(** ** The response *)

(** The server's side of a response: the header map handlers mutate, the
    status and header snapshot once committed, the body bytes accepted, and
    whether the peer is gone, in which case writes fail. *)
Record conn := mkConn {
  c_header : header;
  c_status : option Z;
  c_sent : header;
  c_body : string;
  c_broken : bool
}.

(** [statusRecorder] of internal/httpx, less the writer it wraps. *)
Record statusRecorder := mkRecorder {
  rec_status : Z;
  rec_bytes : Z;
  rec_wroteHeader : bool
}.

(** ** Telemetry *)

Record log_record := mkLog { log_level : string; log_msg : string; log_attrs : list (string * string) }.

Inductive span_event :=
| SpanStart (name : string)
| SpanAttr (key value : string)
| SpanError (e : error)
| SpanStatus (msg : string)
| SpanEnd.

(** ** The world *)

Record world {C L : Type} := mkWorld {
  w_clock : nat -> Z;
  w_reads : nat;
  w_counters : gmap (string * list string) Z;
  w_observed : list (string * list string * Z);
  w_log : list log_record;
  w_spans : list span_event;
  w_cluster : C;
  w_limiters : gmap string L;
  w_requests : list Request;
  w_recorders : list statusRecorder;
  w_conn : conn
}.
Arguments world : clear implicits.

(** A world at rest: nothing recorded, a fresh connection. *)
Definition start_world {C L : Type} (c : C) (clock : nat -> Z) (qs : list Request) : world C L :=
  mkWorld C L clock 0 ∅ [] [] [] c ∅ qs [] (mkConn ∅ None ∅ "" false).

Inductive outcome (A : Type) :=
| Ret (a : A)
| Panic (v : string).
Arguments Ret {A} a.
Arguments Panic {A} v.

Definition M (C L A : Type) : Type := world C L -> outcome A * world C L.

#[export] Instance M_ret {C L} : MRet (M C L) := fun A a w => (Ret a, w).
#[export] Instance M_bind {C L} : MBind (M C L) := fun A B f m w =>
  match m w with
  | (Ret a, w') => f a w'
  | (Panic v, w') => (Panic v, w')
  end.

Section Operations.
Context {C L : Type}.
Implicit Types (w : world C L).
Local Notation M := (M C L).

Definition panic {A} (v : string) : M A := fun w => (Panic v, w).
Definition get {A} (f : world C L -> A) : M A := fun w => (Ret (f w), w).
Definition modify (f : world C L -> world C L) : M unit := fun w => (Ret tt, f w).

(** Field updates. *)
Definition set_reads (n : nat) w : world C L :=
  mkWorld C L (w_clock w) n (w_counters w) (w_observed w) (w_log w) (w_spans w) (w_cluster w)
          (w_limiters w) (w_requests w) (w_recorders w) (w_conn w).
Definition set_counters f w : world C L :=
  mkWorld C L (w_clock w) (w_reads w) (f (w_counters w)) (w_observed w) (w_log w) (w_spans w)
          (w_cluster w) (w_limiters w) (w_requests w) (w_recorders w) (w_conn w).
Definition set_observed f w : world C L :=
  mkWorld C L (w_clock w) (w_reads w) (w_counters w) (f (w_observed w)) (w_log w) (w_spans w)
          (w_cluster w) (w_limiters w) (w_requests w) (w_recorders w) (w_conn w).
Definition set_log f w : world C L :=
  mkWorld C L (w_clock w) (w_reads w) (w_counters w) (w_observed w) (f (w_log w)) (w_spans w)
          (w_cluster w) (w_limiters w) (w_requests w) (w_recorders w) (w_conn w).
Definition set_spans f w : world C L :=
  mkWorld C L (w_clock w) (w_reads w) (w_counters w) (w_observed w) (w_log w) (f (w_spans w))
          (w_cluster w) (w_limiters w) (w_requests w) (w_recorders w) (w_conn w).
Definition set_cluster (c : C) w : world C L :=
  mkWorld C L (w_clock w) (w_reads w) (w_counters w) (w_observed w) (w_log w) (w_spans w)
          c (w_limiters w) (w_requests w) (w_recorders w) (w_conn w).
Definition set_limiters f w : world C L :=
  mkWorld C L (w_clock w) (w_reads w) (w_counters w) (w_observed w) (w_log w) (w_spans w)
          (w_cluster w) (f (w_limiters w)) (w_requests w) (w_recorders w) (w_conn w).
Definition set_requests f w : world C L :=
  mkWorld C L (w_clock w) (w_reads w) (w_counters w) (w_observed w) (w_log w) (w_spans w)
          (w_cluster w) (w_limiters w) (f (w_requests w)) (w_recorders w) (w_conn w).
Definition set_recorders f w : world C L :=
  mkWorld C L (w_clock w) (w_reads w) (w_counters w) (w_observed w) (w_log w) (w_spans w)
          (w_cluster w) (w_limiters w) (w_requests w) (f (w_recorders w)) (w_conn w).
Definition set_conn f w : world C L :=
  mkWorld C L (w_clock w) (w_reads w) (w_counters w) (w_observed w) (w_log w) (w_spans w)
          (w_cluster w) (w_limiters w) (w_requests w) (w_recorders w) (f (w_conn w)).

(** *** Clock *)

(** One reading of the clock, in nanoseconds since the Unix epoch. *)
Definition clock_read : M Z := fun w => (Ret (w_clock w (w_reads w)), set_reads (S (w_reads w)) w).

Definition time_of_ns (ns : Z) : Time :=
  mkTime (ns / Second + unixToInternal) (ns mod Second).

(** [time.Now()] *)
Definition time_Now : M Time := ns ← clock_read; mret (time_of_ns ns).

(** *** Telemetry *)

Definition add_counter (name : string) (labels : list string) (d : Z) : M unit :=
  modify (set_counters (fun m =>
    <[(name, labels) := default 0 (m !! (name, labels)) + d]> m)).

(** [c.WithLabelValues(labels...).Inc()].  [WithLabelValues] panics on a wrong
    number of values and on a value that is not valid UTF-8; [Instruments]
    shows that no call with [inc] or [observe] is of that kind. *)
Definition inc (name : string) (labels : list string) : M unit := add_counter name labels 1.

(** The same with values a client chooses. *)
Definition inc_values (name : string) (labels : list string) : M unit :=
  if forallb ValidString labels then inc name labels else panic "label value is not valid UTF-8".

(** [h.WithLabelValues(labels...).Observe(v)]; durations in nanoseconds. *)
Definition observe (name : string) (labels : list string) (v : Z) : M unit :=
  modify (set_observed (fun l => l ++ [(name, labels, v)])).

Definition log (level msg : string) (attrs : list (string * string)) : M unit :=
  modify (set_log (fun l => l ++ [mkLog level msg attrs])).

Definition span (ev : span_event) : M unit := modify (set_spans (fun l => l ++ [ev])).

(** *** Requests *)

(** A [*http.Request] is an index into the request heap. *)
Definition deref_request (r : nat) : M Request := fun w =>
  match w_requests w !! r with
  | Some q => (Ret q, w)
  | None => (Panic "nil request", w)
  end.

(** *** net/http's ResponseWriter *)

Definition upd_header (f : header -> header) (c : conn) : conn :=
  mkConn (f (c_header c)) (c_status c) (c_sent c) (c_body c) (c_broken c).

(** [w.WriteHeader(code)] of the server: an invalid code panics, an
    informational one is sent and does not commit, a second call is ignored. *)
Definition conn_WriteHeader (code : Z) : M unit :=
  if (code <? 100) || (999 <? code) then panic "invalid WriteHeader code"
  else
    c ← get w_conn;
    match c_status c with
    | Some _ => log "net/http" "superfluous response.WriteHeader call" []
    | None =>
        if ((100 <=? code) && (code <=? 199)) && negb (code =? 101) then mret tt
        else modify (set_conn (fun c => mkConn (c_header c) (Some code) (c_header c) (c_body c) (c_broken c)))
    end.

Definition body_allowed (status : Z) : bool :=
  negb (((100 <=? status) && (status <=? 199)) || (status =? 204) || (status =? 304)).

Definition ErrBodyNotAllowed : error := Opaque "http: request method or response status code does not allow body".
Definition ErrConnGone : error := Opaque "write: broken pipe".

(** [w.Write(b)]: commits 200 when nothing was committed. *)
Definition conn_Write (b : string) : M (Z * option error) :=
  c0 ← get w_conn;
  (match c_status c0 with None => conn_WriteHeader 200 | Some _ => mret tt end) ;;
  c ← get w_conn;
  if negb (body_allowed (default 200 (c_status c))) then mret (0, Some ErrBodyNotAllowed)
  else if c_broken c then mret (0, Some ErrConnGone)
  else
    modify (set_conn (fun c => mkConn (c_header c) (c_status c) (c_sent c) (c_body c +:+ b) (c_broken c))) ;;
    mret (Z.of_nat (String.length b), None).

End Operations.

Arguments conn_WriteHeader : simpl never.
Arguments conn_Write : simpl never.

(** Run a computation on a world: unfold the monad, reduce. *)
Ltac mrun :=
  unfold mbind, M_bind, mret, M_ret, get, modify, panic in *; cbn in *.

(** One step of a bind whose first part returns. *)
Lemma bind_run {C L A B} (m : M C L A) (f : A -> M C L B) (w w' : world C L) (a : A) :
  m w = (Ret a, w') -> (m ≫= f) w = f a w'.
Proof. intros E. unfold mbind, M_bind. by rewrite E. Qed.

Section ConnLaws.
Context {C L : Type}.
Implicit Types w : world C L.

(** Two worlds that differ in the response, the recorders and the log only. *)
Record response_only (w w' : world C L) : Prop := {
  ro_cluster : w_cluster w' = w_cluster w;
  ro_requests : w_requests w' = w_requests w;
  ro_limiters : w_limiters w' = w_limiters w;
  ro_clock : w_clock w' = w_clock w;
  ro_reads : w_reads w' = w_reads w;
  ro_counters : w_counters w' = w_counters w;
  ro_observed : w_observed w' = w_observed w;
  ro_broken : c_broken (w_conn w') = c_broken (w_conn w)
}.

#[export] Instance response_only_preorder : PreOrder response_only.
Proof. split; [by intros ?; constructor|]. intros ??? [] []. constructor; congruence. Qed.

Lemma conn_WriteHeader_run w code :
  200 <= code <= 999 ->
  exists w', conn_WriteHeader code w = (Ret tt, w') /\ response_only w w'
    /\ c_status (w_conn w') = Some (default code (c_status (w_conn w)))
    /\ c_sent (w_conn w') = match c_status (w_conn w) with
                            | None => c_header (w_conn w) | Some _ => c_sent (w_conn w) end
    /\ c_body (w_conn w') = c_body (w_conn w)
    /\ w_recorders w' = w_recorders w.
Proof.
  intros Hc. unfold conn_WriteHeader.
  replace ((code <? 100) || (999 <? code)) with false by lia. mrun.
  destruct (c_status (w_conn w)) as [s|] eqn:Es.
  - eexists. split; [done|]. cbn. by rewrite Es.
  - replace (((100 <=? code) && (code <=? 199)) && negb (code =? 101)) with false by lia.
    eexists. split; [done|]. split; [by constructor|done].
Qed.

(** A write commits 200 when nothing is committed; it appends all its bytes
    when the peer is there and the status allows a body, else none. *)
Lemma conn_Write_run w b :
  exists n e w', conn_Write b w = (Ret (n, e), w') /\ response_only w w'
    /\ c_status (w_conn w') = Some (default 200 (c_status (w_conn w)))
    /\ c_sent (w_conn w') = match c_status (w_conn w) with
                            | None => c_header (w_conn w) | Some _ => c_sent (w_conn w) end
    /\ (c_broken (w_conn w) = false -> body_allowed (default 200 (c_status (w_conn w))) = true ->
        c_body (w_conn w') = c_body (w_conn w) +:+ b /\ e = None)
    /\ w_recorders w' = w_recorders w.
Proof.
  assert (forall w0 s, c_status (w_conn w0) = Some s ->
    exists n e w', (c ← get w_conn;
      if negb (body_allowed (default 200 (c_status c))) then mret (0, Some ErrBodyNotAllowed)
      else if c_broken c then mret (0, Some ErrConnGone)
      else
        modify (set_conn (fun c => mkConn (c_header c) (c_status c) (c_sent c) (c_body c +:+ b) (c_broken c))) ;;
        mret (Z.of_nat (String.length b), None)) w0 = (Ret (n, e), w') /\ response_only w0 w'
      /\ c_status (w_conn w') = Some s /\ c_sent (w_conn w') = c_sent (w_conn w0)
      /\ (c_broken (w_conn w0) = false -> body_allowed s = true ->
          c_body (w_conn w') = c_body (w_conn w0) +:+ b /\ e = None)
      /\ w_recorders w' = w_recorders w0) as Hrest.
  { intros w0 s Es. mrun. rewrite Es. cbn. destruct (body_allowed s) eqn:Eb; cbn.
    - destruct (c_broken (w_conn w0)) eqn:Ebr; do 3 eexists; (split; [done|]).
      + by repeat split.
      + by repeat split.
    - do 3 eexists. split; [done|]. by repeat split. }
  unfold conn_Write. erewrite bind_run by reflexivity.
  destruct (c_status (w_conn w)) as [s|] eqn:Es.
  - erewrite bind_run by reflexivity. exact (Hrest w s Es).
  - destruct (conn_WriteHeader_run w 200 ltac:(lia)) as (w1 & E1 & Hro & Hs & Hsent & Hb & Hr).
    rewrite (bind_run _ _ _ _ _ E1). rewrite Es in Hs, Hsent. cbn in Hs.
    destruct (Hrest w1 200 Hs) as (n & e & w2 & E2 & Hro2 & Hs2 & Hsent2 & Hb2 & Hr2).
    exists n, e, w2. split; [exact E2|]. split; [by etrans|]. split; [done|].
    split; [congruence|]. split; [|congruence].
    rewrite <- Hb, <- (ro_broken _ _ Hro). exact Hb2.
Qed.

End ConnLaws.

(** An [http.ResponseWriter]: the server's, or a recorder (an index into the
    recorder heap) around another one. *)
Inductive ResponseWriter :=
| RWConn
| RWRecorder (l : nat) (inner : ResponseWriter).
