(* ===== verification/Recorder.v ===== *)
(** * Status recorders and [http.Error] ([internal/httpx/middleware.go])

    [statusRecorder] wraps a [ResponseWriter] so that the middlewares can
    read the status and the byte count after the handler returns. *)

From S2P Require Import Prelude GoStrings Unicode GoTime Runtime.

Section Recorder.
Context {C L : Type}.
Local Notation M := (M C L).

(** [newStatusRecorder(w)]: a fresh recorder, its status 200 by default. *)
Definition newStatusRecorder (w : ResponseWriter) : M ResponseWriter :=
  l ← get (fun s => length (w_recorders s));
  modify (set_recorders (fun rs => rs ++ [mkRecorder 200 0 false])) ;;
  mret (RWRecorder l w).

Definition deref_recorder (l : nat) : M statusRecorder := fun s =>
  match w_recorders s !! l with
  | Some r => (Ret r, s)
  | None => (Panic "nil recorder", s)
  end.

Definition upd_recorder (l : nat) (r : statusRecorder) : M unit :=
  modify (set_recorders (fun rs => <[l := r]> rs)).

(** [w.WriteHeader(code)] *)
Fixpoint WriteHeader (w : ResponseWriter) (code : Z) : M unit :=
  match w with
  | RWConn => conn_WriteHeader code
  | RWRecorder l inner =>
      s ← deref_recorder l;
      if rec_wroteHeader s then mret tt
      else
        upd_recorder l (mkRecorder code (rec_bytes s) true) ;;
        WriteHeader inner code
  end.

(** [w.Write(b)] *)
Fixpoint Write (w : ResponseWriter) (b : string) : M (Z * option error) :=
  match w with
  | RWConn => conn_Write b
  | RWRecorder l inner =>
      s ← deref_recorder l;
      (if negb (rec_wroteHeader s)
       then upd_recorder l (mkRecorder (rec_status s) (rec_bytes s) true)
       else mret tt) ;;
      '(n, err) ← Write inner b;
      s' ← deref_recorder l;
      upd_recorder l (mkRecorder (rec_status s') (rec_bytes s' + n) (rec_wroteHeader s')) ;;
      mret (n, err)
  end.

(** [w.Header().Set(k, v)]: every wrapper exposes the server's header map. *)
Definition SetHeader (w : ResponseWriter) (k v : string) : M unit :=
  modify (set_conn (upd_header (Header_Set k v))).

Definition DelHeader (w : ResponseWriter) (k : string) : M unit :=
  modify (set_conn (upd_header (fun h => delete (CanonicalHeaderKey k) h))).

(** [http.Error(w, msg, code)] *)
Definition http_Error (w : ResponseWriter) (msg : string) (code : Z) : M unit :=
  DelHeader w "Content-Length" ;;
  SetHeader w "Content-Type" "text/plain; charset=utf-8" ;;
  SetHeader w "X-Content-Type-Options" "nosniff" ;;
  WriteHeader w code ;;
  Write w (msg +:+ single (chr 10)) ;;
  mret tt.

End Recorder.

(** An [http.Handler]: [ServeHTTP(w, r)]. *)
Definition Handler (C L : Type) : Type := ResponseWriter -> nat -> M C L unit.

(** A recorder agrees with the connection under it: it has seen a header
    exactly when one is committed, and then it holds the committed status. *)
Definition agrees {C L} (w : world C L) (l : nat) : Prop :=
  exists r, w_recorders w !! l = Some r
    /\ match c_status (w_conn w) with
       | Some s => rec_wroteHeader r = true /\ rec_status r = s
       | None => rec_wroteHeader r = false /\ rec_status r = 200
       end.

(** The recorders of a writer. *)
Fixpoint indexes (rw : ResponseWriter) : list nat :=
  match rw with
  | RWConn => []
  | RWRecorder l inner => l :: indexes inner
  end.

(** The invariant of a writer: its recorders are distinct and agree. *)
Definition good {C L} (rw : ResponseWriter) (w : world C L) : Prop :=
  NoDup (indexes rw) /\ Forall (agrees w) (indexes rw).

Section RecorderLaws.
Context {C L : Type}.
Implicit Types w : world C L.

Lemma good_conn w : good RWConn w.
Proof. split; constructor. Qed.

Lemma good_inner l inner w : good (RWRecorder l inner) w -> good inner w.
Proof. intros [Hn HF]. cbn in *. apply NoDup_cons in Hn as [_ Hn]. apply Forall_cons in HF as [_ HF]. done. Qed.

(** The invariant reads the recorders of the writer and the status only. *)
Lemma good_frame rw w w' :
  good rw w -> (forall l, l ∈ indexes rw -> w_recorders w' !! l = w_recorders w !! l) ->
  c_status (w_conn w') = c_status (w_conn w) -> good rw w'.
Proof.
  intros [Hn HF] Hr Hs. split; [done|]. rewrite Forall_forall in *. intros l Hl.
  destruct (HF l Hl) as (r & Er & Hag). exists r. rewrite (Hr l Hl), Hs. done.
Qed.

(** Two worlds with the same recorders, those of a writer apart. *)
Definition others_kept rw w w' : Prop :=
  forall l, l ∉ indexes rw -> w_recorders w' !! l = w_recorders w !! l.

Lemma newStatusRecorder_good rw w :
  good rw w -> c_status (w_conn w) = None ->
  exists rw' w', newStatusRecorder rw w = (Ret rw', w') /\ good rw' w' /\ response_only w w'
    /\ rw' = RWRecorder (length (w_recorders w)) rw /\ w_conn w' = w_conn w.
Proof.
  intros Hg Hs. assert (Forall (fun l => l < length (w_recorders w))%nat (indexes rw)) as Hlt.
  { destruct Hg as [_ HF]. eapply Forall_impl; [exact HF|]. intros l (r & Er & _). by eapply lookup_lt_Some. }
  do 2 eexists. split; [reflexivity|]. split; [|by split].
  destruct Hg as [Hn HF]. split; cbn [indexes].
  - apply NoDup_cons. split; [|done]. intros Hin. rewrite Forall_forall in Hlt. specialize (Hlt _ Hin). lia.
  - apply Forall_cons. split.
    + eexists. cbn. split; [rewrite lookup_app_r by done; by rewrite Nat.sub_diag|]. by rewrite Hs.
    + rewrite Forall_forall in *. intros l Hl. destruct (HF l Hl) as (r & Er & Hag).
      exists r. cbn. split; [|done]. rewrite lookup_app_l by (by eapply lookup_lt_Some). done.
Qed.

Lemma lookup_upd (l : nat) (rs : list statusRecorder) (r r' : statusRecorder) :
  rs !! l = Some r -> <[l:=r']> rs !! l = Some r'.
Proof. intros H. apply list_lookup_insert_eq. by eapply lookup_lt_Some. Qed.

Lemma upd_recorder_run l r w :
  exists w', upd_recorder l r w = (Ret tt, w') /\ response_only w w' /\ w_conn w' = w_conn w
    /\ w_recorders w' = <[l := r]> (w_recorders w).
Proof. eexists. split; [reflexivity|]. by split. Qed.

Lemma deref_recorder_run l r w :
  w_recorders w !! l = Some r -> deref_recorder l w = (Ret r, w).
Proof. intros E. unfold deref_recorder. by rewrite E. Qed.

(** After the inner writer has answered, the outer recorder agrees again. *)
Lemma good_outer l inner w w0 w' r r' :
  good (RWRecorder l inner) w -> w_recorders w !! l = Some r ->
  w_recorders w0 = <[l := r']> (w_recorders w) -> others_kept inner w0 w' -> good inner w' ->
  match c_status (w_conn w') with
  | Some s => rec_wroteHeader r' = true /\ rec_status r' = s
  | None => rec_wroteHeader r' = false /\ rec_status r' = 200
  end ->
  good (RWRecorder l inner) w' /\ w_recorders w' !! l = Some r' /\ others_kept (RWRecorder l inner) w w'.
Proof.
  intros [Hn _] Hr H0 Hk [_ HF'] Hag. cbn [indexes] in *. apply NoDup_cons in Hn as [Hl Hn].
  assert (w_recorders w' !! l = Some r') as Hl'.
  { rewrite (Hk l Hl), H0. by eapply lookup_upd. }
  split; [|split; [done|]].
  - split; cbn [indexes]; [by apply NoDup_cons|]. apply Forall_cons. split; [|done]. by exists r'.
  - intros k Hkn. cbn [indexes] in Hkn. apply not_elem_of_cons in Hkn as [Hne Hki].
    rewrite (Hk k Hki), H0. by apply list_lookup_insert_ne.
Qed.

(** A final status keeps the invariant and never panics; the first one is
    committed, with the headers set so far. *)
Lemma WriteHeader_good rw w code :
  good rw w -> 200 <= code <= 999 ->
  exists w', WriteHeader rw code w = (Ret tt, w') /\ good rw w' /\ response_only w w'
    /\ others_kept rw w w'
    /\ c_status (w_conn w') = Some (default code (c_status (w_conn w)))
    /\ c_sent (w_conn w') = match c_status (w_conn w) with
                            | None => c_header (w_conn w) | Some _ => c_sent (w_conn w) end
    /\ c_body (w_conn w') = c_body (w_conn w).
Proof.
  revert w. induction rw as [|l inner IH]; intros w Hg Hc.
  - destruct (conn_WriteHeader_run w code Hc) as (w' & E & Hro & Hs & Hsent & Hb & Hr).
    exists w'. split; [done|]. split; [apply good_conn|]. repeat (split; [done|]). split; [|done].
    intros l _. by rewrite Hr.
  - pose proof (good_inner _ _ _ Hg) as Hgi. destruct (Hg) as [Hn HF]. cbn in Hn, HF.
    apply Forall_cons in HF as [(r & Hr & Hag) _]. apply NoDup_cons in Hn as [Hl _].
    cbn [WriteHeader]. rewrite (bind_run _ _ _ _ _ (deref_recorder_run _ _ _ Hr)).
    destruct (c_status (w_conn w)) as [s|] eqn:Es; destruct Hag as [Hw Hst]; rewrite Hw.
    + exists w. rewrite Es. split; [done|]. split; [done|]. split; [done|]. split; [by intros k _|done].
    + destruct (upd_recorder_run l (mkRecorder code (rec_bytes r) true) w) as (w0 & E0 & Hro0 & Hc0 & Hr0).
      rewrite (bind_run _ _ _ _ _ E0).
      assert (good inner w0) as Hg0.
      { eapply good_frame; [done| |by rewrite Hc0]. intros k Hk. rewrite Hr0.
        apply list_lookup_insert_ne. by intros ->. }
      destruct (IH w0 Hg0 Hc) as (w' & E' & Hg' & Hro' & Hk' & Hs' & Hsent' & Hb').
      rewrite Hc0, Es in *. cbn in Hs'. exists w'. split; [done|].
      destruct (good_outer l inner w w0 w' r (mkRecorder code (rec_bytes r) true)) as (H1 & _ & H3);
        try done. { by rewrite Hs'. }
      split; [done|]. split; [by etrans|]. by repeat split.
Qed.

(** A write keeps the invariant; it commits 200 when nothing is committed. *)
Lemma Write_good rw w b :
  good rw w ->
  exists n e w', Write rw b w = (Ret (n, e), w') /\ good rw w' /\ response_only w w'
    /\ others_kept rw w w'
    /\ c_status (w_conn w') = Some (default 200 (c_status (w_conn w)))
    /\ c_sent (w_conn w') = match c_status (w_conn w) with
                            | None => c_header (w_conn w) | Some _ => c_sent (w_conn w) end
    /\ (c_broken (w_conn w) = false -> body_allowed (default 200 (c_status (w_conn w))) = true ->
        c_body (w_conn w') = c_body (w_conn w) +:+ b /\ e = None).
Proof.
  revert w. induction rw as [|l inner IH]; intros w Hg.
  - destruct (conn_Write_run w b) as (n & e & w' & E & Hro & Hs & Hsent & Hb & Hr).
    exists n, e, w'. split; [done|]. split; [apply good_conn|]. split; [done|].
    split; [intros l _; by rewrite Hr|]. done.
  - pose proof (good_inner _ _ _ Hg) as Hgi. destruct (Hg) as [Hn HF]. cbn in Hn, HF.
    apply Forall_cons in HF as [(r & Hr & Hag) _]. apply NoDup_cons in Hn as [Hl _].
    cbn [Write]. rewrite (bind_run _ _ _ _ _ (deref_recorder_run _ _ _ Hr)).
    set (r1 := mkRecorder (rec_status r) (rec_bytes r) true).
    assert (exists w0, (if negb (rec_wroteHeader r) then upd_recorder l r1 else mret tt) w = (Ret tt, w0)
      /\ response_only w w0 /\ w_conn w0 = w_conn w /\ w_recorders w0 = <[l := r1]> (w_recorders w))
      as (w0 & E0 & Hro0 & Hc0 & Hr0).
    { destruct (rec_wroteHeader r) eqn:Ew; cbn [negb]; [|apply upd_recorder_run].
      exists w. repeat (split; [done|]). symmetry. apply list_insert_id.
      rewrite Hr. unfold r1. rewrite <- Ew. by destruct r. }
    rewrite (bind_run _ _ _ _ _ E0).
    assert (good inner w0) as Hg0.
    { eapply good_frame; [done| |by rewrite Hc0]. intros k Hk. rewrite Hr0.
      apply list_lookup_insert_ne. by intros ->. }
    destruct (IH w0 Hg0) as (n & e & w1 & E1 & Hg1 & Hro1 & Hk1 & Hs1 & Hsent1 & Hb1).
    rewrite (bind_run _ _ _ _ _ E1). rewrite Hc0 in *.
    destruct (good_outer l inner w w0 w1 r r1) as (H1 & Hr1 & H3); try done.
    { rewrite Hs1. cbn. destruct (c_status (w_conn w)); cbn; naive_solver. }
    rewrite (bind_run _ _ _ _ _ (deref_recorder_run _ _ _ Hr1)).
    destruct (upd_recorder_run l (mkRecorder (rec_status r1) (rec_bytes r1 + n) (rec_wroteHeader r1)) w1)
      as (w2 & E2 & Hro2 & Hc2 & Hr2).
    rewrite (bind_run _ _ _ _ _ E2). exists n, e, w2. split; [done|].
    destruct (good_outer l inner w1 w2 w2 r1 (mkRecorder (rec_status r1) (rec_bytes r1 + n) (rec_wroteHeader r1)))
      as (H4 & _ & H6); try done.
    { eapply good_frame; [exact Hg1| |by rewrite Hc2]. intros k Hk. rewrite Hr2.
      apply list_lookup_insert_ne. by intros ->. }
    { rewrite Hc2, Hs1. cbn. destruct (c_status (w_conn w)); cbn; naive_solver. }
    split; [done|]. split; [etrans; [exact Hro0|]; etrans; [exact Hro1|exact Hro2]|].
    split; [intros k Hk; by rewrite (H6 k Hk), (H3 k Hk)|]. by rewrite Hc2.
Qed.

(** Setting headers before the commit. *)
Lemma modify_header_run f w :
  exists w', modify (set_conn (upd_header f)) w = (Ret tt, w') /\ response_only w w'
    /\ w_recorders w' = w_recorders w
    /\ w_conn w' = mkConn (f (c_header (w_conn w))) (c_status (w_conn w)) (c_sent (w_conn w))
                          (c_body (w_conn w)) (c_broken (w_conn w)).
Proof. eexists. split; [reflexivity|]. by repeat split. Qed.

Lemma good_header rw w w' :
  good rw w -> w_recorders w' = w_recorders w -> c_status (w_conn w') = c_status (w_conn w) -> good rw w'.
Proof. intros Hg Hr Hs. eapply good_frame; [done| |done]. intros l _. by rewrite Hr. Qed.

(** A response is one status and one body, on a fresh connection. *)
Definition answered (w : world C L) (status : Z) (body : string) : Prop :=
  c_status (w_conn w) = Some status /\ (c_broken (w_conn w) = false -> c_body (w_conn w) = body).

(** Nothing is committed yet. *)
Definition fresh (w : world C L) : Prop := c_status (w_conn w) = None /\ c_body (w_conn w) = "".

(** Headers, a status, a body: the shape of every response. *)
Lemma respond_run rw w code (f : header -> header) b :
  good rw w -> fresh w -> 200 <= code <= 999 -> body_allowed code = true ->
  exists n e w', (modify (set_conn (upd_header f)) ;; WriteHeader rw code ;; Write rw b) w = (Ret (n, e), w')
    /\ good rw w' /\ response_only w w' /\ answered w' code b
    /\ c_sent (w_conn w') = f (c_header (w_conn w))
    /\ (c_broken (w_conn w) = false -> e = None).
Proof.
  intros Hg [Hs Hb] Hc Hbody.
  destruct (modify_header_run f w) as (w0 & E0 & Hro0 & Hr0 & Hc0).
  rewrite (bind_run _ _ _ _ _ E0).
  assert (good rw w0) as Hg0 by (apply (good_header rw w); [done|done|by rewrite Hc0]).
  destruct (WriteHeader_good rw w0 code Hg0 Hc) as (w1 & E1 & Hg1 & Hro1 & _ & Hs1 & Hsent1 & Hb1).
  rewrite (bind_run _ _ _ _ _ E1). rewrite Hc0 in Hs1, Hsent1, Hb1. cbn in Hs1, Hsent1, Hb1.
  rewrite Hs in Hs1, Hsent1. cbn in Hs1.
  destruct (Write_good rw w1 b Hg1) as (n & e & w2 & E2 & Hg2 & Hro2 & _ & Hs2 & Hsent2 & Hb2).
  rewrite Hs1 in Hs2, Hb2, Hsent2. cbn in Hs2, Hb2.
  exists n, e, w2. split; [done|]. split; [done|].
  split; [etrans; [exact Hro0|]; etrans; [exact Hro1|exact Hro2]|].
  assert (c_broken (w_conn w1) = c_broken (w_conn w)) as Hbr1.
  { rewrite (ro_broken _ _ Hro1), (ro_broken _ _ Hro0). done. }
  split; [|split; [congruence|]].
  - split; [done|]. rewrite (ro_broken _ _ Hro2). intros Hbr. destruct (Hb2 Hbr Hbody) as [-> _].
    by rewrite Hb1, Hb.
  - intros Hbr. apply Hb2; [congruence|done].
Qed.

Definition error_headers (h : header) : header :=
  Header_Set "X-Content-Type-Options" "nosniff"
    (Header_Set "Content-Type" "text/plain; charset=utf-8" (delete (CanonicalHeaderKey "Content-Length") h)).

Lemma http_Error_run rw w msg code :
  good rw w -> fresh w -> 200 <= code <= 999 -> body_allowed code = true ->
  exists w', http_Error rw msg code w = (Ret tt, w') /\ good rw w' /\ response_only w w'
    /\ answered w' code (msg +:+ single (chr 10))
    /\ c_sent (w_conn w') = error_headers (c_header (w_conn w)).
Proof.
  intros Hg Hf Hc Hb.
  destruct (respond_run rw w code error_headers (msg +:+ single (chr 10)) Hg Hf Hc Hb)
    as (n & e & w' & E & Hg' & Hro & Ha & Hsent & _).
  exists w'. split; [|done]. unfold http_Error, DelHeader, SetHeader.
  do 3 (erewrite bind_run by reflexivity). erewrite bind_run in E by reflexivity.
  match goal with |- _ ?w0 = _ =>
    change (set_conn (upd_header error_headers) w) with w0 in E; revert E; generalize w0 end.
  intros w0 E. unfold mbind, M_bind in *.
  destruct (WriteHeader rw code w0) as [[[]|?] w1]; [|done]. by rewrite E.
Qed.

End RecorderLaws.
