(* ===== verification/Action.v ===== *)
(** * The contracts between dispatcher, providers and executor

    [internal/webhook/action.go] and [provider.go]: the [Action] union, the
    two sentinels a provider classifies its errors with, and the [Provider]
    interface.  [client.Object] belongs to controller-runtime; it is the class
    [ClientObject], whose accessor laws are those of Kubernetes metadata.
    [PureProvider] states what the interface's comment demands of an
    implementation: no effect on Kubernetes or on the response. *)

From S2P Require Import Prelude GoStrings Unicode GoTime Result JsonEncode Runtime.

(** ** [client.Object] *)

Abbreviation string_map_t := (gmap string string).

(** A value of [O] is the object behind the interface's pointer.
    [DeepCopyObject] is [None] when the copy is not a [client.Object]. *)
Class ClientObject (O : Type) := {
  GetName : O -> string;
  GetNamespace : O -> string;
  GetGeneration : O -> Z;
  GetLabels : O -> string_map_t;
  GetAnnotations : O -> string_map_t;
  SetLabels : string_map_t -> O -> O;
  SetAnnotations : string_map_t -> O -> O;
  DeepCopyObject : O -> option O
}.

(** Setting labels or annotations changes nothing else. *)
Class ClientObjectLaws (O : Type) `{!ClientObject O} := {
  GetLabels_SetLabels m (o : O) : GetLabels (SetLabels m o) = m;
  GetLabels_SetAnnotations m (o : O) : GetLabels (SetAnnotations m o) = GetLabels o;
  GetAnnotations_SetAnnotations m (o : O) : GetAnnotations (SetAnnotations m o) = m;
  GetAnnotations_SetLabels m (o : O) : GetAnnotations (SetLabels m o) = GetAnnotations o;
  GetName_SetLabels m (o : O) : GetName (SetLabels m o) = GetName o;
  GetName_SetAnnotations m (o : O) : GetName (SetAnnotations m o) = GetName o;
  GetNamespace_SetLabels m (o : O) : GetNamespace (SetLabels m o) = GetNamespace o;
  GetNamespace_SetAnnotations m (o : O) : GetNamespace (SetAnnotations m o) = GetNamespace o;
  SetLabels_SetLabels m m' (o : O) : SetLabels m (SetLabels m' o) = SetLabels m o;
  SetAnnotations_SetAnnotations m m' (o : O) : SetAnnotations m (SetAnnotations m' o) = SetAnnotations m o;
  SetLabels_SetAnnotations m m' (o : O) : SetLabels m (SetAnnotations m' o) = SetAnnotations m' (SetLabels m o);
  SetLabels_GetLabels (o : O) : SetLabels (GetLabels o) o = o;
  SetAnnotations_GetAnnotations (o : O) : SetAnnotations (GetAnnotations o) o = o
}.

#[export] Hint Rewrite @GetLabels_SetLabels @GetLabels_SetAnnotations @GetAnnotations_SetAnnotations
  @GetAnnotations_SetLabels @GetName_SetLabels @GetName_SetAnnotations
  @GetNamespace_SetLabels @GetNamespace_SetAnnotations @SetLabels_SetLabels @SetAnnotations_SetAnnotations
  @SetLabels_SetAnnotations @SetLabels_GetLabels @SetAnnotations_GetAnnotations using typeclasses eauto : webhookd.

(** ** Actions *)

(** [OL] is the type of [client.ObjectList]s. *)
Record ApplyAction {O OL : Type} := mkApplyAction {
  Object : O;
  ListObject : OL;
  ReadyCheck : O -> Z -> bool * Z;
  Annotations : string_map_t;
  act_Kind : string;
  Source : string
}.
Arguments ApplyAction : clear implicits.
Arguments mkApplyAction {O OL} _ _ _ _ _ _.

(** The closed union, and the values outside it the executor rejects
    (a nil interface among them), by the name of their type. *)
Inductive Action {O OL : Type} :=
| NoopAction (Reason : string)
| Apply (act : ApplyAction O OL)
| UnknownAction (T : string).
Arguments Action : clear implicits.

Definition ErrBadRequest : error := Sentinel "webhook.ErrBadRequest" "bad request".
Definition ErrUnprocessable : error := Sentinel "webhook.ErrUnprocessable" "unprocessable".

(** ** Providers *)

Record Provider {C L O OL : Type} := mkProvider {
  Name : string;
  VerifySignature : nat -> string -> M C L (option error);
  Handle : Context -> string -> M C L (result (Action O OL));
  BuildResponse : ExecResult -> string -> string -> jsonv
}.
Arguments Provider : clear implicits.

(** ** Frame conditions *)

(** Two worlds that differ in telemetry and in the clock only. *)
Record same_io {C L : Type} (w w' : world C L) : Prop := {
  same_cluster : w_cluster w' = w_cluster w;
  same_conn : w_conn w' = w_conn w;
  same_requests : w_requests w' = w_requests w;
  same_recorders : w_recorders w' = w_recorders w;
  same_limiters : w_limiters w' = w_limiters w;
  same_clock : w_clock w' = w_clock w
}.

#[export] Instance same_io_preorder {C L} : PreOrder (@same_io C L).
Proof. split; [by intros ?; constructor|]. intros ??? [] []. constructor; congruence. Qed.

(** Two worlds with the same HTTP side: connection, requests, recorders and
    limiters. *)
Record same_http {C L : Type} (w w' : world C L) : Prop := {
  http_conn : w_conn w' = w_conn w;
  http_requests : w_requests w' = w_requests w;
  http_recorders : w_recorders w' = w_recorders w;
  http_limiters : w_limiters w' = w_limiters w
}.

#[export] Instance same_http_preorder {C L} : PreOrder (@same_http C L).
Proof. split; [by intros ?; constructor|]. intros ??? [] []. constructor; congruence. Qed.

#[export] Instance same_io_http {C L} : subrelation (@same_io C L) same_http.
Proof. intros w w' []. by constructor. Qed.

(** A computation that returns, in a world [R] relates to the initial one. *)
Definition runs {C L A} (R : relation (world C L)) (m : M C L A) : Prop :=
  forall w, exists a w', m w = (Ret a, w') /\ R w w'.

(** It touches telemetry and the clock only. *)
Abbreviation quiet := (runs same_io).

(** What a [Provider] promises the dispatcher. *)
Class PureProvider {C L O OL} (p : Provider C L O OL) : Prop := {
  VerifySignature_quiet r body w q :
    w_requests w !! r = Some q ->
    exists e w', VerifySignature p r body w = (Ret e, w') /\ same_io w w';
  Handle_quiet ctx body : quiet (Handle p ctx body)
}.

Section Runs.
Context {C L : Type} {R : relation (world C L)} `{!PreOrder R}.

Lemma runs_ret {A} (a : A) : runs R (mret a).
Proof. intros w. by exists a, w. Qed.

Lemma runs_bind {A B} (m : M C L A) (f : A -> M C L B) :
  runs R m -> (forall a, runs R (f a)) -> runs R (m ≫= f).
Proof.
  intros Hm Hf w. destruct (Hm w) as (a & w1 & E1 & S1). destruct (Hf a w1) as (b & w2 & E2 & S2).
  exists b, w2. split; [|by etrans]. unfold mbind, M_bind. by rewrite E1.
Qed.

Lemma runs_if {A} (b : bool) (m1 m2 : M C L A) : runs R m1 -> runs R m2 -> runs R (if b then m1 else m2).
Proof. by destruct b. Qed.

Lemma runs_get {A} (f : world C L -> A) : runs R (get f).
Proof. intros w. by exists (f w), w. Qed.

Lemma runs_quiet {A} (m : M C L A) : subrelation same_io R -> quiet m -> runs R m.
Proof. intros HR Hm w. destruct (Hm w) as (a & w' & E & S). exists a, w'. eauto. Qed.

End Runs.

(** Likewise from a given world, with a postcondition on the value and the
    world left. *)
Definition yields {C L A} (R : relation (world C L)) (Q : A -> world C L -> Prop) (m : M C L A)
    (w : world C L) : Prop :=
  exists a w', m w = (Ret a, w') /\ R w w' /\ Q a w'.

Section Yields.
Context {C L : Type} {R : relation (world C L)} `{!PreOrder R}.

Lemma yields_ret {A} (Q : A -> world C L -> Prop) (a : A) w : Q a w -> yields R Q (mret a) w.
Proof. intros Ha. by exists a, w. Qed.

Lemma yields_bind {A B} (P : A -> world C L -> Prop) (Q : B -> world C L -> Prop)
    (m : M C L A) (f : A -> M C L B) w :
  yields R P m w -> (forall a w', P a w' -> yields R Q (f a) w') -> yields R Q (m ≫= f) w.
Proof.
  intros (a & w1 & E1 & S1 & Pa) Hf. destruct (Hf a w1 Pa) as (b & w2 & E2 & S2 & Qb).
  exists b, w2. split; [unfold mbind, M_bind; by rewrite E1|]. split; [by etrans|done].
Qed.

(** A step whose run is known. *)
Lemma yields_run {A B} (Q : B -> world C L -> Prop) (m : M C L A) (f : A -> M C L B) a w w1 :
  m w = (Ret a, w1) -> R w w1 -> yields R Q (f a) w1 -> yields R Q (m ≫= f) w.
Proof.
  intros E HR Hf. apply (yields_bind (fun a' w' => a' = a /\ w' = w1)); [by exists a, w1|].
  by intros ? ? [-> ->].
Qed.

(** A step that touches telemetry and the clock only. *)
Lemma yields_skip {A B} (Q : B -> world C L -> Prop) (m : M C L A) (f : A -> M C L B) w :
  subrelation same_io R -> quiet m ->
  (forall a w', w_cluster w' = w_cluster w -> yields R Q (f a) w') -> yields R Q (m ≫= f) w.
Proof.
  intros HR Hm Hf. apply (yields_bind (fun _ w' => w_cluster w' = w_cluster w)); [|done].
  destruct (Hm w) as (a & w' & E & S). exists a, w'. split; [done|]. split; [by apply HR|by destruct S].
Qed.

End Yields.

Section Quiet.
Context {C L : Type}.

Lemma quiet_inc name labels : quiet (inc name labels : M C L unit).
Proof. intros w. do 2 eexists. split; [done|]. by constructor. Qed.

Lemma quiet_observe name labels v : quiet (observe name labels v : M C L unit).
Proof. intros w. do 2 eexists. split; [done|]. by constructor. Qed.

Lemma quiet_log level msg attrs : quiet (log level msg attrs : M C L unit).
Proof. intros w. do 2 eexists. split; [done|]. by constructor. Qed.

Lemma quiet_span ev : quiet (span ev : M C L unit).
Proof. intros w. do 2 eexists. split; [done|]. by constructor. Qed.

Lemma quiet_clock : quiet (clock_read : M C L Z).
Proof. intros w. do 2 eexists. split; [done|]. by constructor. Qed.

Lemma quiet_time_Now : quiet (time_Now : M C L Time).
Proof. apply runs_bind; [apply quiet_clock|]. intros. apply runs_ret. Qed.

End Quiet.

#[export] Hint Resolve quiet_inc quiet_observe quiet_log quiet_span quiet_clock quiet_time_Now : webhookd.

(** Prove [runs R] by following the structure of the computation; the leaves
    are hints, or quiet. *)
Ltac runs_tac :=
  repeat first
    [ apply runs_ret | apply runs_get | apply runs_if | (apply runs_bind; [|intros])
    | assumption | solve [auto with webhookd]
    | (apply runs_quiet; [apply _|solve [auto with webhookd]])
    | case_match ].
