(* ===== verification/WizApi.v ===== *)
(** * The Wiz operator's API types ([internal/webhook/wizapi])

    The custom resources webhookd registers, writes or refers to, with the
    metadata fields the program uses, and their instance of [ClientObject].
    A field of a struct is written with the struct's initials in front. *)

From S2P Require Import Prelude Action.

(** ** Metadata (apimachinery's [metav1]) *)

Record TypeMeta := mkTypeMeta { APIVersion : string; tm_Kind : string }.

Record ObjectMeta := mkObjectMeta {
  om_Name : string;
  om_Namespace : string;
  om_Generation : Z;
  om_Labels : string_map_t;
  om_Annotations : string_map_t
}.

(** [metav1.ObjectMeta{Name: name, Namespace: namespace}] *)
Definition newMeta (name namespace : string) : ObjectMeta := mkObjectMeta name namespace 0 ∅ ∅.

Record Condition := mkCondition {
  c_Type : string;
  c_Status : string;
  c_Reason : string;
  c_Message : string
}.

Definition ConditionTrue : string := "True".

(** ** GroupVersion *)

Record GroupVersion_t := mkGroupVersion { Group : string; Version : string }.

Definition GroupVersion : GroupVersion_t := mkGroupVersion "wiz.webhookd.io" "v1alpha1".

(** [gv.String()] of apimachinery: [group/version], the version alone in the
    core group. *)
Definition GroupVersion_String (gv : GroupVersion_t) : string :=
  if String.eqb (Group gv) "" then Version gv else Group gv +:+ "/" +:+ Version gv.

(** ** Resources *)

Definition ConditionTypeReady : string := "Ready".

Record RoleRef := mkRoleRef { rr_Name : string }.
Record ProjectRef := mkProjectRef { pr_Name : string }.

Record SAMLGroupMappingSpec := mkSAMLGroupMappingSpec {
  IdentityProviderID : string;
  ProviderGroupID : string;
  Description : string;
  sp_RoleRef : RoleRef;
  ProjectRefs : list ProjectRef
}.

(** The three resources share this status shape. *)
Record SAMLGroupMappingStatus := mkSAMLGroupMappingStatus {
  st_ObservedGeneration : Z;
  Conditions : list Condition
}.

Definition zeroStatus : SAMLGroupMappingStatus := mkSAMLGroupMappingStatus 0 [].

Record SAMLGroupMapping := mkSAMLGroupMapping {
  sgm_TypeMeta : TypeMeta;
  sgm_ObjectMeta : ObjectMeta;
  sgm_Spec : SAMLGroupMappingSpec;
  sgm_Status : SAMLGroupMappingStatus
}.

Record ProjectStatus := mkProjectStatus {
  ps_ObservedGeneration : Z;
  ps_Conditions : list Condition
}.

Record Project := mkProject {
  p_TypeMeta : TypeMeta;
  p_ObjectMeta : ObjectMeta;
  p_SpecName : string;
  p_Status : ProjectStatus
}.

Record UserRoleStatus := mkUserRoleStatus {
  us_ObservedGeneration : Z;
  us_Conditions : list Condition
}.

Record UserRole := mkUserRole {
  u_TypeMeta : TypeMeta;
  u_ObjectMeta : ObjectMeta;
  u_SpecName : string;
  u_Status : UserRoleStatus
}.

(** The pointers to resources a [client.Object] of this scheme holds. *)
Inductive object :=
| ObjSAMLGroupMapping (cr : SAMLGroupMapping)
| ObjProject (p : Project)
| ObjUserRole (u : UserRole).

(** The list types, as the empty lists a [Watch] is opened with. *)
Inductive object_list :=
| SAMLGroupMappingList
| ProjectList
| UserRoleList.

Definition meta_of (o : object) : ObjectMeta :=
  match o with
  | ObjSAMLGroupMapping cr => sgm_ObjectMeta cr
  | ObjProject p => p_ObjectMeta p
  | ObjUserRole u => u_ObjectMeta u
  end.

Definition set_meta (m : ObjectMeta) (o : object) : object :=
  match o with
  | ObjSAMLGroupMapping cr =>
      ObjSAMLGroupMapping (mkSAMLGroupMapping (sgm_TypeMeta cr) m (sgm_Spec cr) (sgm_Status cr))
  | ObjProject p => ObjProject (mkProject (p_TypeMeta p) m (p_SpecName p) (p_Status p))
  | ObjUserRole u => ObjUserRole (mkUserRole (u_TypeMeta u) m (u_SpecName u) (u_Status u))
  end.

(** The accessors are promoted from [ObjectMeta]. *)
#[export] Instance object_ClientObject : ClientObject object := {
  GetName o := om_Name (meta_of o);
  GetNamespace o := om_Namespace (meta_of o);
  GetGeneration o := om_Generation (meta_of o);
  GetLabels o := om_Labels (meta_of o);
  GetAnnotations o := om_Annotations (meta_of o);
  SetLabels l o :=
    let m := meta_of o in
    set_meta (mkObjectMeta (om_Name m) (om_Namespace m) (om_Generation m) l (om_Annotations m)) o;
  SetAnnotations a o :=
    let m := meta_of o in
    set_meta (mkObjectMeta (om_Name m) (om_Namespace m) (om_Generation m) (om_Labels m) a) o;
  DeepCopyObject o := Some o
}.

#[export] Instance object_laws : ClientObjectLaws object.
Proof. split; intros; repeat match goal with o : object |- _ => destruct o as [[? [] ? ?]|[? [] ? ?]|[? [] ? ?]] end; reflexivity. Qed.
