(* ===== verification/DeepCopy.v ===== *)
(** * Deep copies ([internal/webhook/wizapi/zz_generated.deepcopy.go])

    The types of wizapi/types.go as they are in memory: a slice is a
    reference to a backing array, so an assignment [*out = *in] shares it.
    The heap maps addresses to arrays (a pointer is an address and an index:
    [new(T)] is an array of one); the copy functions are computations on the
    heap that fail where Go panics (a nil dereference, an index out of
    range).  [view] reads the value a struct stands for, [refs] is the set of
    addresses that value depends on; [DeepCopyLaws] is what a deep copy
    promises, proved of every type of the package from the same promise of
    apimachinery's [ObjectMeta], [ListMeta] and [Condition], which are
    parameters. *)

From S2P Require Import Prelude Action WizApi.

(** ** Structs, over the types of the references in them *)

Abbreviation loc := nat.

(** A slice of [T]s: its backing array, the index of its first element, its
    length.  A nil slice is [None]. *)
Record slice {T : Type} := mkSlice { s_arr : loc; s_off : nat; s_len : nat }.
Arguments slice : clear implicits.
Arguments mkSlice {T} _ _ _.

Record ptr {T : Type} := mkPtr { p_arr : loc; p_idx : nat }.
Arguments ptr : clear implicits.
Arguments mkPtr {T} _ _.

Record spec_t {PS : Type} := mkSpec {
  m_IdentityProviderID : string;
  m_ProviderGroupID : string;
  m_Description : string;
  m_RoleRef : RoleRef;
  m_ProjectRefs : PS
}.
Arguments spec_t : clear implicits.
Arguments mkSpec {PS} _ _ _ _ _.

(** The shape the three statuses share. *)
Record status_t {CS : Type} := mkStatus { m_ObservedGeneration : Z; m_Conditions : CS }.
Arguments status_t : clear implicits.
Arguments mkStatus {CS} _ _.

Record mapping_t {OM PS CS : Type} := mkMapping {
  mp_TypeMeta : TypeMeta;
  mp_ObjectMeta : OM;
  mp_Spec : spec_t PS;
  mp_Status : status_t CS
}.
Arguments mapping_t : clear implicits.
Arguments mkMapping {OM PS CS} _ _ _ _.

Record project_t {OM CS : Type} := mkProject_ {
  pj_TypeMeta : TypeMeta;
  pj_ObjectMeta : OM;
  pj_SpecName : string;
  pj_Status : status_t CS
}.
Arguments project_t : clear implicits.
Arguments mkProject_ {OM CS} _ _ _ _.

Record role_t {OM CS : Type} := mkRole_ {
  rl_TypeMeta : TypeMeta;
  rl_ObjectMeta : OM;
  rl_SpecName : string;
  rl_Status : status_t CS
}.
Arguments role_t : clear implicits.
Arguments mkRole_ {OM CS} _ _ _ _.

(** The shape the three list types share, over the type of [Items]. *)
Record list_t {LM IS : Type} := mkList {
  ls_TypeMeta : TypeMeta;
  ls_ListMeta : LM;
  ls_Items : IS
}.
Arguments list_t : clear implicits.
Arguments mkList {LM IS} _ _ _.

Lemma apart (R R' D : gset loc) l : R ⊆ D -> R' ## D -> (l ∈ R -> l ∈ D /\ l ∉ R') /\ (l ∈ R' -> l ∉ R).
Proof. set_solver. Qed.

(** ** The heap *)

Section Heap.
(** What apimachinery allocates, and its structs as they are in memory. *)
Context {B OM LM CD : Type}.

(** The types of the package in memory. *)
Abbreviation Spec_m := (spec_t (option (slice ProjectRef))).
Abbreviation Status_m := (status_t (option (slice CD))).
Abbreviation Mapping_m := (mapping_t OM (option (slice ProjectRef)) (option (slice CD))).
Abbreviation Project_m := (project_t OM (option (slice CD))).
Abbreviation Role_m := (role_t OM (option (slice CD))).
Abbreviation MappingList_m := (list_t LM (option (slice Mapping_m))).
Abbreviation ProjectList_m := (list_t LM (option (slice Project_m))).
Abbreviation RoleList_m := (list_t LM (option (slice Role_m))).

(** An array in memory, by the type of its elements. *)
Inductive cell :=
| CLib (b : B)
| CProjectRefs (a : list ProjectRef)
| CConditions (a : list CD)
| CSpecs (a : list Spec_m)
| CStatuses (a : list Status_m)
| CMappings (a : list Mapping_m)
| CProjects (a : list Project_m)
| CRoles (a : list Role_m)
| CMappingLists (a : list MappingList_m)
| CProjectLists (a : list ProjectList_m)
| CRoleLists (a : list RoleList_m).

Abbreviation heap := (gmap loc cell).

(** [None] is a run-time panic. *)
Definition H (A : Type) : Type := heap -> option (A * heap).

#[export] Instance H_ret : MRet H := fun A a h => Some (a, h).
#[export] Instance H_bind : MBind H := fun A B' f m h =>
  match m h with
  | Some (a, h) => f a h
  | None => None
  end.

(** Arrays of [T]s. *)
Class Cell (T : Type) := {
  pack : list T -> cell;
  unpack : cell -> option (list T);
  unpack_pack a : unpack (pack a) = Some a
}.

#[export] Instance Cell_ProjectRef : Cell ProjectRef :=
  {| pack := CProjectRefs; unpack c := match c with CProjectRefs a => Some a | _ => None end; unpack_pack _ := eq_refl |}.
#[export] Instance Cell_Condition : Cell CD :=
  {| pack := CConditions; unpack c := match c with CConditions a => Some a | _ => None end; unpack_pack _ := eq_refl |}.
#[export] Instance Cell_Spec : Cell Spec_m :=
  {| pack := CSpecs; unpack c := match c with CSpecs a => Some a | _ => None end; unpack_pack _ := eq_refl |}.
#[export] Instance Cell_Status : Cell Status_m :=
  {| pack := CStatuses; unpack c := match c with CStatuses a => Some a | _ => None end; unpack_pack _ := eq_refl |}.
#[export] Instance Cell_Mapping : Cell Mapping_m :=
  {| pack := CMappings; unpack c := match c with CMappings a => Some a | _ => None end; unpack_pack _ := eq_refl |}.
#[export] Instance Cell_Project : Cell Project_m :=
  {| pack := CProjects; unpack c := match c with CProjects a => Some a | _ => None end; unpack_pack _ := eq_refl |}.
#[export] Instance Cell_Role : Cell Role_m :=
  {| pack := CRoles; unpack c := match c with CRoles a => Some a | _ => None end; unpack_pack _ := eq_refl |}.
#[export] Instance Cell_MappingList : Cell MappingList_m :=
  {| pack := CMappingLists; unpack c := match c with CMappingLists a => Some a | _ => None end; unpack_pack _ := eq_refl |}.
#[export] Instance Cell_ProjectList : Cell ProjectList_m :=
  {| pack := CProjectLists; unpack c := match c with CProjectLists a => Some a | _ => None end; unpack_pack _ := eq_refl |}.
#[export] Instance Cell_RoleList : Cell RoleList_m :=
  {| pack := CRoleLists; unpack c := match c with CRoleLists a => Some a | _ => None end; unpack_pack _ := eq_refl |}.

Section Operations.
Context {T : Type} `{!Cell T}.

Definition array (h : heap) (l : loc) : option (list T) := h !! l ≫= unpack.

(** Allocate an array. *)
Definition alloc (a : list T) : H loc := fun h =>
  let l := fresh (dom h) in Some (l, <[l := pack a]> h).

(** [a[i]] and [a[i] = v] of an array; out of range is a panic. *)
Definition load (l : loc) (i : nat) : H T := fun h =>
  v ← array h l ≫= (.!! i); Some (v, h).

Definition store (l : loc) (i : nat) (v : T) : H unit := fun h =>
  a ← array h l;
  if decide (i < length a)%nat then Some (tt, <[l := pack (<[i := v]> a)]> h) else None.

(** [make([]T, n)], given the zero value of [T]. *)
Definition make (zero : T) (n : nat) : H (slice T) :=
  l ← alloc (replicate n zero); mret (mkSlice l 0 n).

(** [s[i]] and [s[i] = v] of a slice. *)
Definition index (s : slice T) (i : nat) : H T := fun h =>
  if decide (i < s_len s)%nat then load (s_arr s) (s_off s + i)%nat h else None.

Definition assign (s : slice T) (i : nat) (v : T) : H unit := fun h =>
  if decide (i < s_len s)%nat then store (s_arr s) (s_off s + i)%nat v h else None.

(** The elements of a slice. *)
Definition window (s : slice T) (a : list T) : option (list T) :=
  if decide (s_off s + s_len s <= length a)%nat then Some (take (s_len s) (drop (s_off s) a)) else None.

Definition elements (h : heap) (s : slice T) : option (list T) := array h (s_arr s) ≫= window s.

(** [copy(dst, src)]: as many elements as both have. *)
Definition copy_slice (dst src : slice T) : H unit := fun h =>
  xs ← elements h src;
  a ← array h (s_arr dst);
  let n := Nat.min (s_len dst) (s_len src) in
  Some (tt, <[s_arr dst := pack (list_inserts (s_off dst) (take n xs) a)]> h).

End Operations.

(** ** What a struct stands for *)

(** [view h t] is the value of [t] in [h], with nil and empty slices told
    apart, [None] when a reference in it dangles; [refs h t] are the
    addresses it reads. *)
Class View (T V : Type) := {
  view : heap -> T -> option V;
  refs : heap -> T -> gset loc
}.

Class ViewLaws (T V : Type) `{!View T V} : Prop := {
  view_local h h' (t : T) :
    (forall l, l ∈ refs h t -> h' !! l = h !! l) -> view h' t = view h t /\ refs h' t = refs h t;
  view_dom h (t : T) v : view h t = Some v -> refs h t ⊆ dom h
}.

(** [f] makes a deep copy: of a struct that can be read it returns one with
    the same value, all of whose references are new, and it changes no
    existing array. *)
Definition deep_copies {T V : Type} `{!View T V} (f : T -> H T) : Prop :=
  forall h t v, view h t = Some v ->
    exists t' h', f t h = Some (t', h') /\ h ⊆ h' /\ view h' t' = Some v /\ refs h' t' ## dom h.

(** ** apimachinery *)

Class MetaV1 := {
  zero_ObjectMeta : OM;
  zero_ListMeta : LM;
  zero_Condition : CD;
  ObjectMeta_DeepCopyInto : OM -> H OM;
  ListMeta_DeepCopyInto : LM -> H LM;
  Condition_DeepCopyInto : CD -> H CD
}.

(** ** The copies

    The argument of a [DeepCopyInto] is [*in], the result what is left in
    [*out]: [out] is newly allocated wherever the package calls it. *)

Section Copies.
Context `{!MetaV1}.

(** [for i := range in { in[i].DeepCopyInto(&out[i]) }], from [i] on, with
    [n] elements to go. *)
Fixpoint copy_items {T : Type} `{!Cell T} (DeepCopyInto : T -> H T) (in_ out : slice T) (i n : nat) : H unit :=
  match n with
  | O => mret tt
  | S n =>
      v ← index in_ i;
      v ← DeepCopyInto v;
      assign out i v ;;
      copy_items DeepCopyInto in_ out (S i) n
  end.

(** [if in != nil { out = make([]T, len(in)); for ... }] *)
Definition copy_slice_items {T : Type} `{!Cell T} (zero : T) (DeepCopyInto : T -> H T) (in_ : option (slice T))
  : H (option (slice T)) :=
  match in_ with
  | None => mret in_
  | Some s =>
      out ← make zero (s_len s);
      copy_items DeepCopyInto s out 0 (s_len s) ;;
      mret (Some out)
  end.

Definition SAMLGroupMappingSpec_DeepCopyInto (in_ : Spec_m) : H Spec_m :=
  let out := in_ in
  match m_ProjectRefs in_ with
  | None => mret out
  | Some refs =>
      s ← make (mkProjectRef "") (s_len refs);
      copy_slice s refs ;;
      mret (mkSpec (m_IdentityProviderID out) (m_ProviderGroupID out) (m_Description out) (m_RoleRef in_) (Some s))
  end.

Definition SAMLGroupMappingStatus_DeepCopyInto (in_ : Status_m) : H Status_m :=
  let out := in_ in
  cs ← copy_slice_items zero_Condition Condition_DeepCopyInto (m_Conditions in_);
  mret (mkStatus (m_ObservedGeneration out) cs).

Definition SAMLGroupMapping_DeepCopyInto (in_ : Mapping_m) : H Mapping_m :=
  om ← ObjectMeta_DeepCopyInto (mp_ObjectMeta in_);
  spec ← SAMLGroupMappingSpec_DeepCopyInto (mp_Spec in_);
  status ← SAMLGroupMappingStatus_DeepCopyInto (mp_Status in_);
  mret (mkMapping (mp_TypeMeta in_) om spec status).

Definition ProjectStatus_DeepCopyInto (in_ : Status_m) : H Status_m :=
  let out := in_ in
  cs ← copy_slice_items zero_Condition Condition_DeepCopyInto (m_Conditions in_);
  mret (mkStatus (m_ObservedGeneration out) cs).

Definition Project_DeepCopyInto (in_ : Project_m) : H Project_m :=
  om ← ObjectMeta_DeepCopyInto (pj_ObjectMeta in_);
  status ← ProjectStatus_DeepCopyInto (pj_Status in_);
  mret (mkProject_ (pj_TypeMeta in_) om (pj_SpecName in_) status).

Definition UserRoleStatus_DeepCopyInto (in_ : Status_m) : H Status_m :=
  let out := in_ in
  cs ← copy_slice_items zero_Condition Condition_DeepCopyInto (m_Conditions in_);
  mret (mkStatus (m_ObservedGeneration out) cs).

Definition UserRole_DeepCopyInto (in_ : Role_m) : H Role_m :=
  om ← ObjectMeta_DeepCopyInto (rl_ObjectMeta in_);
  status ← UserRoleStatus_DeepCopyInto (rl_Status in_);
  mret (mkRole_ (rl_TypeMeta in_) om (rl_SpecName in_) status).

(** Zero values. *)
Definition zero_TypeMeta : TypeMeta := mkTypeMeta "" "".
Definition zero_Spec : Spec_m := mkSpec "" "" "" (mkRoleRef "") None.
Definition zero_Status : Status_m := mkStatus 0 None.
Definition zero_Mapping : Mapping_m := mkMapping zero_TypeMeta zero_ObjectMeta zero_Spec zero_Status.
Definition zero_Project : Project_m := mkProject_ zero_TypeMeta zero_ObjectMeta "" zero_Status.
Definition zero_Role : Role_m := mkRole_ zero_TypeMeta zero_ObjectMeta "" zero_Status.
Definition zero_List {T : Type} : list_t LM (option (slice T)) := mkList zero_TypeMeta zero_ListMeta None.

Definition SAMLGroupMappingList_DeepCopyInto (in_ : MappingList_m) : H MappingList_m :=
  lm ← ListMeta_DeepCopyInto (ls_ListMeta in_);
  items ← copy_slice_items zero_Mapping SAMLGroupMapping_DeepCopyInto (ls_Items in_);
  mret (mkList (ls_TypeMeta in_) lm items).

Definition ProjectList_DeepCopyInto (in_ : ProjectList_m) : H ProjectList_m :=
  lm ← ListMeta_DeepCopyInto (ls_ListMeta in_);
  items ← copy_slice_items zero_Project Project_DeepCopyInto (ls_Items in_);
  mret (mkList (ls_TypeMeta in_) lm items).

Definition UserRoleList_DeepCopyInto (in_ : RoleList_m) : H RoleList_m :=
  lm ← ListMeta_DeepCopyInto (ls_ListMeta in_);
  items ← copy_slice_items zero_Role UserRole_DeepCopyInto (ls_Items in_);
  mret (mkList (ls_TypeMeta in_) lm items).

(** [DeepCopy]: nil for nil, else [new(T)] and [in.DeepCopyInto(out)].  All of
    them have this body. *)
Definition copy_of {T : Type} `{!Cell T} (zero : T) (DeepCopyInto : T -> H T) (in_ : option (ptr T))
  : H (option (ptr T)) :=
  match in_ with
  | None => mret None
  | Some p =>
      out ← alloc [zero];
      v ← load (p_arr p) (p_idx p);
      v ← DeepCopyInto v;
      store out 0 v ;;
      mret (Some (mkPtr out 0))
  end.

Definition SAMLGroupMapping_DeepCopy := copy_of zero_Mapping SAMLGroupMapping_DeepCopyInto.
Definition SAMLGroupMappingSpec_DeepCopy := copy_of zero_Spec SAMLGroupMappingSpec_DeepCopyInto.
Definition SAMLGroupMappingStatus_DeepCopy := copy_of zero_Status SAMLGroupMappingStatus_DeepCopyInto.
Definition SAMLGroupMappingList_DeepCopy := copy_of zero_List SAMLGroupMappingList_DeepCopyInto.
Definition Project_DeepCopy := copy_of zero_Project Project_DeepCopyInto.
Definition ProjectList_DeepCopy := copy_of zero_List ProjectList_DeepCopyInto.
Definition UserRole_DeepCopy := copy_of zero_Role UserRole_DeepCopyInto.
Definition UserRoleList_DeepCopy := copy_of zero_List UserRoleList_DeepCopyInto.

(** A non-nil [runtime.Object] of the package: a pointer with its type; the
    pointer itself can be nil. *)
Inductive runtime_Object :=
| RMapping (p : option (ptr Mapping_m))
| RMappingList (p : option (ptr MappingList_m))
| RProject (p : option (ptr Project_m))
| RProjectList (p : option (ptr ProjectList_m))
| RRole (p : option (ptr Role_m))
| RRoleList (p : option (ptr RoleList_m)).

(** [if c := in.DeepCopy(); c != nil { return c }; return nil] *)
Definition boxed {T : Type} (box : option (ptr T) -> runtime_Object) (c : option (ptr T)) : option runtime_Object :=
  match c with
  | Some p => Some (box (Some p))
  | None => None
  end.

Definition SAMLGroupMapping_DeepCopyObject (in_ : option (ptr Mapping_m)) : H (option runtime_Object) :=
  c ← SAMLGroupMapping_DeepCopy in_; mret (boxed RMapping c).
Definition SAMLGroupMappingList_DeepCopyObject (in_ : option (ptr MappingList_m)) : H (option runtime_Object) :=
  c ← SAMLGroupMappingList_DeepCopy in_; mret (boxed RMappingList c).
Definition Project_DeepCopyObject (in_ : option (ptr Project_m)) : H (option runtime_Object) :=
  c ← Project_DeepCopy in_; mret (boxed RProject c).
Definition ProjectList_DeepCopyObject (in_ : option (ptr ProjectList_m)) : H (option runtime_Object) :=
  c ← ProjectList_DeepCopy in_; mret (boxed RProjectList c).
Definition UserRole_DeepCopyObject (in_ : option (ptr Role_m)) : H (option runtime_Object) :=
  c ← UserRole_DeepCopy in_; mret (boxed RRole c).
Definition UserRoleList_DeepCopyObject (in_ : option (ptr RoleList_m)) : H (option runtime_Object) :=
  c ← UserRoleList_DeepCopy in_; mret (boxed RRoleList c).

(** The method call on an interface value. *)
Definition object_DeepCopyObject (o : runtime_Object) : H (option runtime_Object) :=
  match o with
  | RMapping p => SAMLGroupMapping_DeepCopyObject p
  | RMappingList p => SAMLGroupMappingList_DeepCopyObject p
  | RProject p => Project_DeepCopyObject p
  | RProjectList p => ProjectList_DeepCopyObject p
  | RRole p => UserRole_DeepCopyObject p
  | RRoleList p => UserRoleList_DeepCopyObject p
  end.

End Copies.

(** ** Views of the package's types *)

#[export] Instance View_ProjectRef : View ProjectRef ProjectRef := {| view _ x := Some x; refs _ _ := ∅ |}.

Definition refs_all {T V : Type} `{!View T V} (h : heap) (xs : list T) : gset loc := ⋃ (refs h <$> xs).
Arguments refs_all : simpl never.

#[export] Instance View_slice {T V : Type} `{!Cell T, !View T V} : View (option (slice T)) (option (list V)) := {|
  view h s :=
    match s with
    | None => Some None
    | Some s => xs ← elements h s; vs ← mapM (view h) xs; Some (Some vs)
    end;
  refs h s :=
    match s with
    | None => ∅
    | Some s => {[s_arr s]} ∪ refs_all h (default [] (elements h s))
    end
|}.

#[export] Instance View_ptr {T V : Type} `{!Cell T, !View T V} : View (ptr T) V := {|
  view h p := x ← array h (p_arr p) ≫= (.!! p_idx p); view h x;
  refs h p := {[p_arr p]} ∪ default ∅ (refs h <$> (array h (p_arr p) ≫= (.!! p_idx p)))
|}.

Section Views.
Context {OMV LMV CDV : Type} `{!View OM OMV, !View LM LMV, !View CD CDV}.

#[export] Instance View_Spec : View Spec_m (spec_t (option (list ProjectRef))) := {|
  view h t :=
    ps ← view h (m_ProjectRefs t);
    Some (mkSpec (m_IdentityProviderID t) (m_ProviderGroupID t) (m_Description t) (m_RoleRef t) ps);
  refs h t := refs h (m_ProjectRefs t)
|}.

#[export] Instance View_Status : View Status_m (status_t (option (list CDV))) := {|
  view h t := cs ← view h (m_Conditions t); Some (mkStatus (m_ObservedGeneration t) cs);
  refs h t := refs h (m_Conditions t)
|}.

#[export] Instance View_Mapping : View Mapping_m (mapping_t OMV (option (list ProjectRef)) (option (list CDV))) := {|
  view h t :=
    om ← view h (mp_ObjectMeta t);
    spec ← view h (mp_Spec t);
    status ← view h (mp_Status t);
    Some (mkMapping (mp_TypeMeta t) om spec status);
  refs h t := refs h (mp_ObjectMeta t) ∪ refs h (mp_Spec t)
              ∪ refs h (mp_Status t)
|}.

#[export] Instance View_Project : View Project_m (project_t OMV (option (list CDV))) := {|
  view h t :=
    om ← view h (pj_ObjectMeta t);
    status ← view h (pj_Status t);
    Some (mkProject_ (pj_TypeMeta t) om (pj_SpecName t) status);
  refs h t := refs h (pj_ObjectMeta t) ∪ refs h (pj_Status t)
|}.

#[export] Instance View_Role : View Role_m (role_t OMV (option (list CDV))) := {|
  view h t :=
    om ← view h (rl_ObjectMeta t);
    status ← view h (rl_Status t);
    Some (mkRole_ (rl_TypeMeta t) om (rl_SpecName t) status);
  refs h t := refs h (rl_ObjectMeta t) ∪ refs h (rl_Status t)
|}.

#[export] Instance View_List {T V : Type} `{!Cell T, !View T V}
  : View (list_t LM (option (slice T))) (list_t LMV (option (list V))) := {|
  view h t :=
    lm ← view h (ls_ListMeta t);
    items ← view h (ls_Items t);
    Some (mkList (ls_TypeMeta t) lm items);
  refs h t := refs h (ls_ListMeta t) ∪ refs h (ls_Items t)
|}.

(** The value an interface value of the package holds. *)
Inductive object_value :=
| VMapping (v : mapping_t OMV (option (list ProjectRef)) (option (list CDV)))
| VMappingList (v : list_t LMV (option (list (mapping_t OMV (option (list ProjectRef)) (option (list CDV))))))
| VProject (v : project_t OMV (option (list CDV)))
| VProjectList (v : list_t LMV (option (list (project_t OMV (option (list CDV))))))
| VRole (v : role_t OMV (option (list CDV)))
| VRoleList (v : list_t LMV (option (list (role_t OMV (option (list CDV)))))).

#[export] Instance View_object : View runtime_Object object_value := {|
  view h o :=
    match o with
    | RMapping p => VMapping <$> (p ≫= view h)
    | RMappingList p => VMappingList <$> (p ≫= view h)
    | RProject p => VProject <$> (p ≫= view h)
    | RProjectList p => VProjectList <$> (p ≫= view h)
    | RRole p => VRole <$> (p ≫= view h)
    | RRoleList p => VRoleList <$> (p ≫= view h)
    end;
  refs h o :=
    match o with
    | RMapping p => default ∅ (refs h <$> p)
    | RMappingList p => default ∅ (refs h <$> p)
    | RProject p => default ∅ (refs h <$> p)
    | RProjectList p => default ∅ (refs h <$> p)
    | RRole p => default ∅ (refs h <$> p)
    | RRoleList p => default ∅ (refs h <$> p)
    end
|}.

End Views.

(** ** Locality *)

#[export] Instance ViewLaws_ProjectRef : ViewLaws ProjectRef ProjectRef.
Proof. by split. Qed.

Section Locality.
Context {T V : Type} `{!View T V, !ViewLaws T V}.

(** What is allocated later changes no value. *)
Lemma view_mono h h' (t : T) v :
  view h t = Some v -> h ⊆ h' -> view h' t = Some v /\ refs h' t = refs h t.
Proof.
  intros Hv Hh. destruct (view_local h h' t) as [-> ->]; [|done]. intros l Hl.
  apply (view_dom h t v Hv) in Hl. apply elem_of_dom in Hl as [c Hc]. rewrite Hc. by eapply lookup_weaken.
Qed.

(** Nor does a write elsewhere. *)
Lemma view_insert h l c (t : T) : l ∉ refs h t -> view (<[l := c]> h) t = view h t /\ refs (<[l := c]> h) t = refs h t.
Proof. intros Hl. apply view_local. intros l' Hl'. apply lookup_insert_ne. set_solver. Qed.

Lemma view_list_local h h' (xs : list T) :
  (forall l, l ∈ refs_all h xs -> h' !! l = h !! l) ->
  mapM (view h') xs = mapM (view h) xs /\ refs_all h' xs = refs_all h xs.
Proof.
  induction xs as [|x xs IH]; intros Hl; [done|]. unfold refs_all in *. cbn in *.
  destruct (view_local h h' x) as [-> ->]; [set_solver|]. destruct IH as [-> ->]; [set_solver|]. done.
Qed.

Lemma view_list_dom h (xs : list T) vs : mapM (view h) xs = Some vs -> refs_all h xs ⊆ dom h.
Proof.
  intros Hm%mapM_Some. unfold refs_all. induction Hm as [|x v xs vs Hv Hm IH]; cbn; [set_solver|].
  pose proof (view_dom h x v Hv). set_solver.
Qed.

Context `{!Cell T}.

Lemma array_pack (h : heap) l a : array (T:=T) (<[l := pack a]> h) l = Some a.
Proof. unfold array. rewrite lookup_insert_eq. apply unpack_pack. Qed.

Lemma array_local (h h' : heap) l : h' !! l = h !! l -> array (T:=T) h' l = array h l.
Proof. unfold array. by intros ->. Qed.

Lemma array_dom (h : heap) l (a : list T) : array h l = Some a -> l ∈ dom h.
Proof. unfold array. intros Ha. apply elem_of_dom. by destruct (h !! l). Qed.

Lemma array_mono (h h' : heap) l (a : list T) : array h l = Some a -> h ⊆ h' -> array h' l = Some a.
Proof.
  intros Ha Hh. rewrite <- Ha. apply array_local. apply array_dom in Ha as Hd.
  apply elem_of_dom in Hd as [c Hc]. rewrite Hc. by eapply lookup_weaken.
Qed.

#[export] Instance ViewLaws_slice : ViewLaws (option (slice T)) (option (list V)).
Proof.
  split.
  - intros h h' [s|] Hl; [|done]. cbn in *. unfold elements in *.
    rewrite (array_local h h') by (apply Hl; set_solver).
    destruct (array h (s_arr s) ≫= window s) as [xs|]; cbn in *; [|done].
    destruct (view_list_local h h' xs) as [-> ->]; [set_solver|done].
  - intros h [s|] v Hv; cbn in *; [|set_solver]. destruct (elements h s) as [xs|] eqn:E; [|done]. cbn in *.
    destruct (mapM (view h) xs) as [vs|] eqn:Em; [|done]. apply view_list_dom in Em.
    unfold elements in E. destruct (array h (s_arr s)) eqn:Ea; [|done]. apply array_dom in Ea. set_solver.
Qed.

#[export] Instance ViewLaws_ptr : ViewLaws (ptr T) V.
Proof.
  split.
  - intros h h' p Hl. cbn in *. rewrite (array_local h h') by (apply Hl; set_solver).
    destruct (array h (p_arr p) ≫= _) as [x|]; cbn in *; [|done].
    destruct (view_local h h' x) as [-> ->]; [set_solver|done].
  - intros h p v Hv. cbn in *. destruct (array h (p_arr p)) as [a|] eqn:Ea; [|done]. cbn in *.
    destruct (a !! p_idx p) as [x|]; [|done]. cbn in *. apply view_dom in Hv. apply array_dom in Ea. set_solver.
Qed.

End Locality.

(** Laws of a struct from those of its fields. *)
Tactic Notation "view_fields" reference(I) :=
  split;
  [ intros h h' t Hl; cbn [view refs I] in *;
    repeat match goal with
    | |- context [view h' ?x] => destruct (view_local h h' x) as [-> ->]; [set_solver|]
    end; done
  | intros h t v Hv; cbn [view refs I] in *;
    repeat match type of Hv with
    | mbind _ (view h ?x) = Some _ =>
        let E := fresh "E" in destruct (view h x) eqn:E; [|done]; apply view_dom in E; cbn [mbind option_bind] in Hv
    end; set_solver ].

Section FieldLaws.
Context {OMV LMV CDV : Type} `{!View OM OMV, !View LM LMV, !View CD CDV}.
Context `{!ViewLaws OM OMV, !ViewLaws LM LMV, !ViewLaws CD CDV}.

#[export] Instance ViewLaws_Spec : ViewLaws Spec_m (spec_t (option (list ProjectRef))).
Proof. view_fields View_Spec. Qed.

#[export] Instance ViewLaws_Status : ViewLaws Status_m (status_t (option (list CDV))).
Proof. view_fields View_Status. Qed.

#[export] Instance ViewLaws_Mapping : ViewLaws Mapping_m (mapping_t OMV (option (list ProjectRef)) (option (list CDV))).
Proof. view_fields View_Mapping. Qed.

#[export] Instance ViewLaws_Project : ViewLaws Project_m (project_t OMV (option (list CDV))).
Proof. view_fields View_Project. Qed.

#[export] Instance ViewLaws_Role : ViewLaws Role_m (role_t OMV (option (list CDV))).
Proof. view_fields View_Role. Qed.

#[export] Instance ViewLaws_List {T V : Type} `{!Cell T, !View T V, !ViewLaws T V}
  : ViewLaws (list_t LM (option (slice T))) (list_t LMV (option (list V))).
Proof. view_fields View_List. Qed.

End FieldLaws.

(** ** Copying arrays *)

Section Arrays.
Context {T V : Type} `{!View T V, !ViewLaws T V, !Cell T}.
Implicit Types (h : heap) (xs : list T) (vs : list V).

Lemma alloc_run h (a : list T) :
  exists l, alloc a h = Some (l, <[l := pack a]> h) /\ l ∉ dom h /\ h ⊆ <[l := pack a]> h.
Proof.
  exists (fresh (dom h)). split; [done|]. pose proof (is_fresh (dom h)) as Hl. split; [done|].
  apply insert_subseteq. by apply not_elem_of_dom.
Qed.

Lemma index_run h (s : slice T) xs i x :
  elements h s = Some xs -> xs !! i = Some x -> index s i h = Some (x, h).
Proof.
  unfold elements, window, index, load. intros Hx Hi. destruct (array h (s_arr s)) as [a|]; [|done]. cbn in *.
  case_decide as Hle; [|done]. injection Hx as <-. apply lookup_take_Some in Hi as [Hi Hlt].
  rewrite decide_True by done. rewrite lookup_drop in Hi. by rewrite Hi.
Qed.

Lemma elements_length h (s : slice T) xs : elements h s = Some xs -> length xs = s_len s.
Proof.
  unfold elements, window. destruct (array h (s_arr s)) as [a|]; [|done]. cbn. case_decide; [|done].
  intros [= <-]. rewrite length_take, length_drop. lia.
Qed.

Lemma elements_mono h h' (s : slice T) xs : elements h s = Some xs -> h ⊆ h' -> elements h' s = Some xs.
Proof.
  unfold elements. intros Hx Hh. destruct (array h (s_arr s)) eqn:Ea; [|done]. by rewrite (array_mono _ _ _ _ Ea Hh).
Qed.

(** A write to an array outside the domain of [h] keeps [h]. *)
Lemma insert_outside h h' l c : h ⊆ h' -> l ∉ dom h -> h ⊆ <[l := c]> h'.
Proof. intros Hh Hl. apply insert_subseteq_r; [by apply not_elem_of_dom|done]. Qed.

(** [xs] are new: they read [vs], from addresses outside [D]. *)
Definition copied (D : gset loc) h xs vs : Prop :=
  Forall2 (fun x v => view h x = Some v) xs vs /\ refs_all h xs ## D.

Lemma copied_write D h h' l c xs vs :
  copied D h xs vs -> h ⊆ h' -> l ∈ D -> copied D (<[l := c]> h') xs vs.
Proof.
  intros [Hv Hr] Hh Hl. unfold copied, refs_all in *. induction Hv as [|x v xs vs Hx Hv IH]; [done|]. cbn in *.
  destruct (view_mono h h' x v Hx Hh) as [Hx' Hr']. destruct (view_insert h' l c x) as [E1 E2]; [set_solver|].
  destruct IH as [IH1 IH2]; [set_solver|]. split; [constructor; [congruence|done]|]. rewrite E2, Hr'. set_solver.
Qed.

Lemma copied_snoc D h x v xs vs :
  copied D h xs vs -> view h x = Some v -> refs h x ## D -> copied D h (xs ++ [x]) (vs ++ [v]).
Proof.
  intros [Hv Hr] Hx Hrx. split; [apply Forall2_app; [done|by constructor]|].
  unfold refs_all in *. rewrite fmap_app, union_list_app. cbn. set_solver.
Qed.

Lemma copied_view D h l n xs vs :
  array h l = Some xs -> n = length xs -> copied D h xs vs -> l ∉ D ->
  view h (Some (mkSlice l 0 n) : option (slice T)) = Some (Some vs)
  /\ refs h (Some (mkSlice l 0 n) : option (slice T)) ## D.
Proof.
  intros Ha -> [Hv Hr] Hl. cbn. unfold elements, window. cbn. rewrite Ha. cbn. rewrite decide_True by lia.
  cbn. rewrite drop_0, take_ge by lia. split; [|set_solver]. apply mapM_Some in Hv. by rewrite Hv.
Qed.

Lemma copied_weaken D D' h xs vs : copied D h xs vs -> D' ⊆ D -> copied D' h xs vs.
Proof. unfold copied. intros [? ?] ?. split; [done|set_solver]. Qed.

Context (f : T -> H T) (f_copies : deep_copies f).

(** The array at [l], outside [h0], is filled with copies up to [rest]. *)
Definition halfway h0 l h (ys : list T) vs (rest : list T) : Prop :=
  h0 ⊆ h /\ array h l = Some (ys ++ rest) /\ copied (dom h0 ∪ {[l]}) h ys vs.

(** One round of the loop. *)
Lemma halfway_step h0 l h ys vs y rest x v :
  halfway h0 l h ys vs (y :: rest) -> l ∉ dom h0 -> view h0 x = Some v ->
  exists x' h1 h2, f x h = Some (x', h1) /\ store l (length ys) x' h1 = Some (tt, h2)
    /\ halfway h0 l h2 (ys ++ [x']) (vs ++ [v]) rest.
Proof.
  intros (Hh & Ha & Hc) Hl Hx. destruct (view_mono h0 h x v Hx Hh) as [Hxh _].
  destruct (f_copies h x v Hxh) as (x' & h1 & Ef & Hh1 & Hx' & Hr').
  assert (array h1 l = Some (ys ++ y :: rest)) as Ha1 by (by eapply array_mono).
  assert (l ∈ dom h) as Hlh by (by eapply array_dom).
  exists x', h1, (<[l := pack (ys ++ x' :: rest)]> h1). split; [done|]. split.
  { unfold store. rewrite Ha1. cbn [mbind option_bind]. rewrite decide_True by (rewrite length_app; cbn; lia).
    by rewrite insert_app_r_alt, Nat.sub_diag by done. }
  split; [apply insert_outside; [by etrans|done]|]. split; [rewrite array_pack; by rewrite <- app_assoc|].
  destruct (view_insert h1 l (pack (ys ++ x' :: rest)) x') as [E1 E2]; [set_solver|].
  apply copied_snoc; [eapply copied_write; [done|done|set_solver]|by etrans|].
  rewrite E2. apply subseteq_dom in Hh. set_solver.
Qed.

(** The loop, from a heap in which the elements up to [todo] are done. *)
Lemma copy_items_run h0 (in_ : slice T) l n xs vs :
  elements h0 in_ = Some xs -> l ∉ dom h0 -> n = length xs ->
  forall todo vtodo ready ys vdone rest h,
  xs = ready ++ todo -> length ready = length ys -> vs = vdone ++ vtodo ->
  Forall2 (fun x v => view h0 x = Some v) todo vtodo -> length rest = length todo ->
  halfway h0 l h ys vdone rest ->
  exists h' ys', copy_items f in_ (mkSlice l 0 n) (length ys) (length todo) h = Some (tt, h')
    /\ halfway h0 l h' ys' vs [].
Proof.
  intros Hin Hl Hn todo. induction todo as [|x todo IH]; intros vtodo ready ys vdone rest h Hxs Hr Hvs Hv Hlen Hhw.
  { apply Forall2_nil_inv_l in Hv as ->. destruct rest; [|done]. rewrite app_nil_r in *. subst vs. by exists h, ys. }
  apply Forall2_cons_inv_l in Hv as (v & vtodo' & Hx & Hv & ->). destruct rest as [|y rest]; [done|].
  cbn [copy_items length]. destruct (halfway_step h0 l h ys vdone y rest x v Hhw Hl Hx) as (x' & h1 & h2 & Ef & Es & Hhw').
  assert (xs !! length ys = Some x) as Hi by (by rewrite Hxs, lookup_app_r, Hr, Nat.sub_diag by lia).
  destruct Hhw as [Hh _]. pose proof (elements_mono h0 h in_ xs Hin Hh) as Hin'.
  unfold mbind, H_bind. rewrite (index_run h in_ xs _ x Hin' Hi), Ef. unfold assign. cbn [s_len s_arr s_off Nat.add].
  rewrite decide_True by (apply lookup_lt_Some in Hi; lia). rewrite Es.
  destruct (IH vtodo' (ready ++ [x]) (ys ++ [x']) (vdone ++ [v]) rest h2) as (h' & ys' & E & Hdone).
  1,3: by rewrite <- app_assoc. 1: rewrite !length_app; cbn; lia. 1: done. 1: cbn in Hlen; lia. 1: done.
  exists h', ys'. split; [|done]. rewrite length_app in E. cbn in E. by rewrite Nat.add_1_r in E.
Qed.

Lemma copy_slice_items_copies zero : deep_copies (V:=option (list V)) (copy_slice_items zero f).
Proof.
  intros h [s|] v Hv.
  2:{ exists None, h. split; [done|]. split; [done|]. split; [done|]. cbn. set_solver. }
  cbn in Hv. destruct (elements h s) as [xs|] eqn:Exs; [|done]. cbn in Hv.
  destruct (mapM (view h) xs) as [vs|] eqn:Evs; [|done]. injection Hv as <-.
  pose proof (elements_length _ _ _ Exs) as Hlen. apply mapM_Some in Evs.
  cbn [copy_slice_items]. unfold make. destruct (alloc_run h (replicate (s_len s) zero)) as (l & El & Hl & Hh).
  unfold mbind, H_bind. rewrite El. cbn.
  destruct (copy_items_run h s l (s_len s) xs vs Exs Hl (eq_sym Hlen) xs vs [] [] [] (replicate (s_len s) zero)
    (<[l := pack (replicate (s_len s) zero)]> h)) as (h' & ys & E & Hh' & Ha & Hc); try done.
  { by rewrite length_replicate. }
  { split; [done|]. split; [by rewrite array_pack|]. split; [done|]. unfold refs_all. cbn. set_solver. }
  rewrite app_nil_r in Ha.
  rewrite Hlen in E. cbn [length] in E. rewrite E. do 2 eexists. split; [done|]. split; [done|].
  apply (copied_view (dom h) h' l (s_len s) ys vs Ha).
  - destruct Hc as [Hc _]. apply Forall2_length in Hc, Evs. lia.
  - eapply copied_weaken; [exact Hc|]. set_solver.
  - done.
Qed.

End Arrays.

(** ** The package's copies are deep *)

(** Two fields, copied one after the other. *)
#[local] Instance View_pair {T1 V1 T2 V2 : Type} `{!View T1 V1, !View T2 V2} : View (T1 * T2) (V1 * V2) := {|
  view h p := v1 ← view h p.1; v2 ← view h p.2; Some (v1, v2);
  refs h p := refs h p.1 ∪ refs h p.2
|}.

#[local] Instance ViewLaws_pair {T1 V1 T2 V2 : Type} `{!View T1 V1, !View T2 V2, !ViewLaws T1 V1, !ViewLaws T2 V2}
  : ViewLaws (T1 * T2) (V1 * V2).
Proof. view_fields View_pair. Qed.

Definition copy_both {T1 T2 : Type} (f1 : T1 -> H T1) (f2 : T2 -> H T2) (p : T1 * T2) : H (T1 * T2) :=
  a ← f1 p.1; b ← f2 p.2; mret (a, b).

Lemma copy_both_copies {T1 V1 T2 V2 : Type} `{!View T1 V1, !View T2 V2, !ViewLaws T1 V1, !ViewLaws T2 V2} f1 f2 :
  deep_copies (T:=T1) f1 -> deep_copies (T:=T2) f2 -> deep_copies (copy_both f1 f2).
Proof.
  intros H1 H2 h [a b] v Hv. cbn in Hv.
  destruct (view h a) as [va|] eqn:Ea; [|done]. destruct (view h b) as [vb|] eqn:Eb; [|done]. injection Hv as <-.
  destruct (H1 h a va Ea) as (a' & h1 & F1 & S1 & E1 & R1). destruct (view_mono h h1 b vb Eb S1) as [Eb1 _].
  destruct (H2 h1 b vb Eb1) as (b' & h2 & F2 & S2 & E2 & R2). destruct (view_mono h1 h2 a' va E1 S2) as [E1' R1'].
  exists (a', b'), h2. unfold copy_both, mbind, H_bind. cbn. rewrite F1, F2. split; [done|].
  split; [by etrans|]. rewrite E1', R1', E2. split; [done|]. apply subseteq_dom in S1. set_solver.
Qed.

(** A struct whose references are in the part [get] selects: copying the part
    copies the struct. *)
Lemma part_copies {T V U W : Type} `{!View T V, !View U W} (get : T -> U) (put : T -> U -> T) (value : T -> W -> V)
    (f : T -> H T) (g : U -> H U) :
  (forall h t, f t h = (u ← g (get t); mret (put t u) : H T) h) ->
  (forall h t, view h t = (w ← view h (get t); Some (value t w))) ->
  (forall h t, refs h t = refs h (get t)) ->
  (forall t u, get (put t u) = u) -> (forall t u, value (put t u) = value t) ->
  deep_copies g -> deep_copies f.
Proof.
  intros Hf Hview Hrefs Hget Hval Hg h t v Hv. rewrite Hview in Hv.
  destruct (view h (get t)) as [w|] eqn:Ew; [|done]. destruct (Hg h (get t) w Ew) as (u & h' & F & S & E & R).
  exists (put t u), h'. rewrite Hf. unfold mbind, H_bind. rewrite F. split; [done|]. split; [done|].
  rewrite Hview, Hrefs, Hget, Hval, E. done.
Qed.

(** Its first five premises compute: [F] is the copy, [I] the view. *)
Tactic Notation "part_copies" reference(F) reference(I) uconstr(get) uconstr(put) uconstr(value) uconstr(g) :=
  apply (part_copies get put value _ g);
  [ intros h t; unfold F, copy_both, mbind, H_bind, mret, H_ret; repeat case_match; by simplify_eq/=
  | intros h t; cbn [view I View_pair fst snd]; unfold mbind, option_bind; repeat case_match; by simplify_eq/=
  | intros h t; cbn [refs I View_pair fst snd]; by rewrite ?(assoc_L (∪))
  | by intros t u; repeat destruct u as [? u]
  | done
  | ].

Section DeepCopies.
Context {OMV LMV CDV : Type} `{!View OM OMV, !View LM LMV, !View CD CDV}.
Context `{!ViewLaws OM OMV, !ViewLaws LM LMV, !ViewLaws CD CDV, !MetaV1}.

(** What the functions rely on: apimachinery's copies are deep. *)
Context (ObjectMeta_copies : deep_copies ObjectMeta_DeepCopyInto)
        (ListMeta_copies : deep_copies ListMeta_DeepCopyInto)
        (Condition_copies : deep_copies Condition_DeepCopyInto).

Lemma Spec_copies : deep_copies SAMLGroupMappingSpec_DeepCopyInto.
Proof.
  apply (part_copies m_ProjectRefs
    (fun t s => mkSpec (m_IdentityProviderID t) (m_ProviderGroupID t) (m_Description t) (m_RoleRef t) s)
    (fun t s => mkSpec (m_IdentityProviderID t) (m_ProviderGroupID t) (m_Description t) (m_RoleRef t) s) _
    (fun s => match s with
              | None => mret None
              | Some refs => s ← make (mkProjectRef "") (s_len refs); copy_slice s refs ;; mret (Some s)
              end)); try done.
  { intros h [? ? ? ? [s|]]; cbn; [|done]. unfold mbind, H_bind.
    destruct (make (mkProjectRef "") (s_len s) h) as [[a h1]|]; [|done]. by destruct (copy_slice a s h1) as [[]|]. }
  intros h [s|] v Hv; [|exists None, h; cbn in *; set_solver]. cbn [view View_slice] in Hv.
  destruct (elements h s) as [xs|] eqn:Exs; [|done]. cbn [mbind option_bind] in Hv. pose proof (elements_length _ _ _ Exs) as Hlen.
  destruct (alloc_run h (replicate (s_len s) (mkProjectRef ""))) as (l & El & Hl & Hh).
  unfold make, mbind, H_bind. rewrite El. pose proof (elements_mono _ _ _ _ Exs Hh) as Exs1.
  pose proof (array_pack h l (replicate (s_len s) (mkProjectRef ""))) as Ea1. set (h1 := <[l := _]> h) in *.
  clearbody h1. unfold copy_slice. cbn [mret H_ret s_len s_arr s_off]. rewrite Exs1, Ea1. cbn [mbind option_bind].
  rewrite Nat.min_id, <- Hlen, firstn_all.
  exists (Some (mkSlice l 0 (length xs))), (<[l := pack xs]> h1).
  replace (list_inserts 0 xs _) with xs.
  2:{ rewrite <- (app_nil_r xs) at 2. symmetry. apply list_inserts_0_l. by rewrite length_replicate. }
  split; [done|]. split; [by apply insert_outside|].
  revert Hv. destruct (mapM (view h) xs) as [vs|] eqn:Em; [|done]. intros [= <-]. apply mapM_Some in Em.
  apply (copied_view (dom h) _ l _ xs vs (array_pack _ _ _)); [done| |done].
  split; [done|]. unfold refs_all. clear. induction xs as [|x xs IH]; cbn; set_solver.
Qed.

Lemma Status_copies : deep_copies SAMLGroupMappingStatus_DeepCopyInto.
Proof.
  apply (part_copies m_Conditions (fun t s => mkStatus (m_ObservedGeneration t) s)
    (fun t s => mkStatus (m_ObservedGeneration t) s) _ (copy_slice_items zero_Condition Condition_DeepCopyInto)); try done.
  by apply copy_slice_items_copies.
Qed.

Lemma Mapping_copies : deep_copies SAMLGroupMapping_DeepCopyInto.
Proof.
  part_copies SAMLGroupMapping_DeepCopyInto View_Mapping
    (fun t => (mp_ObjectMeta t, (mp_Spec t, mp_Status t)))
    (fun t p => mkMapping (mp_TypeMeta t) p.1 p.2.1 p.2.2)
    (fun t p => mkMapping (mp_TypeMeta t) p.1 p.2.1 p.2.2)
    (copy_both ObjectMeta_DeepCopyInto (copy_both SAMLGroupMappingSpec_DeepCopyInto SAMLGroupMappingStatus_DeepCopyInto)).
  apply copy_both_copies, copy_both_copies; [done|apply Spec_copies|apply Status_copies].
Qed.

Lemma Project_copies : deep_copies Project_DeepCopyInto.
Proof.
  part_copies Project_DeepCopyInto View_Project
    (fun t => (pj_ObjectMeta t, pj_Status t))
    (fun t p => mkProject_ (pj_TypeMeta t) p.1 (pj_SpecName t) p.2)
    (fun t p => mkProject_ (pj_TypeMeta t) p.1 (pj_SpecName t) p.2)
    (copy_both ObjectMeta_DeepCopyInto ProjectStatus_DeepCopyInto).
  apply copy_both_copies; [done|apply Status_copies].
Qed.

Lemma Role_copies : deep_copies UserRole_DeepCopyInto.
Proof.
  part_copies UserRole_DeepCopyInto View_Role
    (fun t => (rl_ObjectMeta t, rl_Status t))
    (fun t p => mkRole_ (rl_TypeMeta t) p.1 (rl_SpecName t) p.2)
    (fun t p => mkRole_ (rl_TypeMeta t) p.1 (rl_SpecName t) p.2)
    (copy_both ObjectMeta_DeepCopyInto UserRoleStatus_DeepCopyInto).
  apply copy_both_copies; [done|apply Status_copies].
Qed.

Lemma MappingList_copies : deep_copies SAMLGroupMappingList_DeepCopyInto.
Proof.
  part_copies SAMLGroupMappingList_DeepCopyInto View_List
    (fun t => (ls_ListMeta t, ls_Items t))
    (fun t p => mkList (ls_TypeMeta t) p.1 p.2) (fun t p => mkList (ls_TypeMeta t) p.1 p.2)
    (copy_both ListMeta_DeepCopyInto (copy_slice_items zero_Mapping SAMLGroupMapping_DeepCopyInto)).
  apply copy_both_copies; [done|]. apply copy_slice_items_copies, Mapping_copies.
Qed.

Lemma ProjectList_copies : deep_copies ProjectList_DeepCopyInto.
Proof.
  part_copies ProjectList_DeepCopyInto View_List
    (fun t => (ls_ListMeta t, ls_Items t))
    (fun t p => mkList (ls_TypeMeta t) p.1 p.2) (fun t p => mkList (ls_TypeMeta t) p.1 p.2)
    (copy_both ListMeta_DeepCopyInto (copy_slice_items zero_Project Project_DeepCopyInto)).
  apply copy_both_copies; [done|]. apply copy_slice_items_copies, Project_copies.
Qed.

Lemma RoleList_copies : deep_copies UserRoleList_DeepCopyInto.
Proof.
  part_copies UserRoleList_DeepCopyInto View_List
    (fun t => (ls_ListMeta t, ls_Items t))
    (fun t p => mkList (ls_TypeMeta t) p.1 p.2) (fun t p => mkList (ls_TypeMeta t) p.1 p.2)
    (copy_both ListMeta_DeepCopyInto (copy_slice_items zero_Role UserRole_DeepCopyInto)).
  apply copy_both_copies; [done|]. apply copy_slice_items_copies, Role_copies.
Qed.

(** [DeepCopy] of a non-nil pointer. *)
Lemma copy_of_copies {T V : Type} `{!Cell T, !View T V, !ViewLaws T V} zero (f : T -> H T) h (p : ptr T) v :
  deep_copies f -> view h p = Some v ->
  exists p' h', copy_of zero f (Some p) h = Some (Some p', h') /\ h ⊆ h' /\ view h' p' = Some v /\ refs h' p' ## dom h.
Proof.
  intros Hf Hv. cbn in Hv. destruct (array h (p_arr p)) as [a|] eqn:Ea; [|done]. cbn in Hv.
  destruct (a !! p_idx p) as [x|] eqn:Ex; [|done]. cbn in Hv.
  destruct (alloc_run h [zero]) as (l & El & Hl & Hh). set (h1 := <[l := _]> h) in *.
  destruct (view_mono h h1 x v Hv Hh) as [Hv1 _]. destruct (Hf h1 x v Hv1) as (x' & h2 & F & S2 & V2 & R2).
  assert (array h2 l = Some [zero]) as Hl2 by (eapply array_mono; [apply array_pack|exact S2]).
  assert (l ∉ refs h2 x') as Hlx.
  { assert (l ∈ dom h1) by (by eapply array_dom, array_pack). set_solver. }
  destruct (view_insert h2 l (pack [x']) x' Hlx) as [Ev Er].
  exists (mkPtr l 0), (<[l := pack [x']]> h2). cbn [copy_of]. unfold mbind, H_bind. rewrite El. unfold load.
  rewrite (array_mono h h1 _ _ Ea Hh). cbn [mbind option_bind]. rewrite Ex. cbn [mbind option_bind]. rewrite F.
  unfold store. rewrite Hl2. cbn. split; [done|]. split; [apply insert_outside; [by etrans|done]|].
  rewrite array_pack. cbn. rewrite Ev, Er. split; [done|]. apply subseteq_dom in Hh. set_solver.
Qed.

Lemma object_copies h (o : runtime_Object) v :
  view h o = Some v ->
  exists o' h', object_DeepCopyObject o h = Some (Some o', h') /\ h ⊆ h' /\ view h' o' = Some v /\ refs h' o' ## dom h.
Proof.
  intros Hv.
  assert (forall (T V : Type) `(!Cell T, !View T V, !ViewLaws T V) zero (f : T -> H T) (p : option (ptr T))
    (box : option (ptr T) -> runtime_Object) (vbox : V -> object_value),
    deep_copies f -> vbox <$> (p ≫= view h) = Some v ->
    exists p' h', (c ← copy_of zero f p; mret (boxed box c) : H _) h = Some (Some (box (Some p')), h')
      /\ h ⊆ h' /\ vbox <$> (view h' p') = Some v /\ refs h' p' ## dom h) as Hcase.
  { intros T V ? ? ? zero f [p|] box vbox Hf Hb; [|done]. cbn [mbind option_bind] in Hb.
    destruct (view h p) as [vp|] eqn:Ep; [|done].
    destruct (copy_of_copies zero f h p vp Hf Ep) as (p' & h' & E & Hh & V' & R). exists p', h'.
    unfold mbind, H_bind. rewrite E, V'. auto. }
  destruct o as [p|p|p|p|p|p]; cbn [view View_object] in Hv.
  all: eapply Hcase in Hv as (p' & h' & E & Hh & V' & R);
    [eexists _, h'; split; [exact E|]; split; [done|]; split; [exact V'|exact R]|..];
    auto using Mapping_copies, MappingList_copies, Project_copies, ProjectList_copies, Role_copies, RoleList_copies.
  all: apply _.
Qed.

#[export] Instance ViewLaws_object : ViewLaws runtime_Object object_value.
Proof.
  split.
  - intros h h' [[p|]|[p|]|[p|]|[p|]|[p|]|[p|]] Hl; cbn [view refs View_object] in *; try done;
      cbn [mbind option_bind fmap option_fmap option_map default from_option] in *;
      (destruct (view_local h h' p) as [E1 E2]; [exact Hl|by rewrite E1, E2]).
  - intros h [[p|]|[p|]|[p|]|[p|]|[p|]|[p|]] v Hv; cbn [view refs View_object] in *; try done;
      cbn [mbind option_bind] in Hv; destruct (view h p) eqn:E; try done; apply (view_dom h p _ E).
Qed.

(** [h2] differs from [h1] in what is reachable from [o] and in what is new:
    what any writes through [o] can do. *)
Definition writes_through (o : runtime_Object) (h1 h2 : heap) : Prop :=
  forall l, l ∈ dom h1 -> l ∉ refs h1 o -> h2 !! l = h1 !! l.

(** C14: A deep copy of an object or of a list of the package does not panic,
    reads as the original did, nil slices included, and is independent of it:
    whatever is later written through the copy, the original keeps its value,
    and whatever is written through the original, the copy does. *)
Theorem DeepCopyObject_independent h (o : runtime_Object) v :
  view h o = Some v ->
  exists o' h', object_DeepCopyObject o h = Some (Some o', h')
    /\ view h' o' = Some v /\ view h' o = Some v
    /\ (forall h2, writes_through o' h' h2 -> view h2 o = Some v)
    /\ (forall h2, writes_through o h' h2 -> view h2 o' = Some v).
Proof.
  intros Hv. destruct (object_copies h o v Hv) as (o' & h' & E & Hh & Hv' & Hr).
  destruct (view_mono h h' o v Hv Hh) as [Hvo Hro]. pose proof (view_dom h o v Hv) as Hd.
  pose proof (view_dom h' o' v Hv') as Hd'. apply subseteq_dom in Hh as Hdom.
  exists o', h'. split; [done|]. split; [done|]. split; [done|]. split; intros h2 Hw.
  - rewrite <- Hvo. apply (view_local h' h2 o). intros l Hl. rewrite Hro in Hl.
    destruct (apart _ _ _ l Hd Hr) as [Ha _]. destruct (Ha Hl). apply Hw; [by apply Hdom|done].
  - rewrite <- Hv'. apply (view_local h' h2 o'). intros l Hl. rewrite <- Hro in Hd.
    destruct (apart _ _ _ l Hd Hr) as [_ Ha]. apply Hw; [by apply Hd'|by apply Ha].
Qed.

End DeepCopies.

(** ** The objects of [WizApi]

    The executor works on immutable values there, with a [DeepCopyObject]
    that returns its argument. *)

Section Refinement.
Context {LMV : Type} `{!View OM ObjectMeta, !View LM LMV, !View CD Condition}.
Context `{!ViewLaws OM ObjectMeta, !ViewLaws LM LMV, !ViewLaws CD Condition, !MetaV1}.
Context (ObjectMeta_copies : deep_copies ObjectMeta_DeepCopyInto)
        (ListMeta_copies : deep_copies ListMeta_DeepCopyInto)
        (Condition_copies : deep_copies Condition_DeepCopyInto).

(** The [client.Object] an interface value stands for; lists are not. *)
Definition client_object (v : @object_value ObjectMeta LMV Condition) : option object :=
  match v with
  | VMapping v =>
      Some (ObjSAMLGroupMapping (mkSAMLGroupMapping (mp_TypeMeta v) (mp_ObjectMeta v)
        (mkSAMLGroupMappingSpec (m_IdentityProviderID (mp_Spec v)) (m_ProviderGroupID (mp_Spec v))
           (m_Description (mp_Spec v)) (m_RoleRef (mp_Spec v)) (default [] (m_ProjectRefs (mp_Spec v))))
        (mkSAMLGroupMappingStatus (m_ObservedGeneration (mp_Status v)) (default [] (m_Conditions (mp_Status v))))))
  | VProject v =>
      Some (ObjProject (mkProject (pj_TypeMeta v) (pj_ObjectMeta v) (pj_SpecName v)
        (mkProjectStatus (m_ObservedGeneration (pj_Status v)) (default [] (m_Conditions (pj_Status v))))))
  | VRole v =>
      Some (ObjUserRole (mkUserRole (rl_TypeMeta v) (rl_ObjectMeta v) (rl_SpecName v)
        (mkUserRoleStatus (m_ObservedGeneration (rl_Status v)) (default [] (m_Conditions (rl_Status v))))))
  | _ => None
  end.

Definition stands_for (h : heap) (o : runtime_Object) (obj : object) : Prop :=
  (view h o : option (@object_value ObjectMeta LMV Condition)) ≫= client_object = Some obj.

(** C15: On the heap, [DeepCopyObject] implements the one of the executor's
    model: for a pointer that stands for [obj] it returns one that stands for
    what the model's returns, and a [Get] that decodes into the copy, in
    whatever way, leaves the applied object as it was.  For a nil pointer
    it returns the nil interface, not an interface that holds nil. *)
Theorem DeepCopyObject_refines h (o : runtime_Object) :
  (forall obj, stands_for h o obj ->
     exists cur h', object_DeepCopyObject o h = Some (Some cur, h')
       /\ (exists obj', Action.DeepCopyObject obj = Some obj' /\ stands_for h' cur obj')
       /\ forall h2, writes_through cur h' h2 -> stands_for h2 o obj)
  /\ (match o with
      | RMapping None | RMappingList None | RProject None | RProjectList None | RRole None | RRoleList None =>
          object_DeepCopyObject o h = Some (None, h)
      | _ => True
      end).
Proof.
  split; [|by destruct o as [[]|[]|[]|[]|[]|[]]].
  intros obj Ho. unfold stands_for in Ho. destruct (view h o) as [v|] eqn:Ev; [|done]. cbn in Ho.
  destruct (object_copies ObjectMeta_copies ListMeta_copies Condition_copies h o v Ev) as (cur & h' & E & Hh & Hv' & Hr).
  exists cur, h'. split; [done|]. unfold stands_for. rewrite Hv'. split; [by exists obj|].
  intros h2 Hw. destruct (view_mono h h' o v Ev Hh) as [Hvo Hro]. pose proof (view_dom h o v Ev) as Hd.
  destruct (view_local h' h2 o) as [-> _]; [|by rewrite Hvo]. intros l Hl. rewrite Hro in Hl.
  apply subseteq_dom in Hh. destruct (apart _ _ _ l Hd Hr) as [Ha _]. destruct (Ha Hl). apply Hw; [by apply Hh|done].
Qed.

End Refinement.

End Heap.

(** ** A concrete apimachinery *)

Module DeepCopySample.

(** Metadata with its two maps behind references. *)
Record ObjectMeta_m := mkObjectMeta_m {
  o_Name : string;
  o_Namespace : string;
  o_Generation : Z;
  o_Labels : option loc;
  o_Annotations : option loc
}.

Abbreviation cell0 := (@cell string_map_t ObjectMeta_m unit Condition).
Abbreviation ViewS := (@View string_map_t ObjectMeta_m unit Condition).
Abbreviation H0 := (@H string_map_t ObjectMeta_m unit Condition).

Definition map_at (h : gmap loc cell0) (l : loc) : option string_map_t :=
  match h !! l with
  | Some (CLib m) => Some m
  | _ => None
  end.

#[export] Instance View_map : ViewS (option loc) string_map_t := {|
  view h r := match r with None => Some ∅ | Some l => map_at h l end;
  refs h r := match r with None => ∅ | Some l => {[l]} end
|}.

#[export] Instance ViewLaws_map : ViewLaws (B:=string_map_t) (OM:=ObjectMeta_m) (LM:=unit) (CD:=Condition)
  (option loc) string_map_t.
Proof.
  split.
  - intros h h' [l|] Hl; [|done]. cbn in *. unfold map_at. by rewrite (Hl l) by set_solver.
  - intros h [l|] m Hm; cbn in *; [|set_solver]. unfold map_at in Hm.
    assert (l ∈ dom h); [|set_solver]. apply elem_of_dom. by destruct (h !! l).
Qed.

Definition copy_map (r : option loc) : H0 (option loc) := fun h =>
  match r with
  | None => Some (None, h)
  | Some l =>
      match map_at h l with
      | Some m => let l' := fresh (dom h) in Some (Some l', <[l' := CLib m]> h)
      | None => None
      end
  end.

Lemma copy_map_copies : deep_copies copy_map.
Proof.
  intros h [l|] m Hm; cbn in *; [|exists None, h; set_solver]. rewrite Hm.
  pose proof (is_fresh (dom h)) as Hl. set (l' := fresh (dom h)) in *. do 2 eexists. split; [done|].
  split; [apply insert_subseteq; by apply not_elem_of_dom|]. cbn. unfold map_at. rewrite lookup_insert_eq.
  split; [done|set_solver].
Qed.

#[export] Instance View_meta : ViewS ObjectMeta_m ObjectMeta := {|
  view h t :=
    l ← view h (o_Labels t); a ← view h (o_Annotations t);
    Some (mkObjectMeta (o_Name t) (o_Namespace t) (o_Generation t) l a);
  refs h t := refs h (o_Labels t) ∪ refs h (o_Annotations t)
|}.

#[export] Instance ViewLaws_meta : ViewLaws (B:=string_map_t) (OM:=ObjectMeta_m) (LM:=unit) (CD:=Condition)
  ObjectMeta_m ObjectMeta.
Proof.
  split.
  - intros h h' t Hl. cbn [view refs View_meta] in *.
    destruct (view_local h h' (o_Labels t)) as [-> ->]; [set_solver|].
    destruct (view_local h h' (o_Annotations t)) as [-> ->]; [set_solver|done].
  - intros h t v Hv. cbn [view refs View_meta] in *.
    destruct (view h (o_Labels t)) eqn:E1; [|done]. destruct (view h (o_Annotations t)) eqn:E2; [|done].
    apply view_dom in E1, E2. set_solver.
Qed.

#[export] Instance View_listmeta : ViewS unit unit := {| view _ u := Some u; refs _ _ := ∅ |}.
#[export] Instance View_condition : ViewS Condition Condition := {| view _ c := Some c; refs _ _ := ∅ |}.
#[export] Instance ViewLaws_listmeta : ViewLaws (B:=string_map_t) (OM:=ObjectMeta_m) (LM:=unit) (CD:=Condition) unit unit.
Proof. by split. Qed.
#[export] Instance ViewLaws_condition
  : ViewLaws (B:=string_map_t) (OM:=ObjectMeta_m) (LM:=unit) (CD:=Condition) Condition Condition.
Proof. by split. Qed.

#[export] Instance metav1 : MetaV1 (B:=string_map_t) (OM:=ObjectMeta_m) (LM:=unit) (CD:=Condition) := {|
  zero_ObjectMeta := mkObjectMeta_m "" "" 0 None None;
  zero_ListMeta := tt;
  zero_Condition := mkCondition "" "" "" "";
  ObjectMeta_DeepCopyInto t :=
    l ← copy_map (o_Labels t); a ← copy_map (o_Annotations t);
    mret (mkObjectMeta_m (o_Name t) (o_Namespace t) (o_Generation t) l a);
  ListMeta_DeepCopyInto u := mret u;
  Condition_DeepCopyInto c := mret c
|}.

Lemma meta_copies : deep_copies (V:=ObjectMeta) ObjectMeta_DeepCopyInto.
Proof.
  apply (part_copies (fun t => (o_Labels t, o_Annotations t))
    (fun t p => mkObjectMeta_m (o_Name t) (o_Namespace t) (o_Generation t) p.1 p.2)
    (fun t p => mkObjectMeta (o_Name t) (o_Namespace t) (o_Generation t) p.1 p.2) _ (copy_both copy_map copy_map)
    (View1:=View_pair)).
  - intros h t. cbn. unfold copy_both, mbind, H_bind, mret, H_ret. repeat case_match; by simplify_eq/=.
  - intros h t. cbn [view View_meta View_pair fst snd]. unfold mbind, option_bind. by repeat case_match; simplify_eq/=.
  - done.
  - by intros t [].
  - done.
  - apply copy_both_copies; apply copy_map_copies.
Qed.

Lemma listmeta_copies : deep_copies (V:=unit) ListMeta_DeepCopyInto.
Proof. intros h u v Hv. by exists u, h. Qed.

Lemma condition_copies : deep_copies (V:=Condition) Condition_DeepCopyInto.
Proof. intros h u v Hv. by exists u, h. Qed.

(** A mapping with labels, one project and one condition. *)
Definition ready0 : Condition := mkCondition "Ready" "True" "" "".

Definition h0 : gmap loc cell0 :=
  <[0%nat := CLib {["team" := "a"]}]> (<[1%nat := CProjectRefs [mkProjectRef "p"]]> (<[2%nat := CConditions [ready0]]>
  (<[3%nat := CMappings [mkMapping (mkTypeMeta "wiz.webhookd.io/v1alpha1" "SAMLGroupMapping")
      (mkObjectMeta_m "jsm-a" "wiz" 2 (Some 0%nat) None)
      (mkSpec "idp" "group" "d" (mkRoleRef "admin") (Some (mkSlice 1%nat 0%nat 1%nat)))
      (mkStatus 2 (Some (mkSlice 2%nat 0%nat 1%nat)))]]> ∅))).

Definition applied0 : runtime_Object (OM:=ObjectMeta_m) (LM:=unit) (CD:=Condition) := RMapping (Some (mkPtr 3%nat 0%nat)).

Definition value0 : object :=
  ObjSAMLGroupMapping (mkSAMLGroupMapping (mkTypeMeta "wiz.webhookd.io/v1alpha1" "SAMLGroupMapping")
    (mkObjectMeta "jsm-a" "wiz" 2 {["team" := "a"]} ∅)
    (mkSAMLGroupMappingSpec "idp" "group" "d" (mkRoleRef "admin") [mkProjectRef "p"])
    (mkSAMLGroupMappingStatus 2 [ready0])).

Example applied0_stands : stands_for h0 applied0 value0.
Proof. reflexivity. Qed.

Lemma DeepCopyObject_independent_witness :
  exists o' h', object_DeepCopyObject applied0 h0 = Some (Some o', h') /\ view h' o' = view h0 applied0
    /\ forall h2, writes_through o' h' h2 -> view h2 applied0 = view h0 applied0.
Proof.
  destruct (view h0 applied0) as [v|] eqn:Ev; [|discriminate].
  destruct (DeepCopyObject_independent meta_copies listmeta_copies condition_copies h0 applied0 v Ev)
    as (o' & h' & E & Hv & _ & Hw & _).
  exists o', h'. split; [exact E|]. split; [exact Hv|exact Hw].
Defined.

(** Writing a label into the copy is such a write. *)
Lemma DeepCopyObject_refines_witness :
  exists cur h', object_DeepCopyObject applied0 h0 = Some (Some cur, h') /\ stands_for h' cur value0
    /\ forall h2, writes_through cur h' h2 -> stands_for h2 applied0 value0.
Proof.
  destruct (DeepCopyObject_refines meta_copies listmeta_copies condition_copies h0 applied0) as [H _].
  destruct (H value0 ltac:(reflexivity)) as (cur & h' & E & (obj & Eo & Hs) & Hw).
  exists cur, h'. split; [exact E|]. injection Eo as <-. split; [exact Hs|exact Hw].
Defined.

End DeepCopySample.
