(* ===== verification/Scheme.v ===== *)
(** * Type registration ([wizapi/groupversion_info.go], [internal/k8s/scheme.go])

    The scheme of the Kubernetes client, filled at init time.  apimachinery's
    [runtime.Scheme] is the class [RuntimeScheme]: a map from kinds to Go
    types that panics when a kind is registered for two types. *)

From Stdlib Require Import Ascii.
From S2P Require Import Prelude GoStrings Action Runtime WizApi.

(** A Go type, by package and name. *)
Record go_type := mkGoType { ty_pkg : string; ty_name : string }.

#[export] Instance go_type_eq_dec : EqDecision go_type.
Proof. solve_decision. Defined.

#[export] Instance GroupVersion_eq_dec : EqDecision GroupVersion_t.
Proof. solve_decision. Defined.

(** [recognizes s gv kind] is the type a scheme decodes a kind into. *)
Class RuntimeScheme (S : Type) := {
  runtime_NewScheme : S;
  recognizes : S -> GroupVersion_t -> string -> option go_type;
  scheme_AddKnownTypes : S -> GroupVersion_t -> list go_type -> outcome S;
  metav1_AddToGroupVersion : S -> GroupVersion_t -> outcome S;
  clientgoscheme_AddToScheme : S -> result S
}.

(** The kinds [metav1.AddToGroupVersion] registers in the group. *)
Definition meta_kinds : list string :=
  ["WatchEvent"; "ListOptions"; "GetOptions"; "DeleteOptions"; "CreateOptions"; "UpdateOptions"; "PatchOptions"].

(** The groups of client-go: without a dot, or under k8s.io. *)
Definition builtin_group (g : string) : Prop :=
  ~ sIn "."%char g \/ exists prefix, g = prefix +:+ ".k8s.io".

(** The kind of a type is its name.  A registration succeeds when the kinds
    are free, and adds just them; client-go registers its own groups only. *)
Class RuntimeSchemeLaws (S : Type) `{!RuntimeScheme S} : Prop := {
  AddKnownTypes_ok (s : S) gv ts :
    NoDup (ty_name <$> ts) -> (forall t, t ∈ ts -> recognizes s gv (ty_name t) = None) ->
    exists s', scheme_AddKnownTypes s gv ts = Ret s'
      /\ (forall t, t ∈ ts -> recognizes s' gv (ty_name t) = Some t)
      /\ forall gv' k, (gv' = gv /\ k ∈ ty_name <$> ts) \/ recognizes s' gv' k = recognizes s gv' k;
  AddToGroupVersion_ok (s : S) gv :
    (forall k, k ∈ meta_kinds -> recognizes s gv k = None) ->
    exists s', metav1_AddToGroupVersion s gv = Ret s'
      /\ forall gv' k t, recognizes s gv' k = Some t -> recognizes s' gv' k = Some t;
  clientgo_ok :
    exists s, clientgoscheme_AddToScheme (runtime_NewScheme (S:=S)) = Ok s
      /\ forall gv k, ~ builtin_group (Group gv) -> recognizes s gv k = None
}.

Section Scheme.
Context {S : Type} `{!RuntimeScheme S}.

(** ** groupversion_info.go *)

Definition wizapi_types : list go_type :=
  mkGoType "wizapi" <$> ["SAMLGroupMapping"; "SAMLGroupMappingList"; "Project"; "ProjectList"; "UserRole"; "UserRoleList"].

(** It returns a nil error, or panics in the scheme. *)
Definition addKnownTypes (scheme : S) : outcome (result S) :=
  match scheme_AddKnownTypes scheme GroupVersion wizapi_types with
  | Panic v => Panic v
  | Ret scheme =>
      match metav1_AddToGroupVersion scheme GroupVersion with
      | Panic v => Panic v
      | Ret scheme => Ret (Ok scheme)
      end
  end.

(** [runtime.SchemeBuilder]: the functions, run until one fails. *)
Definition SchemeBuilder : list (S -> outcome (result S)) := [addKnownTypes].

Fixpoint builder_AddToScheme (fs : list (S -> outcome (result S))) (s : S) : outcome (result S) :=
  match fs with
  | [] => Ret (Ok s)
  | f :: fs =>
      match f s with
      | Ret (Ok s) => builder_AddToScheme fs s
      | r => r
      end
  end.

Definition AddToScheme (s : S) : outcome (result S) := builder_AddToScheme SchemeBuilder s.

(** ** scheme.go *)

(** [utilruntime.Must] *)
Definition Must (r : result S) : outcome S :=
  match r with
  | Ok s => Ret s
  | Err e => Panic (ErrorText e)
  end.

(** The package's [init], on [Scheme]. *)
Definition scheme_init : outcome S :=
  match Must (clientgoscheme_AddToScheme runtime_NewScheme) with
  | Panic v => Panic v
  | Ret s =>
      match AddToScheme s with
      | Panic v => Panic v
      | Ret r => Must r
      end
  end.

(** The Go types of the objects and lists of the executor's model. *)
Definition type_of (o : object) : go_type :=
  mkGoType "wizapi"
    (match o with
     | ObjSAMLGroupMapping _ => "SAMLGroupMapping"
     | ObjProject _ => "Project"
     | ObjUserRole _ => "UserRole"
     end).

Definition list_type_of (l : object_list) : go_type :=
  mkGoType "wizapi"
    (match l with
     | SAMLGroupMappingList => "SAMLGroupMappingList"
     | ProjectList => "ProjectList"
     | UserRoleList => "UserRoleList"
     end).

Context `{!RuntimeSchemeLaws S}.

Lemma wiz_not_builtin : ~ builtin_group (Group GroupVersion).
Proof.
  intros [Hd|[prefix Hp]].
  - apply Hd. cbn. auto 10.
  - assert (String.length prefix = 8%nat) as Hl.
    { apply (f_equal String.length) in Hp. rewrite length_append in Hp. cbn in Hp. lia. }
    change (Group GroupVersion) with ("wiz.webh" +:+ "ookd.io") in Hp.
    apply append_inj_len in Hp as [_ Hp]; [discriminate|by rewrite Hl].
Qed.

(** Initialisation never panics, and the client's scheme then knows
    every kind the program writes or watches, under the group and version of
    the resources it writes: the kind of each object, decoded into its own Go
    type, and the kind of each list. *)
Theorem scheme_init_registers :
  exists s, scheme_init = Ret s
    /\ (forall o, recognizes s GroupVersion (ty_name (type_of o)) = Some (type_of o))
    /\ (forall l, recognizes s GroupVersion (ty_name (list_type_of l)) = Some (list_type_of l)).
Proof.
  destruct clientgo_ok as (s0 & E0 & Hfree). unfold scheme_init. rewrite E0. cbn [Must].
  destruct (AddKnownTypes_ok s0 GroupVersion wizapi_types) as (s1 & E1 & Hin & Hother).
  { apply (bool_decide_unpack _). vm_compute. exact I. }
  { intros t _. apply Hfree, wiz_not_builtin. }
  destruct (AddToGroupVersion_ok s1 GroupVersion) as (s2 & E2 & Hkeep).
  { intros k Hk. destruct (Hother GroupVersion k) as [[_ Hk']| ->]; [|apply Hfree, wiz_not_builtin].
    exfalso. revert k Hk Hk'. rewrite <- Forall_forall. apply (bool_decide_unpack _). vm_compute. exact I. }
  exists s2. unfold AddToScheme, SchemeBuilder, builder_AddToScheme, addKnownTypes. rewrite E1, E2. split; [done|].
  split; [intros o|intros l]; apply Hkeep, Hin; [destruct o|destruct l]; apply (bool_decide_unpack _); vm_compute; exact I.
Qed.

End Scheme.

(** ** A concrete scheme *)

Module SchemeSample.

(** An association from kinds to types; later entries are ignored. *)
Abbreviation scheme0 := (list (GroupVersion_t * string * go_type)).

Definition find0 (s : scheme0) (gv : GroupVersion_t) (k : string) : option go_type :=
  snd <$> (list_find (fun e => e.1 = (gv, k)) s ≫= fun '(_, e) => Some e).

Definition register0 (gv : GroupVersion_t) (pkg : string) (ks : list string) : scheme0 :=
  (fun k => (gv, k, mkGoType pkg k)) <$> ks.

#[export] Instance scheme0_RuntimeScheme : RuntimeScheme scheme0 := {|
  runtime_NewScheme := [];
  recognizes := find0;
  scheme_AddKnownTypes s gv ts :=
    if forallb (fun t => bool_decide (find0 s gv (ty_name t) = None)) ts
    then Ret (s ++ ((fun t => (gv, ty_name t, t)) <$> ts)) else Panic "double registration";
  metav1_AddToGroupVersion s gv := Ret (s ++ register0 gv "metav1" meta_kinds);
  clientgoscheme_AddToScheme s := Ok (s ++ register0 (mkGroupVersion "apps" "v1") "appsv1" ["Deployment"])
|}.

Lemma find0_app s1 s2 gv k :
  find0 (s1 ++ s2) gv k = match find0 s1 gv k with Some t => Some t | None => find0 s2 gv k end.
Proof.
  unfold find0. induction s1 as [|e s1 IH]; [done|]. cbn. destruct (decide (e.1 = (gv, k))); [done|].
  destruct (list_find _ (s1 ++ s2)) as [[i e1]|], (list_find _ s1) as [[j e2]|], (list_find _ s2) as [[l e3]|];
    cbn in *; congruence.
Qed.

Lemma find0_known gv (ts : list go_type) gv' k :
  find0 ((fun t => (gv, ty_name t, t)) <$> ts) gv' k
  = if decide (gv' = gv) then (list_find (fun t => ty_name t = k) ts ≫= fun '(_, t) => Some t) else None.
Proof.
  unfold find0. induction ts as [|t ts IH]; [by case_decide|]. cbn.
  destruct (decide ((gv, ty_name t) = (gv', k))) as [[= -> <-]|Hne]; cbn.
  - rewrite decide_True by done. by rewrite decide_True.
  - destruct (list_find _ (_ <$> ts)) as [[i e]|]; cbn in *; rewrite IH; case_decide; subst; try done;
      rewrite decide_False by congruence; by destruct (list_find _ ts) as [[]|].
Qed.

#[export] Instance scheme0_laws : RuntimeSchemeLaws scheme0.
Proof.
  split; cbn.
  - intros s gv ts Hn Hfree. replace (forallb _ ts) with true.
    2:{ symmetry. apply forallb_forall. intros t Ht. apply bool_decide_eq_true. by apply Hfree, list_elem_of_In. }
    eexists. split; [done|]. split.
    + intros t Ht. rewrite find0_app, Hfree, find0_known, decide_True by done. clear Hfree s.
      induction ts as [|t' ts IH]; [by apply elem_of_nil in Ht|]. cbn in *. apply NoDup_cons in Hn as [Hn1 Hn2].
      apply elem_of_cons in Ht as [<-|Ht]; [by rewrite decide_True|]. rewrite decide_False.
      * specialize (IH Hn2 Ht). by destruct (list_find _ ts) as [[]|].
      * intros E. apply Hn1. rewrite E. apply list_elem_of_fmap. by exists t.
    + intros gv' k. rewrite find0_app, find0_known. destruct (decide (gv' = gv)) as [->|]; [|right; by case_match].
      destruct (decide (k ∈ ty_name <$> ts)) as [Hk|Hk]; [by left|]. right.
      replace (list_find _ ts) with (@None (nat * go_type)); [by case_match|]. symmetry. apply list_find_None.
      apply Forall_forall. intros t Ht E. apply Hk. rewrite <- E. apply list_elem_of_fmap. by exists t.
  - intros s gv _. eexists. split; [done|]. intros gv' k t Ht. by rewrite find0_app, Ht.
  - eexists. split; [done|]. intros gv k Hb. unfold find0. cbn. rewrite decide_False; [done|].
    intros [= <- _]. apply Hb. left. cbn. intuition discriminate.
Qed.

Lemma scheme_init_registers_witness :
  exists s : scheme0, scheme_init = Ret s /\ recognizes s GroupVersion "Project" = Some (mkGoType "wizapi" "Project").
Proof.
  destruct (scheme_init_registers (S:=scheme0)) as (s & E & Ho & _). exists s. split; [exact E|].
  exact (Ho (ObjProject (mkProject (mkTypeMeta "" "") (newMeta "" "") "" (mkProjectStatus 0 [])))).
Defined.

End SchemeSample.
