(* ===== verification/JsmPayload.v ===== *)
(** * JSM payloads ([internal/webhook/jsm/payload.go], [extract.go])

    Decoding a webhook body and extracting custom fields.  [Decode] is
    translated as written: a probe of the top-level keys, then a second
    [json.Unmarshal] into the structs, in which [IssueFields.UnmarshalJSON]
    unmarshals the raw bytes of ["fields"] again, and those of ["status"]
    once more.  [DecodeAST] reads the syntax tree once; [Decode_one_pass]
    shows the two agree, and the [ExtractString] theorems state what a custom
    field is in terms of the tree.

    Texts of [encoding/json]'s own errors are abbreviated: the program passes
    them on and never looks at them. *)

From Stdlib Require Import Ascii.
From S2P Require Import Prelude GoStrings Unicode Json JsonEncode.

(** ** Data *)

Record Status := mkStatus { Status_Name : string }.

Record IssueFields := mkIssueFields {
  Fields_Status : Status;
  CustomFields : gmap string string
}.

Record Issue := mkIssue { Key : string; Fields : IssueFields }.

Record Payload := mkPayload { Payload_Issue : Issue }.

Definition zeroFields : IssueFields := mkIssueFields (mkStatus "") ∅.
Definition zeroPayload : Payload := mkPayload (mkIssue "" zeroFields).

Definition ErrInvalidJSON : error := Sentinel "jsm.ErrInvalidJSON" "invalid json".
Definition ErrMissingIssue : error := Sentinel "jsm.ErrMissingIssue" "missing issue object".
Definition ErrMissingIssueKey : error := Sentinel "jsm.ErrMissingIssueKey" "missing issue key".
Definition ErrMissingStatus : error := Sentinel "jsm.ErrMissingStatus" "missing issue status".

Definition ErrFieldMissing : error := Sentinel "jsm.ErrFieldMissing" "custom field missing".
Definition ErrFieldEmpty : error := Sentinel "jsm.ErrFieldEmpty" "custom field empty".
Definition ErrFieldType : error := Sentinel "jsm.ErrFieldType" "custom field is not a string".

(** [p.Status()], [p.IssueKey()] *)
Definition Payload_Status (p : Payload) : string := Status_Name (Fields_Status (Fields (Payload_Issue p))).
Definition IssueKey (p : Payload) : string := Key (Payload_Issue p).

(** ** [encoding/json]: decoding into Go values *)

Definition json_syntax_error : error := Opaque "json: syntax error".

Definition json_kind (v : json) : string :=
  match v with
  | JNull => "null"
  | JBool _ => "bool"
  | JNumber _ => "number"
  | JString _ => "string"
  | JArray _ => "array"
  | JObject _ => "object"
  end.

(** [*json.UnmarshalTypeError] *)
Definition json_type_error (v : json) (T : string) : error :=
  Opaque ("json: cannot unmarshal " +:+ json_kind v +:+ " into Go value of type " +:+ T).

(** The members as a [map[string]json.RawMessage]: the last of duplicate
    keys wins. *)
Definition raw_map (m : list (string * string * json)) : gmap string string :=
  foldl (fun acc '(k, raw, _) => <[k := raw]> acc) ∅ m.

(** [json.Unmarshal(b, &m)] for such a map; [null] gives the nil map, which
    reads like the empty one. *)
Definition Unmarshal_map (b : string) : result (gmap string string) :=
  match parse b with
  | None => Err json_syntax_error
  | Some JNull => Ok ∅
  | Some (JObject m) => Ok (raw_map m)
  | Some v => Err (json_type_error v "map[string]json.RawMessage")
  end.

(** The runes that fold to an ASCII letter: the letter in both cases, the
    long s for [s] and the Kelvin sign for [k]. *)
Definition folds_to (c r : Z) : bool :=
  (r =? c) || (r =? c - 32) || ((c =? 115) && (r =? 0x17F)) || ((c =? 107) && (r =? 0x212A)).

Fixpoint fold_matches (name : string) (key : list Z) : bool :=
  match name, key with
  | EmptyString, [] => true
  | String c name, r :: key => folds_to (ord c) r && fold_matches name key
  | _, _ => false
  end.

(** Does the object key name the struct field tagged [name] (lower-case
    ASCII letters)?  An exact match, else a match after folding. *)
Definition field_match (name key : string) : bool :=
  String.eqb name key || fold_matches name (runes key).

(** The decoder keeps the first type error and goes on. *)
Definition save (saved : option error) (e : option error) : option error :=
  match saved with Some _ => saved | None => e end.

(** Into a [string]. *)
Definition decode_string (v : json) (old : string) : string * option error :=
  match v with
  | JNull => (old, None)
  | JString s => (s, None)
  | _ => (old, Some (json_type_error v "string"))
  end.

(** Into a [Status]. *)
Definition decode_Status (v : json) (st : Status) : Status * option error :=
  match v with
  | JNull => (st, None)
  | JObject m =>
      foldl (fun '(st, saved) '(k, _, v) =>
               if field_match "name" k then
                 let '(s, e) := decode_string v (Status_Name st) in (mkStatus s, save saved e)
               else (st, saved)) (st, None) m
  | _ => (st, Some (json_type_error v "jsm.Status"))
  end.

(** [json.Unmarshal(b, &st)] *)
Definition Unmarshal_Status (b : string) (st : Status) : result Status :=
  match parse b with
  | None => Err json_syntax_error
  | Some v =>
      match decode_Status v st with
      | (st, None) => Ok st
      | (_, Some e) => Err e
      end
  end.

(** ** [IssueFields.UnmarshalJSON] *)

Definition wrap_at (where_ : string) (e : error) : error :=
  Errorf (ErrorText ErrInvalidJSON +:+ ": " +:+ where_ +:+ ": " +:+ ErrorText e) [ErrInvalidJSON; e].

Definition UnmarshalJSON (f : IssueFields) (b : string) : result IssueFields :=
  match Unmarshal_map b with
  | Err e => Err (wrap_at "fields" e)
  | Ok raw =>
      match raw !! "status" with
      | Some rawStatus =>
          match Unmarshal_Status rawStatus (Fields_Status f) with
          | Err e => Err (wrap_at "status" e)
          | Ok st => Ok (mkIssueFields st (delete "status" raw))
          end
      | None => Ok (mkIssueFields (Fields_Status f) raw)
      end
  end.

(** Into an [Issue]: ["key"] is a string; ["fields"] has an [Unmarshaler],
    which gets the raw bytes, [null] included, and whose error ends the
    decoding. *)
Definition decode_Issue (v : json) (i : Issue) : result (Issue * option error) :=
  match v with
  | JNull => Ok (i, None)
  | JObject m =>
      foldl (fun acc '(k, raw, v) =>
               '(i, saved) ← acc;
               if field_match "key" k then
                 let '(s, e) := decode_string v (Key i) in Ok (mkIssue s (Fields i), save saved e)
               else if field_match "fields" k then
                 f ← UnmarshalJSON (Fields i) raw;
                 Ok (mkIssue (Key i) f, saved)
               else Ok (i, saved)) (Ok (i, None)) m
  | _ => Ok (i, Some (json_type_error v "jsm.Issue"))
  end.

(** One member into a [Payload]. *)
Definition payload_member (acc : result (Payload * option error)) (mem : string * string * json)
  : result (Payload * option error) :=
  let '(k, _, v) := mem in
  '(p, saved) ← acc;
  if field_match "issue" k then
    '(i, e) ← decode_Issue v (Payload_Issue p);
    Ok (mkPayload i, save saved e)
  else Ok (p, saved).

Definition decode_Payload (v : json) (p : Payload) : result (Payload * option error) :=
  match v with
  | JNull => Ok (p, None)
  | JObject m => foldl payload_member (Ok (p, None)) m
  | _ => Ok (p, Some (json_type_error v "jsm.Payload"))
  end.

(** [json.Unmarshal(b, p)] *)
Definition Unmarshal_Payload (b : string) (p : Payload) : result Payload :=
  match parse b with
  | None => Err json_syntax_error
  | Some v =>
      match decode_Payload v p with
      | Err e => Err e
      | Ok (_, Some e) => Err e
      | Ok (p, None) => Ok p
      end
  end.

(** ** [Decode] *)

Definition Decode (body : string) : result Payload :=
  if (String.length body =? 0)%nat then
    Err (Errorf (ErrorText ErrInvalidJSON +:+ ": empty body") [ErrInvalidJSON])
  else
    match Unmarshal_map body with
    | Err e => Err (wrap2 ErrInvalidJSON e)
    | Ok probe =>
        match probe !! "issue" with
        | None => Err ErrMissingIssue
        | Some raw =>
            if String.eqb raw "null" then Err ErrMissingIssue
            else
              match Unmarshal_Payload body zeroPayload with
              | Err e => Err (wrap2 ErrInvalidJSON e)
              | Ok p =>
                  if String.eqb (Key (Payload_Issue p)) "" then Err ErrMissingIssueKey
                  else if String.eqb (Payload_Status p) "" then Err ErrMissingStatus
                  else Ok p
              end
        end
    end.

(** ** [ExtractString] *)

Definition fieldErr (s : error) (fieldID : string) : error :=
  Errorf (ErrorText s +:+ ": " +:+ fieldID) [s].

(** [json.Unmarshal(raw, &s)] for a fresh string. *)
Definition Unmarshal_string (raw : string) : result string :=
  match parse raw with
  | None => Err json_syntax_error
  | Some v =>
      match decode_string v "" with
      | (s, None) => Ok s
      | (_, Some e) => Err e
      end
  end.

Definition ExtractString (p : Payload) (fieldID : string) : result string :=
  match CustomFields (Fields (Payload_Issue p)) !! fieldID with
  | None => Err (fieldErr ErrFieldMissing fieldID)
  | Some raw =>
      if String.eqb raw "null" then
        Err (Errorf (ErrorText ErrFieldMissing +:+ ": " +:+ fieldID +:+ " (null)") [ErrFieldMissing])
      else
        match Unmarshal_string raw with
        | Err e =>
            Err (Errorf (ErrorText ErrFieldType +:+ ": " +:+ fieldID +:+ ": " +:+ ErrorText e) [ErrFieldType; e])
        | Ok s =>
            let trimmed := TrimSpace s in
            if String.eqb trimmed "" then Err (fieldErr ErrFieldEmpty fieldID)
            else Ok trimmed
        end
  end.

(** ** Tests *)

Definition sample_body : string :=
  squote "{'webhookEvent':'jira:issue_updated','issue':{'key':'SEC-100','fields':{'status':{'name':'Approved'},'customfield_1':' team-a ','customfield_2':null,'customfield_3':[1,'x']}}}".

Example Decode_sample :
  Decode sample_body
  = Ok (mkPayload (mkIssue "SEC-100" (mkIssueFields (mkStatus "Approved")
      {[ "customfield_1" := squote "' team-a '"; "customfield_2" := "null"; "customfield_3" := squote "[1,'x']" ]}))).
Proof. vm_compute. reflexivity. Qed.

Example Decode_folded :
  (Payload_Status <$> match Decode (squote "{'issue':{'KEY':'A','fields':{'status':{'name':'x','nAme':'y'}},'fieldS':{}}}") with
   | Ok p => Some p | Err _ => None end) = Some "y".
Proof. vm_compute. reflexivity. Qed.

Example Extract_sample :
  match Decode sample_body with
  | Ok p => (ExtractString p "customfield_1", is_ok (ExtractString p "customfield_3"))
  | Err _ => (Ok "", false)
  end = (Ok "team-a", false).
Proof. vm_compute. reflexivity. Qed.

(** ** One pass over the syntax tree *)

(** The members as a map of values; again the last of duplicate keys wins. *)
Definition ast_map (m : list (string * string * json)) : gmap string json :=
  foldl (fun acc '(k, _, v) => <[k := v]> acc) ∅ m.

(** The custom fields of a ["fields"] value. *)
Definition fields_of (f : IssueFields) (v : json) : result IssueFields :=
  match v with
  | JNull => Ok (mkIssueFields (Fields_Status f) ∅)
  | JObject m =>
      match ast_map m !! "status" with
      | None => Ok (mkIssueFields (Fields_Status f) (raw_map m))
      | Some sv =>
          match decode_Status sv (Fields_Status f) with
          | (st, None) => Ok (mkIssueFields st (delete "status" (raw_map m)))
          | (_, Some e) => Err (wrap_at "status" e)
          end
      end
  | _ => Err (wrap_at "fields" (json_type_error v "map[string]json.RawMessage"))
  end.

Definition issue_of (v : json) (i : Issue) : result (Issue * option error) :=
  match v with
  | JNull => Ok (i, None)
  | JObject m =>
      foldl (fun acc '(k, _, v) =>
               '(i, saved) ← acc;
               if field_match "key" k then
                 let '(s, e) := decode_string v (Key i) in Ok (mkIssue s (Fields i), save saved e)
               else if field_match "fields" k then
                 f ← fields_of (Fields i) v;
                 Ok (mkIssue (Key i) f, saved)
               else Ok (i, saved)) (Ok (i, None)) m
  | _ => Ok (i, Some (json_type_error v "jsm.Issue"))
  end.

Definition issue_member (acc : result (Issue * option error)) (mem : string * string * json)
  : result (Issue * option error) :=
  let '(k, _, v) := mem in
  '(i, saved) ← acc;
  if field_match "issue" k then
    '(i, e) ← issue_of v i;
    Ok (i, save saved e)
  else Ok (i, saved).

(** The whole of [Decode] on a parsed object: the last ["issue"] must be
    there and not null, every member that folds to ["issue"] is decoded into
    the same struct, and key and status must end up non-empty. *)
Definition DecodeAST (m : list (string * string * json)) : result Payload :=
  match ast_map m !! "issue" with
  | None | Some JNull => Err ErrMissingIssue
  | Some _ =>
      match foldl issue_member (Ok (Payload_Issue zeroPayload, None)) m with
      | Err e | Ok (_, Some e) => Err (wrap2 ErrInvalidJSON e)
      | Ok (i, None) =>
          if String.eqb (Key i) "" then Err ErrMissingIssueKey
          else if String.eqb (Status_Name (Fields_Status (Fields i))) "" then Err ErrMissingStatus
          else Ok (mkPayload i)
      end
  end.

Lemma foldl_ext_in {A B} (f g : A -> B -> A) (l : list B) (a : A) :
  (forall acc x, x ∈ l -> f acc x = g acc x) -> foldl f a l = foldl g a l.
Proof.
  revert a. induction l as [|x l IH]; intros a H; [done|]. cbn.
  rewrite H by apply list_elem_of_here. apply IH. intros acc y Hy. apply H. by apply list_elem_of_further.
Qed.

(** The two maps have the same keys, and entries of the same member. *)
Lemma raw_ast_map (m : list (string * string * json)) (k : string) :
  match raw_map m !! k, ast_map m !! k with
  | Some raw, Some v => (k, raw, v) ∈ m
  | None, None => True
  | _, _ => False
  end.
Proof.
  unfold raw_map, ast_map. induction m as [|[[k' raw] v] m IH] using rev_ind; [done|].
  rewrite !foldl_app. cbn. destruct (decide (k' = k)) as [->|Hk].
  - rewrite !lookup_insert_eq. apply elem_of_app. right. by apply list_elem_of_singleton.
  - rewrite !lookup_insert_ne by done. repeat case_match; auto. apply elem_of_app. by left.
Qed.

(** Later members win. *)
Lemma ast_map_app (m1 m2 : list (string * string * json)) (k : string) :
  ast_map (m1 ++ m2) !! k = match ast_map m2 !! k with Some v => Some v | None => ast_map m1 !! k end.
Proof.
  induction m2 as [|[[k' r] v] m2 IH] using rev_ind.
  { by rewrite app_nil_r. }
  unfold ast_map in *. rewrite app_assoc, !(foldl_app _ _ [_]). cbn.
  destruct (decide (k' = k)) as [->|Hk].
  - by rewrite !lookup_insert_eq.
  - rewrite !lookup_insert_ne by done. exact IH.
Qed.

Lemma UnmarshalJSON_fields_of (f : IssueFields) (raw : string) (v : json) :
  parse raw = Some v -> UnmarshalJSON f raw = fields_of f v.
Proof.
  intros Hp. unfold UnmarshalJSON, Unmarshal_map. rewrite Hp. destruct v; try done.
  cbn. pose proof (raw_ast_map m "status") as Hm.
  destruct (raw_map m !! "status") as [rs|], (ast_map m !! "status") as [sv|]; try done.
  unfold Unmarshal_Status. rewrite (parse_raw _ _ _ _ _ Hp Hm).
  by destruct (decode_Status _ _) as [? [?|]].
Qed.

Lemma decode_Issue_issue_of (raw : string) (v : json) (i : Issue) :
  parse raw = Some v -> decode_Issue v i = issue_of v i.
Proof.
  intros Hp. destruct v; try done. apply foldl_ext_in. intros [[j saved]|e] [[k r] v] Hin; [|done].
  cbn. destruct (field_match "key" k); [done|]. destruct (field_match "fields" k); [|done].
  by rewrite (UnmarshalJSON_fields_of _ _ _ (parse_raw _ _ _ _ _ Hp Hin)).
Qed.

(** The fold over the top-level members, with the struct [Payload] peeled off. *)
Lemma decode_Payload_fold (body : string) (m : list (string * string * json)) (i0 : Issue) :
  parse body = Some (JObject m) ->
  decode_Payload (JObject m) (mkPayload i0)
  = '(i, s) ← foldl issue_member (Ok (i0, None)) m; Ok (mkPayload i, s).
Proof.
  intros Hp. cbn [decode_Payload].
  assert (forall (l : list (string * string * json)) acc, (forall x, x ∈ l -> x ∈ m) ->
    foldl payload_member ('(i, s) ← acc; Ok (mkPayload i, s)) l
    = '(i, s) ← foldl issue_member acc l; Ok (mkPayload i, s)) as H.
  { induction l as [|[[k raw] v] l IH]; intros acc Hl; [done|]. cbn [foldl].
    rewrite <- IH by (intros; apply Hl; by apply list_elem_of_further). f_equal.
    destruct acc as [[i saved]|e]; [|done]. cbn. destruct (field_match "issue" k); [|done].
    rewrite (decode_Issue_issue_of raw) by (eapply parse_raw; [done|apply Hl, list_elem_of_here]).
    by destruct (issue_of v i) as [[??]|]. }
  by rewrite <- H.
Qed.

Lemma Decode_DecodeAST (body : string) (m : list (string * string * json)) :
  parse body = Some (JObject m) -> Decode body = DecodeAST m.
Proof.
  intros Hp. unfold Decode, Unmarshal_map, Unmarshal_Payload. rewrite Hp.
  destruct (String.length body =? 0)%nat eqn:El.
  { destruct body; [by vm_compute in Hp|done]. }
  unfold DecodeAST. pose proof (raw_ast_map m "issue") as Hm.
  destruct (raw_map m !! "issue") as [raw|], (ast_map m !! "issue") as [v|]; try done.
  pose proof (parse_raw_null _ _ _ _ _ Hp Hm) as Hnull.
  destruct (String.eqb_spec raw "null") as [Hr|Hr]; [by rewrite (proj1 Hnull Hr)|].
  unfold zeroPayload at 1. rewrite (decode_Payload_fold body) by done.
  destruct v; [naive_solver|..];
    (destruct (foldl _ _ m) as [[i [e|]]|e]; [done| |done]; done).
Qed.

(** C19: Decoding in the code's several passes (the probe, the structs, then
    the raw bytes of the fields and of the status again) is one pass over the
    syntax tree, for every body: no body or no JSON is invalid, [null] has no
    issue, an object decodes to what [DecodeAST] reads off its members, and
    any other value is a type error. *)
Theorem Decode_one_pass (body : string) :
  Decode body
  = match body, parse body with
    | EmptyString, _ => Err (Errorf "invalid json: empty body" [ErrInvalidJSON])
    | _, None => Err (wrap2 ErrInvalidJSON json_syntax_error)
    | _, Some JNull => Err ErrMissingIssue
    | _, Some (JObject m) => DecodeAST m
    | _, Some v => Err (wrap2 ErrInvalidJSON (json_type_error v "map[string]json.RawMessage"))
    end.
Proof.
  destruct body as [|c body]; [done|]. set (b := String c body).
  destruct (parse b) as [v|] eqn:Hp.
  - destruct v; try (unfold Decode, Unmarshal_map; by rewrite Hp). by apply Decode_DecodeAST.
  - unfold Decode, Unmarshal_map. by rewrite Hp.
Qed.

(** ** Errors of [Decode] *)

(** An error that wraps [ErrInvalidJSON] and no other sentinel. *)
Definition json_error (e : error) : Prop :=
  Is e "jsm.ErrInvalidJSON" = true
  /\ forall name, name <> "jsm.ErrInvalidJSON" -> Is e name = false.

(** An error that is at most an [ErrInvalidJSON]. *)
Definition at_most_json (e : error) : Prop :=
  forall name, name <> "jsm.ErrInvalidJSON" -> Is e name = false.

Lemma wrap_json_error (text : string) (e : error) :
  at_most_json e -> json_error (Errorf text [ErrInvalidJSON; e]).
Proof.
  intros He. split; [done|]. intros name Hn. cbn -[String.eqb]. rewrite (He name Hn).
  destruct (String.eqb_spec "jsm.ErrInvalidJSON" name); [congruence|done].
Qed.

Lemma json_error_at_most (e : error) : json_error e -> at_most_json e.
Proof. by intros [_ H]. Qed.

Lemma Opaque_at_most (msg : string) : at_most_json (Opaque msg).
Proof. by intros name _. Qed.

#[export] Hint Resolve wrap_json_error json_error_at_most Opaque_at_most : webhookd.

Lemma save_at_most (s e : option error) :
  (forall x, s = Some x -> at_most_json x) -> (forall x, e = Some x -> at_most_json x) ->
  forall x, save s e = Some x -> at_most_json x.
Proof. destruct s; cbn; naive_solver. Qed.

Lemma decode_string_at_most (v : json) (old s : string) (e : error) :
  decode_string v old = (s, Some e) -> at_most_json e.
Proof. destruct v; intros [= <- <-]; apply Opaque_at_most. Qed.

Lemma decode_Status_at_most (v : json) (st st' : Status) (e : error) :
  decode_Status v st = (st', Some e) -> at_most_json e.
Proof.
  destruct v; cbn; try (intros [= <- <-]; apply Opaque_at_most).
  assert (forall x, @None error = Some x -> at_most_json x) as Hs by done.
  revert Hs. generalize (@None error) as saved. revert st.
  induction m as [|[[k raw] v] m IH]; intros st saved Hs; cbn [foldl].
  { intros [= -> ->]. by apply Hs. }
  destruct (field_match "name" k); [|by apply IH].
  destruct (decode_string v (Status_Name st)) as [s e'] eqn:E.
  apply IH, save_at_most; [done|]. intros x ->. by eapply decode_string_at_most.
Qed.

Lemma Unmarshal_map_at_most (b : string) (e : error) : Unmarshal_map b = Err e -> at_most_json e.
Proof. unfold Unmarshal_map. repeat case_match; intros [= <-]; apply Opaque_at_most. Qed.

Lemma UnmarshalJSON_error (f : IssueFields) (b : string) (e : error) :
  UnmarshalJSON f b = Err e -> json_error e.
Proof.
  unfold UnmarshalJSON. destruct (Unmarshal_map b) as [raw|e'] eqn:E.
  - destruct (raw !! "status") as [rs|]; [|done]. unfold Unmarshal_Status.
    destruct (parse rs); [|intros [= <-]; apply wrap_json_error, Opaque_at_most].
    destruct (decode_Status _ _) as [st [e'|]] eqn:Es; [|done].
    intros [= <-]. apply wrap_json_error. by eapply decode_Status_at_most.
  - intros [= <-]. apply wrap_json_error. by eapply Unmarshal_map_at_most.
Qed.

(** An invariant of a run of the decoder: the state satisfies [P], an error,
    saved or final, is at most an [ErrInvalidJSON]. *)
Definition decoding {A} (P : A -> Prop) (r : result (A * option error)) : Prop :=
  match r with
  | Ok (a, saved) => P a /\ forall e, saved = Some e -> at_most_json e
  | Err e => at_most_json e
  end.

(** Every custom field holds the exact bytes of a JSON value. *)
Definition fields_wf (f : IssueFields) : Prop :=
  forall id raw, CustomFields f !! id = Some raw ->
    exists v, parse raw = Some v /\ (raw = "null" <-> v = JNull).

Lemma raw_map_wf (b : string) (m : list (string * string * json)) id raw :
  parse b = Some (JObject m) -> raw_map m !! id = Some raw ->
  exists v, parse raw = Some v /\ (raw = "null" <-> v = JNull).
Proof.
  intros Hp Hr. pose proof (raw_ast_map m id) as Hm. rewrite Hr in Hm.
  destruct (ast_map m !! id) as [v|]; [|done]. exists v.
  split; [by eapply parse_raw|by eapply parse_raw_null].
Qed.

Lemma UnmarshalJSON_wf (f f' : IssueFields) (b : string) :
  UnmarshalJSON f b = Ok f' -> fields_wf f'.
Proof.
  unfold UnmarshalJSON, Unmarshal_map. destruct (parse b) as [v|] eqn:Hp; [|done].
  destruct v; try done; cbn.
  - rewrite lookup_empty. intros [= <-] id raw. cbn. by rewrite lookup_empty.
  - destruct (raw_map m !! "status") as [rs|].
    + destruct (Unmarshal_Status rs _); [|done]. intros [= <-] id raw. cbn.
      intros [_ H]%lookup_delete_Some. by eapply raw_map_wf.
    + intros [= <-] id raw. by apply (raw_map_wf b).
Qed.

Lemma decode_Issue_decoding (v : json) (i : Issue) :
  fields_wf (Fields i) -> decoding (fun i => fields_wf (Fields i)) (decode_Issue v i).
Proof.
  intros Hi. destruct v; cbn; try (split; [done|]; intros e [= <-]; apply Opaque_at_most).
  match goal with |- decoding ?P (foldl ?F ?A m) =>
    assert (decoding P A) as Hacc by (by split); revert Hacc; generalize A; clear i Hi end.
  induction m as [|[[k raw] v] m IH]; intros acc Hacc; [done|]. cbn [foldl]. apply IH. clear IH.
  destruct acc as [[i saved]|e]; [|done]. destruct Hacc as [Hi Hs]. cbn.
  destruct (field_match "key" k).
  - destruct (decode_string v (Key i)) as [s e] eqn:E. split; [done|].
    apply save_at_most; [done|]. intros x ->. by eapply decode_string_at_most.
  - destruct (field_match "fields" k); [|done].
    destruct (UnmarshalJSON (Fields i) raw) as [f|e] eqn:E; cbn.
    + split; [by eapply UnmarshalJSON_wf|done].
    + apply json_error_at_most. by eapply UnmarshalJSON_error.
Qed.

Definition payload_wf (p : Payload) : Prop := fields_wf (Fields (Payload_Issue p)).

Lemma decode_Payload_decoding (v : json) (p : Payload) :
  payload_wf p -> decoding payload_wf (decode_Payload v p).
Proof.
  intros Hp. destruct v; cbn; try (split; [done|]; intros e [= <-]; apply Opaque_at_most).
  assert (decoding payload_wf (Ok (p, None))) as Hacc by (by split).
  revert Hacc. generalize (Ok (p, @None error)). clear p Hp.
  induction m as [|[[k raw] v] m IH]; intros acc Hacc; [done|]. cbn [foldl]. apply IH. clear IH.
  destruct acc as [[p saved]|e]; [|done]. destruct Hacc as [Hp Hs]. cbn.
  destruct (field_match "issue" k); [|done].
  pose proof (decode_Issue_decoding v (Payload_Issue p) Hp) as Hd.
  destruct (decode_Issue v (Payload_Issue p)) as [[i e]|e]; [|done]. destruct Hd as [Hi He].
  split; [done|]. by apply save_at_most.
Qed.

Lemma Unmarshal_Payload_decoding (b : string) :
  match Unmarshal_Payload b zeroPayload with
  | Ok p => payload_wf p
  | Err e => at_most_json e
  end.
Proof.
  unfold Unmarshal_Payload. destruct (parse b) as [v|]; [|apply Opaque_at_most].
  assert (payload_wf zeroPayload) as H0 by (intros id raw; cbn; by rewrite lookup_empty).
  pose proof (decode_Payload_decoding v zeroPayload H0) as H.
  destruct (decode_Payload v zeroPayload) as [[p [e|]]|e]; cbn in H; naive_solver.
Qed.

(** The decoded payload is well formed, its key and status non-empty; an
    error is one of the three "missing" sentinels or an [ErrInvalidJSON]. *)
Lemma Decode_cases (body : string) :
  match Decode body with
  | Ok p => payload_wf p /\ IssueKey p <> "" /\ Payload_Status p <> ""
  | Err e => e = ErrMissingIssue \/ e = ErrMissingIssueKey \/ e = ErrMissingStatus \/ json_error e
  end.
Proof.
  unfold Decode. destruct (String.length body =? 0)%nat.
  { do 3 right. split; [done|]. intros name Hn. cbn -[String.eqb].
    destruct (String.eqb_spec "jsm.ErrInvalidJSON" name); [congruence|done]. }
  destruct (Unmarshal_map body) as [probe|e] eqn:Em.
  2:{ do 3 right. apply wrap_json_error. by eapply Unmarshal_map_at_most. }
  destruct (probe !! "issue") as [raw|]; [|by left].
  destruct (String.eqb raw "null"); [by left|].
  pose proof (Unmarshal_Payload_decoding body) as Hd.
  destruct (Unmarshal_Payload body zeroPayload) as [p|e]; [|do 3 right; by apply wrap_json_error].
  unfold IssueKey. destruct (String.eqb_spec (Key (Payload_Issue p)) ""); [by auto|].
  destruct (String.eqb_spec (Payload_Status p) ""); by auto.
Qed.

(** [Decode] reports a missing issue exactly for the JSON value [null]
    and for the objects whose last ["issue"] member is absent or null;
    a key that only folds to ["issue"] does not count. *)
Theorem Decode_missing_issue (body : string) :
  Decode body = Err ErrMissingIssue
  <-> parse body = Some JNull
      \/ exists m, parse body = Some (JObject m)
           /\ (ast_map m !! "issue" = None \/ ast_map m !! "issue" = Some JNull).
Proof.
  destruct (parse body) as [v|] eqn:Hp.
  2:{ split; [|naive_solver]. unfold Decode, Unmarshal_map. rewrite Hp. by case_match. }
  assert ((String.length body =? 0)%nat = false) as Hl.
  { destruct body; [by vm_compute in Hp|done]. }
  destruct v; try (unfold Decode, Unmarshal_map; rewrite Hl, Hp; cbn; naive_solver).
  rewrite (Decode_DecodeAST _ _ Hp). unfold DecodeAST. split.
  - intros H. right. exists m. split; [done|]. repeat case_match; naive_solver.
  - intros [?|(m' & [= <-] & [-> | ->])]; done.
Qed.


(** ** Custom fields *)

(** The value of a custom field. *)
Definition custom (p : Payload) (fieldID : string) : option json :=
  CustomFields (Fields (Payload_Issue p)) !! fieldID ≫= parse.

(** What [ExtractString] is, by the value of the field. *)
Lemma ExtractString_custom (p : Payload) (fieldID : string) :
  payload_wf p ->
  match custom p fieldID, ExtractString p fieldID with
  | Some (JString s), Ok t => t = TrimSpace s /\ t <> ""
  | Some (JString s), Err e => TrimSpace s = "" /\ e = fieldErr ErrFieldEmpty fieldID
  | None, Err e | Some JNull, Err e => exists msg, e = Errorf msg [ErrFieldMissing]
  | Some v, Err e => exists msg, e = Errorf msg [ErrFieldType; json_type_error v "string"]
  | _, Ok _ => False
  end.
Proof.
  intros Hw. unfold custom, ExtractString.
  destruct (CustomFields _ !! fieldID) as [raw|] eqn:Er; [|by eexists]. cbn.
  destruct (Hw _ _ Er) as (v & Hp & Hn). rewrite Hp.
  destruct (String.eqb_spec raw "null") as [Hr|Hr].
  - rewrite (proj1 Hn Hr). by eexists.
  - unfold Unmarshal_string. rewrite Hp.
    destruct v; cbn; [tauto|by eexists|by eexists| |by eexists|by eexists].
    by destruct (String.eqb_spec (TrimSpace s) "").
Qed.

(** On a decoded payload, [ExtractString] succeeds exactly for a JSON
    string that is not blank, and returns it trimmed; an absent or null field
    is missing, a blank string is empty, any other value has the wrong type. *)
Theorem ExtractString_spec (body : string) (p : Payload) (fieldID : string) :
  Decode body = Ok p ->
  match custom p fieldID, ExtractString p fieldID with
  | Some (JString s), Ok t => t = TrimSpace s /\ t <> ""
  | Some (JString s), Err e => TrimSpace s = "" /\ e = fieldErr ErrFieldEmpty fieldID
  | None, Err e | Some JNull, Err e => exists msg, e = Errorf msg [ErrFieldMissing]
  | Some v, Err e => exists msg, e = Errorf msg [ErrFieldType; json_type_error v "string"]
  | _, Ok _ => False
  end.
Proof.
  intros Hd. pose proof (Decode_cases body) as H. rewrite Hd in H.
  apply ExtractString_custom. by apply H.
Qed.

Lemma ExtractString_spec_witness :
  exists p, Decode sample_body = Ok p /\ ExtractString p "customfield_1" = Ok "team-a"
    /\ exists e, ExtractString p "customfield_2" = Err e /\ Is e "jsm.ErrFieldMissing" = true.
Proof.
  destruct (Decode sample_body) as [p|e] eqn:E; [|vm_compute in E; discriminate E].
  exists p. pose proof (ExtractString_spec sample_body p "customfield_2" E) as H2.
  vm_compute in E. injection E as <-. split; [reflexivity|]. split; [reflexivity|].
  destruct (ExtractString _ "customfield_2") as [t|e] eqn:E2; [vm_compute in E2; discriminate E2|].
  exists e. split; [reflexivity|]. vm_compute in H2. destruct H2 as [msg ->]. reflexivity.
Defined.

(** ** Round trip *)

(** A JSM body: the key, the status name and string custom fields. *)
Definition jsm_body (key status : string) (customs : list (string * string)) : jsonv :=
  VObject [("issue", VObject
    [("key", VString key);
     ("fields", VObject (("status", VObject [("name", VString status)])
                         :: map (fun '(k, s) => (k, VString s)) customs))])].

Lemma raw_map_lookup (m : list (string * string * json)) (k raw : string) (v : json) :
  NoDup (map (fun x => x.1.1) m) -> (k, raw, v) ∈ m -> raw_map m !! k = Some raw.
Proof.
  unfold raw_map. induction m as [|[[k' raw'] v'] m IH] using rev_ind; intros Hn Hin.
  { by apply elem_of_nil in Hin. }
  rewrite map_app in Hn. apply NoDup_app in Hn as (Hn & Hd & _).
  rewrite foldl_app. cbn. apply elem_of_app in Hin as [Hin|Hin].
  - rewrite lookup_insert_ne; [by apply IH|]. intros ->.
    apply (Hd k); [|by apply list_elem_of_here].
    apply list_elem_of_fmap. by exists (k, raw, v).
  - apply list_elem_of_singleton in Hin as [= -> -> ->]. apply lookup_insert_eq.
Qed.

Lemma customs_tree (customs : list (string * string)) :
  Forall (fun ks => valid_utf8 ks.1) customs ->
  map (fun '(k, x) => (sanitize k, encode x, tree x)) (map (fun '(k, s) => (k, VString s)) customs)
  = map (fun '(k, s) => (k, encode_string s, JString (sanitize s))) customs.
Proof. induction 1 as [|[k s] l Hk HF IH]; [done|]. cbn. f_equal; [|done]. by rewrite Hk. Qed.

Lemma nesting_jsm_body key status customs : nesting (jsm_body key status customs) <= maxNestingDepth.
Proof.
  cbn. assert (foldr Z.max 0 (map (fun kv : string * jsonv => nesting kv.2)
     (map (fun '(k, s) => (k, VString s)) customs)) = 0) as ->.
  { induction customs as [|[k s] l IH]; [done|]. cbn. by rewrite IH. }
  unfold maxNestingDepth. lia.
Qed.

Lemma ast_map_lookup (m : list (string * string * json)) (k raw : string) (v : json) :
  NoDup (map (fun x => x.1.1) m) -> (k, raw, v) ∈ m -> ast_map m !! k = Some v.
Proof.
  intros Hn Hin. pose proof (raw_ast_map m k) as H. rewrite (raw_map_lookup _ _ _ _ Hn Hin) in H.
  destruct (ast_map m !! k) as [v'|]; [|done]. f_equal.
  assert ((k, raw, v') = (k, raw, v)) as [= ->]; [|done].
  clear -Hn Hin H. induction m as [|x m IH]; [by apply elem_of_nil in H|].
  cbn in Hn. apply NoDup_cons in Hn as [Hx Hn].
  assert (forall y, (k, raw, y) ∈ m -> k ∈ map (fun x => x.1.1) m) as Hk.
  { intros y Hy. apply list_elem_of_fmap. by exists (k, raw, y). }
  apply elem_of_cons in H as [H|H]; apply elem_of_cons in Hin as [Hin|Hin];
    [by rewrite H, Hin| | |by auto].
  - subst x. destruct Hx. by eapply Hk.
  - subst x. destruct Hx. by eapply Hk.
Qed.

(** The tree of such a body decodes. *)
Lemma DecodeAST_shape (ri rk rf rs rn key status : string) (ms : list (string * string * json)) :
  let m := ("status", rs, JObject [("name", rn, JString status)]) :: ms in
  key <> "" -> status <> "" -> NoDup (map (fun x => x.1.1) m) ->
  DecodeAST [("issue", ri, JObject [("key", rk, JString key); ("fields", rf, JObject m)])]
  = Ok (mkPayload (mkIssue key (mkIssueFields (mkStatus status) (delete "status" (raw_map m))))).
Proof.
  intros m Hk Hs Hn. unfold DecodeAST, ast_map. cbn [foldl]. rewrite lookup_insert_eq.
  cbn [issue_member issue_of foldl mbind result_bind].
  change (field_match "issue" "issue") with true. change (field_match "key" "key") with true.
  change (field_match "key" "fields") with false. change (field_match "fields" "fields") with true.
  cbn [decode_string mbind result_bind Fields Key zeroPayload Payload_Issue fields_of].
  rewrite (ast_map_lookup m "status" rs (JObject [("name", rn, JString status)]))
    by (done || apply list_elem_of_here).
  cbn [decode_Status foldl]. change (field_match "name" "name") with true. cbn -[String.eqb m].
  destruct (String.eqb_spec key ""); [done|]. by destruct (String.eqb_spec status "").
Qed.

Lemma map_fst_customs (customs : list (string * string)) :
  map (fun x => x.1.1) (map (fun '(k, s) => (k, encode_string s, JString (sanitize s))) customs)
  = map fst customs.
Proof. induction customs as [|[k s] l IH]; cbn; by f_equal. Qed.

(** C35: Round trip: a body the encoder writes for a key, a status and string
    custom fields, the key and status not empty, all strings valid UTF-8, and
    the names distinct and none of them ["status"], decodes to that key and
    status.  [ExtractString] gives back each custom field, trimmed, when
    something is left of it, and [ErrFieldEmpty] for one that is blank. *)
Theorem Decode_encode_roundtrip (key status : string) (customs : list (string * string)) :
  key <> "" -> status <> "" -> valid_utf8 key -> valid_utf8 status ->
  Forall (fun ks => valid_utf8 ks.1 /\ valid_utf8 ks.2) customs ->
  NoDup ("status" :: map fst customs) ->
  exists p, Decode (Encode (jsm_body key status customs)) = Ok p
    /\ IssueKey p = key /\ Payload_Status p = status
    /\ forall id s, (id, s) ∈ customs ->
         ExtractString p id
         = if String.eqb (TrimSpace s) "" then Err (fieldErr ErrFieldEmpty id) else Ok (TrimSpace s).
Proof.
  intros Hk Hs Uk Us HF Hnd.
  pose proof (parse_Encode _ (nesting_jsm_body key status customs)) as Hp.
  unfold jsm_body in Hp at 2. cbn [tree map] in Hp.
  rewrite customs_tree in Hp by (eapply Forall_impl; [done|]; naive_solver).
  change (sanitize "issue") with "issue" in Hp. change (sanitize "key") with "key" in Hp.
  change (sanitize "fields") with "fields" in Hp. change (sanitize "status") with "status" in Hp.
  change (sanitize "name") with "name" in Hp. rewrite Uk, Us in Hp.
  rewrite (Decode_DecodeAST _ _ Hp), DecodeAST_shape by (try done; cbn [map fst]; by rewrite map_fst_customs).
  eexists. split; [done|]. split; [done|]. split; [done|]. intros id s Hin.
  unfold ExtractString. cbn [Fields CustomFields Payload_Issue].
  assert (id <> "status") as Hid.
  { intros ->. apply NoDup_cons in Hnd as [Hnd _]. destruct Hnd. apply list_elem_of_fmap. by exists ("status", s). }
  rewrite lookup_delete_ne by done.
  rewrite (raw_map_lookup _ id (encode_string s) (JString (sanitize s))).
  - destruct (String.eqb_spec (encode_string s) "null"); [done|].
    unfold Unmarshal_string. change (encode_string s) with (encode (VString s)).
    rewrite (parse_encode (VString s)) by done. cbn [tree decode_string].
    rewrite Forall_forall in HF. destruct (HF _ Hin) as [_ Hu].
    change (sanitize s = s) in Hu. by rewrite Hu.
  - cbn [map fst]. by rewrite map_fst_customs.
  - apply list_elem_of_further, list_elem_of_fmap. by exists (id, s).
Qed.

Lemma Decode_encode_roundtrip_witness :
  exists p, Decode (Encode (jsm_body "SEC-7" "Approved" [("cf_1", " team "); ("cf_2", "  ")])) = Ok p
    /\ IssueKey p = "SEC-7" /\ ExtractString p "cf_1" = Ok "team"
    /\ ExtractString p "cf_2" = Err (fieldErr ErrFieldEmpty "cf_2").
Proof.
  destruct (Decode_encode_roundtrip "SEC-7" "Approved" [("cf_1", " team "); ("cf_2", "  ")])
    as (p & Hd & Hk & _ & He);
    [discriminate|discriminate|reflexivity|reflexivity
    |repeat constructor|apply (bool_decide_unpack _); vm_compute; exact I|].
  exists p. split; [exact Hd|]. split; [exact Hk|]. split.
  - apply (He "cf_1" " team "). apply (bool_decide_unpack _). vm_compute. exact I.
  - apply (He "cf_2" "  "). apply (bool_decide_unpack _). vm_compute. exact I.
Defined.
