(* ===== verification/JsmProvider.v ===== *)
(** * The JSM provider ([internal/webhook/jsm])

    The custom resource a ticket becomes (cr.go), the readiness predicate,
    the signature check (signature.go), [Handle] (provider.go) and the
    response body (response.go), assembled into the [Provider] of the
    dispatcher, for which [PureProvider] is proved. *)

From Stdlib Require Import Ascii.
From S2P Require Import Prelude GoStrings Unicode GoTime Sha256 Signature Json JsonEncode.
From S2P Require Import Result Runtime Action WizApi JsmPayload.

Module Jsm.

(** ** cr.go *)

Definition AnnotationIssue : string := "webhookd.io/jsm-issue-key".

Definition BuildSpec (providerGroupID role project identityProviderID description : string)
  : SAMLGroupMappingSpec :=
  mkSAMLGroupMappingSpec identityProviderID providerGroupID description
    (mkRoleRef role) [mkProjectRef project].

Definition BuildDescription (issueKey : string) : string := "Provisioned from JSM " +:+ issueKey.

Definition BuildSAMLGroupMapping (name namespace : string) (spec : SAMLGroupMappingSpec) : SAMLGroupMapping :=
  mkSAMLGroupMapping (mkTypeMeta (GroupVersion_String GroupVersion) "SAMLGroupMapping")
    (newMeta name namespace) spec zeroStatus.

Definition CRName `{UnicodeTables} (issueKey : string) : string := "jsm-" +:+ ToLower issueKey.

(** The loop over the conditions. *)
Fixpoint ready_condition (cs : list Condition) : bool :=
  match cs with
  | [] => false
  | c :: cs =>
      if String.eqb (c_Type c) ConditionTypeReady && String.eqb (c_Status c) ConditionTrue
      then true else ready_condition cs
  end.

Definition IsReady (obj : object) (applyGen : Z) : bool * Z :=
  match obj with
  | ObjSAMLGroupMapping cr =>
      let observed := st_ObservedGeneration (sgm_Status cr) in
      if observed <? applyGen then (false, observed)
      else if ready_condition (Conditions (sgm_Status cr)) then (true, observed)
      else (false, observed)
  | _ => (false, 0)
  end.

(** ** response.go *)

Record ResponseBody := mkResponseBody {
  rb_Status : string;
  rb_Reason : string;
  rb_CRName : string;
  rb_Namespace : string;
  rb_ObservedGeneration : Z;
  rb_TraceID : string;
  rb_RequestID : string
}.

Definition Build (res : ExecResult) (traceID requestID : string) : ResponseBody :=
  mkResponseBody
    (match Kind res with
     | ResultNoop => "noop"
     | ResultReady => "success"
     | _ => "failure"
     end)
    (Reason res) (Result.CRName res) (Namespace res) (ObservedGeneration res) traceID requestID.

(** The struct tags: names, order, [omitempty]. *)
Definition omitempty (name s : string) : list (string * jsonv) :=
  if String.eqb s "" then [] else [(name, VString s)].

Definition ResponseBody_json (b : ResponseBody) : jsonv :=
  VObject ([("status", VString (rb_Status b))]
    ++ omitempty "reason" (rb_Reason b)
    ++ omitempty "crName" (rb_CRName b)
    ++ omitempty "namespace" (rb_Namespace b)
    ++ (if rb_ObservedGeneration b =? 0 then []
        else [("observedGeneration", VInt (rb_ObservedGeneration b))])
    ++ omitempty "traceId" (rb_TraceID b)
    ++ omitempty "requestId" (rb_RequestID b)).

Definition BuildResponse (res : ExecResult) (traceID requestID : string) : jsonv :=
  ResponseBody_json (Build res traceID requestID).

Section Provider.
Context {C L : Type} `{UnicodeTables}.
Local Notation M := (M C L).

(** ** signature.go *)

(** [Now] is nil or a clock. *)
Record SignatureConfig := mkSignatureConfig {
  SecretBytes : string;
  SigHeader : string;
  TSHeader : string;
  Skew : Z;
  Now : option (M Time)
}.

Definition VerifySignature (r : nat) (body : string) (cfg : SignatureConfig) : M (option error) :=
  let now := match Now cfg with Some f => f | None => time_Now end in
  q ← deref_request r;
  t ← now;
  mret (Verify (SecretBytes cfg)
               (Header_Get (Header q) (SigHeader cfg))
               (Header_Get (Header q) (TSHeader cfg))
               body t (Skew cfg)).

(** ** provider.go *)

(** [HasMetrics] is [Metrics != nil]. *)
Record Config := mkConfig {
  TriggerStatus : string;
  FieldProviderGroupID : string;
  FieldRole : string;
  FieldProject : string;
  cfg_IdentityProviderID : string;
  cfg_Namespace : string;
  cfg_Signature : SignatureConfig;
  HasMetrics : bool
}.

(** [New(cfg)]: the provider holds a copy of the configuration, its clock
    [time.Now] when none is given. *)
Definition New (cfg : Config) : Config :=
  let s := cfg_Signature cfg in
  let now := match Now s with Some f => f | None => time_Now end in
  mkConfig (TriggerStatus cfg) (FieldProviderGroupID cfg) (FieldRole cfg) (FieldProject cfg)
    (cfg_IdentityProviderID cfg) (cfg_Namespace cfg)
    (mkSignatureConfig (SecretBytes s) (SigHeader s) (TSHeader s) (Skew s) (Some now))
    (HasMetrics cfg).

Definition parseReasonInvalidJSON : string := "invalid_json".
Definition parseReasonMissing : string := "missing_field".
Definition parseReasonEmpty : string := "empty_field".
Definition parseReasonType : string := "wrong_type".

Definition recordNoop (p : Config) : M unit :=
  if negb (HasMetrics p) then mret tt else inc "JSMNoopTotal" [].

Definition recordParseErr (p : Config) (reason : string) : M unit :=
  if negb (HasMetrics p) then mret tt else inc "JSMPayloadParseErrors" [reason].

Definition decodeReason (err : error) : string :=
  if Is err "jsm.ErrMissingIssue" || Is err "jsm.ErrMissingIssueKey" || Is err "jsm.ErrMissingStatus"
  then parseReasonMissing
  else parseReasonInvalidJSON.

Definition extractReason (err : error) : string :=
  if Is err "jsm.ErrFieldMissing" then parseReasonMissing
  else if Is err "jsm.ErrFieldEmpty" then parseReasonEmpty
  else if Is err "jsm.ErrFieldType" then parseReasonType
  else parseReasonMissing.

Definition classifyExtractErr (err : error) : error :=
  if Is err "jsm.ErrFieldMissing" || Is err "jsm.ErrFieldEmpty" then wrap2 ErrBadRequest err
  else if Is err "jsm.ErrFieldType" then wrap2 ErrUnprocessable err
  else err.

(** The three [ExtractString] blocks of [Handle] are alike: count the error
    and classify it, or go on. *)
Definition extract (p : Config) (payload : Payload) (fieldID : string)
    (next : string -> M (result (Action object object_list))) : M (result (Action object object_list)) :=
  match ExtractString payload fieldID with
  | Err err => recordParseErr p (extractReason err) ;; mret (Err (classifyExtractErr err))
  | Ok s => next s
  end.

Definition noopReason (p : Config) (payload : Payload) : string :=
  "ticket " +:+ IssueKey payload +:+ " status " +:+ Quote (Payload_Status payload)
  +:+ " does not match trigger " +:+ Quote (TriggerStatus p).

Definition applyAction (p : Config) (payload : Payload) (providerGroupID role project : string)
  : ApplyAction object object_list :=
  let spec := BuildSpec providerGroupID role project (cfg_IdentityProviderID p)
                (BuildDescription (IssueKey payload)) in
  let cr := BuildSAMLGroupMapping (CRName (IssueKey payload)) (cfg_Namespace p) spec in
  mkApplyAction (ObjSAMLGroupMapping cr) SAMLGroupMappingList IsReady
    {[ AnnotationIssue := IssueKey payload ]} "SAMLGroupMapping" "jsm".

Definition Handle (p : Config) (body : string) : M (result (Action object object_list)) :=
  match Decode body with
  | Err err =>
      recordParseErr p (decodeReason err) ;;
      mret (Err (wrap2 ErrBadRequest err))
  | Ok payload =>
      if negb (String.eqb (Payload_Status payload) (TriggerStatus p)) then
        recordNoop p ;;
        mret (Ok (NoopAction (noopReason p payload)))
      else
        extract p payload (FieldProviderGroupID p) (fun providerGroupID =>
        extract p payload (FieldRole p) (fun role =>
        extract p payload (FieldProject p) (fun project =>
          mret (Ok (Apply (applyAction p payload providerGroupID role project))))))
  end.

(** The provider behind the interface. *)
Definition provider (p : Config) : Provider C L object object_list :=
  mkProvider C L object object_list "jsm"
    (fun r body => VerifySignature r body (cfg_Signature p))
    (fun _ body => Handle p body)
    BuildResponse.

End Provider.

(** ** Readiness *)

Lemma ready_condition_iff (cs : list Condition) :
  ready_condition cs = true
  <-> exists c, c ∈ cs /\ c_Type c = ConditionTypeReady /\ c_Status c = ConditionTrue.
Proof.
  induction cs as [|c cs IH]; cbn [ready_condition].
  { split; [done|]. intros (c & Hc & _). by apply elem_of_nil in Hc. }
  destruct (String.eqb_spec (c_Type c) ConditionTypeReady) as [Ht|Ht],
    (String.eqb_spec (c_Status c) ConditionTrue) as [Hs|Hs]; cbn [andb]; rewrite ?IH;
    (split; [intros; naive_solver (eauto using list_elem_of_here, list_elem_of_further)|]).
  1: done.
  all: intros (d & [->|Hd]%elem_of_cons & Hdt & Hds); [congruence|by exists d].
Qed.

Lemma IsReady_true (obj : object) (applyGen g : Z) :
  IsReady obj applyGen = (true, g)
  <-> exists cr, obj = ObjSAMLGroupMapping cr
       /\ g = st_ObservedGeneration (sgm_Status cr) /\ applyGen <= g
       /\ exists c, c ∈ Conditions (sgm_Status cr)
            /\ c_Type c = "Ready" /\ c_Status c = "True".
Proof.
  destruct obj as [cr|?|?]; cbn [IsReady]; [|naive_solver|naive_solver].
  destruct (st_ObservedGeneration (sgm_Status cr) <? applyGen) eqn:E; bool_to_prop.
  { split; [done|]. intros (? & [= <-] & -> & ? & _). lia. }
  pose proof (ready_condition_iff (Conditions (sgm_Status cr))) as Hc.
  destruct (ready_condition _); naive_solver.
Qed.

(** [IsReady] says ready exactly for a [SAMLGroupMapping] whose observed
    generation has caught up with the applied one and which carries a
    condition of type Ready with status True; whatever it says, the
    generation it reports is the object's observed one, or 0 for an object of
    another kind. *)
Theorem IsReady_spec (obj : object) (applyGen : Z) :
  let '(ready, g) := IsReady obj applyGen in
  (ready = true
   <-> exists cr, obj = ObjSAMLGroupMapping cr /\ applyGen <= st_ObservedGeneration (sgm_Status cr)
        /\ exists c, c ∈ Conditions (sgm_Status cr) /\ c_Type c = "Ready" /\ c_Status c = "True")
  /\ g = match obj with
         | ObjSAMLGroupMapping cr => st_ObservedGeneration (sgm_Status cr)
         | _ => 0
         end.
Proof.
  pose proof (IsReady_true obj applyGen) as Ht. destruct (IsReady obj applyGen) as [ready g] eqn:E.
  assert (g = match obj with
         | ObjSAMLGroupMapping cr => st_ObservedGeneration (sgm_Status cr)
         | _ => 0
         end) as Hg.
  { destruct obj; cbn in E; repeat case_match; congruence. }
  split; [|done]. specialize (Ht g). split.
  - intros ->. destruct (proj1 Ht eq_refl) as (cr & -> & -> & Hle & Hc). by exists cr.
  - intros (cr & -> & Hle & Hc). assert ((ready, g) = (true, g)) as [= ->]; [|done].
    apply Ht. exists cr. by subst g.
Qed.

(** ** Names *)

(** The bytes of a Jira issue key: upper-case letters, digits, the dash. *)
Definition key_byte (c : ascii) : Prop := in_range 65 90 c = true \/ in_range 48 57 c = true \/ c = "-"%char.

Lemma key_byte_ascii (s : string) : sForall key_byte s -> is_ascii s = true.
Proof.
  induction s as [|c s IH]; [done|]. intros [Hc Hs]. cbn. rewrite (IH Hs), andb_true_r.
  unfold key_byte, in_range in Hc. destruct Hc as [Hc|[Hc| ->]]; [lia|lia|done].
Qed.

Lemma lower_key_inj (s t : string) :
  sForall key_byte s -> sForall key_byte t -> string_map lower_byte s = string_map lower_byte t -> s = t.
Proof.
  revert t. induction s as [|c s IH]; intros [|d t] Hs Ht E; try done.
  destruct Hs as [Hc Hs], Ht as [Hd Ht]. cbn in E. injection E as Ecd Est.
  f_equal; [|by apply IH]. apply (f_equal ord) in Ecd. rewrite !lower_byte_ord in Ecd.
  apply ord_inj. unfold key_byte, in_range in *.
  assert (ord "-" = 45) as Hdash by done.
  destruct Hc as [Hc|[Hc| ->]], Hd as [Hd|[Hd| ->]]; repeat case_match; lia.
Qed.

(** The bytes of an RFC 1123 name. *)
Definition label_byte (c : ascii) : Prop := in_range 97 122 c = true \/ in_range 48 57 c = true \/ c = "-"%char.

(** For Jira issue keys the resource name is injective, so two tickets
    never write the same resource, and consists of the bytes Kubernetes
    allows in a name. *)
Theorem CRName_injective `{UnicodeTables} (k1 k2 : string) :
  sForall key_byte k1 -> sForall key_byte k2 ->
  sForall label_byte (CRName k1) /\ (CRName k1 = CRName k2 <-> k1 = k2).
Proof.
  intros H1 H2. unfold CRName, ToLower. rewrite !key_byte_ascii by done. split.
  - repeat (split; [by (left; done) || by (right; right; done)|]). cbn.
    clear H2. induction k1 as [|c k1 IH]; [done|]. destruct H1 as [Hc Hs]. split; [|by apply IH].
    unfold key_byte, label_byte, in_range in *. rewrite lower_byte_ord. unfold in_range.
    destruct Hc as [Hc|[Hc| ->]]; [left|right; left|right; right; done]; repeat case_match; lia.
  - split; [|by intros ->]. intros E%append_inj_l. by apply lower_key_inj.
Qed.

Lemma CRName_injective_witness :
  @CRName plain_tables "SEC-100" = "jsm-sec-100"
  /\ (@CRName plain_tables "SEC-100" = @CRName plain_tables "SEC-101" <-> "SEC-100" = "SEC-101").
Proof.
  split; [reflexivity|].
  apply (@CRName_injective plain_tables "SEC-100" "SEC-101");
    repeat (split; [first [left; reflexivity|right; left; reflexivity|right; right; reflexivity]|]); exact I.
Defined.

(** ** [Handle] *)

Section HandleLaws.
Context {C L : Type} `{UnicodeTables}.
Implicit Types (p : @Config C L) (w : world C L).

(** The fields [Handle] reads, in its order. *)
Definition wanted p : list string := [FieldProviderGroupID p; FieldRole p; FieldProject p].

(** The bump of a counter a nil-safe recorder makes. *)
Definition counted p (name : string) (labels : list string) w : world C L :=
  if HasMetrics p then (inc name labels w).2 else w.

Lemma recordParseErr_run p reason w :
  recordParseErr p reason w = (Ret tt, counted p "JSMPayloadParseErrors" [reason] w).
Proof. unfold recordParseErr, counted. by destruct (HasMetrics p). Qed.

Lemma recordNoop_run p w : recordNoop p w = (Ret tt, counted p "JSMNoopTotal" [] w).
Proof. unfold recordNoop, counted. by destruct (HasMetrics p). Qed.

Lemma counted_io p name labels w : same_io w (counted p name labels w).
Proof. unfold counted. by destruct (HasMetrics p). Qed.

Lemma extract_run p payload id next w :
  extract p payload id next w
  = match ExtractString payload id with
    | Ok s => next s w
    | Err e => (Ret (Err (classifyExtractErr e)), counted p "JSMPayloadParseErrors" [extractReason e] w)
    end.
Proof.
  unfold extract. destruct (ExtractString payload id) as [s|e]; [done|].
  unfold mbind, M_bind. by rewrite recordParseErr_run.
Qed.

(** [Handle] as a case analysis on the decoded payload. *)
Lemma Handle_run p body w :
  Handle p body w
  = match Decode body with
    | Err e => (Ret (Err (wrap2 ErrBadRequest e)), counted p "JSMPayloadParseErrors" [decodeReason e] w)
    | Ok payload =>
        if String.eqb (Payload_Status payload) (TriggerStatus p) then
          match ExtractString payload (FieldProviderGroupID p),
                ExtractString payload (FieldRole p), ExtractString payload (FieldProject p) with
          | Ok g, Ok r, Ok j => (Ret (Ok (Apply (applyAction p payload g r j))), w)
          | Err e, _, _ | Ok _, Err e, _ | Ok _, Ok _, Err e =>
              (Ret (Err (classifyExtractErr e)), counted p "JSMPayloadParseErrors" [extractReason e] w)
          end
        else (Ret (Ok (NoopAction (noopReason p payload))), counted p "JSMNoopTotal" [] w)
    end.
Proof.
  unfold Handle. destruct (Decode body) as [payload|e].
  - destruct (String.eqb (Payload_Status payload) (TriggerStatus p)); cbn [negb].
    + rewrite extract_run. destruct (ExtractString payload (FieldProviderGroupID p)); [|done].
      rewrite extract_run. destruct (ExtractString payload (FieldRole p)); [|done].
      rewrite extract_run. by destruct (ExtractString payload (FieldProject p)).
    + unfold mbind, M_bind. by rewrite recordNoop_run.
  - unfold mbind, M_bind. by rewrite recordParseErr_run.
Qed.

(** C13: [Handle] asks for an apply exactly when the body decodes, its status
    is the trigger and the three configured fields are non-blank strings; the
    resource is then the one of the ticket: named after the key, in the
    configured namespace, with the trimmed field values, and annotated with
    the issue key.  Nothing is recorded. *)
Theorem Handle_apply_iff p body w act w' :
  Handle p body w = (Ret (Ok (Apply act)), w')
  <-> w' = w /\ exists payload g r j,
        Decode body = Ok payload /\ Payload_Status payload = TriggerStatus p
        /\ ExtractString payload (FieldProviderGroupID p) = Ok g
        /\ ExtractString payload (FieldRole p) = Ok r
        /\ ExtractString payload (FieldProject p) = Ok j
        /\ act = mkApplyAction
             (ObjSAMLGroupMapping (mkSAMLGroupMapping
               (mkTypeMeta "wiz.webhookd.io/v1alpha1" "SAMLGroupMapping")
               (mkObjectMeta ("jsm-" +:+ ToLower (IssueKey payload)) (cfg_Namespace p) 0 ∅ ∅)
               (mkSAMLGroupMappingSpec (cfg_IdentityProviderID p) g
                  ("Provisioned from JSM " +:+ IssueKey payload) (mkRoleRef r) [mkProjectRef j])
               (mkSAMLGroupMappingStatus 0 [])))
             SAMLGroupMappingList IsReady {[ "webhookd.io/jsm-issue-key" := IssueKey payload ]}
             "SAMLGroupMapping" "jsm".
Proof.
  rewrite Handle_run. split.
  - destruct (Decode body) as [payload|e]; [|done].
    destruct (String.eqb_spec (Payload_Status payload) (TriggerStatus p)) as [Ht|]; [|done].
    repeat case_match; try done. intros [= <- <-]. split; [done|].
    do 4 eexists. by repeat (split; [done|]).
  - intros (-> & payload & g & r & j & -> & Ht & -> & -> & -> & ->).
    by rewrite Ht, String.eqb_refl.
Qed.

(** An extraction error of a decoded payload and its classification. *)
Lemma extract_error_class payload id e :
  payload_wf payload -> ExtractString payload id = Err e ->
  (exists v, custom payload id = Some v /\ (forall s, v <> JString s) /\ v <> JNull
     /\ extractReason e = parseReasonType
     /\ Is (classifyExtractErr e) "webhook.ErrBadRequest" = false
     /\ Is (classifyExtractErr e) "webhook.ErrUnprocessable" = true)
  \/ ((custom payload id = None \/ custom payload id = Some JNull
       \/ exists s, custom payload id = Some (JString s) /\ TrimSpace s = "")
      /\ (extractReason e = parseReasonMissing \/ extractReason e = parseReasonEmpty)
      /\ Is (classifyExtractErr e) "webhook.ErrBadRequest" = true
      /\ Is (classifyExtractErr e) "webhook.ErrUnprocessable" = false).
Proof.
  intros Hw He. pose proof (ExtractString_custom payload id Hw) as H0. rewrite He in H0.
  destruct (custom payload id) as [[| | | | |]|]; cbn in H0.
  all: try (destruct H0 as [Ht ->]).
  all: try (left; eexists; repeat (split; [by (intros; done) || reflexivity|]); reflexivity).
  all: right.
  - split; [by auto|]. repeat split. by left.
  - split; [by eauto 6|]. repeat split. by right.
  - split; [by auto|]. repeat split. by left.
Qed.

Lemma decode_error_class body e :
  Decode body = Err e ->
  Is (wrap2 ErrBadRequest e) "webhook.ErrBadRequest" = true
  /\ Is (wrap2 ErrBadRequest e) "webhook.ErrUnprocessable" = false
  /\ (decodeReason e = parseReasonMissing \/ decodeReason e = parseReasonInvalidJSON).
Proof.
  intros He. pose proof (Decode_cases body) as H0. rewrite He in H0. split; [done|]. split.
  - destruct H0 as [->|[->|[->|[_ Hj]]]]; [done|done|done|]. cbn. by rewrite Hj.
  - unfold decodeReason. case_match; auto.
Qed.

(** Where an error of [Handle] comes from. *)
Lemma Handle_error_source p body w e w' :
  Handle p body w = (Ret (Err e), w') ->
  (exists e0, Decode body = Err e0 /\ e = wrap2 ErrBadRequest e0
     /\ w' = counted p "JSMPayloadParseErrors" [decodeReason e0] w)
  \/ exists payload id e0, Decode body = Ok payload /\ Payload_Status payload = TriggerStatus p
     /\ id ∈ wanted p /\ ExtractString payload id = Err e0 /\ e = classifyExtractErr e0
     /\ w' = counted p "JSMPayloadParseErrors" [extractReason e0] w.
Proof.
  rewrite Handle_run. destruct (Decode body) as [payload|ed].
  - destruct (String.eqb_spec (Payload_Status payload) (TriggerStatus p)) as [Ht|]; [|done].
    intros E. right. exists payload.
    destruct (ExtractString payload (FieldProviderGroupID p)) eqn:E1;
      [destruct (ExtractString payload (FieldRole p)) eqn:E2;
        [destruct (ExtractString payload (FieldProject p)) eqn:E3; [done|]|]|];
      injection E as <- <-; do 2 eexists; (split; [done|]); (split; [done|]);
      (split; [|split; [eassumption|done]]); set_solver.
  - intros [= <- <-]. left. by exists ed.
Qed.

(** C18: Every error of [Handle] is one the dispatcher maps to 400 or 422,
    never to 500: it wraps exactly one of the two sentinels, and if it is
    [ErrUnprocessable] a field [Handle] wants holds a JSON value of the wrong
    type in a decoded payload.  One parse error is counted, under one of the
    four documented reasons. *)
Theorem Handle_error_class p body w e w' :
  Handle p body w = (Ret (Err e), w') ->
  Is e "webhook.ErrBadRequest" = negb (Is e "webhook.ErrUnprocessable")
  /\ (Is e "webhook.ErrUnprocessable" = true ->
      exists payload id v, Decode body = Ok payload /\ Payload_Status payload = TriggerStatus p
        /\ id ∈ wanted p /\ custom payload id = Some v /\ (forall s, v <> JString s) /\ v <> JNull)
  /\ exists reason, w' = counted p "JSMPayloadParseErrors" [reason] w
      /\ reason ∈ ["invalid_json"; "missing_field"; "empty_field"; "wrong_type"].
Proof.
  intros [(e0 & Hd & -> & ->)|(payload & id & e0 & Hd & Ht & Hid & He & -> & ->)]%Handle_error_source.
  - destruct (decode_error_class _ _ Hd) as (-> & -> & Hr). split; [done|]. split; [done|].
    eexists. split; [done|]. destruct Hr as [-> | ->]; set_solver.
  - pose proof (Decode_cases body) as Hc. rewrite Hd in Hc.
    destruct (extract_error_class _ _ _ (proj1 Hc) He) as
      [(v & Hv & Hs & Hn & Hr & -> & ->)|(_ & Hr & -> & ->)]; (split; [done|]).
    + split; [intros _; by exists payload, id, v|]. eexists. split; [done|]. rewrite Hr. set_solver.
    + split; [done|]. eexists. split; [done|]. destruct Hr as [-> | ->]; set_solver.
Qed.

End HandleLaws.

(** A configuration for concrete runs. *)
Definition sample_config : @Config unit unit :=
  mkConfig "Approved" "customfield_1" "customfield_2" "customfield_3" "idp-1" "wiz"
    (mkSignatureConfig "secret" "X-Webhook-Signature" "X-Webhook-Timestamp" (5 * Minute) None) true.

Definition sample_world : world unit unit := start_world tt (fun n => 1700000000 * Second + Z.of_nat n) [].

Lemma Handle_error_class_witness :
  let e := wrap2 ErrBadRequest (Errorf "custom field missing: customfield_2 (null)" [ErrFieldMissing]) in
  exists w', @Handle unit unit plain_tables sample_config sample_body sample_world = (Ret (Err e), w')
    /\ Is e "webhook.ErrBadRequest" = negb (Is e "webhook.ErrUnprocessable").
Proof.
  intros e. set (r := @Handle unit unit plain_tables sample_config sample_body sample_world).
  assert (r = (Ret (Err e), r.2)) as E.
  { rewrite (surjective_pairing r) at 1. f_equal. }
  exists (r.2). split; [exact E|].
  exact (proj1 (@Handle_error_class unit unit plain_tables sample_config sample_body sample_world e _ E)).
Defined.

(** ** The interface *)

Section Interface.
Context {C L : Type} `{UnicodeTables}.
Implicit Types (p : @Config C L) (w : world C L).

Lemma Handle_is_quiet p body : quiet (Handle p body).
Proof.
  intros w. rewrite Handle_run.
  repeat case_match; do 2 eexists; (split; [done|]); (done || apply counted_io).
Qed.

(** The clock a signature is checked against. *)
Definition sig_clock (cfg : @SignatureConfig C L) : M C L Time :=
  match Now cfg with Some f => f | None => time_Now end.

(** The signature check reads the request's headers and its clock. *)
Lemma VerifySignature_run (cfg : @SignatureConfig C L) r body w q :
  w_requests w !! r = Some q ->
  (forall f, Now cfg = Some f -> quiet f) ->
  exists t w', sig_clock cfg w = (Ret t, w') /\ VerifySignature r body cfg w
    = (Ret (Verify (SecretBytes cfg) (Header_Get (Header q) (SigHeader cfg))
              (Header_Get (Header q) (TSHeader cfg)) body t (Skew cfg)), w') /\ same_io w w'.
Proof.
  intros Hq Hnow. unfold VerifySignature, mbind, M_bind, deref_request. rewrite Hq.
  assert (quiet (sig_clock cfg)) as Hf.
  { unfold sig_clock. destruct (Now cfg) as [f|]; [by apply Hnow|apply quiet_time_Now]. }
  destruct (Hf w) as (t & w' & E & Hs). exists t, w'. split; [done|].
  change (match Now cfg with Some f => f | None => time_Now end) with (sig_clock cfg). by rewrite E.
Qed.

(** The JSM provider keeps the promise of the interface. *)
#[export] Instance provider_pure p :
  (forall f, Now (cfg_Signature p) = Some f -> quiet f) -> PureProvider (provider p).
Proof.
  intros Hnow. split.
  - intros r body w q Hq. destruct (VerifySignature_run _ r body w q Hq Hnow) as (t & w' & _ & E & Hs).
    eexists _, w'. split; [exact E|done].
  - intros ctx body. apply Handle_is_quiet.
Qed.

End Interface.

(** ** The response *)

Definition members_of (m : list (string * jsonv)) : list (string * string * json) :=
  map (fun '(k, x) => (sanitize k, encode x, tree x)) m.

Lemma ast_map_omitempty (name s k : string) :
  valid_utf8 name -> valid_utf8 s ->
  ast_map (members_of (omitempty name s)) !! k
  = if String.eqb k name && negb (String.eqb s "") then Some (JString s) else None.
Proof.
  intros Hn Hs. unfold omitempty, ast_map, members_of.
  destruct (String.eqb s ""); cbn -[String.eqb]; [by rewrite andb_false_r, lookup_empty|].
  rewrite Hn, Hs, andb_true_r. destruct (String.eqb_spec k name) as [->|Hk].
  - by rewrite lookup_insert_eq.
  - rewrite lookup_insert_ne by done. by rewrite lookup_empty.
Qed.

(** The status word of a kind. *)
Definition status_word (k : ResultKind) : string :=
  match k with ResultNoop => "noop" | ResultReady => "success" | _ => "failure" end.

(** C36: When the strings of a result and the two ids are UTF-8, the response
    body is a JSON object a caller can read back: its status is noop, success or failure after the result's kind, and each
    other field is there, with the result's value, exactly when that value is
    not empty. *)
Theorem BuildResponse_reads_back (res : ExecResult) (traceID requestID : string) :
  Forall valid_utf8 [Reason res; Result.CRName res; Namespace res; traceID; requestID] ->
  exists m, parse (Encode (BuildResponse res traceID requestID)) = Some (JObject m)
    /\ ast_map m !! "status" = Some (JString (status_word (Kind res)))
    /\ (forall name s, (name, s) ∈ [("reason", Reason res); ("crName", Result.CRName res);
          ("namespace", Namespace res); ("traceId", traceID); ("requestId", requestID)] ->
          ast_map m !! name = if String.eqb s "" then None else Some (JString s))
    /\ ast_map m !! "observedGeneration"
       = if ObservedGeneration res =? 0 then None else Some (JNumber (Itoa (ObservedGeneration res))).
Proof.
  intros HF. repeat match type of HF with Forall _ (_ :: _) => apply Forall_cons in HF as [? HF] end.
  set (b := BuildResponse res traceID requestID).
  assert (exists ms, b = VObject ms /\ nesting b = 1
    /\ ms = [("status", VString (status_word (Kind res)))] ++ omitempty "reason" (Reason res)
       ++ omitempty "crName" (Result.CRName res) ++ omitempty "namespace" (Namespace res)
       ++ (if ObservedGeneration res =? 0 then [] else [("observedGeneration", VInt (ObservedGeneration res))])
       ++ omitempty "traceId" traceID ++ omitempty "requestId" requestID) as (ms & Eb & Hn & Ems).
  { eexists. split; [reflexivity|]. split; [|unfold status_word; cbn; by destruct (Kind res)].
    unfold b, BuildResponse, ResponseBody_json, omitempty. cbn -[String.eqb].
    repeat case_match; reflexivity. }
  exists (members_of ms). split; [rewrite parse_Encode by (rewrite Hn; done); by rewrite Eb|].
  assert (forall x y, members_of (x ++ y) = members_of x ++ members_of y) as Happ.
  { intros x y. apply map_app. }
  assert (ast_map (members_of [("status", VString (status_word (Kind res)))])
    = {[ "status" := JString (status_word (Kind res)) ]}) as Hst by (by destruct (Kind res)).
  assert (forall k, ast_map (members_of (if ObservedGeneration res =? 0 then []
      else [("observedGeneration", VInt (ObservedGeneration res))])) !! k
    = if String.eqb k "observedGeneration" && negb (ObservedGeneration res =? 0)
      then Some (JNumber (Itoa (ObservedGeneration res))) else None) as Hog.
  { intros k. destruct (ObservedGeneration res =? 0); [by rewrite andb_false_r|]. rewrite andb_true_r.
    change (({[ "observedGeneration" := JNumber (Itoa (ObservedGeneration res)) ]} : gmap string json) !! k
      = if String.eqb k "observedGeneration" then Some (JNumber (Itoa (ObservedGeneration res))) else None).
    destruct (String.eqb_spec k "observedGeneration") as [->|Hk]; by simplify_map_eq. }
  rewrite Ems, !Happ.
  split; [|split].
  - rewrite !ast_map_app, !ast_map_omitempty, Hog, Hst by done. done.
  - intros name s Hin. rewrite !ast_map_app, !ast_map_omitempty, Hog, Hst by done.
    repeat (apply elem_of_cons in Hin as [[= -> ->]|Hin]; 
      [by match goal with |- _ = (if ?b then _ else _) => destruct b end|]).
    by apply elem_of_nil in Hin.
  - rewrite !ast_map_app, !ast_map_omitempty, Hog, Hst by done. by destruct (ObservedGeneration res =? 0).
Qed.

Lemma BuildResponse_reads_back_witness :
  exists m, parse (Encode (BuildResponse (mkExecResult ResultReady "" "jsm-sec-1" "wiz" 3) "t" "r"))
              = Some (JObject m)
    /\ ast_map m !! "crName" = Some (JString "jsm-sec-1").
Proof.
  destruct (BuildResponse_reads_back (mkExecResult ResultReady "" "jsm-sec-1" "wiz" 3) "t" "r")
    as (m & Hp & _ & Hm & _); [repeat constructor|].
  exists m. split; [exact Hp|].
  apply (Hm "crName" "jsm-sec-1"). apply list_elem_of_further, list_elem_of_here.
Defined.

End Jsm.
