(* ===== verification/Executor.v ===== *)
(** * The executor ([internal/webhook/executor.go])

    Server-side apply of a provider's object, then a watch until the operator
    marks it ready.  The Kubernetes client, [apierrors] and the OpenTelemetry
    tracer are parameters, the classes [K8sClient], [ApiErrors] and [Tracer];
    the cluster is an abstract state the client's calls change.

    A watch delivers events at instants on the world's clock.  [select] takes
    whichever of the event and the context's end comes first; when both are
    ready Go picks one at random, which here is a flag of the delivery, so a
    theorem about every watcher is a theorem about every choice. *)

From Stdlib Require Import Sorted.
From S2P Require Import Prelude GoStrings Unicode GoTime Result JsonEncode Runtime Action WizApi.

(** ** What the executor calls *)

(** One event of a watch: when it arrives, whether [select] prefers it to a
    context that is done as well, how long the loop body takes, and the
    event's object ([None] when it is not a [client.Object]). *)
Record delivery {O : Type} := mkDelivery {
  arrives : Z;
  preferred : bool;
  busy : N;
  ev_Object : option O
}.
Arguments delivery : clear implicits.
Arguments mkDelivery {O} _ _ _ _.

(** A [watch.Interface]: the instant [Watch] returned it, the events it
    delivers, then the instant its channel is closed, if it is. *)
Record watcher {O : Type} := mkWatcher {
  opened : Z;
  deliveries : list (delivery O);
  closes : option (Z * bool)
}.
Arguments watcher : clear implicits.
Arguments mkWatcher {O} _ _ _.

(** [client.WithWatch] over a cluster state [C].  [Patch] and [Get] write the
    server's answer into the object they are given. *)
Class K8sClient (C O OL : Type) := {
  client_Patch : Context -> O -> string -> bool -> C -> option error * O * C;
  client_Get : Context -> string -> string -> O -> C -> option error * O * C;
  client_Watch : Context -> OL -> string -> C -> result (watcher O) * C;
  watcher_Stop : watcher O -> C -> C
}.

Class ApiErrors := {
  IsForbidden : error -> bool;
  IsInvalid : error -> bool;
  IsServerTimeout : error -> bool;
  IsServiceUnavailable : error -> bool;
  IsTooManyRequests : error -> bool;
  IsConflict : error -> bool
}.

(** They see through wrapping, as documented ("supports wrapped errors"). *)
Class ApiErrorsLaws `{!ApiErrors} : Prop := {
  wrap_IsForbidden m e : IsForbidden (Errorf m [e]) = IsForbidden e;
  wrap_IsInvalid m e : IsInvalid (Errorf m [e]) = IsInvalid e;
  wrap_IsServerTimeout m e : IsServerTimeout (Errorf m [e]) = IsServerTimeout e;
  wrap_IsServiceUnavailable m e : IsServiceUnavailable (Errorf m [e]) = IsServiceUnavailable e;
  wrap_IsTooManyRequests m e : IsTooManyRequests (Errorf m [e]) = IsTooManyRequests e;
  wrap_IsConflict m e : IsConflict (Errorf m [e]) = IsConflict e
}.

(** [otel.Tracer(name).Start(ctx, span)]: the span context of the new span,
    given how many span events were emitted before. *)
Class Tracer := { tracer_Start : Context -> string -> nat -> option SpanContext }.

(** A child span belongs to its parent's trace. *)
Class TracerLaws `{!Tracer} : Prop := {
  tracer_inherits ctx sc name n :
    ctx_span ctx = Some sc ->
    exists sc', tracer_Start ctx name n = Some sc' /\ TraceID sc' = TraceID sc
}.

(** ** Constants, configuration *)

Definition LabelManagedBy : string := "webhookd.io/managed-by".
Definition LabelSource : string := "webhookd.io/source".
Definition AnnotationTraceID : string := "webhookd.io/trace-id".
Definition AnnotationReqID : string := "webhookd.io/request-id".
Definition AnnotationApplied : string := "webhookd.io/applied-at".

(** ** Pure helpers *)

Definition systemLabels (source : string) : string_map_t :=
  {[ LabelManagedBy := "webhookd"; LabelSource := source ]}.

(** [maps.Copy(dst, src)] *)
Definition maps_Copy (dst src : string_map_t) : string_map_t := src ∪ dst.

Definition mergeLabels (provider executor : string_map_t) : string_map_t :=
  maps_Copy (maps_Copy ∅ provider) executor.

Definition mergeAnnotations (provider providerExtra executor : string_map_t) : string_map_t :=
  maps_Copy (maps_Copy (maps_Copy ∅ provider) providerExtra) executor.

(** [httpx.RequestIDFromContext] *)
Definition RequestIDFromContext (ctx : Context) : string := default "" (ctx_request_id ctx).

Definition traceIDFromContext (ctx : Context) : string :=
  match ctx_span ctx with
  | None => ""
  | Some sc => TraceID sc
  end.

Definition syncOutcome (kind : ResultKind) : string :=
  match kind with
  | ResultReady => "ready"
  | ResultTimeout => "timeout"
  | _ => "transient"
  end.

Definition applyOutcome {O : Type} `{!ClientObject O} (obj : O) : string :=
  match GetGeneration obj with
  | 0 => "error"
  | 1 => "created"
  | _ => "updated"
  end.

Definition classifyK8sErr `{ApiErrors} (err : error) (namespace name : string) : ExecResult :=
  if IsForbidden err then
    mkExecResult ResultInternalError ("forbidden: " +:+ ErrorText err) name namespace 0
  else if IsInvalid err then
    mkExecResult ResultUnprocessable ("invalid spec: " +:+ ErrorText err) name namespace 0
  else if IsServerTimeout err || IsServiceUnavailable err || IsTooManyRequests err || IsConflict err then
    mkExecResult ResultTransientFailure (ErrorText err) name namespace 0
  else mkExecResult ResultInternalError (ErrorText err) name namespace 0.

(** ** The watch loop *)

Inductive verdict :=
| Expired
| Closed
| Ready (observedGen : Z).

(** Which case of [select] is taken at instant [t], for a channel operation
    that becomes possible at [a]: the channel at its instant, or the context's
    end at its.  [None]: there is no deadline to wait for. *)
Definition select_at (deadline : option Z) (t a : Z) (preferred : bool) : bool * Z :=
  let a := Z.max t a in
  match deadline with
  | None => (true, a)
  | Some D =>
      let D := Z.max t D in
      if (a <? D) || ((a =? D) && preferred) then (true, a) else (false, D)
  end.

(** The [for { select { ... } }] from instant [t]: the verdict and the instant
    it is reached; [None] when the loop blocks for ever. *)
Fixpoint select_loop {O : Type} `{!ClientObject O} (deadline : option Z) (name : string) (check : O -> bool * Z)
    (t : Z) (ds : list (delivery O)) (closes : option (Z * bool)) : option (verdict * Z) :=
  match ds with
  | [] =>
      match closes with
      | None =>
          match deadline with
          | None => None
          | Some D => Some (Expired, Z.max t D)
          end
      | Some (a, preferred) =>
          let '(chan, t) := select_at deadline t a preferred in
          Some (if chan then Closed else Expired, t)
      end
  | d :: ds =>
      let '(chan, t) := select_at deadline t (arrives d) (preferred d) in
      if negb chan then Some (Expired, t)
      else
        let continue_ := select_loop deadline name check (t + Z.of_N (busy d)) ds closes in
        match ev_Object d with
        | None => continue_
        | Some obj =>
            if negb (String.eqb (GetName obj) name) then continue_
            else
              let '(ready, observedGen) := check obj in
              if ready then Some (Ready observedGen, t) else continue_
        end
  end.

Section Executor.
Context {C L O OL : Type} `{!ClientObject O, !K8sClient C O OL, !ApiErrors, !Tracer}.
Local Notation M := (M C L).

(** [HasLogger], [HasMetrics]: the pointer is not nil. *)
Record ExecutorConfig := mkExecutorConfig {
  FieldManager : string;
  SyncTimeout : Z;
  exec_Now : option (M Time)
}.

Record Executor := mkExecutor {
  HasLogger : bool;
  HasMetrics : bool;
  exec_FieldManager : string;
  exec_SyncTimeout : Z;
  exec_clock : M Time
}.

Definition NewExecutor (logger metrics : bool) (cfg : ExecutorConfig) : Executor :=
  mkExecutor logger metrics
    (if String.eqb (FieldManager cfg) "" then "webhookd" else FieldManager cfg)
    (SyncTimeout cfg)
    (match exec_Now cfg with Some f => f | None => time_Now end).

Implicit Types e : Executor.

(** *** Calls *)

Definition Patch (ctx : Context) (obj : O) (owner : string) (force : bool) : M (option error * O) := fun w =>
  let '(err, obj, c) := client_Patch ctx obj owner force (w_cluster w) in
  (Ret (err, obj), set_cluster c w).

Definition Get (ctx : Context) (namespace name : string) (obj : O) : M (option error * O) := fun w =>
  let '(err, obj, c) := client_Get ctx namespace name obj (w_cluster w) in
  (Ret (err, obj), set_cluster c w).

Definition Watch (ctx : Context) (list_ : OL) (namespace : string) : M (result (watcher O)) := fun w =>
  let '(r, c) := client_Watch ctx list_ namespace (w_cluster w) in
  (Ret r, set_cluster c w).

Definition Stop (s : watcher O) : M unit := fun w =>
  (Ret tt, set_cluster (watcher_Stop s (w_cluster w)) w).

(** Start a span: the context carries it, the rest of the context is kept. *)
Definition Start (ctx : Context) (name : string) (attrs : list (string * string)) : M Context :=
  n ← get (fun w => length (w_spans w));
  span (SpanStart name) ;;
  modify (set_spans (fun l => l ++ map (fun '(k, v) => SpanAttr k v) attrs)) ;;
  mret (mkContext (ctx_request_id ctx) (tracer_Start ctx name n) (ctx_done ctx)).

(** [context.WithTimeout(parent, d)] *)
Definition WithTimeout (parent : Context) (d : Z) : M Context :=
  now ← clock_read;
  let D := now + d in
  mret (mkContext (ctx_request_id parent) (ctx_span parent)
          (Some (match ctx_done parent with Some p => Z.min p D | None => D end))).

(** *** Methods *)

Definition systemAnnotations (e : Executor) (ctx : Context) : M string_map_t :=
  t ← exec_clock e;
  let out : string_map_t := {[ AnnotationApplied := Format_RFC3339 t ]} in
  let reqID := RequestIDFromContext ctx in
  let out := if negb (String.eqb reqID "") then <[AnnotationReqID := reqID]> out else out in
  let tid := traceIDFromContext ctx in
  let out := if negb (String.eqb tid "") then <[AnnotationTraceID := tid]> out else out in
  mret out.

Definition observeApply (e : Executor) (kind outcome : string) : M unit :=
  if negb (HasMetrics e) then mret tt else inc "K8sApplyTotal" [kind; outcome].

Definition observeSync (e : Executor) (kind outcome : string) (d : Z) : M unit :=
  if negb (HasMetrics e) then mret tt else observe "K8sSyncDuration" [kind; outcome] d.

(** A failed call of [apply]: the error on the span, then wrapped. *)
Definition applyError (what : string) (err : error) : M error :=
  span (SpanError err) ;;
  span (SpanStatus what) ;;
  span (SpanAttr "webhookd.outcome" "error") ;;
  span SpanEnd ;;
  mret (Errorf (what +:+ ": " +:+ ErrorText err) [err]).

(** [apply] after the [Patch], which answered [err] and [obj]. *)
Definition applyPatched (ctx : Context) (err : option error) (obj : O) : M (O * option error) :=
  match err with
  | Some err => err' ← applyError "ssa patch" err; mret (obj, Some err')
  | None =>
      '(err, obj) ← Get ctx (GetNamespace obj) (GetName obj) obj;
      match err with
      | Some err => err' ← applyError "post-apply get" err; mret (obj, Some err')
      | None =>
          span (SpanAttr "k8s.generation" (Itoa (GetGeneration obj))) ;;
          span (SpanAttr "webhookd.outcome" (applyOutcome obj)) ;;
          span SpanEnd ;;
          mret (obj, None)
      end
  end.

(** [apply] works on the object [act.Object] points to: the first component
    is that object when it returns, the second the error. *)
Definition apply (e : Executor) (ctx : Context) (act : ApplyAction O OL) : M (O * option error) :=
  let obj := Object act in
  ctx ← Start ctx "k8s.apply"
    [("k8s.resource.kind", act_Kind act); ("k8s.resource.namespace", GetNamespace obj);
     ("k8s.resource.name", GetName obj)];
  let obj := SetLabels (mergeLabels (GetLabels obj) (systemLabels (Source act))) obj in
  sys ← systemAnnotations e ctx;
  let obj := SetAnnotations (mergeAnnotations (GetAnnotations obj) (Annotations act) sys) obj in
  '(err, obj) ← Patch ctx obj (exec_FieldManager e) true;
  applyPatched ctx err obj.

(** The part of [waitForSync] from [Watch] on. *)
Definition watchUntilReady (e : Executor) (ctx : Context) (act : ApplyAction O OL) (applied : O)
    (applyGen start : Z) (base : ExecResult) : M ExecResult :=
  let finish k reason gen := mkExecResult k reason (CRName base) (Namespace base) gen in
  r ← Watch ctx (ListObject act) (GetNamespace applied);
  match r with
  | Err err => mret (finish ResultTransientFailure ("watch: " +:+ ErrorText err) 0)
  | Ok s =>
      res ← match select_loop (ctx_done ctx) (GetName applied) (fun o => ReadyCheck act o applyGen)
                    (Z.max start (opened s)) (deliveries s) (closes s) with
            | None => panic "blocked for ever"
            | Some (Expired, _) =>
                mret (finish ResultTimeout
                  ("operator did not mark Ready=True within " +:+ Duration_String (exec_SyncTimeout e)) 0)
            | Some (Closed, _) =>
                (if HasLogger e then log "WARN" "watch closed" [("cr", GetName applied)] else mret tt) ;;
                mret (finish ResultTransientFailure "watch channel closed before sync" 0)
            | Some (Ready observedGen, _) => mret (finish ResultReady "" observedGen)
            end;
      Stop s ;;
      mret res
  end.

(** The part of [waitForSync] between its [defer] and its returns: the initial
    [Get], then the watch. *)
Definition awaitReady (e : Executor) (ctx : Context) (act : ApplyAction O OL) (applied : O)
    (applyGen start : Z) (base : ExecResult) : M ExecResult :=
  let watch := watchUntilReady e ctx act applied applyGen start base in
  match DeepCopyObject applied with
  | None => watch
  | Some cur =>
      '(err, cur) ← Get ctx (GetNamespace applied) (GetName applied) cur;
      match err with
      | Some _ => watch
      | None =>
          let '(ready, observedGen) := ReadyCheck act cur applyGen in
          if ready then mret (mkExecResult ResultReady "" (CRName base) (Namespace base) observedGen)
          else watch
      end
  end.

Definition waitForSync (e : Executor) (parent : Context) (act : ApplyAction O OL) (applied : O) : M ExecResult :=
  ctx ← WithTimeout parent (exec_SyncTimeout e);
  let applyGen := GetGeneration applied in
  ctx ← Start ctx "k8s.watch_cr"
    [("k8s.resource.kind", act_Kind act); ("k8s.resource.namespace", GetNamespace applied);
     ("k8s.resource.name", GetName applied); ("k8s.generation", Itoa applyGen)];
  start ← clock_read;
  let base := mkExecResult ResultNoop "" (GetName applied) (GetNamespace applied) 0 in
  res ← awaitReady e ctx act applied applyGen start base;
  let outcome := syncOutcome (Kind res) in
  span (SpanAttr "k8s.sync.outcome" outcome) ;;
  span SpanEnd ;;
  now ← clock_read;
  observeSync e (act_Kind act) outcome (now - start) ;;
  mret res.

Definition Execute (e : Executor) (ctx : Context) (a : Action O OL) : M ExecResult :=
  match a with
  | NoopAction reason => mret (plainResult ResultNoop reason)
  | Apply act =>
      '(obj, err) ← apply e ctx act;
      match err with
      | Some err =>
          observeApply e (act_Kind act) "error" ;;
          mret (classifyK8sErr err (GetNamespace obj) (GetName obj))
      | None =>
          observeApply e (act_Kind act) (applyOutcome obj) ;;
          waitForSync e ctx act obj
      end
  | UnknownAction T => mret (plainResult ResultInternalError ("unknown action " +:+ T))
  end.

End Executor.

(** ** The watch loop: laws *)

Section LoopLaws.
Context {O : Type} `{!ClientObject O}.
Variables (name : string) (check : O -> bool * Z).
Implicit Types (ds : list (delivery O)) (cl : option (Z * bool)).

(** The event of a delivery is about our object, and passes the check. *)
Definition marks_ready (d : delivery O) (g : Z) : Prop :=
  exists obj, ev_Object d = Some obj /\ GetName obj = name /\ check obj = (true, g).

Definition ready_bool (d : delivery O) : bool :=
  match ev_Object d with
  | Some obj => String.eqb (GetName obj) name && (check obj).1
  | None => false
  end.

Lemma ready_bool_true d : ready_bool d = true <-> exists g, marks_ready d g.
Proof.
  unfold ready_bool, marks_ready. destruct (ev_Object d) as [obj|].
  - rewrite andb_true_iff, String.eqb_eq. split.
    + intros [Hn Hc]. exists (check obj).2, obj. split; [done|]. split; [done|].
      by destruct (check obj) as [b g]; cbn in *; subst.
    + intros (g & ? & [= <-] & Hn & Hc). by rewrite Hc.
  - split; [done|]. by intros (g & ? & ? & _).
Qed.

(** One round of the loop on an event. *)
Lemma select_loop_cons D t d ds cl :
  select_loop D name check t (d :: ds) cl
  = let '(chan, t) := select_at D t (arrives d) (preferred d) in
    if negb chan then Some (Expired, t)
    else match ev_Object d with
         | Some obj =>
             if ready_bool d then Some (Ready (check obj).2, t)
             else select_loop D name check (t + Z.of_N (busy d)) ds cl
         | None => select_loop D name check (t + Z.of_N (busy d)) ds cl
         end.
Proof.
  cbn [select_loop]. unfold ready_bool. destruct (select_at D t (arrives d) (preferred d)) as [[] t']; [|done].
  cbn [negb]. destruct (ev_Object d) as [obj|]; [|done].
  destruct (String.eqb (GetName obj) name); [|done]. cbn. by destruct (check obj) as [[] g].
Qed.

(** With a deadline the loop ends. *)
Lemma select_loop_ends D t ds cl : exists v t', select_loop (Some D) name check t ds cl = Some (v, t').
Proof.
  revert t. induction ds as [|d ds IH]; intros t.
  - cbn [select_loop]. destruct cl as [[a p]|]; [|by do 2 eexists].
    destruct (select_at _ _ _ _); by do 2 eexists.
  - rewrite select_loop_cons. destruct (select_at _ _ _ _) as [[] t']; cbn [negb]; [|by do 2 eexists].
    destruct (ev_Object d); [|apply IH]. destruct (ready_bool d); [by do 2 eexists|apply IH].
Qed.

(** The instant a [select] is over: not before it starts, and at the
    deadline or later when the deadline is what ended it. *)
Lemma select_at_time D t a p chan t' :
  select_at (Some D) t a p = (chan, t') -> t <= t' /\ (chan = false -> D <= t') /\ (t <= D -> t' <= D).
Proof.
  unfold select_at. destruct ((Z.max t a <? Z.max t D) || ((Z.max t a =? Z.max t D) && p)) eqn:E;
    intros [= <- <-]; repeat split; try lia; intros; try done; try lia.
Qed.

(** Ready is only said for a delivered event that passes the check. *)
Lemma select_loop_ready D t ds cl g t' :
  select_loop D name check t ds cl = Some (Ready g, t') -> exists d, d ∈ ds /\ marks_ready d g.
Proof.
  revert t. induction ds as [|d ds IH]; intros t.
  - cbn [select_loop]. repeat case_match; naive_solver.
  - rewrite select_loop_cons. destruct (select_at _ _ _ _) as [[] t0]; cbn [negb]; [|done].
    intros H. assert (select_loop D name check (t0 + Z.of_N (busy d)) ds cl = Some (Ready g, t')
      \/ marks_ready d g) as [H'|Hm].
    { destruct (ev_Object d) as [obj|] eqn:Eo; [|by left].
      destruct (ready_bool d) eqn:Er; [|by left]. right. injection H as <- _.
      apply ready_bool_true in Er as (g & o & Eo' & Hn & Hc). rewrite Eo in Eo'. injection Eo' as <-.
      exists obj. rewrite Hc. by repeat split. }
    + destruct (IH _ H') as (d' & Hd' & Hm). exists d'. split; [by apply list_elem_of_further|done].
    + exists d. split; [apply list_elem_of_here|done].
Qed.

(** The timeout verdict is never early. *)
Lemma select_loop_expired D t ds cl t' :
  select_loop (Some D) name check t ds cl = Some (Expired, t') -> D <= t'.
Proof.
  revert t. induction ds as [|d ds IH]; intros t.
  - cbn [select_loop]. destruct cl as [[a p]|]; [|intros [= <-]; lia].
    destruct (select_at _ _ _ _) as [[] t0] eqn:E; [done|]. intros [= <-].
    apply select_at_time in E as (_ & H & _). auto.
  - rewrite select_loop_cons. destruct (select_at _ _ _ _) as [[] t0] eqn:E; cbn [negb].
    + destruct (ev_Object d); [|apply IH]. destruct (ready_bool d); [done|apply IH].
    + intros [= <-]. apply select_at_time in E as (_ & H & _). auto.
Qed.

(** When the loop body takes no time the loop is over by the deadline. *)
Lemma select_loop_deadline D t ds cl v t' :
  Forall (fun d => busy d = 0%N) ds -> t <= D ->
  select_loop (Some D) name check t ds cl = Some (v, t') -> t <= t' <= D.
Proof.
  intros Hb. revert t. induction Hb as [|d ds Hd Hb IH]; intros t Ht.
  - cbn [select_loop]. destruct cl as [[a p]|]; [|intros [= <- <-]; lia].
    destruct (select_at _ _ _ _) as [c t0] eqn:E. intros [= <- <-].
    apply select_at_time in E as (H1 & _ & H2). auto.
  - rewrite select_loop_cons. destruct (select_at _ _ _ _) as [c t0] eqn:E.
    apply select_at_time in E as (H1 & _ & H2). specialize (H2 Ht).
    rewrite Hd. change (Z.of_N 0) with 0. rewrite Z.add_0_r.
    specialize (IH _ H2). destruct (negb c); [intros [= <- <-]; lia|].
    destruct (ev_Object d); [|intros Hx; specialize (IH Hx); lia].
    destruct (ready_bool d); [intros [= <- <-]; lia|intros Hx; specialize (IH Hx); lia].
Qed.

(** An event that marks the object ready before the deadline is acted on,
    whatever was delivered before it. *)
Lemma select_loop_live D t ds1 d ds2 cl g :
  Forall (fun d => busy d = 0%N) ds1 -> Forall (fun d' => arrives d' < D) ds1 ->
  arrives d < D -> t < D -> marks_ready d g ->
  exists g' t', select_loop (Some D) name check t (ds1 ++ d :: ds2) cl = Some (Ready g', t')
    /\ exists d', d' ∈ ds1 ++ [d] /\ marks_ready d' g'.
Proof.
  assert (forall t a p, t < D -> a < D -> select_at (Some D) t a p = (true, Z.max t a)) as Hsel.
  { intros t0 a p Ht Ha. unfold select_at. by replace (Z.max t0 a <? Z.max t0 D) with true by lia. }
  intros Hb Ha Hd Ht Hm. revert t Ht. induction ds1 as [|d1 ds1 IH]; intros t Ht.
  - cbn [app]. rewrite select_loop_cons, Hsel by done. cbn [negb].
    destruct (Hm) as (obj & Ho & Hn & Hc). rewrite Ho.
    rewrite (proj2 (ready_bool_true d)) by (by exists g). rewrite Hc.
    do 2 eexists. split; [done|]. exists d. split; [apply list_elem_of_here|done].
  - apply Forall_cons in Hb as [Hb1 Hb], Ha as [Ha1 Ha].
    rewrite <- app_comm_cons, select_loop_cons, Hsel by done. cbn [negb].
    rewrite Hb1. change (Z.of_N 0) with 0. rewrite Z.add_0_r.
    destruct (IH Hb Ha (Z.max t (arrives d1)) ltac:(lia)) as (g' & t' & E & d' & Hd' & Hm').
    assert (exists g' t', select_loop (Some D) name check (Z.max t (arrives d1)) (ds1 ++ d :: ds2) cl
       = Some (Ready g', t') /\ exists d', d' ∈ (d1 :: ds1) ++ [d] /\ marks_ready d' g') as Hgo.
    { exists g', t'. split; [done|]. exists d'. split; [|done]. rewrite <- app_comm_cons. by apply list_elem_of_further. }
    destruct (ev_Object d1) as [o1|] eqn:Eo; [|done]. destruct (ready_bool d1) eqn:Er; [|done].
    do 2 eexists. split; [done|]. exists d1. split; [apply list_elem_of_here|].
    apply ready_bool_true in Er as (g1 & o & Eo' & Hn & Hc). rewrite Eo in Eo'. injection Eo' as <-.
    rewrite Hc. by exists o1.
Qed.

(** What a loop over [ds] from instant [t] with deadline [D] should answer,
    and when: the first event that marks the object ready, at its arrival; or
    the close of the channel, when no event does; or the deadline, when
    neither comes before it. *)
Definition decided (D t : Z) ds cl (v : verdict) (t' : Z) : Prop :=
  match v with
  | Ready g => exists d, d ∈ ds /\ marks_ready d g /\ t' = Z.max t (arrives d)
      /\ forall d' g', d' ∈ ds -> marks_ready d' g' -> t' <= Z.max t (arrives d')
  | Closed => (exists p a, cl = Some (a, p) /\ t' = Z.max t a) /\ forall d g, d ∈ ds -> ~ marks_ready d g
  | Expired => t' = D /\ (forall d g, d ∈ ds -> marks_ready d g -> D <= Z.max t (arrives d))
      /\ forall a p, cl = Some (a, p) -> D <= Z.max t a
  end.

(** A watch delivers in order, and is closed after its last event. *)
Definition in_order ds cl : Prop :=
  StronglySorted (fun d d' => arrives d <= arrives d') ds
  /\ forall a p, cl = Some (a, p) -> Forall (fun d => arrives d <= a) ds.

Lemma in_order_cons d ds cl :
  in_order (d :: ds) cl -> in_order ds cl /\ Forall (fun d' => arrives d <= arrives d') ds
  /\ forall a p, cl = Some (a, p) -> arrives d <= a.
Proof.
  intros [Hs Hc]. apply StronglySorted_inv in Hs as [Hs Hd].
  split; [split; [done|]|split; [done|]]; intros a p E; by apply (Hc a p), Forall_cons in E as [].
Qed.

(** An event that does not decide only moves the clock to its arrival. *)
Lemma decided_cons D t d ds cl v t' :
  ready_bool d = false -> in_order (d :: ds) cl ->
  decided D (Z.max t (arrives d)) ds cl v t' -> decided D t (d :: ds) cl v t'.
Proof.
  intros Hr (_ & Hd & Hc)%in_order_cons Hv. rewrite Forall_forall in Hd.
  assert (forall d' g, d' ∈ d :: ds -> marks_ready d' g -> d' ∈ ds) as Hin.
  { intros d' g Hin Hm. apply elem_of_cons in Hin as [->|Hin]; [|done].
    by rewrite (proj2 (ready_bool_true d) (ex_intro _ g Hm)) in Hr. }
  assert (forall d', d' ∈ ds -> Z.max (Z.max t (arrives d)) (arrives d') = Z.max t (arrives d')) as Hmax.
  { intros d' Hd'. specialize (Hd d' Hd'). lia. }
  destruct v as [| |g]; cbn in *.
  - destruct Hv as (-> & He & Hcl). split; [done|]. split.
    + intros d' g Hd' Hm. rewrite <- Hmax by eauto. eauto.
    + intros a p E. specialize (Hcl a p E). specialize (Hc a p E). lia.
  - destruct Hv as ((p & a & E & ->) & Hno). split; [exists p, a; specialize (Hc a p E); split; [done|lia]|]. intros; intro. naive_solver.
  - destruct Hv as (d' & Hd' & Hm & -> & Hfirst). exists d'. rewrite (Hmax d') in * by done.
    split; [by apply list_elem_of_further|]. split; [done|]. split; [done|].
    intros d1 g1 Hd1 Hm1. rewrite <- (Hmax d1) by eauto. eauto.
Qed.

Lemma select_at_cases D t a p :
  t <= D -> (select_at (Some D) t a p = (true, Z.max t a) /\ Z.max t a <= D)
            \/ (select_at (Some D) t a p = (false, D) /\ D <= Z.max t a).
Proof.
  intros Ht. unfold select_at. rewrite (Z.max_r t D) by done.
  destruct ((Z.max t a <? D) || ((Z.max t a =? D) && p)) eqn:E; [left|right]; (split; [done|]); destruct p; lia.
Qed.

(** The loop decides as it should, and by the deadline. *)
Lemma select_loop_decides D t ds cl :
  Forall (fun d => busy d = 0%N) ds -> in_order ds cl -> t <= D ->
  exists v t', select_loop (Some D) name check t ds cl = Some (v, t') /\ t <= t' <= D /\ decided D t ds cl v t'.
Proof.
  intros Hb. revert t. induction Hb as [|d ds Hd Hb IH]; intros t Hord Ht.
  - cbn [select_loop]. destruct cl as [[a p]|].
    + destruct (select_at_cases D t a p Ht) as [[-> Ha]|[-> Ha]]; do 2 eexists; (split; [done|]); (split; [lia|]).
      * split; [by exists p, a|]. by intros d g ?%elem_of_nil.
      * split; [done|]. split; [by intros d g ?%elem_of_nil|]. by intros a' p' [= <- <-].
    + do 2 eexists. split; [done|]. split; [lia|]. split; [lia|]. split; [by intros d g ?%elem_of_nil|done].
  - rewrite select_loop_cons. pose proof (in_order_cons _ _ _ Hord) as (Hord' & Hle & Hcl). rewrite Forall_forall in Hle.
    destruct (select_at_cases D t (arrives d) (preferred d) Ht) as [[-> Ha]|[-> Ha]]; cbn [negb].
    + rewrite Hd. change (Z.of_N 0) with 0. rewrite Z.add_0_r.
      destruct (IH (Z.max t (arrives d)) Hord' Ha) as (v & t' & E & Hbound & Hv).
      destruct (ready_bool d) eqn:Er.
      * pose proof (proj1 (ready_bool_true d) Er) as (g & Hm). destruct (Hm) as (obj & Ho & Hn & Hc). rewrite Ho, Hc.
        do 2 eexists. split; [done|]. split; [lia|]. exists d. split; [apply list_elem_of_here|].
        split; [done|]. split; [done|]. intros d' g' Hd' _. apply elem_of_cons in Hd' as [->|Hd']; [done|].
        specialize (Hle d' Hd'). lia.
      * exists v, t'. split; [by destruct (ev_Object d)|]. split; [lia|]. by apply decided_cons.
    + do 2 eexists. split; [done|]. split; [lia|]. split; [done|]. split.
      * intros d' g Hd' _. apply elem_of_cons in Hd' as [->|Hd']; [done|]. specialize (Hle d' Hd'). lia.
      * intros a p E. specialize (Hcl a p E). lia.
Qed.

End LoopLaws.

(** ** Labels and annotations *)

Lemma maps_Copy_lookup (dst src : string_map_t) k :
  maps_Copy dst src !! k = match src !! k with Some v => Some v | None => dst !! k end.
Proof. unfold maps_Copy. rewrite lookup_union. by destruct (src !! k), (dst !! k). Qed.

Lemma mergeLabels_lookup (provider executor : string_map_t) k :
  mergeLabels provider executor !! k = match executor !! k with Some v => Some v | None => provider !! k end.
Proof.
  unfold mergeLabels. rewrite !maps_Copy_lookup, lookup_empty. by destruct (executor !! k), (provider !! k).
Qed.

Lemma mergeAnnotations_lookup (provider extra executor : string_map_t) k :
  mergeAnnotations provider extra executor !! k
  = match executor !! k with
    | Some v => Some v
    | None => match extra !! k with Some v => Some v | None => provider !! k end
    end.
Proof.
  unfold mergeAnnotations. rewrite !maps_Copy_lookup, lookup_empty.
  by destruct (executor !! k), (extra !! k), (provider !! k).
Qed.

(** ** Methods: laws *)

Section ExecutorLaws.
Context {C L O OL : Type} `{!ClientObject O, !K8sClient C O OL, !ApiErrors, !Tracer}.
Implicit Types (e : @Executor C L) (w : world C L) (act : ApplyAction O OL).

Lemma Patch_http ctx (obj : O) owner force : runs same_http (Patch ctx obj owner force : M C L _).
Proof. intros w. unfold Patch. case_match. case_match. do 2 eexists. split; [done|]. by constructor. Qed.

Lemma Get_http ctx ns name (obj : O) : runs same_http (Get ctx ns name obj : M C L _).
Proof. intros w. unfold Get. case_match. case_match. do 2 eexists. split; [done|]. by constructor. Qed.

Lemma Stop_http (s : watcher O) : runs same_http (Stop s : M C L _).
Proof. intros w. do 2 eexists. split; [done|]. by constructor. Qed.

Lemma Start_quiet ctx name attrs : quiet (Start ctx name attrs : M C L _).
Proof. intros w. do 2 eexists. split; [done|]. by constructor. Qed.

Lemma applyError_quiet what err : quiet (applyError what err : M C L _).
Proof. unfold applyError. runs_tac. Qed.

Lemma observeApply_quiet e kind outcome : quiet (observeApply e kind outcome).
Proof. unfold observeApply. runs_tac. Qed.

Lemma observeSync_quiet e kind outcome d : quiet (observeSync e kind outcome d).
Proof. unfold observeSync. runs_tac. Qed.

Lemma systemAnnotations_quiet e ctx : quiet (exec_clock e) -> quiet (systemAnnotations e ctx).
Proof. intros Hc. unfold systemAnnotations. runs_tac. Qed.

#[local] Hint Resolve Patch_http Get_http Stop_http Start_quiet applyError_quiet observeApply_quiet
  observeSync_quiet systemAnnotations_quiet : webhookd.

(** *** The wait *)

(** The result of a verdict of the loop. *)
Definition verdict_result e (applied : O) (v : verdict) : ExecResult :=
  let finish k reason gen := mkExecResult k reason (GetName applied) (GetNamespace applied) gen in
  match v with
  | Expired =>
      finish ResultTimeout
        ("operator did not mark Ready=True within " +:+ Duration_String (exec_SyncTimeout e)) 0
  | Closed => finish ResultTransientFailure "watch channel closed before sync" 0
  | Ready g => finish ResultReady "" g
  end.

(** The initial fetch, which does not end the wait: [c1] is the cluster it
    leaves. *)
Definition not_yet act (applied : O) (c c1 : C) : Prop :=
  match DeepCopyObject applied with
  | None => c1 = c
  | Some cur => exists ctx err obj,
      client_Get ctx (GetNamespace applied) (GetName applied) cur c = (err, obj, c1)
      /\ (err = None -> (ReadyCheck act obj (GetGeneration applied)).1 = false)
  end.

(** What a wait from instant [start] with deadline [D] can do to the cluster
    and answer: the initial fetch is ready; or it is not, and the watch fails
    to open; or it opens, and the loop decides. *)
Inductive waited e act (applied : O) (D start : Z) (c : C) : ExecResult -> C -> Prop :=
| waited_fetched ctx cur obj g c1 :
    DeepCopyObject applied = Some cur ->
    client_Get ctx (GetNamespace applied) (GetName applied) cur c = (None, obj, c1) ->
    ReadyCheck act obj (GetGeneration applied) = (true, g) ->
    waited e act applied D start c (mkExecResult ResultReady "" (GetName applied) (GetNamespace applied) g) c1
| waited_unwatched ctx err c1 c2 :
    not_yet act applied c c1 ->
    client_Watch ctx (ListObject act) (GetNamespace applied) c1 = (Err err, c2) ->
    waited e act applied D start c
      (mkExecResult ResultTransientFailure ("watch: " +:+ ErrorText err) (GetName applied) (GetNamespace applied) 0) c2
| waited_watched ctx s v t c1 c2 :
    not_yet act applied c c1 ->
    client_Watch ctx (ListObject act) (GetNamespace applied) c1 = (Ok s, c2) ->
    select_loop (Some D) (GetName applied) (fun o => ReadyCheck act o (GetGeneration applied))
      (Z.max start (opened s)) (deliveries s) (closes s) = Some (v, t) ->
    waited e act applied D start c (verdict_result e applied v) (watcher_Stop s c2).

Definition base_of (applied : O) : ExecResult :=
  mkExecResult ResultNoop "" (GetName applied) (GetNamespace applied) 0.

Lemma watchUntilReady_waited e ctx D act (applied : O) start c w :
  ctx_done ctx = Some D -> not_yet act applied c (w_cluster w) ->
  yields same_http (fun res w' => waited e act applied D start c res (w_cluster w'))
    (watchUntilReady e ctx act applied (GetGeneration applied) start (base_of applied)) w.
Proof.
  intros HD Hny. unfold watchUntilReady.
  destruct (client_Watch ctx (ListObject act) (GetNamespace applied) (w_cluster w)) as [[s|err] c2] eqn:EW;
    unfold yields; (erewrite bind_run by (unfold Watch; rewrite EW; reflexivity)).
  - destruct (select_loop_ends (GetName applied) (fun o => ReadyCheck act o (GetGeneration applied))
                D (Z.max start (opened s)) (deliveries s) (closes s)) as (v & t & Hl).
    rewrite HD, Hl.
    assert (waited e act applied D start c (verdict_result e applied v) (watcher_Stop s c2)) as Hw
      by (by econstructor).
    destruct v; [| destruct (HasLogger e) |];
      (do 2 eexists; split; [reflexivity|]; split; [by constructor|exact Hw]).
  - do 2 eexists. split; [reflexivity|]. split; [by constructor|]. by econstructor.
Qed.

Lemma awaitReady_waited e ctx D act (applied : O) start w :
  ctx_done ctx = Some D ->
  yields same_http (fun res w' => waited e act applied D start (w_cluster w) res (w_cluster w'))
    (awaitReady e ctx act applied (GetGeneration applied) start (base_of applied)) w.
Proof.
  intros HD. unfold awaitReady. destruct (DeepCopyObject applied) as [cur|] eqn:Ecur.
  2:{ apply watchUntilReady_waited; [done|]. unfold not_yet. by rewrite Ecur. }
  destruct (client_Get ctx (GetNamespace applied) (GetName applied) cur (w_cluster w)) as [[err obj] c1] eqn:EG.
  apply (yields_bind (fun r w' => r = (err, obj) /\ w_cluster w' = c1)).
  { unfold yields, Get. rewrite EG. do 2 eexists. split; [reflexivity|]. split; [by constructor|done]. }
  intros [err' obj'] w' [[= -> ->] Hc1]. cbv beta iota zeta.
  assert ((err = None -> (ReadyCheck act obj (GetGeneration applied)).1 = false) ->
    not_yet act applied (w_cluster w) (w_cluster w')) as Hny.
  { intros Hr. unfold not_yet. rewrite Ecur, Hc1. eauto. }
  destruct err as [err|]; [by apply watchUntilReady_waited, Hny|].
  destruct (ReadyCheck act obj (GetGeneration applied)) as [[] g] eqn:Er.
  - apply yields_ret. rewrite Hc1. by econstructor.
  - by apply watchUntilReady_waited, Hny.
Qed.

(** The instant the wait's context is done, for a wait begun in [w]. *)
Definition wait_deadline e (parent : Context) w : Z :=
  let D := w_clock w (w_reads w) + exec_SyncTimeout e in
  match ctx_done parent with Some p => Z.min p D | None => D end.

Lemma waitForSync_waited e parent act (applied : O) w :
  yields same_http
    (fun res w' => waited e act applied (wait_deadline e parent w) (w_clock w (S (w_reads w)))
                     (w_cluster w) res (w_cluster w'))
    (waitForSync e parent act applied) w.
Proof.
  unfold waitForSync, yields. do 3 (erewrite bind_run by reflexivity; cbv zeta).
  cbn [w_reads w_clock set_reads set_spans ctx_done ctx_request_id].
  match goal with |- context [mbind ?f (awaitReady e ?c act applied ?g ?st ?b) ?w0] =>
    destruct (yields_bind (R:=same_http) _
      (fun res w' => waited e act applied (wait_deadline e parent w) (w_clock w (S (w_reads w)))
                     (w_cluster w) res (w_cluster w')) _ f w0
      (awaitReady_waited e c (wait_deadline e parent w) act applied st w0 eq_refl))
      as (res & w1 & E & Hhttp & Hres) end.
  - intros res w' Hw.
    apply yields_skip; [apply _|auto with webhookd|]. intros [] w2 E2.
    apply yields_skip; [apply _|auto with webhookd|]. intros [] w3 E3.
    apply yields_skip; [apply _|auto with webhookd|]. intros now w4 E4.
    apply yields_skip; [apply _|auto with webhookd|]. intros [] w5 E5.
    apply yields_ret. by rewrite E5, E4, E3, E2.
  - exists res, w1. split; [exact E|]. split; [|exact Hres]. etrans; [|exact Hhttp]. by constructor.
Qed.

(** The request-scoped annotations at an instant. *)
Definition stamps (t : Time) (ctx : Context) : string_map_t :=
  let out : string_map_t := {[ AnnotationApplied := Format_RFC3339 t ]} in
  let out := if negb (String.eqb (RequestIDFromContext ctx) "")
             then <[AnnotationReqID := RequestIDFromContext ctx]> out else out in
  if negb (String.eqb (traceIDFromContext ctx) "")
  then <[AnnotationTraceID := traceIDFromContext ctx]> out else out.

(** The object [apply] sends. *)
Definition stamped act (ctx : Context) (t : Time) : O :=
  let obj := SetLabels (mergeLabels (GetLabels (Object act)) (systemLabels (Source act))) (Object act) in
  SetAnnotations (mergeAnnotations (GetAnnotations obj) (Annotations act) (stamps t ctx)) obj.

Lemma applyError_run what err w :
  exists w', applyError what err w = (Ret (Errorf (what +:+ ": " +:+ ErrorText err) [err]), w')
    /\ same_io w w'.
Proof. eexists. split; [reflexivity|]. by constructor. Qed.

(** [apply] is one [Patch] of the stamped object, then, when it succeeds, one
    [Get] of the object it answered. *)
Lemma apply_run e ctx act w :
  quiet (exec_clock e) ->
  exists t ctx', ctx_request_id ctx' = ctx_request_id ctx
    /\ ctx_span ctx' = tracer_Start ctx "k8s.apply" (length (w_spans w))
    /\ exists w', same_http w w' /\
       let '(err, o1, c1) := client_Patch ctx' (stamped act ctx' t) (exec_FieldManager e) true (w_cluster w) in
       match err with
       | Some err =>
           apply e ctx act w = (Ret (o1, Some (Errorf ("ssa patch: " +:+ ErrorText err) [err])), w')
           /\ w_cluster w' = c1
       | None =>
           let '(err, o2, c2) := client_Get ctx' (GetNamespace o1) (GetName o1) o1 c1 in
           apply e ctx act w
           = (Ret (o2, (fun err => Errorf ("post-apply get: " +:+ ErrorText err) [err]) <$> err), w')
           /\ w_cluster w' = c2
       end.
Proof.
  intros Hc.
  set (ctx' := mkContext (ctx_request_id ctx) (tracer_Start ctx "k8s.apply" (length (w_spans w))) (ctx_done ctx)).
  set (attrs := [("k8s.resource.kind", act_Kind act); ("k8s.resource.namespace", GetNamespace (Object act));
     ("k8s.resource.name", GetName (Object act))]).
  assert (exists w1, Start ctx "k8s.apply" attrs w = (Ret ctx', w1) /\ same_io w w1) as (w1 & E1 & S1).
  { eexists. split; [reflexivity|]. by constructor. }
  destruct (Hc w1) as (t & w2 & Ec & S2).
  assert (systemAnnotations e ctx' w1 = (Ret (stamps t ctx'), w2)) as E2.
  { unfold systemAnnotations. by rewrite (bind_run _ _ _ _ _ Ec). }
  assert (same_io w w2) as S by (by etrans).
  assert (apply e ctx act w
    = ('(err, obj) ← Patch ctx' (stamped act ctx' t) (exec_FieldManager e) true; applyPatched ctx' err obj) w2)
    as E by (unfold apply; by rewrite (bind_run _ _ _ _ _ E1), (bind_run _ _ _ _ _ E2)).
  exists t, ctx'. split; [done|]. split; [done|]. rewrite E. clear E1 E2 E Ec S1 S2.
  rewrite <- (same_cluster _ _ S).
  unfold Patch, mbind, M_bind.
  destruct (client_Patch ctx' (stamped act ctx' t) (exec_FieldManager e) true (w_cluster w2)) as [[[err|] o1] c1].
  - destruct (applyError_run "ssa patch" err (set_cluster c1 w2)) as (w3 & Ea & S3).
    exists w3. split; [destruct S, S3; constructor; cbn in *; congruence|].
    cbn [applyPatched]. rewrite (bind_run _ _ _ _ _ Ea). split; [done|by destruct S3].
  - cbn [applyPatched]. unfold Get, mbind, M_bind. cbn [w_cluster set_cluster].
    destruct (client_Get ctx' (GetNamespace o1) (GetName o1) o1 c1) as [[[err|] o2] c2].
    + destruct (applyError_run "post-apply get" err (set_cluster c2 (set_cluster c1 w2))) as (w3 & Ea & S3).
      exists w3. split; [destruct S, S3; constructor; cbn in *; congruence|].
      rewrite Ea. split; [done|by destruct S3].
    + eexists. split; [|split; [reflexivity|done]]. destruct S. constructor; cbn in *; congruence.
Qed.

(** *** What is applied *)

Lemma stamps_lookup t ctx k :
  stamps t ctx !! k
  = if String.eqb k AnnotationTraceID && negb (String.eqb (traceIDFromContext ctx) "")
    then Some (traceIDFromContext ctx)
    else if String.eqb k AnnotationReqID && negb (String.eqb (RequestIDFromContext ctx) "")
    then Some (RequestIDFromContext ctx)
    else if String.eqb k AnnotationApplied then Some (Format_RFC3339 t) else None.
Proof.
  unfold stamps.
  destruct (String.eqb_spec k AnnotationTraceID) as [->|H1];
    [|destruct (String.eqb_spec k AnnotationReqID) as [->|H2];
      [|destruct (String.eqb_spec k AnnotationApplied) as [->|H3]]];
    destruct (negb (String.eqb (traceIDFromContext ctx) "")),
      (negb (String.eqb (RequestIDFromContext ctx) "")); cbn [andb];
    rewrite ?lookup_insert_eq, ?lookup_insert_ne, ?lookup_insert_eq, ?lookup_singleton_eq,
      ?lookup_singleton_ne by done; reflexivity.
Qed.

(** A stamped object: its two labels and three annotations are set, the other
    labels are the object's own, the other annotations the action's, then the
    object's own; and under them it is the action's object, spec included. *)
Record stamped_ok act (ctx : Context) (obj : O) : Prop := {
  stamped_name : GetName obj = GetName (Object act) /\ GetNamespace obj = GetNamespace (Object act);
  stamped_managed : GetLabels obj !! LabelManagedBy = Some "webhookd";
  stamped_source : GetLabels obj !! LabelSource = Some (Source act);
  stamped_labels k : k <> LabelManagedBy -> k <> LabelSource ->
    GetLabels obj !! k = GetLabels (Object act) !! k;
  stamped_request id : ctx_request_id ctx = Some id -> id <> "" ->
    GetAnnotations obj !! AnnotationReqID = Some id;
  stamped_trace sc : ctx_span ctx = Some sc -> TraceID sc <> "" ->
    GetAnnotations obj !! AnnotationTraceID = Some (TraceID sc);
  stamped_applied : exists t, GetAnnotations obj !! AnnotationApplied = Some (Format_RFC3339 t);
  stamped_annotations k : k ∉ [AnnotationTraceID; AnnotationReqID; AnnotationApplied] ->
    GetAnnotations obj !! k
    = match Annotations act !! k with Some v => Some v | None => GetAnnotations (Object act) !! k end;
  stamped_rest :
    SetAnnotations (GetAnnotations (Object act)) (SetLabels (GetLabels (Object act)) obj) = Object act
}.

Lemma stamped_is_ok `{!ClientObjectLaws O, !TracerLaws} act ctx ctx' t n :
  ctx_request_id ctx' = ctx_request_id ctx -> ctx_span ctx' = tracer_Start ctx "k8s.apply" n ->
  stamped_ok act ctx (stamped act ctx' t).
Proof.
  intros Hr Hs. unfold stamped.
  split; autorewrite with webhookd; [done|by rewrite mergeLabels_lookup|by rewrite mergeLabels_lookup|..].
  - intros k Hk1 Hk2. rewrite mergeLabels_lookup. unfold systemLabels. by rewrite lookup_insert_ne, lookup_singleton_ne by done.
  - intros id Hid Hne. rewrite mergeAnnotations_lookup, stamps_lookup. unfold RequestIDFromContext.
    rewrite Hr, Hid. change (default "" (Some id)) with id.
    by rewrite (proj2 (String.eqb_neq id "") Hne).
  - intros sc Hsc Hne. destruct (tracer_inherits ctx sc "k8s.apply" n Hsc) as (sc' & E & Ht).
    rewrite mergeAnnotations_lookup, stamps_lookup. unfold traceIDFromContext. rewrite Hs, E, Ht.
    by rewrite (proj2 (String.eqb_neq _ "") Hne).
  - exists t. by rewrite mergeAnnotations_lookup, stamps_lookup.
  - intros k Hnot. rewrite mergeAnnotations_lookup, stamps_lookup.
    apply not_elem_of_cons in Hnot as [Hk1 [Hk2 [Hk3 _]%not_elem_of_cons]%not_elem_of_cons].
    by rewrite (proj2 (String.eqb_neq _ _) Hk1), (proj2 (String.eqb_neq _ _) Hk2),
      (proj2 (String.eqb_neq _ _) Hk3).
  - done.
Qed.


(** *** Execute *)

(** The object sent for a request: the action's object, stamped at some
    instant in the context of the apply's span. *)
Definition sent act (ctx ctx' : Context) (obj : O) : Prop :=
  exists t n, ctx_request_id ctx' = ctx_request_id ctx
    /\ ctx_span ctx' = tracer_Start ctx "k8s.apply" n /\ obj = stamped act ctx' t.

(** What executing an apply action can do to the cluster, and answer: one
    forced patch of the stamped object, refused or not; one fetch of what it
    answered, failed or not; then the wait. *)
Inductive executed e ctx act (c : C) : ExecResult -> C -> Prop :=
| executed_refused ctx' obj err o1 c1 :
    sent act ctx ctx' obj ->
    client_Patch ctx' obj (exec_FieldManager e) true c = (Some err, o1, c1) ->
    executed e ctx act c (classifyK8sErr (wrapped "ssa patch" err) (GetNamespace o1) (GetName o1)) c1
| executed_lost ctx' obj o1 c1 err o2 c2 :
    sent act ctx ctx' obj ->
    client_Patch ctx' obj (exec_FieldManager e) true c = (None, o1, c1) ->
    client_Get ctx' (GetNamespace o1) (GetName o1) o1 c1 = (Some err, o2, c2) ->
    executed e ctx act c (classifyK8sErr (wrapped "post-apply get" err) (GetNamespace o2) (GetName o2)) c2
| executed_waited ctx' obj o1 c1 applied c2 D start res c3 :
    sent act ctx ctx' obj ->
    client_Patch ctx' obj (exec_FieldManager e) true c = (None, o1, c1) ->
    client_Get ctx' (GetNamespace o1) (GetName o1) o1 c1 = (None, applied, c2) ->
    waited e act applied D start c2 res c3 ->
    executed e ctx act c res c3.

Lemma Execute_executed e ctx act w :
  quiet (exec_clock e) ->
  yields same_http (fun res w' => executed e ctx act (w_cluster w) res (w_cluster w'))
    (Execute e ctx (Apply act)) w.
Proof.
  intros Hc. cbn [Execute]. destruct (apply_run e ctx act w Hc) as (t & ctx' & Hr & Hs & w' & Hhttp & Hrun).
  assert (sent act ctx ctx' (stamped act ctx' t)) as Hsent by (by do 2 eexists).
  destruct (client_Patch _ _ _ _ _) as [[[err|] o1] c1] eqn:EP;
    [|destruct (client_Get _ _ _ _ _) as [[[err|] o2] c2] eqn:EG]; destruct Hrun as [Ha Hcl];
    (eapply yields_run; [exact Ha|done|]); cbn [fmap option_fmap option_map];
    (apply yields_skip; [apply _|auto with webhookd|]; intros [] w2 Hcl2).
  - apply yields_ret. rewrite Hcl2, Hcl. by econstructor.
  - apply yields_ret. rewrite Hcl2, Hcl. by econstructor.
  - destruct (waitForSync_waited e ctx act o2 w2) as (res & w3 & E3 & S3 & Hw).
    exists res, w3. split; [done|]. split; [done|]. rewrite Hcl2, Hcl in Hw. by econstructor.
Qed.

Lemma classifyK8sErr_kind err ns name :
  Kind (classifyK8sErr err ns name) ∈ [ResultInternalError; ResultUnprocessable; ResultTransientFailure].
Proof. unfold classifyK8sErr. repeat case_match; set_solver. Qed.

(** An object the wait looks at, from the cluster [c] the apply left: the
    answer to its fetch, or an event of its watch with the object's name. *)
Definition seen act (applied : O) (c : C) (obj : O) : Prop :=
  (exists ctx cur c1, DeepCopyObject applied = Some cur
     /\ client_Get ctx (GetNamespace applied) (GetName applied) cur c = (None, obj, c1))
  \/ exists ctx c1 c2 s d, not_yet act applied c c1
     /\ client_Watch ctx (ListObject act) (GetNamespace applied) c1 = (Ok s, c2)
     /\ d ∈ deliveries s /\ ev_Object d = Some obj /\ GetName obj = GetName applied.

Lemma waited_result e act (applied : O) D start c res c' :
  waited e act applied D start c res c' ->
  CRName res = GetName applied /\ Namespace res = GetNamespace applied
  /\ Kind res ∈ [ResultReady; ResultTimeout; ResultTransientFailure]
  /\ (Kind res = ResultReady -> exists obj, seen act applied c obj
        /\ ReadyCheck act obj (GetGeneration applied) = (true, ObservedGeneration res)).
Proof.
  intros [ctx cur obj g c1 Hcur HG Hr|ctx err c1 c2 Hny HW|ctx s v t c1 c2 Hny HW Hl]; cbn.
  - repeat split; [set_solver|]. intros _. exists obj. split; [left; eauto|done].
  - repeat split; [set_solver|done].
  - destruct v as [| |g]; cbn; (repeat split; [set_solver|]); try done.
    intros _. destruct (select_loop_ready _ _ _ _ _ _ _ _ Hl) as (d & Hd & obj & Ho & Hname & Hc).
    exists obj. split; [right; eauto 10|done].
Qed.

(** C9: Executing an apply action always ends in a result: the wait cannot
    block for ever, having a deadline.  What it does to the cluster and
    answers is one of: a refused patch of the stamped object, a patch whose
    result cannot be fetched, or a patch, a fetch and a wait, which is one
    more fetch and, unless that is ready, one watch, stopped at the end.  The
    HTTP side of the world is left alone. *)
Theorem Execute_refines e ctx act w :
  quiet (exec_clock e) ->
  exists res w', Execute e ctx (Apply act) w = (Ret res, w') /\ same_http w w'
    /\ executed e ctx act (w_cluster w) res (w_cluster w').
Proof. apply Execute_executed. Qed.

(** What a Ready answer rests on, from the cluster [c] of the request: the
    patch of the stamped object was accepted, what it answered was fetched,
    and the provider's check accepted an object the wait looked at, at the
    fetched generation. *)
Definition ready_for e ctx act (c : C) (applied obj : O) (g : Z) : Prop :=
  exists ctx' ob o1 c1 c2, stamped_ok act ctx ob
    /\ client_Patch ctx' ob (exec_FieldManager e) true c = (None, o1, c1)
    /\ client_Get ctx' (GetNamespace o1) (GetName o1) o1 c1 = (None, applied, c2)
    /\ seen act applied c2 obj
    /\ ReadyCheck act obj (GetGeneration applied) = (true, g).

Lemma executed_result `{!ClientObjectLaws O, !TracerLaws} e ctx act c res c' :
  executed e ctx act c res c' ->
  Kind res ∈ [ResultReady; ResultTimeout; ResultTransientFailure; ResultUnprocessable; ResultInternalError]
  /\ (Kind res = ResultReady -> exists applied obj,
        ready_for e ctx act c applied obj (ObservedGeneration res)
        /\ CRName res = GetName applied /\ Namespace res = GetNamespace applied).
Proof.
  assert (forall err ns name, Kind (classifyK8sErr err ns name)
    ∈ [ResultReady; ResultTimeout; ResultTransientFailure; ResultUnprocessable; ResultInternalError]
    /\ Kind (classifyK8sErr err ns name) <> ResultReady) as Hcl.
  { intros err ns name. pose proof (classifyK8sErr_kind err ns name) as Hk. split; [set_solver|].
    intros Hr. rewrite Hr in Hk. set_solver. }
  intros [ctx' ob err o1 c1 Hs HP|ctx' ob o1 c1 err o2 c2 Hs HP HG
         |ctx' ob o1 c1 applied c2 D start res' c3 Hs HP HG Hw].
  - destruct (Hcl (wrapped "ssa patch" err) (GetNamespace o1) (GetName o1)). split; [done|]. by intros.
  - destruct (Hcl (wrapped "post-apply get" err) (GetNamespace o2) (GetName o2)). split; [done|]. by intros.
  - destruct (waited_result _ _ _ _ _ _ _ _ Hw) as (Hn & Hns & Hk & Hr). split; [set_solver|].
    intros Hready. destruct (Hr Hready) as (obj & Hseen & Hck). exists applied, obj. split; [|done].
    destruct Hs as (t & n & Hreq & Hspan & ->). exists ctx', (stamped act ctx' t), o1, c1, c2.
    split; [by eapply stamped_is_ok|done].
Qed.

(** C11: A Ready answer is sound: the API server accepted the patch of the
    request's stamped object, the result was fetched, and the provider's
    check accepted, at the fetched generation, an object the wait then saw in
    the cluster under the same name.  An apply is never answered as a no-op
    or a bad request. *)
Theorem Execute_ready_sound `{!ClientObjectLaws O, !TracerLaws} e ctx act w res w' :
  quiet (exec_clock e) -> Execute e ctx (Apply act) w = (Ret res, w') ->
  Kind res ∈ [ResultReady; ResultTimeout; ResultTransientFailure; ResultUnprocessable; ResultInternalError]
  /\ (Kind res = ResultReady -> exists applied obj,
        ready_for e ctx act (w_cluster w) applied obj (ObservedGeneration res)
        /\ CRName res = GetName applied /\ Namespace res = GetNamespace applied).
Proof.
  intros Hc E. destruct (Execute_executed e ctx act w Hc) as (res' & w'' & E' & _ & Hx).
  rewrite E in E'. injection E' as <- <-. by eapply executed_result.
Qed.

(** The kind an API error calls for. *)
Definition rejection (err : error) : ResultKind :=
  if IsForbidden err then ResultInternalError
  else if IsInvalid err then ResultUnprocessable
  else if IsServerTimeout err || IsServiceUnavailable err || IsTooManyRequests err || IsConflict err
  then ResultTransientFailure
  else ResultInternalError.

Lemma classify_rejection `{!ApiErrorsLaws} msg err ns name :
  let res := classifyK8sErr (wrapped msg err) ns name in
  CRName res = name /\ Namespace res = ns /\ Kind res = rejection err.
Proof.
  unfold classifyK8sErr, rejection, wrapped. cbv zeta. rewrite wrap_IsForbidden, wrap_IsInvalid, wrap_IsServerTimeout,
    wrap_IsServiceUnavailable, wrap_IsTooManyRequests, wrap_IsConflict.
  destruct (IsForbidden err); [done|]. destruct (IsInvalid err); [done|].
  by destruct (IsServerTimeout err || IsServiceUnavailable err || IsTooManyRequests err || IsConflict err).
Qed.

(** C32: A rejected apply is classified by the API error's reason, seen
    through the wrapping: forbidden is internal, an invalid object is
    unprocessable, the four retryable reasons are transient, anything else is
    internal.  This is so when the server refuses the patch of the stamped
    object, and then there is no fetch and no watch, and when the fetch of what
    it applied fails, and then there is no watch; when both succeed the answer
    is neither internal nor unprocessable. *)
Theorem Execute_rejected `{!ClientObjectLaws O, !TracerLaws, !ApiErrorsLaws} e ctx act w :
  quiet (exec_clock e) ->
  exists res w' ctx' obj, Execute e ctx (Apply act) w = (Ret res, w') /\ stamped_ok act ctx obj
    /\ match client_Patch ctx' obj (exec_FieldManager e) true (w_cluster w) with
       | (Some err, o, c) =>
           w_cluster w' = c /\ CRName res = GetName o /\ Namespace res = GetNamespace o /\ Kind res = rejection err
       | (None, o1, c1) =>
           match client_Get ctx' (GetNamespace o1) (GetName o1) o1 c1 with
           | (Some err, o, c) =>
               w_cluster w' = c /\ CRName res = GetName o /\ Namespace res = GetNamespace o /\ Kind res = rejection err
           | (None, _, _) => Kind res ∈ [ResultReady; ResultTimeout; ResultTransientFailure]
           end
       end.
Proof.
  intros Hc. destruct (Execute_executed e ctx act w Hc) as (res & w' & E & _ & Hx). exists res, w'.
  assert (forall ctx' obj, sent act ctx ctx' obj -> stamped_ok act ctx obj) as Hok
    by (intros ctx' obj (t & n & Hreq & Hspan & ->); by eapply stamped_is_ok).
  remember (w_cluster w') as c' eqn:Hc'. destruct Hx as [ctx' ob err o1 c1 Hs HP|ctx' ob o1 c1 err o2 c2 Hs HP HG
    |ctx' ob o1 c1 applied c2 D start res' c3 Hs HP HG Hw]; exists ctx', ob; (split; [done|]);
    (split; [by eapply Hok|]); rewrite HP.
  - split; [done|]. apply classify_rejection.
  - rewrite HG. split; [done|]. apply classify_rejection.
  - rewrite HG. by destruct (waited_result _ _ _ _ _ _ _ _ Hw) as (_ & _ & Hk & _).
Qed.

(** *** The wait: liveness and bounds *)

(** The kind a verdict of the loop becomes. *)
Definition verdict_kind (v : verdict) : ResultKind :=
  match v with
  | Expired => ResultTimeout
  | Closed => ResultTransientFailure
  | Ready _ => ResultReady
  end.

(** With a client whose watch opens as [s], a wait is ready at once or the
    loop on [s] decides. *)
Lemma waitForSync_decided e parent act (applied : O) w s :
  (forall ctx c, exists c', client_Watch ctx (ListObject act) (GetNamespace applied) c = (Ok s, c')) ->
  exists res w', waitForSync e parent act applied w = (Ret res, w')
    /\ (Kind res = ResultReady
        \/ exists v t', select_loop (Some (wait_deadline e parent w)) (GetName applied)
             (fun o => ReadyCheck act o (GetGeneration applied))
             (Z.max (w_clock w (S (w_reads w))) (opened s)) (deliveries s) (closes s) = Some (v, t')
             /\ Kind res = verdict_kind v).
Proof.
  intros HW. destruct (waitForSync_waited e parent act applied w) as (res & w' & E & _ & Hw).
  exists res, w'. split; [done|].
  destruct Hw as [|ctx err c1 c2 Hny HW'|ctx s' v t c1 c2 Hny HW' Hl]; [by left|..];
    destruct (HW ctx c1) as (c' & HW''); rewrite HW'' in HW'; [done|]. injection HW' as -> ->.
  right. exists v, t. split; [done|]. by destruct v.
Qed.

(** C20: If the watch delivers an event that passes the provider's check
    before the deadline (the earlier of the parent's end and the sync
    timeout), the watch having opened by then, and the events before it arrive
    in time and are handled at once, the wait answers Ready, whatever those
    events are. *)
Theorem waitForSync_live e parent act (applied : O) w s ds1 d ds2 g :
  (forall ctx c, exists c', client_Watch ctx (ListObject act) (GetNamespace applied) c = (Ok s, c')) ->
  deliveries s = ds1 ++ d :: ds2 ->
  Forall (fun d' => busy d' = 0%N /\ arrives d' < wait_deadline e parent w) ds1 ->
  arrives d < wait_deadline e parent w ->
  Z.max (w_clock w (S (w_reads w))) (opened s) < wait_deadline e parent w ->
  marks_ready (GetName applied) (fun o => ReadyCheck act o (GetGeneration applied)) d g ->
  exists res w', waitForSync e parent act applied w = (Ret res, w') /\ Kind res = ResultReady.
Proof.
  intros HW Hs HF Hd Ht Hm.
  destruct (waitForSync_decided e parent act applied w s HW) as (res & w' & E & Hres).
  exists res, w'. split; [done|]. destruct Hres as [Hr|(v & t' & Hl & Hk)]; [done|].
  apply Forall_and in HF as [Hb Ha]. rewrite Hs in Hl.
  destruct (select_loop_live _ _ _ _ ds1 d ds2 (closes s) g Hb Ha Hd Ht Hm) as (g' & t'' & E' & _).
  rewrite E' in Hl. injection Hl as <- <-. done.
Qed.

(** C21: The wait decides as it should, and by the deadline.  Take a watch
    that opens by the deadline, delivers in order and is closed, if at all,
    after its last event, and a loop body that takes no time.  Then the wait
    answers Ready on the initial fetch, with what the check says of the
    fetched object; or, no later than the deadline: Ready at the arrival of the
    first event that passes the check, with the generation it observed;
    Transient at the close of the channel, when no event passes it; or Timeout
    exactly at the deadline, when no event that passes it, nor the close, came
    before. *)
Theorem waitForSync_bounded e parent act (applied : O) w s :
  let check o := ReadyCheck act o (GetGeneration applied) in
  let D := wait_deadline e parent w in
  let t0 := Z.max (w_clock w (S (w_reads w))) (opened s) in
  (forall ctx c, exists c', client_Watch ctx (ListObject act) (GetNamespace applied) c = (Ok s, c')) ->
  Forall (fun d => busy d = 0%N) (deliveries s) -> in_order (deliveries s) (closes s) -> t0 <= D ->
  exists res w', waitForSync e parent act applied w = (Ret res, w')
    /\ ((exists ctx cur obj c1, DeepCopyObject applied = Some cur
           /\ client_Get ctx (GetNamespace applied) (GetName applied) cur (w_cluster w) = (None, obj, c1)
           /\ check obj = (true, ObservedGeneration res) /\ Kind res = ResultReady)
        \/ exists v t', select_loop (Some D) (GetName applied) check t0 (deliveries s) (closes s) = Some (v, t')
             /\ t0 <= t' <= D /\ decided (GetName applied) check D t0 (deliveries s) (closes s) v t'
             /\ match v with
                | Ready g => Kind res = ResultReady /\ ObservedGeneration res = g
                | Closed => Kind res = ResultTransientFailure
                | Expired => Kind res = ResultTimeout
                end).
Proof.
  intros check D t0 HW Hb Hord Ht. destruct (waitForSync_waited e parent act applied w) as (res & w' & E & _ & Hw).
  exists res, w'. split; [done|].
  destruct (select_loop_decides (GetName applied) check D t0 _ _ Hb Hord Ht) as (v & t' & El & Hbound & Hv).
  destruct Hw as [ctx cur obj g c1|ctx err c1 c2 _ HW'|ctx s' v' t c1 c2 _ HW' Hl]; [left; by exists ctx, cur, obj, c1|..];
    destruct (HW ctx c1) as (c' & HW''); rewrite HW'' in HW'; [done|]. injection HW' as -> ->.
  right. exists v, t'. assert (Some (v, t') = Some (v', t)) as [= <- <-] by (rewrite <- El; exact Hl).
  do 3 (split; [done|]). by destruct v.
Qed.

End ExecutorLaws.

(** ** A concrete environment

    A cluster that holds one object, applies at generation 1 and answers a
    watch with one event, five seconds in, that marks the object ready. *)

Module ExecutorSample.

Definition cluster : Type := option object.

Definition meta_gen1 (m : ObjectMeta) : ObjectMeta :=
  mkObjectMeta (om_Name m) (om_Namespace m) 1 (om_Labels m) (om_Annotations m).

Definition spec0 : SAMLGroupMappingSpec := mkSAMLGroupMappingSpec "idp" "group" "" (mkRoleRef "r") [mkProjectRef "p"].

Definition wanted_object : object :=
  ObjSAMLGroupMapping (mkSAMLGroupMapping (mkTypeMeta "wiz.webhookd.io/v1alpha1" "SAMLGroupMapping")
    (newMeta "jsm-sec-1" "wiz") spec0 zeroStatus).

Definition ready_object : object :=
  ObjSAMLGroupMapping (mkSAMLGroupMapping (mkTypeMeta "wiz.webhookd.io/v1alpha1" "SAMLGroupMapping")
    (meta_gen1 (newMeta "jsm-sec-1" "wiz")) spec0
    (mkSAMLGroupMappingStatus 1 [mkCondition "Ready" "True" "" ""])).

Definition T0 : Z := 1700000000 * Second.

Definition watch0 : watcher object := mkWatcher (T0 + 3) [mkDelivery (T0 + 5 * Second) true 0 (Some ready_object)] None.

#[export] Instance client0 : K8sClient cluster object object_list := {
  client_Patch ctx obj owner force c :=
    let obj := set_meta (meta_gen1 (meta_of obj)) obj in (None, obj, Some obj);
  client_Get ctx ns name into c :=
    match c with Some o => (None, o, c) | None => (Some (Opaque "not found"), into, c) end;
  client_Watch ctx ol ns c := (Ok watch0, c);
  watcher_Stop s c := c
}.

(** A cluster that forbids everything. *)
Definition forbidden : error := Opaque "forbidden".

Definition client_forbids : K8sClient cluster object object_list := {|
  client_Patch ctx obj owner force c := (Some forbidden, wanted_object, c);
  client_Get ctx ns name into c := (Some forbidden, into, c);
  client_Watch ctx ol ns c := (Err forbidden, c);
  watcher_Stop s c := c
|}.

(** The innermost text decides. *)
Fixpoint root_text (e : error) : string :=
  match e with
  | Errorf _ [e] => root_text e
  | e => ErrorText e
  end.

#[export] Instance apierrors0 : ApiErrors := {
  IsForbidden e := String.eqb (root_text e) "forbidden";
  IsInvalid e := String.eqb (root_text e) "invalid";
  IsServerTimeout e := String.eqb (root_text e) "server timeout";
  IsServiceUnavailable e := String.eqb (root_text e) "unavailable";
  IsTooManyRequests e := String.eqb (root_text e) "too many requests";
  IsConflict e := String.eqb (root_text e) "conflict"
}.

#[export] Instance apierrors0_laws : ApiErrorsLaws.
Proof. by split. Qed.

#[export] Instance tracer0 : Tracer := {
  tracer_Start ctx name n :=
    match ctx_span ctx with
    | Some sc => Some (mkSpanContext (TraceID sc) name)
    | None => None
    end
}.

#[export] Instance tracer0_laws : TracerLaws.
Proof. split. intros ctx sc name n H. cbn. rewrite H. by eexists. Qed.

Definition executor0 : @Executor cluster unit :=
  NewExecutor true true (mkExecutorConfig "" (20 * Second) None).

Definition ctx0 : Context := mkContext (Some "req-1") (Some (mkSpanContext "trace-1" "span-1")) None.

Definition ready0 (o : object) (gen : Z) : bool * Z :=
  match o with
  | ObjSAMLGroupMapping cr =>
      let g := st_ObservedGeneration (sgm_Status cr) in ((gen <=? g) && negb (g =? 0), g)
  | _ => (false, 0)
  end.

Definition act0 : ApplyAction object object_list :=
  mkApplyAction wanted_object SAMLGroupMappingList ready0 {[ "k" := "v" ]} "SAMLGroupMapping" "jsm".

Definition world0 : world cluster unit := start_world None (fun n => T0 + Z.of_nat n) [].

Lemma clock0_quiet : quiet (exec_clock executor0).
Proof. apply quiet_time_Now. Qed.


Lemma Execute_refines_witness :
  exists res w', Execute executor0 ctx0 (Apply act0) world0 = (Ret res, w')
    /\ executed executor0 ctx0 act0 None res (w_cluster w').
Proof.
  destruct (Execute_refines executor0 ctx0 act0 world0 clock0_quiet) as (res & w' & E & _ & H).
  exists res, w'. split; [exact E|exact H].
Defined.

Definition exec_result0 : ExecResult := mkExecResult ResultReady "" "jsm-sec-1" "wiz" 1.

(** The run of the example is a success. *)
Example exec_run0_ready : (Execute executor0 ctx0 (Apply act0) world0).1 = Ret exec_result0.
Proof. vm_compute. reflexivity. Qed.

Lemma exec_run0_eq : exists w', Execute executor0 ctx0 (Apply act0) world0 = (Ret exec_result0, w').
Proof.
  pose proof exec_run0_ready as H.
  destruct (Execute executor0 ctx0 (Apply act0) world0) as [r w']. exists w'. by f_equal.
Qed.

Lemma Execute_ready_sound_witness :
  exists applied obj, ready_for executor0 ctx0 act0 None applied obj 1 /\ GetName applied = "jsm-sec-1".
Proof.
  destruct exec_run0_eq as (w' & E).
  destruct (Execute_ready_sound executor0 ctx0 act0 world0 exec_result0 w' clock0_quiet E) as [_ H].
  destruct (H eq_refl) as (applied & obj & Hr & Hn & _).
  exists applied, obj. split; [exact Hr|]. symmetry. exact Hn.
Defined.

Lemma Execute_rejected_witness :
  exists res w', Execute (K8sClient0 := client_forbids) executor0 ctx0 (Apply act0) world0 = (Ret res, w')
    /\ Kind res = ResultInternalError /\ w_cluster w' = None.
Proof.
  destruct (Execute_rejected (K8sClient0 := client_forbids) executor0 ctx0 act0 world0 clock0_quiet)
    as (res & w' & ctx' & obj & E & _ & Hc & _ & _ & Hk).
  exists res, w'. split; [exact E|]. split; [exact Hk|exact Hc].
Defined.

Lemma waitForSync_live_witness :
  exists res w', waitForSync executor0 ctx0 act0 (set_meta (meta_gen1 (meta_of wanted_object)) wanted_object) world0
    = (Ret res, w') /\ Kind res = ResultReady.
Proof.
  apply (waitForSync_live executor0 ctx0 act0 (set_meta (meta_gen1 (meta_of wanted_object)) wanted_object)
           world0 watch0 [] (mkDelivery (T0 + 5 * Second) true 0 (Some ready_object)) [] 1).
  - intros ctx c. exists c. reflexivity.
  - reflexivity.
  - constructor.
  - vm_compute. reflexivity.
  - vm_compute. reflexivity.
  - exists ready_object. repeat split.
Defined.

Lemma waitForSync_bounded_witness :
  exists res w', waitForSync executor0 ctx0 act0 (set_meta (meta_gen1 (meta_of wanted_object)) wanted_object) world0
    = (Ret res, w') /\ Kind res <> ResultTimeout.
Proof.
  destruct (waitForSync_bounded executor0 ctx0 act0 (set_meta (meta_gen1 (meta_of wanted_object)) wanted_object)
           world0 watch0) as (res & w' & E & Hr).
  - intros ctx c. exists c. reflexivity.
  - repeat constructor.
  - split; [repeat constructor|]. intros a p [=].
  - vm_compute. discriminate.
  - exists res, w'. split; [exact E|]. intros Hk. destruct Hr as [(ctx & cur & obj & c1 & _ & _ & _ & Hr)|Hr]; [congruence|].
    destruct Hr as (v & t' & Hl & _ & _ & Hv). vm_compute in Hl. injection Hl as <- <-. destruct Hv as [Hr _]. congruence.
Defined.

End ExecutorSample.
