(* ===== verification/Registry.v ===== *)
(** * The provider registry ([internal/webhook/registry.go])

    A registry maps names to factories.  The mutex serialises its methods, so
    each is one step on the map; a duplicate registration panics.  The
    dependency bundle is a parameter [D] with its list of enabled providers. *)

From S2P Require Import Prelude GoStrings Unicode Result Runtime Action.

Section Registry.
Context {C L O OL D : Type} `{UnicodeTables}.
Variable EnabledProviders : D -> list string.

Definition ProviderFactory : Type := D -> result (Provider C L O OL).

Record Registry := mkRegistry { providers : gmap string ProviderFactory }.

Definition NewRegistry : Registry := mkRegistry ∅.

Definition Register (r : Registry) (name : string) (factory : ProviderFactory) : outcome Registry :=
  match providers r !! name with
  | Some _ => Panic ("webhook: provider " +:+ Quote name +:+ " registered twice")
  | None => Ret (mkRegistry (<[name := factory]> (providers r)))
  end.

(** The loop of [Build] over the enabled names, [out] built so far. *)
Fixpoint build_loop (r : Registry) (deps : D) (enabled : list string) (out : list (Provider C L O OL))
  : result (list (Provider C L O OL)) :=
  match enabled with
  | [] => Ok out
  | name :: enabled =>
      match providers r !! name with
      | None => Err (Errorf ("webhook: provider " +:+ Quote name +:+ " enabled but not registered") [])
      | Some f =>
          match f deps with
          | Err err => Err (Errorf ("webhook: provider " +:+ Quote name +:+ " factory: " +:+ ErrorText err) [err])
          | Ok prov => build_loop r deps enabled (out ++ [prov])
          end
      end
  end.

Definition Build (r : Registry) (deps : D) : result (list (Provider C L O OL)) :=
  build_loop r deps (EnabledProviders deps) [].

(** What the factory registered under a name makes. *)
Definition makes (r : Registry) (deps : D) (name : string) (p : Provider C L O OL) : Prop :=
  exists f, providers r !! name = Some f /\ f deps = Ok p.

Lemma build_loop_ok r deps enabled out ps :
  build_loop r deps enabled out = Ok ps <-> exists qs, ps = out ++ qs /\ Forall2 (makes r deps) enabled qs.
Proof.
  revert out. induction enabled as [|name enabled IH]; intros out; cbn [build_loop].
  - split.
    + intros [= ->]. exists []. by rewrite app_nil_r.
    + intros (qs & -> & HF). inversion HF. by rewrite app_nil_r.
  - destruct (providers r !! name) as [f|] eqn:Ef.
    2:{ split; [done|]. intros (qs & _ & HF). inversion HF as [|? ? ? ? (f & Hf & _)]. congruence. }
    destruct (f deps) as [p|err] eqn:Ep.
    + rewrite IH. split.
      * intros (qs & -> & HF). exists (p :: qs). rewrite <- app_assoc. split; [done|].
        constructor; [by exists f|done].
      * intros (qs & -> & HF). inversion HF as [|? q ? qs' (f' & Hf & Hq)]; subst.
        rewrite Ef in Hf. injection Hf as <-. rewrite Ep in Hq. injection Hq as <-.
        exists qs'. by rewrite <- app_assoc.
    + split; [done|]. intros (qs & _ & HF). inversion HF as [|? ? ? ? (f' & Hf & Hq)]; subst.
      rewrite Ef in Hf. injection Hf as <-. congruence.
Qed.

Lemma build_loop_err r deps enabled out e :
  build_loop r deps enabled out = Err e ->
  exists before name after, enabled = before ++ name :: after
    /\ Forall (fun n => exists p, makes r deps n p) before
    /\ ~ (exists p, makes r deps name p)
    /\ (providers r !! name = None
        \/ exists f err, providers r !! name = Some f /\ f deps = Err err /\ exists m, e = Errorf m [err]).
Proof.
  revert out. induction enabled as [|name enabled IH]; intros out; cbn [build_loop]; [done|].
  destruct (providers r !! name) as [f|] eqn:Ef.
  2:{ intros _. exists [], name, enabled. split; [done|]. split; [constructor|]. split; [|by left].
      intros (p & f & Hf & _). congruence. }
  destruct (f deps) as [p|err] eqn:Ep.
  - intros (before & n & after & -> & HF & Hn & He)%IH. exists (name :: before), n, after.
    split; [done|]. split; [|done]. constructor; [by exists p, f|done].
  - intros [= <-]. exists [], name, enabled. split; [done|]. split; [constructor|].
    split; [intros (p & f' & Hf & Hq); congruence|]. right. exists f, err. by eauto.
Qed.

(** [Build] succeeds exactly when every enabled name is registered and
    its factory succeeds, and then returns the providers those factories
    make, in the order of the allow-list; an error names the first one that
    fails, everything before it having been built. *)
Theorem Build_spec (r : Registry) (deps : D) :
  match Build r deps with
  | Ok ps => Forall2 (makes r deps) (EnabledProviders deps) ps
  | Err e => exists before name after, EnabledProviders deps = before ++ name :: after
      /\ Forall (fun n => exists p, makes r deps n p) before
      /\ ~ (exists p, makes r deps name p)
      /\ (providers r !! name = None
          \/ exists f err, providers r !! name = Some f /\ f deps = Err err /\ exists m, e = Errorf m [err])
  end.
Proof.
  unfold Build. destruct (build_loop r deps (EnabledProviders deps) []) as [ps|e] eqn:E.
  - apply build_loop_ok in E as (qs & -> & HF). done.
  - by eapply build_loop_err.
Qed.

(** Registration adds exactly one name and refuses a second factory
    under a name; the names registered before are untouched. *)
Theorem Register_spec (r : Registry) (name : string) (factory : ProviderFactory) :
  match Register r name factory with
  | Ret r' => providers r !! name = None /\ providers r' !! name = Some factory
      /\ forall other, other <> name -> providers r' !! other = providers r !! other
  | Panic _ => is_Some (providers r !! name)
  end.
Proof.
  unfold Register. destruct (providers r !! name) as [f|] eqn:E; [done|]. cbn.
  split; [done|]. split; [apply lookup_insert_eq|]. intros other Hne. by apply lookup_insert_ne.
Qed.

End Registry.
