(* ===== verification/Dispatcher.v ===== *)
(** * The dispatcher ([internal/webhook/dispatcher.go])

    The HTTP entry point: route to the provider, read the bounded body,
    verify, decide, execute, answer.  The executor is the interface
    [executorIface], an operation of the record; the providers are those of
    [Action], assumed pure ([PureProvider]), which the JSM provider
    discharges. *)

From S2P Require Import Prelude GoStrings Unicode GoTime Result JsonEncode Runtime Recorder Action Executor.

Section Dispatcher.
Context {C L O OL : Type} `{UnicodeTables}.
Local Notation M := (M C L).

(** [executorIface] *)
Definition executorIface : Type := Context -> Action O OL -> M ExecResult.

Record Dispatcher := mkDispatcher {
  d_providers : gmap string (Provider C L O OL);
  d_executor : executorIface;
  d_HasMetrics : bool;
  d_maxBodyBytes : Z
}.

Record DispatcherConfig := mkDispatcherConfig {
  Providers : list (Provider C L O OL);
  cfg_Executor : executorIface;
  cfg_HasMetrics : bool;
  MaxBodyBytes : Z
}.

(** The loop of [NewDispatcher] over the providers. *)
Fixpoint register_all (ps : list (Provider C L O OL)) (m : gmap string (Provider C L O OL))
  : outcome (gmap string (Provider C L O OL)) :=
  match ps with
  | [] => Ret m
  | p :: ps =>
      match m !! Name p with
      | Some _ => Panic ("webhook.NewDispatcher: duplicate provider " +:+ Quote (Name p))
      | None => register_all ps (<[Name p := p]> m)
      end
  end.

Definition NewDispatcher (cfg : DispatcherConfig) : outcome Dispatcher :=
  let max := if MaxBodyBytes cfg <=? 0 then Z.shiftl 1 20 else MaxBodyBytes cfg in
  match register_all (Providers cfg) ∅ with
  | Panic v => Panic v
  | Ret m => Ret (mkDispatcher m (cfg_Executor cfg) (cfg_HasMetrics cfg) max)
  end.

(** [io.ReadAll(http.MaxBytesReader(w, body, n))]: the whole body, an error of
    the body, or [*http.MaxBytesError] when there are more than [n] bytes.  In
    that last case the server's own writer is told to close the connection;
    a writer that wraps it does not expose the method. *)
Inductive read_result :=
| ReadOk (body : string)
| ReadTooLarge
| ReadErr (err : error).

Definition ReadAll (w : ResponseWriter) (b : Body) (n : Z) : M read_result :=
  if n <? Z.of_nat (String.length (b_data b)) then
    (match w with
     | RWConn => c ← get w_conn;
                 (match c_status c with None => SetHeader w "Connection" "close" | Some _ => mret tt end)
     | RWRecorder _ _ => mret tt
     end) ;;
    mret ReadTooLarge
  else
    match b_err b with
    | Some err => mret (ReadErr err)
    | None => mret (ReadOk (b_data b))
    end.

Definition classifyProviderErr (err : error) : ExecResult :=
  if Is err "webhook.ErrBadRequest" then plainResult ResultBadRequest (ErrorText err)
  else if Is err "webhook.ErrUnprocessable" then plainResult ResultUnprocessable (ErrorText err)
  else plainResult ResultInternalError (ErrorText err).

Definition writeResponse (d : Dispatcher) (ctx : Context) (w : ResponseWriter) (prov : Provider C L O OL)
    (res : ExecResult) : M unit :=
  let traceID := traceIDFromContext ctx in
  let reqID := RequestIDFromContext ctx in
  let status := HTTPStatus (Kind res) in
  SetHeader w "Content-Type" "application/json" ;;
  WriteHeader w status ;;
  (if d_HasMetrics d then inc "JSMResponseTotal" [Itoa status] else mret tt) ;;
  let body := BuildResponse prov res traceID reqID in
  '(_, err) ← Write w (Encode body);
  match err with
  | Some err => log "WARN" "encode response failed" [("err", ErrorText err)]
  | None => mret tt
  end.

Definition ServeHTTP (d : Dispatcher) (w : ResponseWriter) (r : nat) : M unit :=
  q ← deref_request r;
  let ctx := ReqContext q in
  let name := default "" (PathValues q !! "provider") in
  match d_providers d !! name with
  | None =>
      log "WARN" "unknown provider" [("provider", name)] ;;
      http_Error w "unknown provider" 404
  | Some prov =>
      rd ← ReadAll w (ReqBody q) (d_maxBodyBytes d);
      match rd with
      | ReadTooLarge => http_Error w "request body too large" 413
      | ReadErr err =>
          log "WARN" "read body failed" [("err", ErrorText err); ("provider", name)] ;;
          http_Error w "read body failed" 400
      | ReadOk body =>
          bad ← VerifySignature prov r body;
          match bad with
          | Some _ => http_Error w "invalid signature" 401
          | None =>
              action ← Handle prov ctx body;
              match action with
              | Err err => writeResponse d ctx w prov (classifyProviderErr err)
              | Ok a =>
                  res ← d_executor d ctx a;
                  writeResponse d ctx w prov res
              end
          end
      end
  end.

(** ** Construction *)

Lemma register_all_spec ps m :
  match register_all ps m with
  | Ret m' => NoDup (map Name ps) /\ (forall p, p ∈ ps -> m !! Name p = None)
      /\ forall n p, m' !! n = Some p <-> m !! n = Some p \/ (p ∈ ps /\ Name p = n)
  | Panic _ => ~ (NoDup (map Name ps) /\ forall p, p ∈ ps -> m !! Name p = None)
  end.
Proof.
  revert m. induction ps as [|p ps IH]; intros m; cbn [register_all].
  { split; [constructor|]. split; [by intros p ?%elem_of_nil|]. intros n p. split; [by left|].
    intros [?|[?%elem_of_nil _]]; done. }
  destruct (m !! Name p) as [q|] eqn:Em.
  { intros [_ Hp]. specialize (Hp p (list_elem_of_here _ _)). congruence. }
  specialize (IH (<[Name p := p]> m)). destruct (register_all ps _) as [m'|v].
  - destruct IH as (Hn & Hfree & Hm').
    assert (Name p ∉ map Name ps) as Hnp.
    { intros (q & Hq & Hin)%list_elem_of_fmap. specialize (Hfree q Hin). rewrite <- Hq, lookup_insert_eq in Hfree. done. }
    split; [by apply NoDup_cons|]. split.
    + intros q [->|Hq]%elem_of_cons; [done|]. specialize (Hfree q Hq).
      apply lookup_insert_None in Hfree. naive_solver.
    + intros n q. rewrite Hm'. destruct (decide (n = Name p)) as [->|Hne].
      * rewrite lookup_insert_eq. split.
        -- intros [[= <-]|[Hin Hn']]; [right; split; [apply list_elem_of_here|done]|].
           destruct Hnp. rewrite <- Hn'. apply list_elem_of_fmap. eauto.
        -- intros [?|[[->|Hin]%elem_of_cons Hn']]; [congruence|by left|].
           destruct Hnp. rewrite <- Hn'. apply list_elem_of_fmap. eauto.
      * rewrite lookup_insert_ne by done. rewrite elem_of_cons. naive_solver.
  - intros [Hn Hp]. apply NoDup_cons in Hn as [Hnp Hn]. apply IH. split; [done|].
    intros q Hq. rewrite lookup_insert_ne.
    + apply Hp. by apply list_elem_of_further.
    + intros E. apply Hnp. rewrite E. apply list_elem_of_fmap. eauto.
Qed.

(** Construction panics exactly when two providers share a name; else
    each provider is routed to under its own name and there are no others,
    and the body limit is positive. *)
Theorem NewDispatcher_spec (cfg : DispatcherConfig) :
  match NewDispatcher cfg with
  | Ret d => NoDup (map Name (Providers cfg)) /\ 0 < d_maxBodyBytes d
      /\ forall n p, d_providers d !! n = Some p <-> p ∈ Providers cfg /\ Name p = n
  | Panic _ => ~ NoDup (map Name (Providers cfg))
  end.
Proof.
  unfold NewDispatcher. pose proof (register_all_spec (Providers cfg) ∅) as Hspec.
  destruct (register_all (Providers cfg) ∅) as [m|v]; cbn.
  - destruct Hspec as (Hn & _ & Hm). split; [done|]. split.
    + destruct (MaxBodyBytes cfg <=? 0) eqn:E; bool_to_prop; [vm_compute; done|lia].
    + intros n p. rewrite Hm, lookup_empty. naive_solver.
  - intros Hn. apply Hspec. split; [done|]. intros p _. apply lookup_empty.
Qed.

(** ** Responses *)

(** Two worlds with the same cluster, requests, limiters and clock. *)
Record same_env (w w' : world C L) : Prop := {
  env_cluster : w_cluster w' = w_cluster w;
  env_requests : w_requests w' = w_requests w;
  env_limiters : w_limiters w' = w_limiters w;
  env_clock : w_clock w' = w_clock w
}.

Lemma response_only_env w w' : response_only w w' -> same_env w w'.
Proof. intros []. by constructor. Qed.

Lemma HTTPStatus_range k : 200 <= HTTPStatus k <= 999 /\ body_allowed (HTTPStatus k) = true.
Proof. destruct k; cbn; (split; [lia|done]). Qed.

Definition response_text (ctx : Context) (prov : Provider C L O OL) (res : ExecResult) : string :=
  Encode (BuildResponse prov res (traceIDFromContext ctx) (RequestIDFromContext ctx)).

Definition json_headers (h : header) : header := Header_Set "Content-Type" "application/json" h.

Lemma writeResponse_run d ctx rw prov res w :
  good rw w -> fresh w ->
  exists w', writeResponse d ctx rw prov res w = (Ret tt, w') /\ good rw w' /\ same_env w w'
    /\ answered w' (HTTPStatus (Kind res)) (response_text ctx prov res)
    /\ c_sent (w_conn w') = json_headers (c_header (w_conn w)).
Proof.
  intros Hg [Hs Hb]. destruct (HTTPStatus_range (Kind res)) as [Hrange Hallow]. unfold writeResponse.
  destruct (modify_header_run json_headers w) as (w0 & E0 & Hro0 & Hr0 & Hc0).
  change (SetHeader rw "Content-Type" "application/json") with (modify (set_conn (upd_header json_headers)) : M unit).
  rewrite (bind_run _ _ _ _ _ E0).
  assert (good rw w0) as Hg0 by (apply (good_header rw w); [done|done|by rewrite Hc0]).
  destruct (WriteHeader_good rw w0 (HTTPStatus (Kind res)) Hg0 Hrange)
    as (w1 & E1 & Hg1 & Hro1 & _ & Hs1 & Hsent1 & Hb1).
  rewrite (bind_run _ _ _ _ _ E1). rewrite Hc0 in Hs1, Hsent1, Hb1. cbn in Hs1, Hsent1, Hb1.
  rewrite Hs in Hs1, Hsent1. cbn in Hs1.
  assert (exists w2, (if d_HasMetrics d then inc "JSMResponseTotal" [Itoa (HTTPStatus (Kind res))] else mret tt) w1
    = (Ret tt, w2) /\ same_io w1 w2) as (w2 & E2 & S2).
  { destruct (d_HasMetrics d); eexists; (split; [reflexivity|]); by constructor. }
  rewrite (bind_run _ _ _ _ _ E2).
  assert (good rw w2) as Hg2 by (apply (good_header rw w1); [done|by destruct S2|by rewrite (same_conn _ _ S2)]).
  destruct (Write_good rw w2 (response_text ctx prov res) Hg2) as (n & e & w3 & E3 & Hg3 & Hro3 & _ & Hs3 & Hsent3 & Hb3).
  fold (response_text ctx prov res). rewrite (bind_run _ _ _ _ _ E3).
  rewrite (same_conn _ _ S2), Hs1 in Hs3, Hsent3, Hb3. cbn in Hs3, Hsent3, Hb3.
  assert (exists w4, (match e with Some err => log "WARN" "encode response failed" [("err", ErrorText err)]
    | None => mret tt end) w3 = (Ret tt, w4) /\ same_io w3 w4) as (w4 & E4 & S4).
  { destruct e; eexists; (split; [reflexivity|]); by constructor. }
  exists w4. split; [exact E4|].
  split; [apply (good_header rw w3); [done|by destruct S4|by rewrite (same_conn _ _ S4)]|].
  split; [destruct Hro0, Hro1, S2, Hro3, S4; constructor; congruence|].
  unfold answered. rewrite (same_conn _ _ S4). split; [|congruence]. split; [done|].
  rewrite (ro_broken _ _ Hro3), (same_conn _ _ S2). intros Hbr.
  destruct (Hb3 Hbr Hallow) as [-> _]. by rewrite Hb1, Hb.
Qed.

(** ** The executor's promise *)

(** An executor returns, leaves the HTTP side alone, and does nothing at all
    for a no-op. *)
Class ExecutorSpec (exec : executorIface) : Prop := {
  exec_http ctx a : runs same_http (exec ctx a);
  exec_noop ctx reason w : exec ctx (NoopAction reason) w = (Ret (plainResult ResultNoop reason), w)
}.

Section Serve.
Variable d : Dispatcher.
Hypothesis providers_pure : forall n p, d_providers d !! n = Some p -> PureProvider p.
Context `{!ExecutorSpec (d_executor d)}.

(** How a request is disposed of: the status, the body, the cluster left. *)
Inductive disposed (r : nat) (q : Request) (w : world C L) : Z -> string -> C -> Prop :=
| disposed_unknown :
    d_providers d !! default "" (PathValues q !! "provider") = None ->
    disposed r q w 404 ("unknown provider" +:+ single (chr 10)) (w_cluster w)
| disposed_too_large prov :
    d_providers d !! default "" (PathValues q !! "provider") = Some prov ->
    d_maxBodyBytes d < Z.of_nat (String.length (b_data (ReqBody q))) ->
    disposed r q w 413 ("request body too large" +:+ single (chr 10)) (w_cluster w)
| disposed_unread prov err :
    d_providers d !! default "" (PathValues q !! "provider") = Some prov ->
    Z.of_nat (String.length (b_data (ReqBody q))) <= d_maxBodyBytes d -> b_err (ReqBody q) = Some err ->
    disposed r q w 400 ("read body failed" +:+ single (chr 10)) (w_cluster w)
| disposed_unsigned prov err w1 :
    d_providers d !! default "" (PathValues q !! "provider") = Some prov ->
    Z.of_nat (String.length (b_data (ReqBody q))) <= d_maxBodyBytes d -> b_err (ReqBody q) = None ->
    VerifySignature prov r (b_data (ReqBody q)) w = (Ret (Some err), w1) ->
    disposed r q w 401 ("invalid signature" +:+ single (chr 10)) (w_cluster w)
| disposed_rejected prov err w1 w2 :
    d_providers d !! default "" (PathValues q !! "provider") = Some prov ->
    Z.of_nat (String.length (b_data (ReqBody q))) <= d_maxBodyBytes d -> b_err (ReqBody q) = None ->
    VerifySignature prov r (b_data (ReqBody q)) w = (Ret None, w1) ->
    Handle prov (ReqContext q) (b_data (ReqBody q)) w1 = (Ret (Err err), w2) ->
    disposed r q w (HTTPStatus (Kind (classifyProviderErr err)))
      (response_text (ReqContext q) prov (classifyProviderErr err)) (w_cluster w)
| disposed_executed prov a res w1 w2 w3 :
    d_providers d !! default "" (PathValues q !! "provider") = Some prov ->
    Z.of_nat (String.length (b_data (ReqBody q))) <= d_maxBodyBytes d -> b_err (ReqBody q) = None ->
    VerifySignature prov r (b_data (ReqBody q)) w = (Ret None, w1) ->
    Handle prov (ReqContext q) (b_data (ReqBody q)) w1 = (Ret (Ok a), w2) ->
    d_executor d (ReqContext q) a w2 = (Ret res, w3) ->
    disposed r q w (HTTPStatus (Kind res)) (response_text (ReqContext q) prov res) (w_cluster w3).

(** A run that answered. *)
Definition serves rw (m : M unit) w (P : Z -> string -> C -> Prop) : Prop :=
  exists w' status body, m w = (Ret tt, w') /\ good rw w' /\ answered w' status body
    /\ w_requests w' = w_requests w /\ P status body (w_cluster w').

Lemma serves_error rw w w0 msg code P :
  good rw w -> fresh w -> same_io w w0 -> 200 <= code <= 999 -> body_allowed code = true ->
  P code (msg +:+ single (chr 10)) (w_cluster w) -> serves rw (http_Error rw msg code) w0 P.
Proof.
  intros Hg [Hf1 Hf2] S Hc Hb HP.
  assert (good rw w0) as Hg0 by (apply (good_header rw w); [done|by destruct S|by rewrite (same_conn _ _ S)]).
  assert (fresh w0) as Hf0 by (split; by rewrite (same_conn _ _ S)).
  destruct (http_Error_run rw w0 msg code Hg0 Hf0 Hc Hb) as (w' & E & Hg' & Hro & Ha & _).
  exists w', code, (msg +:+ single (chr 10)). repeat (split; [done|]). split; [by destruct Hro|].
  by rewrite (ro_cluster _ _ Hro), (same_cluster _ _ S).
Qed.

Lemma serves_response rw w w0 ctx prov res P :
  good rw w -> fresh w -> same_http w w0 ->
  P (HTTPStatus (Kind res)) (response_text ctx prov res) (w_cluster w0) ->
  serves rw (writeResponse d ctx rw prov res) w0 P.
Proof.
  intros Hg [Hf1 Hf2] S HP.
  assert (good rw w0) as Hg0 by (apply (good_header rw w); [done|by destruct S|by rewrite (http_conn _ _ S)]).
  assert (fresh w0) as Hf0 by (split; by rewrite (http_conn _ _ S)).
  destruct (writeResponse_run d ctx rw prov res w0 Hg0 Hf0) as (w' & E & Hg' & He & Ha & _).
  exists w', (HTTPStatus (Kind res)), (response_text ctx prov res). repeat (split; [done|]).
  split; [by destruct He|]. by rewrite (env_cluster _ _ He).
Qed.

Lemma serves_bind {A} rw (m : M A) (f : A -> M unit) w w1 a P :
  m w = (Ret a, w1) -> w_requests w1 = w_requests w -> serves rw (f a) w1 P -> serves rw (m ≫= f) w P.
Proof.
  intros E Hr (w' & s & b & Ef & Hg & Ha & Hr' & HP). exists w', s, b.
  split; [by rewrite (bind_run _ _ _ _ _ E)|]. rewrite <- Hr. done.
Qed.

(** The too-large answer, after the connection was told to close. *)
Lemma serves_too_large rw w (b : Body) P :
  good rw w -> fresh w -> d_maxBodyBytes d < Z.of_nat (String.length (b_data b)) ->
  P 413 ("request body too large" +:+ single (chr 10)) (w_cluster w) ->
  exists w1, ReadAll rw b (d_maxBodyBytes d) w = (Ret ReadTooLarge, w1) /\ w_requests w1 = w_requests w
    /\ serves rw (http_Error rw "request body too large" 413) w1 P.
Proof.
  intros Hg Hf Hlt HP. unfold ReadAll. replace (d_maxBodyBytes d <? _) with true by lia.
  destruct rw as [|l inner].
  - destruct (Hf) as [Hs Hb]. erewrite bind_run; [|erewrite bind_run by reflexivity; rewrite Hs; reflexivity].
    eexists. split; [reflexivity|]. split; [done|].
    match goal with |- serves _ _ ?w0 _ =>
      destruct (http_Error_run RWConn w0 "request body too large" 413) as (w' & E & Hg' & Hro & Ha & _);
        [apply good_conn|by split|lia|done|] end.
    exists w', 413, ("request body too large" +:+ single (chr 10)). repeat (split; [done|]).
    split; [by destruct Hro|]. by rewrite (ro_cluster _ _ Hro).
  - erewrite bind_run by reflexivity. eexists. split; [reflexivity|]. split; [done|].
    by apply (serves_error _ w).
Qed.

Lemma ServeHTTP_serves rw r q w :
  w_requests w !! r = Some q -> good rw w -> fresh w ->
  serves rw (ServeHTTP d rw r) w (disposed r q w).
Proof.
  intros Hq Hg Hf. unfold ServeHTTP.
  eapply serves_bind; [unfold deref_request; by rewrite Hq|done|]. cbv beta zeta.
  destruct (d_providers d !! default "" (PathValues q !! "provider")) as [prov|] eqn:Ep.
  2:{ eapply serves_bind; [reflexivity|done|]. apply (serves_error _ w); [done|done|by constructor|lia|done|by constructor]. }
  destruct (decide (d_maxBodyBytes d < Z.of_nat (String.length (b_data (ReqBody q))))) as [Hlt|Hle].
  { destruct (serves_too_large rw w (ReqBody q) (disposed r q w) Hg Hf Hlt) as (w1 & E1 & Hr1 & H1);
      [by econstructor|]. by eapply serves_bind. }
  assert (ReadAll rw (ReqBody q) (d_maxBodyBytes d) w
    = (Ret (match b_err (ReqBody q) with Some e => ReadErr e | None => ReadOk (b_data (ReqBody q)) end), w)) as ER.
  { unfold ReadAll. replace (d_maxBodyBytes d <? _) with false by lia. by destruct (b_err (ReqBody q)). }
  eapply serves_bind; [exact ER|done|]. destruct (b_err (ReqBody q)) as [err|] eqn:Eb.
  { eapply serves_bind; [reflexivity|done|]. apply (serves_error _ w); [done|done|by constructor|lia|done|].
    eapply disposed_unread; [done|lia|done]. }
  pose proof (providers_pure _ _ Ep) as Hpure.
  destruct (VerifySignature_quiet r (b_data (ReqBody q)) w q Hq) as ([err|] & w1 & E1 & S1);
    (eapply serves_bind; [exact E1|by destruct S1|]).
  { apply (serves_error _ w); [done|done|done|lia|done|]. eapply disposed_unsigned; [done|lia|done|done]. }
  destruct (Handle_quiet (ReqContext q) (b_data (ReqBody q)) w1) as ([a|err] & w2 & E2 & S2);
    (eapply serves_bind; [exact E2|by destruct S2|]).
  - destruct (exec_http (ReqContext q) a w2) as (res & w3 & E3 & S3). eapply serves_bind; [exact E3|by destruct S3|].
    apply (serves_response _ w); [done|done|etrans; [|exact S3]; apply same_io_http; by etrans|].
    eapply disposed_executed; [done|lia|done|done|done|done].
  - apply (serves_response _ w); [done|done|apply same_io_http; by etrans|].
    rewrite (same_cluster _ _ S2), (same_cluster _ _ S1).
    eapply disposed_rejected; [done|lia|done|done|done].
Qed.

(** C8: Every request is answered, with one status and one body, and the
    answer and the cluster left behind are those of one of six dispositions:
    unknown provider, body too large, unreadable body, bad signature, rejected
    payload, executed action.  The recorders wrapped around the response
    agree with what was committed, and the requests are untouched. *)
Theorem ServeHTTP_refines rw r q w :
  w_requests w !! r = Some q -> good rw w -> fresh w ->
  exists w' status body, ServeHTTP d rw r w = (Ret tt, w') /\ good rw w'
    /\ answered w' status body /\ w_requests w' = w_requests w
    /\ disposed r q w status body (w_cluster w').
Proof. apply ServeHTTP_serves. Qed.

(** The cluster changes only for an authenticated request: if serving a
    request changed it, the provider accepted the signature of the complete
    body, within the size limit, and asked for an action other than a no-op. *)
Theorem ServeHTTP_cluster_safe rw r q w w' :
  w_requests w !! r = Some q -> good rw w -> fresh w ->
  ServeHTTP d rw r w = (Ret tt, w') -> w_cluster w' <> w_cluster w ->
  exists prov w1 w2 a,
    d_providers d !! default "" (PathValues q !! "provider") = Some prov
    /\ Z.of_nat (String.length (b_data (ReqBody q))) <= d_maxBodyBytes d /\ b_err (ReqBody q) = None
    /\ VerifySignature prov r (b_data (ReqBody q)) w = (Ret None, w1)
    /\ Handle prov (ReqContext q) (b_data (ReqBody q)) w1 = (Ret (Ok a), w2)
    /\ forall reason, a <> NoopAction reason.
Proof.
  intros Hq Hg Hf E Hne. destruct (ServeHTTP_serves rw r q w Hq Hg Hf) as (w'' & st & b & E' & _ & _ & _ & Hd).
  rewrite E in E'. injection E' as <-. pose proof (providers_pure) as Hpure.
  inversion Hd as [| | | | |prov a res w1 w2 w3 Hp Hl Hb HV HH HX Hst Hbody Hcl]; subst; try congruence.
  exists prov, w1, w2, a. repeat (split; [done|]). intros reason ->. rewrite exec_noop in HX.
  injection HX as _ <-. apply Hne. rewrite <- Hcl.
  specialize (Hpure _ _ Hp).
  destruct (VerifySignature_quiet r (b_data (ReqBody q)) w q Hq) as (e1 & x1 & E1 & S1).
  rewrite HV in E1. injection E1 as _ <-.
  destruct (Handle_quiet (ReqContext q) (b_data (ReqBody q)) w1) as (a2 & x2 & E2 & S2).
  rewrite HH in E2. injection E2 as _ <-.
  by rewrite (same_cluster _ _ S2), (same_cluster _ _ S1).
Qed.

End Serve.

End Dispatcher.

(** The executor of [Executor] keeps its promise to the dispatcher. *)
#[export] Instance Execute_spec {C L O OL : Type}
    `{!ClientObject O, !K8sClient C O OL, !ApiErrors, !Tracer} (e : @Executor C L) :
  quiet (exec_clock e) -> ExecutorSpec (Execute (O:=O) (OL:=OL) e).
Proof.
  intros Hc. split; [|done]. intros ctx [reason|act|T].
  - apply runs_ret.
  - intros w. destruct (Execute_executed e ctx act w Hc) as (res & w' & E & S & _). by exists res, w'.
  - apply runs_ret.
Qed.
