(* ===== verification/Mock.v ===== *)
(** * The test double ([internal/webhook/providertest/mock.go])

    A [Provider] driven by closures, used by the dispatcher's tests.  It is a
    second implementation of the interface: [Mock_pure] is its side of the
    contract, [Mock_dispatched] what the dispatcher's theorem says of it. *)

From S2P Require Import Prelude GoStrings Unicode GoTime Result JsonEncode Runtime Recorder Action Executor Dispatcher.

Section Mock.
Context {C L O OL : Type}.
Local Notation M := (M C L).

(** A nil closure is [None]. *)
Record Mock := mkMock {
  NameValue : string;
  VerifyFunc : option (nat -> string -> M (option error));
  HandleFunc : option (Context -> string -> M (result (Action O OL)));
  ResponseFunc : option (ExecResult -> string -> string -> jsonv)
}.

Definition Mock_Name (m : Mock) : string :=
  if String.eqb (NameValue m) "" then "mock" else NameValue m.

Definition Mock_VerifySignature (m : Mock) (r : nat) (body : string) : M (option error) :=
  match VerifyFunc m with
  | None => mret None
  | Some f => f r body
  end.

Definition Mock_Handle (m : Mock) (ctx : Context) (body : string) : M (result (Action O OL)) :=
  match HandleFunc m with
  | None => mret (Ok (NoopAction "mock"))
  | Some f => f ctx body
  end.

(** The default is a map, which encoding/json writes with its keys sorted. *)
Definition Mock_BuildResponse (m : Mock) (res : ExecResult) (traceID requestID : string) : jsonv :=
  match ResponseFunc m with
  | Some f => f res traceID requestID
  | None =>
      VObject [("crName", VString (CRName res)); ("kind", VString (ResultKind_String (Kind res)));
               ("namespace", VString (Namespace res)); ("reason", VString (Reason res));
               ("requestId", VString requestID); ("traceId", VString traceID)]
  end.

(** [var _ webhook.Provider = ( *Mock)(nil)] *)
Definition Mock_provider (m : Mock) : Provider C L O OL :=
  mkProvider C L O OL (Mock_Name m) (Mock_VerifySignature m) (Mock_Handle m) (Mock_BuildResponse m).

(** The closures, where there are any, touch telemetry and the clock only. *)
Definition quiet_closures (m : Mock) : Prop :=
  (forall f, VerifyFunc m = Some f -> forall r body, quiet (f r body))
  /\ forall f, HandleFunc m = Some f -> forall ctx body, quiet (f ctx body).

Lemma Mock_pure m : quiet_closures m -> PureProvider (Mock_provider m).
Proof.
  intros [Hv Hh]. split.
  - intros r body w q _. cbn. unfold Mock_VerifySignature. destruct (VerifyFunc m) as [f|]; [by apply (Hv f)|].
    by exists None, w.
  - intros ctx body. cbn. unfold Mock_Handle. destruct (HandleFunc m) as [f|]; [by apply (Hh f)|apply runs_ret].
Qed.

Context `{UnicodeTables}.

(** The zero [Mock]. *)
Definition zero_Mock : Mock := mkMock "" None None None.

(** Through the dispatcher the zero value accepts every readable body within
    the limit, changes nothing, and answers 200 with the no-op's fields. *)
Theorem Mock_dispatched (exec : executorIface) `{!ExecutorSpec exec} metrics maxBody r q (w : world C L) :
  let d := mkDispatcher {[ "mock" := Mock_provider zero_Mock ]} exec metrics maxBody in
  w_requests w !! r = Some q -> fresh w -> PathValues q !! "provider" = Some "mock" ->
  Z.of_nat (String.length (b_data (ReqBody q))) <= maxBody -> b_err (ReqBody q) = None ->
  exists w', ServeHTTP d RWConn r w = (Ret tt, w') /\ w_cluster w' = w_cluster w
    /\ answered w' 200 (response_text (ReqContext q) (Mock_provider zero_Mock) (plainResult ResultNoop "mock")).
Proof.
  intros d Hq Hf Hp Hl He.
  assert (forall n p, d_providers d !! n = Some p -> PureProvider p) as Hpure.
  { cbn. intros n p [<- <-]%lookup_singleton_Some. by apply Mock_pure. }
  destruct (ServeHTTP_serves d Hpure RWConn r q w Hq (good_conn w) Hf) as (w' & st & b & E & _ & Ha & _ & Hd).
  assert (d_providers d !! default "" (PathValues q !! "provider") = Some (Mock_provider zero_Mock)) as Hprov.
  { rewrite Hp. cbn. apply lookup_singleton_eq. }
  exists w'. split; [done|].
  inversion Hd as [Hn|prov Hn Hbig|prov err Hn _ Herr|prov err w1 Hn _ _ HV|prov err w1 w2 Hn _ _ HV HH
    |prov a res w1 w2 w3 Hn _ _ HV HH HX Hst Hb Hcl]; try congruence; rewrite Hprov in Hn; simplify_eq.
  - cbn in Hbig. lia.
  - injection HV as <-. injection HH as <- <-. change (d_executor d) with exec in HX.
    rewrite (exec_noop (exec:=exec)) in HX. by injection HX as <- <-.
Qed.

End Mock.
