(* ===== verification/System.v ===== *)
(** * webhookd end to end, for JSM

    The dispatcher over the JSM provider and the executor: what a request can
    do to the cluster, and what a success response means.  The clients'
    theorems are proved against the interfaces [PureProvider] and
    [ExecutorSpec]; here the implementations are plugged in. *)

From S2P Require Import Prelude GoStrings Unicode GoTime Sha256 Signature Json JsonEncode Result.
From S2P Require Import Runtime Recorder Action WizApi JsmPayload JsmProvider Executor Dispatcher.

Section System.
Context {C L : Type} `{UnicodeTables, !K8sClient C object object_list, !ApiErrors, !Tracer}.
Variables (cfg : @Jsm.Config C L) (e : @Executor C L) (metrics : bool) (maxBody : Z).
Hypothesis clock_cfg : forall f, Jsm.Now (Jsm.cfg_Signature cfg) = Some f -> quiet f.
Hypothesis clock_exec : quiet (exec_clock e).

(** The dispatcher [buildDispatcher] makes when JSM is the one provider. *)
Definition jsm_dispatcher : @Dispatcher C L object object_list :=
  mkDispatcher {[ "jsm" := Jsm.provider cfg ]} (Execute e) metrics maxBody.

Lemma jsm_providers_pure n p : d_providers jsm_dispatcher !! n = Some p -> PureProvider p.
Proof. cbn. intros [<- <-]%lookup_singleton_Some. by apply Jsm.provider_pure. Qed.

(** The signature headers of a request, against a body at an instant. *)
Definition signed (q : Request) (body : string) (t : Time) : Prop :=
  let s := Jsm.cfg_Signature cfg in
  Verify (Jsm.SecretBytes s) (Header_Get (Header q) (Jsm.SigHeader s))
         (Header_Get (Header q) (Jsm.TSHeader s)) body t (Jsm.Skew s) = None.

Lemma jsm_verified r body w w1 q :
  w_requests w !! r = Some q ->
  Action.VerifySignature (Jsm.provider cfg) r body w = (Ret None, w1) ->
  same_io w w1 /\ exists t, Jsm.sig_clock (Jsm.cfg_Signature cfg) w = (Ret t, w1) /\ signed q body t.
Proof.
  intros Hq HV. destruct (Jsm.VerifySignature_run _ r body w q Hq clock_cfg) as (t & w' & Et & E & S).
  cbn in HV. rewrite E in HV. injection HV as HV ->. split; [done|]. by exists t.
Qed.

(** The body is a ticket in the trigger status, whose configured fields are
    [g], [role] and [project]. *)
Definition approved (body : string) (payload : Payload) (g role project : string) : Prop :=
  Decode body = Ok payload /\ Payload_Status payload = Jsm.TriggerStatus cfg
  /\ ExtractString payload (Jsm.FieldProviderGroupID cfg) = Ok g
  /\ ExtractString payload (Jsm.FieldRole cfg) = Ok role
  /\ ExtractString payload (Jsm.FieldProject cfg) = Ok project.

(** What [Handle] can ask for. *)
Lemma jsm_asked ctx body w a w2 :
  Action.Handle (Jsm.provider cfg) ctx body w = (Ret (Ok a), w2) ->
  (exists reason payload, a = NoopAction reason /\ Decode body = Ok payload
     /\ Payload_Status payload <> Jsm.TriggerStatus cfg)
  \/ exists payload g role project, approved body payload g role project
      /\ a = Apply (Jsm.applyAction cfg payload g role project).
Proof.
  cbn. rewrite Jsm.Handle_run. destruct (Decode body) as [payload|] eqn:Ed; [|done].
  destruct (String.eqb_spec (Payload_Status payload) (Jsm.TriggerStatus cfg)) as [Ht|].
  - repeat case_match; try done. intros [= <- _]. right. unfold approved. eauto 12.
  - intros [= <- _]. left. eauto.
Qed.

(** A request the provider lets through: routed to JSM, of an acceptable
    size, and signed at the instant the clock gives in [w]. *)
Definition authentic (q : Request) (w : world C L) : Prop :=
  PathValues q !! "provider" = Some "jsm"
  /\ Z.of_nat (String.length (b_data (ReqBody q))) <= maxBody /\ b_err (ReqBody q) = None
  /\ exists t w1, Jsm.sig_clock (Jsm.cfg_Signature cfg) w = (Ret t, w1) /\ signed q (b_data (ReqBody q)) t.

(** What serving a request amounts to: the cluster is untouched, a 200 is for
    an authentic ticket in another status and there is no 504; or an authentic, approved
    ticket's action is executed on the cluster. *)
Inductive served (q : Request) (w w' : world C L) : Prop :=
| served_aside status :
    w_cluster w' = w_cluster w -> c_status (w_conn w') = Some status -> status <> 504 ->
    (status = 200 -> authentic q w /\ exists payload,
       Decode (b_data (ReqBody q)) = Ok payload /\ Payload_Status payload <> Jsm.TriggerStatus cfg) ->
    served q w w'
| served_executed payload g role project res :
    authentic q w -> approved (b_data (ReqBody q)) payload g role project ->
    executed e (ReqContext q) (Jsm.applyAction cfg payload g role project) (w_cluster w) res (w_cluster w') ->
    c_status (w_conn w') = Some (HTTPStatus (Kind res)) ->
    served q w w'.

Lemma classifyProviderErr_status err :
  HTTPStatus (Kind (classifyProviderErr err)) <> 200 /\ HTTPStatus (Kind (classifyProviderErr err)) <> 504.
Proof. unfold classifyProviderErr. by repeat case_match. Qed.

Lemma jsm_served rw r q w w' :
  w_requests w !! r = Some q -> good rw w -> fresh w ->
  ServeHTTP jsm_dispatcher rw r w = (Ret tt, w') -> served q w w'.
Proof.
  intros Hq Hg Hf E.
  pose proof (Execute_spec (O:=object) (OL:=object_list) e clock_exec) as Hspec.
  destruct (ServeHTTP_serves jsm_dispatcher jsm_providers_pure rw r q w Hq Hg Hf)
    as (w'' & st & b & E' & _ & [Hst _] & _ & Hd).
  rewrite E in E'. injection E' as <-.
  inversion Hd as [Hp Hs Hb Hc|prov Hp Hl Hs Hb Hc|prov err Hp Hl He Hs Hb Hc|prov err w1 Hp Hl He HV Hs Hb Hc
    |prov err w1 w2 Hp Hl He HV HH Hs Hb Hc|prov a res w1 w2 w3 Hp Hl He HV HH HX Hs Hb Hc]; clear Hd.
  1-4: eapply served_aside; [done|exact Hst|by rewrite <- Hs|by rewrite <- Hs].
  { destruct (classifyProviderErr_status err). eapply served_aside; [done|exact Hst|by rewrite <- Hs|by rewrite <- Hs]. }
  pose proof Hp as Hname. cbn in Hname. apply lookup_singleton_Some in Hname as [Hname <-].
  destruct (jsm_verified r _ w w1 q Hq HV) as [S1 (t & Et & Ht)].
  assert (authentic q w) as Hauth.
  { destruct (PathValues q !! "provider") as [n|] eqn:En; [|done]. cbn in Hname. subst n.
    unfold authentic. rewrite En. eauto 10. }
  pose proof (jsm_providers_pure _ _ Hp) as Hpure.
  destruct (Handle_quiet (ReqContext q) (b_data (ReqBody q)) w1) as (a2 & x2 & E2 & S2).
  rewrite HH in E2. injection E2 as _ <-.
  assert (w_cluster w2 = w_cluster w) as Hcl by (by rewrite (same_cluster _ _ S2), (same_cluster _ _ S1)).
  destruct (jsm_asked _ _ _ _ _ HH) as [(reason & payload & -> & Hdec & Hne)|(payload & g & role & pj & Happ & ->)].
  - injection HX as <- <-. eapply served_aside; [congruence|exact Hst|by rewrite <- Hs|eauto].
  - destruct (Execute_executed e (ReqContext q) (Jsm.applyAction cfg payload g role pj) w2 clock_exec)
      as (res' & w3' & HX' & _ & Hex).
    cbn [d_executor jsm_dispatcher] in HX. rewrite HX in HX'. injection HX' as <- <-. rewrite Hcl, Hc in Hex.
    eapply served_executed; [done|done|exact Hex|congruence].
Qed.

(** An execution answered 200 rests on a resource the provider's check
    accepted. *)
Lemma executed_success `{!TracerLaws} ctx payload g role project c res c' :
  executed e ctx (Jsm.applyAction cfg payload g role project) c res c' -> HTTPStatus (Kind res) = 200 ->
  exists applied cr,
    ready_for e ctx (Jsm.applyAction cfg payload g role project) c
      applied (ObjSAMLGroupMapping cr) (st_ObservedGeneration (sgm_Status cr))
    /\ GetGeneration applied <= st_ObservedGeneration (sgm_Status cr)
    /\ exists c, c ∈ Conditions (sgm_Status cr) /\ c_Type c = "Ready" /\ c_Status c = "True".
Proof.
  intros Hx Hs. destruct (executed_result _ _ _ _ _ _ Hx) as [Hk Hready].
  assert (Kind res = ResultReady) as Hr
    by (set_unfold in Hk; destruct (Kind res); cbn in Hs; first [done|lia|naive_solver]).
  destruct (Hready Hr) as (applied & obj & Hf & _ & _). pose proof Hf as Hf'.
  destruct Hf' as (? & ? & ? & ? & ? & _ & _ & _ & _ & Hck).
  apply Jsm.IsReady_true in Hck as (cr & -> & Hobs & Hle & Hc).
  rewrite Hobs in Hf, Hle. by exists applied, cr.
Qed.

End System.

(** ** A concrete run

    A signed ticket through the whole path, on the one-object cluster of
    [ExecutorSample]. *)

Module SystemSample.
Import ExecutorSample.

#[local] Instance tables0 : UnicodeTables := plain_tables.

Definition body0 : string :=
  Encode (jsm_body "SEC-1" "Approved" [("cf_group", "team-a"); ("cf_role", "reader"); ("cf_project", " p1 ")]).

Definition cfg0 : @Jsm.Config cluster unit :=
  Jsm.mkConfig "Approved" "cf_group" "cf_role" "cf_project" "idp-1" "wiz"
    (Jsm.mkSignatureConfig "topsecret" "X-Webhook-Signature" "X-Webhook-Timestamp" (5 * Minute) None) true.

Definition request0 (sig : string) : Request :=
  mkRequest "POST" "/webhook/jsm" true (mkURL "/webhook/jsm" "/webhook/jsm" "") "POST /webhook/{provider}" {[ "provider" := "jsm" ]}
    {[ "X-Webhook-Signature" := [sig]; "X-Webhook-Timestamp" := ["1700000000"] ]}
    (Z.of_nat (String.length body0)) (mkBody body0 None) ctx0.

Definition good_request : Request := request0 (sign "topsecret" "1700000000" body0).

Definition w0 : world cluster unit := start_world None (fun n => T0 + Z.of_nat n) [good_request].

Definition d0 : @Dispatcher cluster unit object object_list := jsm_dispatcher cfg0 executor0 true 1048576.

Definition run0 : outcome unit * world cluster unit := ServeHTTP d0 RWConn 0 w0.

Lemma run0_returns : ServeHTTP d0 RWConn 0 w0 = (Ret tt, run0.2).
Proof. change (run0 = (Ret tt, run0.2)). rewrite (surjective_pairing run0) at 1. f_equal. Qed.

Lemma clock_cfg0 : forall f, Jsm.Now (Jsm.cfg_Signature cfg0) = Some f -> quiet f.
Proof. intros f [=]. Qed.

(** The response and the object left in the cluster. *)
Example run0_response :
  (c_status (w_conn run0.2), c_body (w_conn run0.2), GetName <$> w_cluster run0.2)
  = (Some 200,
     squote "{'status':'success','crName':'jsm-sec-1','namespace':'wiz','observedGeneration':1,'traceId':'trace-1','requestId':'req-1'}"
       +:+ single (chr 10),
     Some "jsm-sec-1").
Proof. vm_compute. reflexivity. Qed.

Lemma run0_changed : w_cluster run0.2 <> w_cluster w0.
Proof. vm_compute. discriminate. Qed.

Lemma good0 : good RWConn w0.
Proof. apply good_conn. Qed.

Lemma fresh0 : fresh w0.
Proof. split; reflexivity. Qed.

Lemma pure0 : forall n p, d_providers d0 !! n = Some p -> PureProvider p.
Proof. apply jsm_providers_pure, clock_cfg0. Qed.

#[local] Instance spec0 : ExecutorSpec (d_executor d0).
Proof. apply Execute_spec, clock0_quiet. Qed.

Lemma ServeHTTP_refines_witness :
  exists w' status body, ServeHTTP d0 RWConn 0 w0 = (Ret tt, w')
    /\ disposed d0 0 good_request w0 status body (w_cluster w').
Proof.
  destruct (ServeHTTP_refines d0 pure0 RWConn 0 good_request w0 eq_refl good0 fresh0)
    as (w' & st & b & E & _ & _ & _ & H).
  exists w', st, b. split; [exact E|exact H].
Defined.

Lemma ServeHTTP_cluster_safe_witness :
  exists (prov : Provider cluster unit object object_list) w1 w2 a, Action.VerifySignature prov 0 body0 w0 = (Ret None, w1)
    /\ Action.Handle prov ctx0 body0 w1 = (Ret (Ok a), w2) /\ forall reason, a <> NoopAction reason.
Proof.
  destruct (ServeHTTP_cluster_safe d0 pure0 RWConn 0 good_request w0 run0.2 eq_refl good0 fresh0
              run0_returns run0_changed) as (prov & w1 & w2 & a & _ & _ & _ & HV & HH & Hn).
  exists prov, w1, w2, a. split; [exact HV|]. split; [exact HH|exact Hn].
Defined.

End SystemSample.
