(* ===== verification/Httpx.v ===== *)
(** * HTTP middlewares ([internal/httpx/middleware.go], [ratelimit.go], [admin.go])

    A middleware is a function on handlers.  A handler may panic; [defer] and
    [recover] run on the panicking path too, and nothing is rolled back.
    [r.WithContext] makes a copy of the request, so what the mux later writes
    into the copy is not seen through the original.  [golang.org/x/time/rate],
    [google/uuid] and [otelhttp] are parameters. *)

From Stdlib Require Import Ascii.
From S2P Require Import Prelude GoStrings Unicode GoTime Result JsonEncode Runtime Recorder Action Executor.

(** ** Third parties *)

(** [uuid.NewV7] (or [uuid.New] when it fails), as the n-th id drawn. *)
Class UUID := { uuid_String : nat -> string }.
Class UUIDLaws `{!UUID} : Prop := { uuid_nonempty n : uuid_String n <> "" }.

(** [rate.Limiter]; [F] is the type of [rate.Limit].  Each call takes the
    instant it is made at.  [Delay] is of a reservation; [Cancel] of one acts
    on the limiter it was made of. *)
Class RateLimiter (L F : Type) := {
  Reservation : Type;
  rate_NewLimiter : F -> Z -> L;
  limiter_Allow : L -> Z -> bool * L;
  limiter_Reserve : L -> Z -> Reservation * L;
  reservation_Delay : Reservation -> Z -> Z;
  reservation_Cancel : Reservation -> L -> Z -> L
}.

(** ** Panics *)

Section Panics.
Context {C L : Type}.

(** [defer d()] around [m]: [d] runs whether [m] returns or panics. *)
Definition defer {A} (d : M C L unit) (m : M C L A) : M C L A := fun w =>
  let '(o, w) := m w in
  match d w with
  | (Ret _, w) => (o, w)
  | (Panic v, w) => (Panic v, w)
  end.

(** [defer func() { if v := recover(); v != nil { h(v) } }()] around [m]. *)
Definition recovering (h : string -> M C L unit) (m : M C L unit) : M C L unit := fun w =>
  match m w with
  | (Panic v, w) => h v w
  | r => r
  end.

End Panics.

(** ** Pure parts *)

Definition requestIDHeader : string := "X-Request-ID".
Definition webhookPathPrefix : string := "/webhook/".

Definition routeOf (r : Request) : string :=
  if negb (String.eqb (Pattern r) "") then Pattern r else "__unmatched__".

(** The bytes before the first slash ([rest[:i]]), all of them when there is
    none. *)
Definition providerFromPath (p : string) : string :=
  match CutPrefix p webhookPathPrefix with
  | None => ""
  | Some rest =>
      if String.eqb rest "" then ""
      else match before_byte "/" rest with Some s => s | None => rest end
  end.

(** The rounding of [retryAfter] on a delay: [int] division and remainder
    truncate. *)
Definition retrySeconds (d : Z) : Z :=
  if d <=? 0 then 1
  else
    let secs := Z.quot d Second in
    let secs := if 0 <? Z.rem d Second then secs + 1 else secs in
    if secs <? 1 then 1 else secs.

(** [Chain(h, mws...)]: the loop from the last middleware to the first. *)
Definition Chain {H : Type} (h : H) (mws : list (H -> H)) : H :=
  foldl (fun h mw => mw h) h (rev mws).

Section Middleware.
Context {C L F : Type} `{!UUID, !RateLimiter L F}.
Local Notation M := (M C L).
Local Notation Handler := (Handler C L).

(** [r.WithContext(ctx)]: a shallow copy at a new address. *)
Definition WithContext (r : nat) (f : Context -> Context) : M nat :=
  q ← deref_request r;
  l ← get (fun w => length (w_requests w));
  modify (set_requests (fun qs => qs ++
    [mkRequest (Method q) (RequestURI q) (ProtoAtLeast11 q) (URL q) (Pattern q) (PathValues q) (Header q) (ContentLength q)
       (ReqBody q) (f (ReqContext q))])) ;;
  mret l.

(** The record carries the stack as well, a text the runtime makes up. *)
Definition Recover (next : Handler) : Handler := fun w r =>
  recovering (fun v =>
    inc "HTTPPanics" [] ;;
    q ← deref_request r;
    log "ERROR" "http handler panic" [("panic", v); ("method", Method q); ("route", routeOf q)] ;;
    WriteHeader w 500) (next w r).

(** Each request gets a copy, so the number of requests made so far numbers
    the identifiers drawn. *)
Definition RequestID (next : Handler) : Handler := fun w r =>
  q ← deref_request r;
  n ← get (fun w => length (w_requests w));
  let id := Header_Get (Header q) requestIDHeader in
  let id := if String.eqb id "" then uuid_String n else id in
  SetHeader w requestIDHeader id ;;
  r ← WithContext r (fun ctx => mkContext (Some id) (ctx_span ctx) (ctx_done ctx));
  next w r.

Definition status_of (w : ResponseWriter) : M statusRecorder :=
  match w with
  | RWRecorder l _ => deref_recorder l
  | RWConn => panic "not a recorder"
  end.

Definition SLog (next : Handler) : Handler := fun w r =>
  start ← clock_read;
  rec ← newStatusRecorder w;
  next rec r ;;
  q ← deref_request r;
  s ← status_of rec;
  now ← clock_read;
  log "INFO" "http request"
    [("method", Method q); ("route", routeOf q); ("status", Itoa (rec_status s));
     ("bytes_in", Itoa (ContentLength q)); ("bytes_out", Itoa (rec_bytes s));
     ("duration_ms", Itoa (Z.quot (now - start) 1000000));
     ("request_id", RequestIDFromContext (ReqContext q))].

Definition Metrics (next : Handler) : Handler := fun w r =>
  add_counter "HTTPInflight" [] 1 ;;
  defer (add_counter "HTTPInflight" [] (-1))
    (start ← clock_read;
     rec ← newStatusRecorder w;
     next rec r ;;
     q ← deref_request r;
     s ← status_of rec;
     let method := Method q in
     let route := routeOf q in
     let status := Itoa (rec_status s) in
     inc "HTTPRequests" [method; route; status] ;;
     now ← clock_read;
     observe "HTTPDuration" [method; route; status] (now - start) ;;
     (if 0 <? ContentLength q then observe "HTTPRequestSize" [method; route] (ContentLength q) else mret tt) ;;
     observe "HTTPResponseSize" [method; route] (rec_bytes s)).

(** *** RateLimit *)

Record RateLimitConfig := mkRateLimitConfig { RPS : F; Burst : Z }.

(** [getLimiter(provider)]: load, or store a fresh one and load. *)
Definition getLimiter (cfg : RateLimitConfig) (provider : string) : M L :=
  m ← get w_limiters;
  match m !! provider with
  | Some lim => mret lim
  | None =>
      let newLim := rate_NewLimiter (RPS cfg) (Burst cfg) in
      modify (set_limiters (fun m => <[provider := newLim]> m)) ;;
      mret newLim
  end.

(** The limiter is shared through its pointer: a call updates the map's. *)
Definition putLimiter (provider : string) (lim : L) : M unit :=
  modify (set_limiters (fun m => <[provider := lim]> m)).

Definition retryAfter (provider : string) (lim : L) : M Z :=
  now ← clock_read;
  let '(r, lim) := limiter_Reserve lim now in
  putLimiter provider lim ;;
  now ← clock_read;
  let d := reservation_Delay r now in
  now ← clock_read;
  putLimiter provider (reservation_Cancel r lim now) ;;
  mret (retrySeconds d).

Definition RateLimit (cfg : RateLimitConfig) (next : Handler) : Handler := fun w r =>
  q ← deref_request r;
  let provider := providerFromPath (URL_Path q) in
  if String.eqb provider "" then next w r
  else
    lim ← getLimiter cfg provider;
    now ← clock_read;
    let '(ok, lim) := limiter_Allow lim now in
    putLimiter provider lim ;;
    if ok then next w r
    else
      inc_values "HTTPRateLimited" [provider] ;;
      retry ← retryAfter provider lim;
      SetHeader w "Retry-After" (Itoa retry) ;;
      WriteHeader w 429.

(** *** The probes of the admin mux *)

Definition writeBody (w : ResponseWriter) (body : string) : M unit :=
  Write w body ;; mret tt.

Definition healthz : Handler := fun w _ =>
  WriteHeader w 200 ;; writeBody w "ok".

(** [ready] is the shared [atomic.Bool] as loaded. *)
Definition readyz (ready : bool) : Handler := fun w _ =>
  if negb ready then
    WriteHeader w 503 ;; writeBody w "not ready"
  else
    WriteHeader w 200 ;; writeBody w "ready".

End Middleware.

(** ** Pure parts: laws *)

Lemma retrySeconds_pos (d : Z) : 1 <= retrySeconds d.
Proof.
  unfold retrySeconds. destruct (d <=? 0); [lia|]. cbv zeta.
  destruct (0 <? Z.rem d Second); case_match; bool_to_prop; lia.
Qed.

(** The Retry-After value is the delay rounded up to whole seconds, at
    least one: a client that waits that long is not early, and waits less
    than a second more than the limiter asks. *)
Theorem retrySeconds_spec (d : Z) :
  1 <= retrySeconds d /\ d <= retrySeconds d * Second
  /\ (0 < d -> (retrySeconds d - 1) * Second < d).
Proof.
  unfold retrySeconds. destruct (d <=? 0) eqn:E0; bool_to_prop; [unfold Second; lia|].
  pose proof (Z.quot_rem' d Second) as Hq. pose proof (Z.rem_bound_pos d Second ltac:(lia) ltac:(unfold Second; lia)).
  assert (0 <= Z.quot d Second) by (apply Z.quot_pos; unfold Second; lia).
  destruct (0 <? Z.rem d Second) eqn:E1; bool_to_prop; case_match; bool_to_prop; unfold Second in *; lia.
Qed.

(** The limiter key of a path is the segment after /webhook/: it is
    [seg], non-empty, exactly when the path is /webhook/ followed by [seg],
    without a slash in it, and then nothing or a slash and a tail. *)
Theorem providerFromPath_spec (p seg : string) :
  seg <> "" ->
  (providerFromPath p = seg
   <-> ~ sIn "/" seg /\ (p = "/webhook/" +:+ seg \/ exists tail, p = "/webhook/" +:+ seg +:+ String "/" tail)).
Proof.
  intros Hne. unfold providerFromPath, webhookPathPrefix.
  destruct (CutPrefix p "/webhook/") as [rest|] eqn:E.
  - apply CutPrefix_Some in E as ->. pose proof (before_byte_spec "/" rest) as Hb.
    destruct (String.eqb_spec rest "") as [->|Hr].
    { split; [congruence|]. intros [_ [H|[tail H]]]; apply append_inj_l in H; [congruence|].
      by destruct seg. }
    destruct (before_byte "/" rest) as [a|].
    + destruct Hb as (b & -> & Ha). split.
      * intros <-. split; [done|]. right. by exists b.
      * intros [Hs [H|[tail H]]]; apply append_inj_l in H.
        -- destruct Hs. rewrite <- H. clear. induction a as [|x a IH]; [by left|by right].
        -- by apply split_at_unique in H as [-> _].
    + split.
      * intros <-. split; [done|]. by left.
      * intros [Hs [H|[tail H]]]; apply append_inj_l in H; [done|].
        destruct Hb. rewrite H. clear. induction seg as [|x a IH]; [by left|by right].
  - split; [congruence|]. intros [_ Hp]. exfalso. revert E.
    destruct Hp as [->|[tail ->]]; done.
Qed.

Lemma providerFromPath_spec_witness :
  providerFromPath "/webhook/jsm/extra" = "jsm" /\ providerFromPath "/healthz" <> "jsm".
Proof.
  split.
  - apply (providerFromPath_spec "/webhook/jsm/extra" "jsm"); [discriminate|].
    split; [cbn; intuition discriminate|right; exists "extra"; reflexivity].
  - discriminate.
Defined.

(** The first middleware is the outermost. *)
Lemma Chain_cons {H : Type} (h : H) (mw : H -> H) (mws : list (H -> H)) :
  Chain h (mw :: mws) = mw (Chain h mws).
Proof. unfold Chain. cbn [rev]. by rewrite foldl_app. Qed.

(** ** Middlewares: laws *)

Section Laws.
Context {C L F : Type} `{!UUID, !RateLimiter L F}.
Local Notation M := (M C L).
Local Notation Handler := (Handler C L).
Implicit Types (w : world C L) (next : Handler).

Definition counter (w : world C L) (name : string) (labels : list string) : Z :=
  default 0 (w_counters w !! (name, labels)).

Lemma counter_add name labels d w :
  exists w', add_counter name labels d w = (Ret tt, w') /\ same_io w w'
    /\ counter w' name labels = counter w name labels + d
    /\ forall n l, (n, l) <> (name, labels) -> counter w' n l = counter w n l.
Proof.
  eexists. split; [reflexivity|]. split; [by constructor|]. split.
  - unfold counter. cbn. by rewrite lookup_insert_eq.
  - intros n l Hne. unfold counter. cbn. by rewrite lookup_insert_ne by done.
Qed.

(** A panic never escapes [Recover].  When the inner handler returns,
    nothing is added; when it panics, the panic is counted, and the client
    gets a 500 unless a status was already committed, which then stands. *)
Theorem Recover_contains next r w :
  (forall v w1, next RWConn r w = (Panic v, w1) -> is_Some (w_requests w1 !! r)) ->
  match next RWConn r w with
  | (Ret _, w1) => Recover next RWConn r w = (Ret tt, w1)
  | (Panic _, w1) => exists w2, Recover next RWConn r w = (Ret tt, w2)
      /\ c_status (w_conn w2) = Some (default 500 (c_status (w_conn w1)))
      /\ c_body (w_conn w2) = c_body (w_conn w1)
      /\ counter w2 "HTTPPanics" [] = counter w1 "HTTPPanics" [] + 1
      /\ w_cluster w2 = w_cluster w1
  end.
Proof.
  intros Hreq. unfold Recover, recovering.
  destruct (next RWConn r w) as [[[]|v] w1] eqn:E; [done|]. destruct (Hreq v w1 eq_refl) as [q Hq].
  destruct (counter_add "HTTPPanics" [] 1 w1) as (w2 & E2 & S2 & Hc & _).
  unfold inc. rewrite (bind_run _ _ _ _ _ E2).
  erewrite (bind_run (deref_request r)) by (unfold deref_request; rewrite (same_requests _ _ S2), Hq; reflexivity).
  erewrite bind_run by reflexivity.
  match goal with |- context [WriteHeader RWConn 500 ?w0] =>
    destruct (conn_WriteHeader_run w0 500 ltac:(lia)) as (w3 & E3 & Hro & Hs & _ & Hb & _);
    cbn [WriteHeader]; rewrite E3 end.
  exists w3. split; [done|]. cbn in Hs, Hb. rewrite (same_conn _ _ S2) in Hs, Hb.
  split; [done|]. split; [done|]. split.
  - unfold counter in *. rewrite (ro_counters _ _ Hro). exact Hc.
  - rewrite (ro_cluster _ _ Hro). cbn. by rewrite (same_cluster _ _ S2).
Qed.

Lemma Header_Set_get k v h : Header_Get (Header_Set k v h) k = v.
Proof. unfold Header_Get, Header_Set. by rewrite lookup_insert_eq. Qed.

(** The identifier [RequestID] settles on. *)
Definition request_id w (q : Request) : string :=
  let hdr := Header_Get (Header q) requestIDHeader in
  if String.eqb hdr "" then uuid_String (length (w_requests w)) else hdr.

(** The copy of the request it passes on. *)
Definition identified w (q : Request) : Request :=
  mkRequest (Method q) (RequestURI q) (ProtoAtLeast11 q) (URL q) (Pattern q) (PathValues q) (Header q)
    (ContentLength q) (ReqBody q)
    (mkContext (Some (request_id w q)) (ctx_span (ReqContext q)) (ctx_done (ReqContext q))).

Lemma RequestID_run next rw r w q :
  w_requests w !! r = Some q ->
  exists w1, RequestID next rw r w = next rw (length (w_requests w)) w1
    /\ w_requests w1 = w_requests w ++ [identified w q]
    /\ w_conn w1 = upd_header (Header_Set requestIDHeader (request_id w q)) (w_conn w)
    /\ w_recorders w1 = w_recorders w /\ w_cluster w1 = w_cluster w /\ w_clock w1 = w_clock w.
Proof.
  intros Hq. unfold RequestID.
  erewrite (bind_run (deref_request r)) by (unfold deref_request; rewrite Hq; reflexivity).
  erewrite bind_run by reflexivity. cbv zeta. unfold SetHeader. erewrite bind_run by reflexivity.
  unfold WithContext. erewrite bind_run.
  2:{ erewrite bind_run by (unfold deref_request; cbn; rewrite Hq; reflexivity).
      erewrite bind_run by reflexivity. erewrite bind_run by reflexivity. reflexivity. }
  eexists. by split.
Qed.

(** [RequestID] gives every request a non-empty identifier: the client's
    own when it sent one, a fresh one else.  The inner handler runs once, on a
    copy of the request whose context carries it; the response carries it in
    X-Request-ID; the original request is unchanged. *)
Theorem RequestID_stamps `{!UUIDLaws} next rw r w q :
  w_requests w !! r = Some q ->
  exists id q' w1, RequestID next rw r w = next rw (length (w_requests w)) w1
    /\ id <> ""
    /\ (Header_Get (Header q) "X-Request-ID" <> "" -> id = Header_Get (Header q) "X-Request-ID")
    /\ w_requests w1 = w_requests w ++ [q']
    /\ ctx_request_id (ReqContext q') = Some id /\ ctx_span (ReqContext q') = ctx_span (ReqContext q)
    /\ ReqBody q' = ReqBody q /\ Header q' = Header q /\ URL_Path q' = URL_Path q
    /\ Header_Get (c_header (w_conn w1)) "X-Request-ID" = id
    /\ w_cluster w1 = w_cluster w /\ c_status (w_conn w1) = c_status (w_conn w).
Proof.
  intros Hq. destruct (RequestID_run next rw r w q Hq) as (w1 & E & Hr & Hc & _ & Hcl & _).
  exists (request_id w q), (identified w q), w1. split; [done|].
  assert (forall h, (Header_Get (Header q) "X-Request-ID" = h) -> request_id w q
    = if String.eqb h "" then uuid_String (length (w_requests w)) else h) as Hid by (by intros ? <-).
  specialize (Hid _ eq_refl). destruct (String.eqb_spec (Header_Get (Header q) "X-Request-ID") "") as [Hh|Hh].
  - split; [rewrite Hid; apply uuid_nonempty|]. split; [by intros ?|]. repeat (split; [done|]). rewrite Hc.
    split; [apply Header_Set_get|done].
  - split; [by rewrite Hid|]. split; [done|]. repeat (split; [done|]). rewrite Hc.
    split; [apply Header_Set_get|done].
Qed.

(** The requests are still there, with their methods. *)
Definition keeps_requests w w' : Prop :=
  forall l q, w_requests w !! l = Some q -> exists q', w_requests w' !! l = Some q' /\ Method q' = Method q.

#[export] Instance keeps_requests_preorder : PreOrder keeps_requests.
Proof.
  split; [intros w l q Hq; by exists q|]. intros w1 w2 w3 H12 H23 l q Hq.
  destruct (H12 l q Hq) as (q2 & Hq2 & Hm2). destruct (H23 l q2 Hq2) as (q3 & Hq3 & Hm3).
  exists q3. split; [done|congruence].
Qed.

Lemma keeps_eq w w' : w_requests w' = w_requests w -> keeps_requests w w'.
Proof. intros E l q Hq. exists q. by rewrite E. Qed.

(** What a handler owes the middlewares around it: on a fresh response it
    returns, keeps the writer's invariant and the requests, and does what [P]
    says. *)
Definition handles (P : Request -> world C L -> world C L -> Prop) next : Prop :=
  forall rw r w q, w_requests w !! r = Some q -> good rw w -> fresh w ->
    exists w', next rw r w = (Ret tt, w') /\ good rw w' /\ keeps_requests w w' /\ P q w w'.

Definition well_behaved next : Prop := handles (fun _ _ _ => True) next.

(** The recorder a writer wraps around another reads the committed status. *)
Lemma good_status l inner w :
  good (RWRecorder l inner) w ->
  exists s, deref_recorder l w = (Ret s, w) /\ rec_status s = default 200 (c_status (w_conn w)).
Proof.
  intros [_ HF]. cbn in HF. apply Forall_cons in HF as [(s & Es & Hag) _]. exists s.
  split; [by apply deref_recorder_run|]. revert Hag. destruct (c_status (w_conn w)); by intros [_ ->].
Qed.

(** The tail of [Metrics], after the handler: three or four instruments. *)
Lemma metrics_tail w method route status start cl bytes :
  exists w', (inc "HTTPRequests" [method; route; status] ;;
     now ← clock_read;
     observe "HTTPDuration" [method; route; status] (now - start) ;;
     (if 0 <? cl then observe "HTTPRequestSize" [method; route] cl else mret tt) ;;
     observe "HTTPResponseSize" [method; route] bytes) w = (Ret tt, w') /\ same_io w w'
    /\ counter w' "HTTPRequests" [method; route; status] = counter w "HTTPRequests" [method; route; status] + 1
    /\ counter w' "HTTPInflight" [] = counter w "HTTPInflight" [].
Proof.
  destruct (counter_add "HTTPRequests" [method; route; status] 1 w) as (w1 & E1 & S1 & Hc & Ho).
  unfold inc. rewrite (bind_run _ _ _ _ _ E1). do 2 (erewrite bind_run by reflexivity).
  assert (forall w', w_counters w' = w_counters w1 ->
    counter w' "HTTPRequests" [method; route; status] = counter w "HTTPRequests" [method; route; status] + 1
    /\ counter w' "HTTPInflight" [] = counter w "HTTPInflight" []) as Hcount.
  { intros w' Hw. unfold counter in *. rewrite Hw. split; [exact Hc|by apply Ho]. }
  destruct (0 <? cl); erewrite bind_run by reflexivity; eexists; (split; [reflexivity|]);
    (split; [destruct S1; by constructor|]); by apply Hcount.
Qed.

(** [Metrics] around a handler that returns: the gauge and the recorder
    before, the instruments after. *)
Lemma Metrics_run (P : Request -> world C L -> world C L -> Prop) next rw r w q :
  handles P next -> w_requests w !! r = Some q -> good rw w -> fresh w ->
  exists q' w1 w2 w', next (RWRecorder (length (w_recorders w)) rw) r w1 = (Ret tt, w2)
    /\ (w_cluster w1 = w_cluster w /\ w_clock w1 = w_clock w /\ w_requests w1 = w_requests w
        /\ w_conn w1 = w_conn w)
    /\ P q w1 w2
    /\ Metrics next rw r w = (Ret tt, w') /\ good rw w' /\ same_io w2 w' /\ keeps_requests w w2
    /\ w_requests w' !! r = Some q'
    /\ (let labels := [Method q; routeOf q'; Itoa (default 200 (c_status (w_conn w2)))] in
        counter w' "HTTPRequests" labels = counter w2 "HTTPRequests" labels + 1)
    /\ counter w1 "HTTPInflight" [] = counter w "HTTPInflight" [] + 1
    /\ counter w' "HTTPInflight" [] = counter w2 "HTTPInflight" [] - 1.
Proof.
  intros Hnext Hq Hg Hf. unfold Metrics.
  destruct (counter_add "HTTPInflight" [] 1 w) as (wa & Ea & Sa & Hia & _).
  rewrite (bind_run _ _ _ _ _ Ea). unfold defer. erewrite bind_run by reflexivity.
  set (wb := set_reads (S (w_reads wa)) wa).
  assert (good rw wb) as Hgb.
  { apply (good_header rw w); [done|by destruct Sa|cbn; by rewrite (same_conn _ _ Sa)]. }
  assert (c_status (w_conn wb) = None) as Hsb by (cbn; rewrite (same_conn _ _ Sa); apply Hf).
  destruct (newStatusRecorder_good rw wb Hgb Hsb) as (rw' & wc & Ec & Hgc & Hroc & -> & Hcc).
  rewrite (bind_run _ _ _ _ _ Ec).
  assert (w_requests wc = w_requests w) as Hrc
    by (rewrite (ro_requests _ _ Hroc); cbn; by rewrite (same_requests _ _ Sa)).
  assert (w_conn wc = w_conn w) as Hcon by (rewrite Hcc; cbn; by rewrite (same_conn _ _ Sa)).
  assert (w_requests wc !! r = Some q) as Hqc by (by rewrite Hrc).
  assert (fresh wc) as Hfc by (split; rewrite Hcon; apply Hf).
  destruct (Hnext _ r wc q Hqc Hgc Hfc) as (wd & Ed & Hgd & Hkd & HP).
  destruct (Hkd r q Hqc) as (q' & Hqd & Hm).
  assert (length (w_recorders wb) = length (w_recorders w)) as Hlen by (cbn; by rewrite (same_recorders _ _ Sa)).
  rewrite Hlen in *. rewrite (bind_run _ _ _ _ _ Ed).
  erewrite (bind_run (deref_request r)) by (unfold deref_request; rewrite Hqd; reflexivity).
  destruct (good_status _ _ _ Hgd) as (s & Es & Hst). cbn [status_of]. rewrite (bind_run _ _ _ _ _ Es). cbv zeta.
  destruct (metrics_tail wd (Method q') (routeOf q') (Itoa (rec_status s)) (w_clock wa (w_reads wa))
              (ContentLength q') (rec_bytes s)) as (we & Ee & Se & Hce & Hie).
  rewrite Ee. destruct (counter_add "HTTPInflight" [] (-1) we) as (w' & E' & S' & Hi' & Ho').
  rewrite E'. exists q', wc, wd, w'. split; [done|].
  assert (same_io wd w') as S by (by etrans).
  split; [destruct Hroc, Sa; repeat split; cbn in *; congruence|]. split; [done|]. split; [done|].
  split; [apply (good_header rw wd); [by eapply good_inner|by destruct S|by rewrite (same_conn _ _ S)]|].
  split; [done|]. split; [etrans; [by apply keeps_eq|done]|]. split; [by rewrite (same_requests _ _ S)|]. split; [|split].
  - cbv zeta. rewrite <- Hst, <- Hm, Ho' by done. exact Hce.
  - rewrite <- Hia. unfold counter. by rewrite (ro_counters _ _ Hroc).
  - rewrite Hi', Hie. lia.
Qed.

(** [Metrics] runs the handler once and counts the request once, under
    its method, the route the handler left in it and the status that was
    committed (200 when the handler wrote nothing); response and cluster are
    as the handler left them; and the in-flight gauge, one higher while the
    handler runs, is back to its value if the handler leaves it alone. *)
Theorem Metrics_counts next rw r w q :
  well_behaved next -> w_requests w !! r = Some q -> good rw w -> fresh w ->
  exists q' w1 w2 w', next (RWRecorder (length (w_recorders w)) rw) r w1 = (Ret tt, w2)
    /\ Metrics next rw r w = (Ret tt, w') /\ good rw w'
    /\ w_requests w' !! r = Some q' /\ w_conn w' = w_conn w2 /\ w_cluster w' = w_cluster w2
    /\ (let labels := [Method q; routeOf q'; Itoa (default 200 (c_status (w_conn w2)))] in
        counter w' "HTTPRequests" labels = counter w2 "HTTPRequests" labels + 1)
    /\ counter w1 "HTTPInflight" [] = counter w "HTTPInflight" [] + 1
    /\ (counter w2 "HTTPInflight" [] = counter w1 "HTTPInflight" [] ->
        counter w' "HTTPInflight" [] = counter w "HTTPInflight" []).
Proof.
  intros Hnext Hq Hg Hf.
  destruct (Metrics_run _ next rw r w q Hnext Hq Hg Hf)
    as (q' & w1 & w2 & w' & E & _ & _ & E' & Hg' & S & _ & Hq' & Hc & Hi1 & Hi2).
  exists q', w1, w2, w'. destruct S. repeat (split; [done|]). lia.
Qed.

(** *** Rate limiting *)

Lemma getLimiter_run (cfg : RateLimitConfig) provider w :
  exists lim w', getLimiter cfg provider w = (Ret lim, w')
    /\ lim = default (rate_NewLimiter (RPS cfg) (Burst cfg)) (w_limiters w !! provider)
    /\ w_limiters w' = <[provider := lim]> (w_limiters w)
    /\ w_conn w' = w_conn w /\ w_cluster w' = w_cluster w /\ w_requests w' = w_requests w
    /\ w_reads w' = w_reads w /\ w_clock w' = w_clock w /\ w_counters w' = w_counters w
    /\ w_recorders w' = w_recorders w.
Proof.
  unfold getLimiter. erewrite bind_run by reflexivity.
  destruct (w_limiters w !! provider) as [lim|] eqn:E.
  - exists lim, w. split; [reflexivity|]. split; [done|]. split; [|done]. symmetry. by apply insert_id.
  - erewrite bind_run by reflexivity. do 2 eexists. split; [reflexivity|]. done.
Qed.

Lemma retryAfter_run provider (lim : L) w :
  exists n w', retryAfter provider lim w = (Ret n, w') /\ 1 <= n
    /\ w_conn w' = w_conn w /\ w_cluster w' = w_cluster w /\ w_requests w' = w_requests w
    /\ w_recorders w' = w_recorders w /\ w_counters w' = w_counters w
    /\ (forall other, other <> provider -> w_limiters w' !! other = w_limiters w !! other)
    /\ is_Some (w_limiters w' !! provider).
Proof.
  unfold retryAfter. erewrite bind_run by reflexivity.
  destruct (limiter_Reserve lim (w_clock w (w_reads w))) as [res lim3]. unfold putLimiter.
  do 4 (erewrite bind_run by reflexivity; cbv zeta). do 2 eexists. split; [reflexivity|].
  split; [apply retrySeconds_pos|]. repeat (split; [done|]).
  split; [intros other Hne; cbn; by rewrite !lookup_insert_ne by done|]. cbn. by rewrite lookup_insert_eq.
Qed.

(** The rate limiter asks the provider's own bucket (a fresh one, full,
    the first time) at one instant.  A request it admits runs the handler on
    an untouched response; one it refuses never reaches the handler or the
    cluster: when the path segment is valid UTF-8 it is counted and answered
    429 with a Retry-After of at least a second, else counting it panics, with
    nothing written.  Paths outside /webhook/ pass with nothing consulted. *)
Theorem RateLimit_decides (cfg : RateLimitConfig) next r w q :
  w_requests w !! r = Some q -> fresh w ->
  let provider := providerFromPath (URL_Path q) in
  let lim := default (rate_NewLimiter (RPS cfg) (Burst cfg)) (w_limiters w !! provider) in
  if String.eqb provider "" then RateLimit cfg next RWConn r w = next RWConn r w
  else
    if (limiter_Allow lim (w_clock w (w_reads w))).1 then
      exists w1, RateLimit cfg next RWConn r w = next RWConn r w1
        /\ w_conn w1 = w_conn w /\ w_cluster w1 = w_cluster w /\ w_requests w1 = w_requests w
        /\ w_limiters w1 !! provider = Some (limiter_Allow lim (w_clock w (w_reads w))).2
        /\ forall other, other <> provider -> w_limiters w1 !! other = w_limiters w !! other
    else if ValidString provider then
      exists n w1, RateLimit cfg next RWConn r w = (Ret tt, w1)
        /\ c_status (w_conn w1) = Some 429 /\ 1 <= n
        /\ Header_Get (c_sent (w_conn w1)) "Retry-After" = Itoa n
        /\ counter w1 "HTTPRateLimited" [provider] = counter w "HTTPRateLimited" [provider] + 1
        /\ w_cluster w1 = w_cluster w
        /\ forall other, other <> provider -> w_limiters w1 !! other = w_limiters w !! other
    else
      exists v w1, RateLimit cfg next RWConn r w = (Panic v, w1)
        /\ w_conn w1 = w_conn w /\ w_cluster w1 = w_cluster w /\ w_requests w1 = w_requests w.
Proof.
  intros Hq [Hs Hb] provider lim. unfold RateLimit.
  erewrite (bind_run (deref_request r)) by (unfold deref_request; rewrite Hq; reflexivity). cbv zeta.
  fold provider. destruct (String.eqb provider ""); [done|].
  destruct (getLimiter_run cfg provider w) as (lim' & wa & Ea & Hlim & Hla & Hca & Hcla & Hqa & Hra & Hka & Hcoa & _).
  fold lim in Hlim. subst lim'. rewrite (bind_run _ _ _ _ _ Ea). erewrite bind_run by reflexivity.
  rewrite Hra, Hka. destruct (limiter_Allow lim (w_clock w (w_reads w))) as [[] lim2] eqn:EA; cbn [fst snd].
  - unfold putLimiter. erewrite bind_run by reflexivity. eexists. split; [reflexivity|].
    cbn. split; [done|]. split; [done|]. split; [done|]. split; [apply lookup_insert_eq|].
    intros other Hne. by rewrite lookup_insert_ne, Hla, lookup_insert_ne by done.
  - unfold putLimiter at 1. erewrite bind_run by reflexivity.
    unfold inc_values. cbn [forallb]. destruct (ValidString provider); cbn [andb].
    2:{ do 2 eexists. split; [reflexivity|]. by cbn. }
    match goal with |- context [mbind _ (inc _ _) ?w0] => set (wb := w0) end.
    destruct (counter_add "HTTPRateLimited" [provider] 1 wb) as (wc & Ec & Sc & Hcc & _).
    unfold inc. rewrite (bind_run _ _ _ _ _ Ec).
    destruct (retryAfter_run provider lim2 wc) as (n & wd & Ed & Hn & Hcd & Hcld & _ & _ & Hcod & Hld & _).
    rewrite (bind_run _ _ _ _ _ Ed). unfold SetHeader. erewrite bind_run by reflexivity.
    match goal with |- context [WriteHeader RWConn 429 ?w0] => set (we := w0) end.
    destruct (conn_WriteHeader_run we 429 ltac:(lia)) as (wf & Ef & Hro & Hse & Hsent & _ & _).
    exists n, wf. split; [exact Ef|].
    assert (c_status (w_conn we) = None) as Hsd by (cbn; rewrite Hcd, (same_conn _ _ Sc); cbn; by rewrite Hca).
    rewrite Hsd in Hse, Hsent. split; [done|]. split; [done|].
    split; [rewrite Hsent; apply Header_Set_get|].
    split; [unfold counter in *; rewrite (ro_counters _ _ Hro); cbn; rewrite Hcod, Hcc; cbn; by rewrite Hcoa|].
    split; [rewrite (ro_cluster _ _ Hro); cbn; rewrite Hcld, (same_cluster _ _ Sc); exact Hcla|].
    intros other Hne. rewrite (ro_limiters _ _ Hro). cbn. rewrite Hld by done.
    rewrite (same_limiters _ _ Sc). cbn. by rewrite lookup_insert_ne, Hla, lookup_insert_ne by done.
Qed.

(** The limiter map is keyed by the raw path segment, before routing: a
    request for any segment, enabled provider or not, leaves an entry for it,
    so the map is not bounded by the allow-list of providers. *)
Theorem RateLimit_stores_any (cfg : RateLimitConfig) (h : M unit) r w q seg :
  w_requests w !! r = Some q -> providerFromPath (URL_Path q) = seg -> seg <> "" ->
  (forall w0, w_limiters (h w0).2 = w_limiters w0) ->
  is_Some (w_limiters (RateLimit cfg (fun _ _ => h) RWConn r w).2 !! seg).
Proof.
  intros Hq Hp Hne Hh. unfold RateLimit.
  erewrite (bind_run (deref_request r)) by (unfold deref_request; rewrite Hq; reflexivity). cbv zeta.
  rewrite Hp, (proj2 (String.eqb_neq seg "") Hne).
  destruct (getLimiter_run cfg seg w) as (lim & wa & Ea & _).
  rewrite (bind_run _ _ _ _ _ Ea). erewrite bind_run by reflexivity.
  destruct (limiter_Allow lim _) as [[] lim2]; unfold putLimiter at 1; erewrite bind_run by reflexivity.
  - rewrite Hh. cbn. by rewrite lookup_insert_eq.
  - unfold inc_values. destruct (forallb ValidString [seg]); [|mrun; by rewrite lookup_insert_eq].
    erewrite bind_run by reflexivity.
    match goal with |- context [mbind _ (retryAfter seg lim2) ?w0] =>
      destruct (retryAfter_run seg lim2 w0) as (n & wb & Eb & _ & _ & _ & _ & _ & _ & _ & Hsome);
      rewrite (bind_run _ _ _ _ _ Eb) end.
    unfold SetHeader. erewrite bind_run by reflexivity. cbn [WriteHeader].
    match goal with |- context [conn_WriteHeader 429 ?w0] =>
      destruct (conn_WriteHeader_run w0 429 ltac:(lia)) as (we & Ee & Hro & _); rewrite Ee end.
    cbn [snd]. rewrite (ro_limiters _ _ Hro). exact Hsome.
Qed.

End Laws.

(** ** Concrete runs *)

Module HttpxSample.

#[local] Instance uuid0 : UUID := {| uuid_String n := "id-" +:+ Itoa (Z.of_nat n) |}.
#[local] Instance uuid0_laws : UUIDLaws.
Proof. split. intros n. cbn. done. Qed.

(** A bucket that never refills. *)
#[local] Instance limiter0 : RateLimiter Z Z := {|
  Reservation := unit;
  rate_NewLimiter _ burst := burst;
  limiter_Allow tokens _ := if 0 <? tokens then (true, tokens - 1) else (false, tokens);
  limiter_Reserve tokens _ := (tt, tokens - 1);
  reservation_Delay _ _ := 2500000000;
  reservation_Cancel _ tokens _ := tokens + 1
|}.

Definition request0 : Request :=
  mkRequest "POST" "/webhook/ghost" true (mkURL "/webhook/ghost" "/webhook/ghost" "") "" ∅ ∅ 2 (mkBody "{}" None) (mkContext None None None).

Definition w0 : world unit Z := start_world tt (fun n => Z.of_nat n) [request0].

Lemma Recover_contains_witness :
  exists w2, Recover (C:=unit) (L:=Z) (fun _ _ => panic "boom") RWConn 0%nat w0 = (Ret tt, w2)
    /\ c_status (w_conn w2) = Some 500.
Proof.
  destruct (Recover_contains (C:=unit) (L:=Z) (fun _ _ => panic "boom") 0%nat w0) as (w2 & E & Hs & _).
  - intros v w1 E. injection E as _ <-. exists request0. reflexivity.
  - exists w2. split; [exact E|exact Hs].
Defined.

Lemma RequestID_stamps_witness :
  exists id q' w1, RequestID (C:=unit) (L:=Z) (fun _ _ => mret tt) RWConn 0%nat w0 = (Ret tt, w1)
    /\ id <> "" /\ ctx_request_id (ReqContext q') = Some id.
Proof.
  destruct (RequestID_stamps (C:=unit) (L:=Z) (fun _ _ => mret tt) RWConn 0%nat w0 request0 eq_refl)
    as (id & q' & w1 & E & Hid & _ & _ & Hc & _).
  exists id, q', w1. split; [exact E|]. split; [exact Hid|exact Hc].
Defined.

Lemma nop_behaved : well_behaved (C:=unit) (L:=Z) (fun _ _ => mret tt).
Proof. intros rw r w q Hq Hg Hf. by exists w. Qed.

Lemma Metrics_counts_witness :
  exists w1 w2 w', Metrics (C:=unit) (L:=Z) (fun _ _ => mret tt) RWConn 0%nat w0 = (Ret tt, w')
    /\ (mret tt : M unit Z unit) w1 = (Ret tt, w2) /\ counter w1 "HTTPInflight" [] = 1.
Proof.
  destruct (Metrics_counts (C:=unit) (L:=Z) (fun _ _ => mret tt) RWConn 0%nat w0 request0 nop_behaved eq_refl
              (good_conn w0) (conj eq_refl eq_refl)) as (q' & w1 & w2 & w' & E1 & E & _ & _ & _ & _ & _ & Hi & _).
  exists w1, w2, w'. split; [exact E|]. split; [exact E1|]. rewrite Hi. reflexivity.
Defined.

Lemma RateLimit_decides_witness :
  exists n w1, RateLimit (C:=unit) (mkRateLimitConfig 1 0) (fun _ _ => mret tt) RWConn 0%nat w0 = (Ret tt, w1)
    /\ c_status (w_conn w1) = Some 429 /\ 1 <= n.
Proof.
  destruct (RateLimit_decides (C:=unit) (mkRateLimitConfig 1 0) (fun _ _ => mret tt) 0%nat w0 request0 eq_refl
              (conj eq_refl eq_refl)) as (n & w1 & E & Hs & Hn & _).
  exists n, w1. split; [exact E|]. split; [exact Hs|exact Hn].
Defined.

(** A refused request whose path segment is the byte 0xff. *)
Definition request_ff : Request :=
  let path := "/webhook/" +:+ String (Ascii.ascii_of_nat 255) EmptyString in
  mkRequest "POST" path true (mkURL path path "") "" ∅ ∅ 2 (mkBody "{}" None) (mkContext None None None).

(** The limiter refuses it by a panic, not with a 429: [WithLabelValues] takes
    no label that is not UTF-8. *)
Example RateLimit_panics :
  match (RateLimit (C:=unit) (mkRateLimitConfig 1 0) (fun _ _ => mret tt) RWConn 0%nat
           (start_world tt (fun n => Z.of_nat n) [request_ff])) with
  | (Panic _, w1) => c_status (w_conn w1) = None
  | (Ret _, _) => False
  end.
Proof. vm_compute. reflexivity. Qed.

Lemma RateLimit_stores_any_witness :
  is_Some (w_limiters (RateLimit (C:=unit) (mkRateLimitConfig 1 5) (fun _ _ => mret tt) RWConn 0%nat w0).2 !! "ghost").
Proof.
  apply (RateLimit_stores_any (C:=unit) (mkRateLimitConfig 1 5) (mret tt) 0%nat w0 request0 "ghost").
  - reflexivity.
  - reflexivity.
  - discriminate.
  - intros w. reflexivity.
Defined.

End HttpxSample.
