(* ===== verification/ServeMux.v ===== *)
(** * [http.ServeMux]

    What main.go and admin.go use of the standard library's request router:
    patterns with a method, literal and named segments or a trailing slash;
    matching on the cleaned, escaped path, segment by segment; redirection to
    a clean path (307 since Go 1.26); 404 and 405.  The router writes the
    pattern it found and the values of the named segments into the request,
    where the handler and, afterwards, the middlewares read them. *)

From Stdlib Require Import Ascii.
From S2P Require Import Prelude GoStrings Unicode GoTime Runtime Recorder.

(** ** Paths *)

Definition slash : ascii := chr 47.

Definition slashed (segs : list string) : string := foldr (fun s acc => String slash (s +:+ acc)) "" segs.

(** [path.Clean] of a rooted path: drop empty and dot segments, resolve
    dot-dot ones.  [acc] is what is kept, last first. *)
Fixpoint clean_go (acc : list string) (segs : list string) : list string :=
  match segs with
  | [] => rev acc
  | s :: segs =>
      if String.eqb s "" || String.eqb s "." then clean_go acc segs
      else if String.eqb s ".." then clean_go (tail acc) segs
      else clean_go (s :: acc) segs
  end.

Definition path_Clean (p : string) : string :=
  match clean_go [] (Split slash p) with
  | [] => "/"
  | segs => slashed segs
  end.

Fixpoint has_trailing_slash (p : string) : bool :=
  match p with
  | EmptyString => false
  | String c EmptyString => bool_decide (c = slash)
  | String _ p => has_trailing_slash p
  end.

Definition cleanPath (p : string) : string :=
  match p with
  | EmptyString => "/"
  | String c _ =>
      let p := if bool_decide (c = slash) then p else String slash p in
      let np := path_Clean p in
      if has_trailing_slash p && negb (String.eqb np "/") then np +:+ "/" else np
  end.

(** [url.PathUnescape]; [None] for a malformed escape. *)
Fixpoint PathUnescape (s : string) : option string :=
  match s with
  | EmptyString => Some EmptyString
  | String c r =>
      if bool_decide (c = "%"%char) then
        match r with
        | String a (String b r) =>
            match hexval a, hexval b with
            | Some x, Some y => String (chr (x * 16 + y)) <$> PathUnescape r
            | _, _ => None
            end
        | _ => None
        end
      else String c <$> PathUnescape r
  end.

Definition pathUnescape (s : string) : string := default s (PathUnescape s).

(** The bytes [URL.String] leaves as they are in a path. *)
Definition path_safe (c : ascii) : bool :=
  in_range 97 122 c || in_range 65 90 c || in_range 48 57 c
  || existsb (fun d => bool_decide (c = d))
       ["-"; "_"; "."; "~"; "$"; "&"; "+"; ","; "/"; ":"; ";"; "="; "@"]%char.

Definition upper_hex (z : Z) : ascii := chr (if z <? 10 then 48 + z else 55 + z).

Fixpoint escape (s : string) : string :=
  match s with
  | EmptyString => EmptyString
  | String c r =>
      if path_safe c then String c (escape r)
      else String "%" (String (upper_hex (ord c / 16)) (String (upper_hex (ord c mod 16)) (escape r)))
  end.

(** [(&url.URL{Path: path, RawQuery: query}).String()] *)
Definition url_String (path query : string) : string :=
  escape path +:+ (if String.eqb query "" then "" else "?" +:+ query).

(** ** Patterns *)

Inductive segment :=
| Lit (s : string)
| Wild (name : string)
| Tail.

Record pattern := mkPattern { pat_method : string; pat_segments : list segment; pat_text : string }.

(** [firstSegment] of a path that begins with a slash. *)
Definition firstSegment (path : string) : string * string :=
  if String.eqb path "/" then ("/", "")
  else
    let path := drop_bytes 1 path in
    match before_byte slash path with
    | Some seg => (pathUnescape seg, drop_bytes (String.length seg) path)
    | None => (pathUnescape path, "")
    end.

Fixpoint match_segments (segs : list segment) (path : string) : option (list (string * string)) :=
  match segs with
  | [] => if String.eqb path "" then Some [] else None
  | Tail :: _ => if String.eqb path "" then None else Some []
  | s :: segs =>
      if String.eqb path "" then None
      else
        let '(seg, rest) := firstSegment path in
        match s with
        | Lit l => if String.eqb seg l then match_segments segs rest else None
        | Wild name => if String.eqb seg "/" then None else cons (name, seg) <$> match_segments segs rest
        | Tail => None
        end
  end.

(** A GET pattern serves HEAD as well. *)
Definition method_matches (pat method : string) : bool :=
  String.eqb pat method || (String.eqb method "HEAD" && String.eqb pat "GET").

Definition is_tail (p : pattern) : bool := existsb (fun s => match s with Tail => true | _ => false end) (pat_segments p).

Section Mux.
Context {H : Type}.

(** The patterns registered, with their handlers. *)
Definition mux : Type := list (pattern * H).

Definition matching (m : mux) (method path : string) (tails : bool) : option (pattern * H * list (string * string)) :=
  foldr (fun '(p, h) rest =>
           if method_matches (pat_method p) method && Bool.eqb (is_tail p) tails then
             match match_segments (pat_segments p) path with
             | Some vs => Some (p, h, vs)
             | None => rest
             end
           else rest) None m.

(** [tree.match]: a pattern with literals wins over a subtree. *)
Definition tree_match (m : mux) (method path : string) : option (pattern * H * list (string * string)) :=
  match matching m method path false with
  | Some r => Some r
  | None => matching m method path true
  end.

Definition exactMatch (p : pattern) (path : string) : bool :=
  if negb (is_tail p) then true
  else has_trailing_slash path
       && (length (pat_segments p) =? length (Split slash path) - 1)%nat.

(** [matchOrRedirect]: the match, or the path with a slash appended when only
    that one is served. *)
Definition matchOrRedirect (m : mux) (method path : string) (u : option URL_t)
  : option (pattern * H * list (string * string)) * option string :=
  let n := tree_match m method path in
  let exact r path := match r with Some (p, _, _) => exactMatch p path | None => false end in
  match u with
  | Some u =>
      if negb (exact n path) && negb (has_trailing_slash path)
         && exact (tree_match m method (path +:+ "/")) (path +:+ "/")
      then (None, Some (cleanPath (URL_Path_ u) +:+ "/"))
      else (n, None)
  | None => (n, None)
  end.

Fixpoint insert_method (s : string) (l : list string) : list string :=
  match l with
  | [] => [s]
  | x :: l' =>
      if String.eqb s x then l
      else if String.leb s x then s :: l
      else x :: insert_method s l'
  end.

(** [matchingMethods], sorted. *)
Definition matchingMethods (m : mux) (path : string) : list string :=
  let on path := omap (fun '(p, _) =>
      match match_segments (pat_segments p) path with Some _ => Some (pat_method p) | None => None end) m in
  let ms := on path ++ (if has_trailing_slash path then [] else on (path +:+ "/")) in
  let ms := if existsb (String.eqb "GET") ms then "HEAD" :: ms else ms in
  foldr insert_method [] ms.

Inductive found :=
| Found (p : pattern) (h : H) (values : list (string * string))
| RedirectTo (location patStr : string)
| NotAllowed (methods : list string)
| NotFound.

Definition findHandler (m : mux) (r : Request) : found :=
  let u := URL r in
  let escapedPath := EscapedPath u in
  let missing path :=
    match matchingMethods m path with
    | [] => NotFound
    | ms => NotAllowed ms
    end in
  if String.eqb (Method r) "CONNECT" then
    match matchOrRedirect m (Method r) escapedPath (Some u) with
    | (_, Some target) => RedirectTo (url_String target (RawQuery u)) target
    | _ =>
        match matchOrRedirect m (Method r) escapedPath None with
        | (Some (p, h, vs), _) => Found p h vs
        | _ => missing escapedPath
        end
    end
  else
    let path := cleanPath escapedPath in
    match matchOrRedirect m (Method r) path (Some u) with
    | (_, Some target) => RedirectTo (url_String target (RawQuery u)) target
    | (n, None) =>
        if negb (String.eqb path escapedPath) then
          RedirectTo (url_String path (RawQuery u))
            (match n with Some (p, _, _) => pat_text p | None => "" end)
        else
          match n with
          | Some (p, h, vs) => Found p h vs
          | None => missing path
          end
    end.

End Mux.
Arguments mux : clear implicits.

(** ** Serving *)

Section Serve.
Context {C L : Type}.
Local Notation M := (M C L).
Local Notation Handler := (Handler C L).

(** [r.Pattern], [r.pat] and [r.matches]. *)
Definition with_route (patStr : string) (values : list (string * string)) (q : Request) : Request :=
  mkRequest (Method q) (RequestURI q) (ProtoAtLeast11 q) (URL q) patStr (list_to_map values)
    (Header q) (ContentLength q) (ReqBody q) (ReqContext q).

Definition set_route (r : nat) (patStr : string) (values : list (string * string)) : M unit :=
  modify (set_requests (alter (with_route patStr values) r)).

Fixpoint htmlEscape (s : string) : string :=
  match s with
  | EmptyString => EmptyString
  | String c s =>
      (if bool_decide (c = "&"%char) then "&amp;"
       else if bool_decide (c = "<"%char) then "&lt;"
       else if bool_decide (c = ">"%char) then "&gt;"
       else if bool_decide (c = dquote) then "&#34;"
       else if bool_decide (c = "'"%char) then "&#39;"
       else single c) +:+ htmlEscape s
  end.

Fixpoint hexEscapeNonASCII (s : string) : string :=
  match s with
  | EmptyString => EmptyString
  | String c s =>
      (if ord c <? 128 then single c
       else String "%" (String (hexdigit (ord c / 16)) (single (hexdigit (ord c mod 16)))))
      +:+ hexEscapeNonASCII s
  end.

(** [http.Redirect(w, r, url, 307)] for the absolute, clean paths the mux
    redirects to, on which its own cleaning is the identity. *)
Definition Redirect (w : ResponseWriter) (r : nat) (url : string) : M unit :=
  q ← deref_request r;
  h ← get (fun w => c_header (w_conn w));
  let hadCT := match h !! "Content-Type" with Some _ => true | None => false end in
  SetHeader w "Location" (hexEscapeNonASCII url) ;;
  (if negb hadCT && (String.eqb (Method q) "GET" || String.eqb (Method q) "HEAD")
   then SetHeader w "Content-Type" "text/html; charset=utf-8" else mret tt) ;;
  WriteHeader w 307 ;;
  if negb hadCT && String.eqb (Method q) "GET" then
    Write w ("<a href=" +:+ single dquote +:+ htmlEscape url +:+ single dquote +:+ ">Temporary Redirect</a>."
             +:+ single (chr 10) +:+ single (chr 10)) ;; mret tt
  else mret tt.

Definition mux_ServeHTTP (m : mux Handler) : Handler := fun w r =>
  q ← deref_request r;
  if String.eqb (RequestURI q) "*" then
    (if ProtoAtLeast11 q then SetHeader w "Connection" "close" else mret tt) ;;
    WriteHeader w 400
  else
    match findHandler m q with
    | Found p h values => set_route r (pat_text p) values ;; h w r
    | RedirectTo location patStr => set_route r patStr [] ;; Redirect w r location
    | NotAllowed methods =>
        set_route r "" [] ;;
        SetHeader w "Allow" (String.concat ", " methods) ;;
        http_Error w "Method Not Allowed" 405
    | NotFound => set_route r "" [] ;; http_Error w "404 page not found" 404
    end.

End Serve.

(** ** Laws *)

Lemma slashed_head segs : segs <> [] -> exists p, slashed segs = String slash p.
Proof. destruct segs as [|s segs]; [done|]. intros _. by eexists. Qed.

Lemma cleanPath_rooted p : exists p', cleanPath p = String slash p'.
Proof.
  assert (forall p, exists p', path_Clean p = String slash p') as Hclean.
  { intros q. unfold path_Clean. destruct (clean_go [] (Split slash q)) as [|s segs]; [by eexists|].
    by apply slashed_head. }
  destruct p as [|c p]; [by eexists|]. unfold cleanPath. set (q := if bool_decide _ then _ else _).
  destruct (Hclean q) as (p' & E). rewrite E. case_match; [|by eexists]. rewrite append_cons. by eexists.
Qed.

(** The first segment of a rooted path: the bytes up to the next slash. *)
Lemma firstSegment_spec (p : string) :
  p <> "" ->
  exists raw rest, firstSegment (String slash p) = (pathUnescape raw, rest) /\ p = raw +:+ rest
    /\ ~ sIn slash raw /\ (rest = "" \/ exists tl, rest = String slash tl).
Proof.
  intros Hp. unfold firstSegment.
  destruct (String.eqb_spec (String slash p) "/") as [E|_]; [by injection E|]. cbn [drop_bytes].
  pose proof (before_byte_spec slash p) as Hb. destruct (before_byte slash p) as [raw|].
  - destruct Hb as (b & -> & Hraw). exists raw, (String slash b). rewrite drop_bytes_app. eauto 10.
  - exists p, "". rewrite append_nil_r. auto.
Qed.

(** A segment is determined by the path. *)
Lemma segment_unique (raw raw' rest rest' : string) :
  ~ sIn slash raw -> ~ sIn slash raw' ->
  (rest = "" \/ exists tl, rest = String slash tl) -> (rest' = "" \/ exists tl, rest' = String slash tl) ->
  raw +:+ rest = raw' +:+ rest' -> raw = raw' /\ rest = rest'.
Proof.
  assert (forall a b, sIn slash (a +:+ String slash b)) as Hin.
  { intros a b. induction a as [|x a IH]; [by left|by right]. }
  intros H H' [->|[tl ->]] [->|[tl' ->]]; rewrite ?append_nil_r.
  - done.
  - intros ->. by destruct (H (Hin _ _)).
  - intros <-. by destruct (H' (Hin _ _)).
  - intros E. apply split_at_unique in E as [-> ->]; done.
Qed.

(** Two segments, the first one literal. *)
Lemma match_two (lit name p : string) vs :
  lit <> "/" ->
  match_segments [Lit lit; Wild name] (String slash p) = Some vs
  <-> exists raw1 raw2, p = raw1 +:+ String slash raw2 /\ ~ sIn slash raw1 /\ ~ sIn slash raw2
       /\ pathUnescape raw1 = lit /\ raw2 <> "" /\ pathUnescape raw2 <> "/"
       /\ vs = [(name, pathUnescape raw2)].
Proof.
  intros Hlit. cbn [match_segments]. change (String.eqb (String slash p) "") with false. cbv iota.
  destruct (decide (p = "")) as [->|Hp].
  { change (firstSegment (String slash "")) with ("/", ""). cbv iota beta.
    rewrite (proj2 (String.eqb_neq "/" lit)) by done. split; [done|]. intros (raw1 & raw2 & E & _).
    by destruct raw1. }
  destruct (firstSegment_spec p Hp) as (raw1 & rest & -> & -> & H1 & Hrest). cbv iota beta.
  destruct Hrest as [->|[p2 ->]].
  { cbn [String.eqb match_segments]. split; [by destruct (String.eqb _ _)|].
    intros (a & b & E & Ha & _). apply segment_unique in E as [_ E]; eauto. done. }
  change (String.eqb (String slash p2) "") with false. cbv iota.
  destruct (decide (p2 = "")) as [->|Hp2].
  { change (firstSegment (String slash "")) with ("/", ""). cbn [String.eqb]. cbv iota beta.
    split; [by destruct (String.eqb _ _)|]. intros (a & b & E & Ha & Hb & _ & Hne & _).
    apply split_at_unique in E as [_ <-]; done. }
  destruct (firstSegment_spec p2 Hp2) as (raw2 & rest & -> & -> & H2 & Hrest). cbv iota beta.
  destruct (String.eqb_spec (pathUnescape raw1) lit) as [Hl|Hl].
  2:{ split; [done|]. intros (a & b & E & Ha & Hb & Hl' & _). apply split_at_unique in E as [-> _]; done. }
  destruct (String.eqb_spec (pathUnescape raw2) "/") as [Hs|Hs].
  { split; [done|]. intros (a & b & E & Ha & Hb & _ & _ & Hs' & _).
    apply split_at_unique in E as [_ E]; [|done|done]. rewrite <- (append_nil_r b) in E.
    apply segment_unique in E as [-> _]; eauto. done. }
  destruct Hrest as [->|[tl ->]].
  - cbn. split.
    + intros [= <-]. exists raw1, raw2. rewrite append_nil_r in *. done.
    + intros (a & b & E & Ha & Hb & _ & _ & _ & ->). rewrite append_nil_r in E.
      by apply split_at_unique in E as [_ ->].
  - change (String.eqb (String slash tl) "") with false. split; [done|]. intros (a & b & E & Ha & Hb & _).
    apply split_at_unique in E as [_ E]; [|done|done]. destruct Hb. rewrite <- E. clear.
    induction raw2 as [|x r IH]; [by left|by right].
Qed.

(** A mux with one pattern, without a subtree: it is found exactly for its
    method, on a clean path it matches. *)
Lemma findHandler_one {H} (p : pattern) (h : H) (q : Request) p' h' vs :
  is_tail p = false -> pat_method p <> "CONNECT" ->
  findHandler [(p, h)] q = Found p' h' vs
  <-> p' = p /\ h' = h /\ method_matches (pat_method p) (Method q) = true /\ Method q <> "CONNECT"
      /\ cleanPath (EscapedPath (URL q)) = EscapedPath (URL q)
      /\ match_segments (pat_segments p) (EscapedPath (URL q)) = Some vs.
Proof.
  intros Ht Hc.
  assert (forall method path, tree_match [(p, h)] method path
    = if method_matches (pat_method p) method then
        match match_segments (pat_segments p) path with Some vs => Some (p, h, vs) | None => None end
      else None) as Htree.
  { intros method path. unfold tree_match, matching. cbn. rewrite Ht. cbn.
    destruct (method_matches _ _); cbn; [|done]. by destruct (match_segments _ _). }
  assert (forall path, exactMatch p path = true) as Hex by (intros; unfold exactMatch; by rewrite Ht).
  unfold findHandler, matchOrRedirect. rewrite !Htree.
  destruct (String.eqb_spec (Method q) "CONNECT") as [->|HM].
  { replace (method_matches (pat_method p) "CONNECT") with false.
    2:{ unfold method_matches. by rewrite (proj2 (String.eqb_neq _ _) Hc). }
    cbn [andb negb]. rewrite andb_false_r. case_match; naive_solver. }
  destruct (method_matches (pat_method p) (Method q)); cbn.
  2:{ rewrite andb_false_r. repeat case_match; naive_solver. }
  destruct (match_segments (pat_segments p) (cleanPath (EscapedPath (URL q)))) as [vs'|] eqn:Em; cbn;
    rewrite ?Hex; cbn.
  - destruct (String.eqb_spec (cleanPath (EscapedPath (URL q))) (EscapedPath (URL q))) as [E|E]; cbn.
    + rewrite E in Em. rewrite Em. naive_solver.
    + naive_solver.
  - split; [|intros (_ & _ & _ & _ & E & Hm); rewrite E, Hm in Em; done].
    repeat case_match; naive_solver.
Qed.

(** What is found was registered. *)
Section Registered.
Context {H : Type}.
Implicit Types m : mux H.

Lemma matching_in m method path tails p h vs :
  matching m method path tails = Some (p, h, vs) -> (p, h) ∈ m.
Proof.
  induction m as [|[p0 h0] m IH]; [done|]. cbn. destruct (method_matches _ _ && _).
  - destruct (match_segments _ _); [intros [= -> -> _]; by left|]. intros E. right. by apply IH.
  - intros E. right. by apply IH.
Qed.

Lemma tree_match_in m method path p h vs : tree_match m method path = Some (p, h, vs) -> (p, h) ∈ m.
Proof.
  unfold tree_match. destruct (matching m method path false) as [[[p0 h0] vs0]|] eqn:E.
  - intros [= -> -> ->]. by eapply matching_in.
  - apply matching_in.
Qed.

Lemma matchOrRedirect_in m method path u p h vs t :
  matchOrRedirect m method path u = (Some (p, h, vs), t) -> (p, h) ∈ m.
Proof.
  unfold matchOrRedirect. destruct u; [destruct (_ && _); [done|]|]; intros [= E _]; by eapply tree_match_in.
Qed.

Lemma findHandler_in m q p h vs : findHandler m q = Found p h vs -> (p, h) ∈ m.
Proof.
  assert (forall path, match matchingMethods m path with [] => NotFound | ms => NotAllowed ms end
    <> Found p h vs) as Hmiss by (intros path; by destruct (matchingMethods m path)).
  unfold findHandler. destruct (String.eqb _ "CONNECT").
  - destruct (matchOrRedirect m _ _ (Some _)) as [n [t|]]; [done|].
    destruct (matchOrRedirect m _ _ None) as [[[[p0 h0] vs0]|] t] eqn:E.
    + intros [= -> -> ->]. by eapply matchOrRedirect_in.
    + intros E'. by destruct (Hmiss _ E').
  - destruct (matchOrRedirect m _ _ _) as [n [t|]] eqn:E; [done|]. case_match; [done|].
    destruct n as [[[p0 h0] vs0]|].
    + intros [= -> -> ->]. by eapply matchOrRedirect_in.
    + intros E'. by destruct (Hmiss _ E').
Qed.

End Registered.
