(* ===== verification/Config.v ===== *)
(** * Configuration ([internal/config/config.go])

    The environment is a map; the loader is a state monad over the first
    parse error, as the struct [loader] is.  [Load] reads the variables in the
    order of the source, then checks the secret, then [validate].  Messages
    that print a float64 leave the number out. *)

From Stdlib Require Import Ascii SpecFloat.
From S2P Require Import Prelude GoStrings Unicode GoTime GoFloat.

(** ** Data *)

(** [slog.Level] *)
Inductive Level := LevelDebug | LevelInfo | LevelWarn | LevelError.

Record JSMConfig := mkJSMConfig {
  TriggerStatus : string;
  FieldProviderGroupID : string;
  FieldRole : string;
  FieldProject : string;
  IdentityProviderID : string
}.

Record CRConfig := mkCRConfig {
  CR_Namespace : string;
  APIGroup : string;
  APIVersion : string;
  FieldManager : string;
  SyncTimeout : Z
}.

(** [SigningSecret] and [BuildInfo] are filled in after the literal; the
    latter by main, and is left out here. *)
Record Config := mkConfig {
  Addr : string;
  AdminAddr : string;
  ReadTimeout : Z;
  ReadHeaderTimeout : Z;
  WriteTimeout : Z;
  IdleTimeout : Z;
  ShutdownTimeout : Z;
  MaxBodyBytes : Z;
  SigningSecret : string;
  SignatureHeader : string;
  TimestampHeader : string;
  TimestampSkew : Z;
  RateLimitRPS : float64;
  RateLimitBurst : Z;
  LogLevel : Level;
  LogFormat : string;
  TracingEnabled : bool;
  TracingSampleRatio : float64;
  PProfEnabled : bool;
  ServiceName : string;
  ServiceVersion : string;
  EnabledProviders : list string;
  JSM : JSMConfig;
  CR : CRConfig;
  Kubeconfig : string
}.

Definition ErrSigningSecretRequired : error :=
  Sentinel "config.ErrSigningSecretRequired" "WEBHOOK_SIGNING_SECRET is required".
Definition ErrJSMFieldsRequired : error :=
  Sentinel "config.ErrJSMFieldsRequired"
    "WEBHOOK_JSM_FIELD_PROVIDER_GROUP_ID, WEBHOOK_JSM_FIELD_ROLE, and WEBHOOK_JSM_FIELD_PROJECT are required when JSM is enabled".
Definition ErrIdentityProviderIDRequired : error :=
  Sentinel "config.ErrIdentityProviderIDRequired"
    "WEBHOOK_JSM_IDENTITY_PROVIDER_ID is required when JSM is enabled".
Definition ErrSyncTimeoutTooLong : error :=
  Sentinel "config.ErrSyncTimeoutTooLong"
    "WEBHOOK_CR_SYNC_TIMEOUT must be less than WEBHOOK_SHUTDOWN_TIMEOUT".

(** [slices.Contains] *)
Definition ProviderEnabled (c : Config) (name : string) : bool :=
  existsb (String.eqb name) (EnabledProviders c).

Section Load.
Context `{UnicodeTables}.
Variable env : gmap string string.

(** ** The loader *)

(** The state is [l.err]. *)
Definition loader (A : Type) : Type := option error -> A * option error.

#[local] Instance loader_ret : MRet loader := fun A a err => (a, err).
#[local] Instance loader_bind : MBind loader := fun A B f m err => let '(a, err) := m err in f a err.

(** The part the typed lookups share: an earlier error or an unset variable
    gives the fallback; a parse error is recorded under the variable's name. *)
Definition lookup_with {A} (parse : string -> result A) (name : string) (fallback : A) : loader A := fun err =>
  match err with
  | Some _ => (fallback, err)
  | None =>
      match env !! name with
      | None => (fallback, err)
      | Some v =>
          match parse v with
          | Err e => (fallback, Some (Errorf (name +:+ ": " +:+ ErrorText e) [e]))
          | Ok a => (a, err)
          end
      end
  end.

Definition str (name fallback : string) : loader string := lookup_with (fun v => Ok v) name fallback.
Definition dur (name : string) (fallback : Z) : loader Z := lookup_with ParseDuration name fallback.
Definition i64 (name : string) (fallback : Z) : loader Z := lookup_with ParseInt name fallback.
Definition f64 (name : string) (fallback : float64) : loader float64 := lookup_with ParseFloat name fallback.
Definition boolean (name : string) (fallback : bool) : loader bool := lookup_with ParseBool name fallback.

(** The loop of [csv]: [seen] and [out] so far. *)
Fixpoint csv_loop (raws : list string) (seen : list string) (out : list string) : list string :=
  match raws with
  | [] => out
  | raw :: raws =>
      let entry := ToLower (TrimSpace raw) in
      if String.eqb entry "" then csv_loop raws seen out
      else if existsb (String.eqb entry) seen then csv_loop raws seen out
      else csv_loop raws (entry :: seen) (out ++ [entry])
  end.

Definition csv (name : string) (fallback : list string) : loader (list string) :=
  lookup_with (fun v => Ok (csv_loop (Split "," v) [] [])) name fallback.

(** An unknown name is an error without a wrapped one. *)
Definition level (name : string) (fallback : Level) : loader Level := fun err =>
  match err with
  | Some _ => (fallback, err)
  | None =>
      match env !! name with
      | None => (fallback, err)
      | Some v =>
          let l := ToLower v in
          if String.eqb l "debug" then (LevelDebug, err)
          else if String.eqb l "info" then (LevelInfo, err)
          else if String.eqb l "warn" || String.eqb l "warning" then (LevelWarn, err)
          else if String.eqb l "error" then (LevelError, err)
          else (fallback, Some (Errorf (name +:+ ": unknown level " +:+ Quote v) []))
      end
  end.

(** ** validate *)

Definition out_of_range (msg : string) : error := Errorf msg [].

Definition validate (cfg : Config) : option error :=
  if f64_lt (TracingSampleRatio cfg) (f64_of_Z 0) || f64_lt (f64_of_Z 1) (TracingSampleRatio cfg) then
    Some (out_of_range "WEBHOOK_TRACING_SAMPLE_RATIO out of range [0,1]")
  else if negb (String.eqb (LogFormat cfg) "json") && negb (String.eqb (LogFormat cfg) "text") then
    Some (out_of_range ("WEBHOOK_LOG_FORMAT must be json or text: " +:+ Quote (LogFormat cfg)))
  else if MaxBodyBytes cfg <=? 0 then
    Some (out_of_range ("WEBHOOK_MAX_BODY_BYTES must be positive: " +:+ Itoa (MaxBodyBytes cfg)))
  else if f64_le (RateLimitRPS cfg) (f64_of_Z 0) then
    Some (out_of_range "WEBHOOK_RATE_LIMIT_RPS must be positive")
  else if RateLimitBurst cfg <=? 0 then
    Some (out_of_range ("WEBHOOK_RATE_LIMIT_BURST must be positive: " +:+ Itoa (RateLimitBurst cfg)))
  else if SyncTimeout (CR cfg) <=? 0 then
    Some (out_of_range ("WEBHOOK_CR_SYNC_TIMEOUT must be positive: " +:+ Duration_String (SyncTimeout (CR cfg))))
  else if ShutdownTimeout cfg <=? SyncTimeout (CR cfg) then
    Some (Errorf (ErrorText ErrSyncTimeoutTooLong +:+ ": sync=" +:+ Duration_String (SyncTimeout (CR cfg))
                  +:+ " shutdown=" +:+ Duration_String (ShutdownTimeout cfg)) [ErrSyncTimeoutTooLong])
  else if ProviderEnabled cfg "jsm" then
    if String.eqb (FieldProviderGroupID (JSM cfg)) "" || String.eqb (FieldRole (JSM cfg)) ""
       || String.eqb (FieldProject (JSM cfg)) "" then Some ErrJSMFieldsRequired
    else if String.eqb (IdentityProviderID (JSM cfg)) "" then Some ErrIdentityProviderIDRequired
    else None
  else None.

(** ** Load *)

(** The struct literal, its calls in source order. *)
Definition literal : loader Config :=
  Addr ← str "WEBHOOK_ADDR" ":8080";
  AdminAddr ← str "WEBHOOK_ADMIN_ADDR" ":9090";
  ReadTimeout ← dur "WEBHOOK_READ_TIMEOUT" (5 * Second);
  ReadHeaderTimeout ← dur "WEBHOOK_READ_HEADER_TIMEOUT" (2 * Second);
  WriteTimeout ← dur "WEBHOOK_WRITE_TIMEOUT" (10 * Second);
  IdleTimeout ← dur "WEBHOOK_IDLE_TIMEOUT" (60 * Second);
  ShutdownTimeout ← dur "WEBHOOK_SHUTDOWN_TIMEOUT" (25 * Second);
  MaxBodyBytes ← i64 "WEBHOOK_MAX_BODY_BYTES" (Z.shiftl 1 20);
  SignatureHeader ← str "WEBHOOK_SIGNATURE_HEADER" "X-Webhook-Signature";
  TimestampHeader ← str "WEBHOOK_TIMESTAMP_HEADER" "X-Webhook-Timestamp";
  TimestampSkew ← dur "WEBHOOK_TIMESTAMP_SKEW" (5 * Minute);
  RateLimitRPS ← f64 "WEBHOOK_RATE_LIMIT_RPS" (f64_of_Z 100);
  RateLimitBurst ← i64 "WEBHOOK_RATE_LIMIT_BURST" 200;
  LogFormat ← str "WEBHOOK_LOG_FORMAT" "json";
  LogLevel ← level "WEBHOOK_LOG_LEVEL" LevelInfo;
  TracingEnabled ← boolean "WEBHOOK_TRACING_ENABLED" true;
  TracingSampleRatio ← f64 "WEBHOOK_TRACING_SAMPLE_RATIO" (f64_of_Z 1);
  PProfEnabled ← boolean "WEBHOOK_PPROF_ENABLED" true;
  ServiceName ← str "OTEL_SERVICE_NAME" "webhookd";
  ServiceVersion ← str "OTEL_SERVICE_VERSION" "";
  EnabledProviders ← csv "WEBHOOK_PROVIDERS" ["jsm"];
  TriggerStatus ← str "WEBHOOK_JSM_TRIGGER_STATUS" "Ready to Provision";
  FieldProviderGroupID ← str "WEBHOOK_JSM_FIELD_PROVIDER_GROUP_ID" "";
  FieldRole ← str "WEBHOOK_JSM_FIELD_ROLE" "";
  FieldProject ← str "WEBHOOK_JSM_FIELD_PROJECT" "";
  IdentityProviderID ← str "WEBHOOK_JSM_IDENTITY_PROVIDER_ID" "";
  Namespace ← str "WEBHOOK_CR_NAMESPACE" "wiz-operator";
  APIGroup ← str "WEBHOOK_CR_API_GROUP" "wiz.webhookd.io";
  APIVersion ← str "WEBHOOK_CR_API_VERSION" "v1alpha1";
  FieldManager ← str "WEBHOOK_CR_FIELD_MANAGER" "webhookd";
  SyncTimeout ← dur "WEBHOOK_CR_SYNC_TIMEOUT" (20 * Second);
  Kubeconfig ← str "WEBHOOK_KUBECONFIG" "";
  mret (mkConfig Addr AdminAddr ReadTimeout ReadHeaderTimeout WriteTimeout IdleTimeout ShutdownTimeout
          MaxBodyBytes "" SignatureHeader TimestampHeader TimestampSkew RateLimitRPS RateLimitBurst
          LogLevel LogFormat TracingEnabled TracingSampleRatio PProfEnabled ServiceName ServiceVersion
          EnabledProviders
          (mkJSMConfig TriggerStatus FieldProviderGroupID FieldRole FieldProject IdentityProviderID)
          (mkCRConfig Namespace APIGroup APIVersion FieldManager SyncTimeout) Kubeconfig).

Definition set_secret (cfg : Config) (secret : string) : Config :=
  mkConfig (Addr cfg) (AdminAddr cfg) (ReadTimeout cfg) (ReadHeaderTimeout cfg) (WriteTimeout cfg)
    (IdleTimeout cfg) (ShutdownTimeout cfg) (MaxBodyBytes cfg) secret (SignatureHeader cfg)
    (TimestampHeader cfg) (TimestampSkew cfg) (RateLimitRPS cfg) (RateLimitBurst cfg) (LogLevel cfg)
    (LogFormat cfg) (TracingEnabled cfg) (TracingSampleRatio cfg) (PProfEnabled cfg) (ServiceName cfg)
    (ServiceVersion cfg) (EnabledProviders cfg) (JSM cfg) (CR cfg) (Kubeconfig cfg).

Definition Load : result Config :=
  let '(cfg, err) := literal None in
  match err with
  | Some err => Err err
  | None =>
      let secret := default "" (env !! "WEBHOOK_SIGNING_SECRET") in
      if String.eqb secret "" then Err ErrSigningSecretRequired
      else
        let cfg := set_secret cfg secret in
        match validate cfg with
        | Some err => Err err
        | None => Ok cfg
        end
  end.

(** ** Laws *)

(** Whatever the loader's state, the value satisfies [P]. *)
Definition loads {A} (P : A -> Prop) (m : loader A) : Prop := forall err, P (m err).1.

Lemma loads_bind {A B} (P : A -> Prop) (Q : B -> Prop) (m : loader A) (f : A -> loader B) :
  loads P m -> (forall a, P a -> loads Q (f a)) -> loads Q (m ≫= f).
Proof.
  intros Hm Hf err. unfold mbind, loader_bind. specialize (Hm err).
  destruct (m err) as [a err']. by apply Hf.
Qed.

Lemma loads_any {A B} (Q : B -> Prop) (m : loader A) (f : A -> loader B) :
  (forall a, loads Q (f a)) -> loads Q (m ≫= f).
Proof. intros Hf. apply (loads_bind (fun _ => True)); [done|]. auto. Qed.

(** The entries of a list [csv] builds. *)
Definition entries_ok (l : list string) : Prop :=
  NoDup l /\ Forall (fun e => e <> "" /\ exists raw, e = ToLower (TrimSpace raw)) l.

Lemma csv_loop_ok raws seen out :
  entries_ok out -> (forall e, e ∈ seen <-> e ∈ out) -> entries_ok (csv_loop raws seen out).
Proof.
  revert seen out. induction raws as [|raw raws IH]; intros seen out [Hn HF] Hseen; [done|]. cbn [csv_loop].
  destruct (String.eqb_spec (ToLower (TrimSpace raw)) "") as [_|Hne]; [by apply IH|].
  destruct (existsb (String.eqb (ToLower (TrimSpace raw))) seen) eqn:Ex; [by apply IH|].
  assert (ToLower (TrimSpace raw) ∉ out) as Hout.
  { intros Hin. apply Hseen in Hin. apply not_true_iff_false in Ex. apply Ex. apply existsb_exists.
    exists (ToLower (TrimSpace raw)). split; [by apply list_elem_of_In|apply String.eqb_refl]. }
  apply IH.
  - split.
    + apply NoDup_app. split; [done|]. split; [|apply NoDup_singleton].
      intros e He ->%list_elem_of_singleton. done.
    + apply Forall_app. split; [done|]. constructor; [|constructor]. split; [done|]. by exists raw.
  - intros e. rewrite elem_of_cons, elem_of_app, list_elem_of_singleton, Hseen. tauto.
Qed.

Lemma csv_loads name : loads entries_ok (csv name ["jsm"]).
Proof.
  assert (entries_ok ["jsm"]) as Hdef.
  { split; [apply NoDup_singleton|]. constructor; [|constructor]. split; [done|]. exists "jsm". reflexivity. }
  intros err. unfold csv, lookup_with. destruct err; [done|]. destruct (env !! name) as [v|]; [|done]. cbn.
  apply csv_loop_ok; [|done]. split; constructor.
Qed.

Lemma literal_providers : loads (fun cfg => entries_ok (EnabledProviders cfg)) literal.
Proof.
  unfold literal. do 20 (apply loads_any; intros ?).
  eapply loads_bind; [apply csv_loads|]. intros ps Hps.
  do 11 (apply loads_any; intros ?). intros err. exact Hps.
Qed.

(** What [validate] checks. *)
Record valid (cfg : Config) : Prop := {
  valid_ratio : f64_lt (TracingSampleRatio cfg) (f64_of_Z 0) = false
                /\ f64_lt (f64_of_Z 1) (TracingSampleRatio cfg) = false;
  valid_format : LogFormat cfg = "json" \/ LogFormat cfg = "text";
  valid_body : 0 < MaxBodyBytes cfg;
  valid_rps : f64_le (RateLimitRPS cfg) (f64_of_Z 0) = false;
  valid_burst : 0 < RateLimitBurst cfg;
  valid_sync : 0 < SyncTimeout (CR cfg) < ShutdownTimeout cfg;
  valid_jsm : "jsm" ∈ EnabledProviders cfg ->
    FieldProviderGroupID (JSM cfg) <> "" /\ FieldRole (JSM cfg) <> "" /\ FieldProject (JSM cfg) <> ""
    /\ IdentityProviderID (JSM cfg) <> ""
}.

Lemma ProviderEnabled_iff cfg name : ProviderEnabled cfg name = true <-> name ∈ EnabledProviders cfg.
Proof.
  unfold ProviderEnabled. rewrite existsb_exists, list_elem_of_In. split.
  - intros (x & Hx & ->%String.eqb_eq). done.
  - intros Hin. exists name. split; [done|apply String.eqb_refl].
Qed.

Lemma validate_valid cfg : validate cfg = None <-> valid cfg.
Proof.
  unfold validate. pose proof (ProviderEnabled_iff cfg "jsm") as Hjsm. split.
  - destruct (f64_lt (TracingSampleRatio cfg) (f64_of_Z 0)) eqn:E1; [done|].
    destruct (f64_lt (f64_of_Z 1) (TracingSampleRatio cfg)) eqn:E2; [done|]. cbn [orb].
    destruct (String.eqb_spec (LogFormat cfg) "json") as [Hf|Hf],
      (String.eqb_spec (LogFormat cfg) "text") as [Hf2|Hf2]; cbn [negb andb]; try done.
    all: destruct (MaxBodyBytes cfg <=? 0) eqn:E3; [done|].
    all: destruct (f64_le (RateLimitRPS cfg) (f64_of_Z 0)) eqn:E4; [done|].
    all: destruct (RateLimitBurst cfg <=? 0) eqn:E5; [done|].
    all: destruct (SyncTimeout (CR cfg) <=? 0) eqn:E6; [done|].
    all: destruct (ShutdownTimeout cfg <=? SyncTimeout (CR cfg)) eqn:E7; [done|].
    all: bool_to_prop; intros Hv; constructor; try done; try lia; try (by auto).
    all: intros Hin; rewrite (proj2 Hjsm Hin) in Hv.
    all: destruct (String.eqb_spec (FieldProviderGroupID (JSM cfg)) ""); [done|].
    all: destruct (String.eqb_spec (FieldRole (JSM cfg)) ""); [done|].
    all: destruct (String.eqb_spec (FieldProject (JSM cfg)) ""); [done|]; cbn [orb] in Hv.
    all: by destruct (String.eqb_spec (IdentityProviderID (JSM cfg)) "").
  - intros [[-> ->] Hf Hb -> Hbu Hs Hj]. cbn [orb].
    replace (negb (String.eqb (LogFormat cfg) "json") && negb (String.eqb (LogFormat cfg) "text")) with false
      by (destruct Hf as [-> | ->]; done).
    replace (MaxBodyBytes cfg <=? 0) with false by lia.
    replace (RateLimitBurst cfg <=? 0) with false by lia.
    replace (SyncTimeout (CR cfg) <=? 0) with false by lia.
    replace (ShutdownTimeout cfg <=? SyncTimeout (CR cfg)) with false by lia.
    destruct (ProviderEnabled cfg "jsm"); [|done].
    destruct (Hj (proj1 Hjsm eq_refl)) as (H1 & H2 & H3 & H4).
    by rewrite !(proj2 (String.eqb_neq _ _)) by done.
Qed.

Lemma Load_checked cfg :
  Load = Ok cfg -> SigningSecret cfg <> "" /\ valid cfg /\ entries_ok (EnabledProviders cfg).
Proof.
  unfold Load. pose proof (literal_providers None) as Hp. destruct (literal None) as [c [err|]]; [done|].
  destruct (String.eqb_spec (default "" (env !! "WEBHOOK_SIGNING_SECRET")) "") as [|Hs]; [done|].
  destruct (validate _) as [err|] eqn:Ev; [done|]. intros [= <-]. split; [done|].
  split; [by apply validate_valid|exact Hp].
Qed.

(** A duration that is not set has its default. *)
Lemma dur_default name fallback : env !! name = None -> loads (eq fallback) (dur name fallback).
Proof. intros Hn err. unfold dur, lookup_with. destruct err; [done|]. by rewrite Hn. Qed.

Lemma Load_default_timeouts cfg :
  env !! "WEBHOOK_WRITE_TIMEOUT" = None -> env !! "WEBHOOK_CR_SYNC_TIMEOUT" = None -> Load = Ok cfg ->
  WriteTimeout cfg = 10 * Second /\ SyncTimeout (CR cfg) = 20 * Second.
Proof.
  intros Hw Hs. unfold Load.
  assert (loads (fun cfg => WriteTimeout cfg = 10 * Second /\ SyncTimeout (CR cfg) = 20 * Second) literal) as Hl.
  { unfold literal. do 4 (apply loads_any; intros ?).
    eapply loads_bind; [by apply dur_default|]. intros ? <-. do 25 (apply loads_any; intros ?).
    eapply loads_bind; [by apply dur_default|]. intros ? <-. apply loads_any. intros ? err. done. }
  specialize (Hl None). destruct (literal None) as [c [err|]]; [done|].
  destruct (String.eqb _ ""); [done|]. destruct (validate _); [done|]. by intros [= <-].
Qed.


End Load.

(** ** Concrete environments *)

Module ConfigSample.

#[local] Instance tables0 : UnicodeTables := plain_tables.

(** The variables without a default, and nothing else. *)
Definition minimal_env : gmap string string :=
  {[ "WEBHOOK_SIGNING_SECRET" := "s3cret";
     "WEBHOOK_JSM_FIELD_PROVIDER_GROUP_ID" := "customfield_1";
     "WEBHOOK_JSM_FIELD_ROLE" := "customfield_2";
     "WEBHOOK_JSM_FIELD_PROJECT" := "customfield_3";
     "WEBHOOK_JSM_IDENTITY_PROVIDER_ID" := "idp" ]}.

(** The defaults contradict each other: with the required variables only,
    [Load] succeeds and the server's write timeout (10s) is below the time
    the handler may wait for the operator (20s), so a slow sync ends after
    its response can no longer be written. *)
Theorem Load_write_timeout_below_sync :
  exists cfg, Load minimal_env = Ok cfg
    /\ WriteTimeout cfg = 10 * Second /\ SyncTimeout (CR cfg) = 20 * Second
    /\ WriteTimeout cfg < SyncTimeout (CR cfg).
Proof.
  destruct (Load minimal_env) as [cfg|e] eqn:E; [|vm_compute in E; discriminate E].
  exists cfg. vm_compute in E. injection E as <-. by repeat split.
Qed.

(** The range checks let NaN through: both float settings can be NaN in a
    configuration [Load] accepts. *)
Theorem Load_accepts_NaN :
  exists cfg, Load (<["WEBHOOK_TRACING_SAMPLE_RATIO" := "NaN"]>
                     (<["WEBHOOK_RATE_LIMIT_RPS" := "nan"]> minimal_env)) = Ok cfg
    /\ TracingSampleRatio cfg = S754_nan /\ RateLimitRPS cfg = S754_nan.
Proof.
  destruct (Load _) as [cfg|e] eqn:E; [|vm_compute in E; discriminate E].
  exists cfg. vm_compute in E. injection E as <-. by repeat split.
Qed.

Example csv_example :
  csv_loop (Split "," " JSM, ,github,jsm,GitHub ") [] [] = ["jsm"; "github"].
Proof. vm_compute. reflexivity. Qed.

Example Load_sync_too_long :
  match Load (<["WEBHOOK_CR_SYNC_TIMEOUT" := "25s"]> minimal_env) with
  | Err e => Is e "config.ErrSyncTimeoutTooLong" = true
  | Ok _ => False
  end.
Proof. vm_compute. reflexivity. Qed.

End ConfigSample.
