(* ===== verification/Instruments.v ===== *)
(** * Prometheus instruments ([internal/observability/metrics.go])

    The instruments as the data their constructors are given, the [Metrics]
    struct that holds them, and their registration.  The Prometheus client is
    the class [Prometheus]: a registry that refuses a name twice.  Elsewhere
    in the development an instrument is referred to by the name of its field
    in [Metrics]; [instrument_of] resolves it. *)

From Stdlib Require Import Ascii.
From S2P Require Import Prelude GoStrings Unicode GoFloat Runtime Config.

(** ** Instruments *)

Inductive instrument_kind :=
| Counter
| Gauge
| Histogram.

Record instrument := mkInstrument {
  i_kind : instrument_kind;
  i_name : string;
  i_help : string;
  i_labels : list string;
  i_buckets : list float64
}.

Definition NewCounterVec (name help : string) (labels : list string) : instrument :=
  mkInstrument Counter name help labels [].
Definition NewCounter (name help : string) : instrument := mkInstrument Counter name help [] [].
Definition NewGaugeVec (name help : string) (labels : list string) : instrument :=
  mkInstrument Gauge name help labels [].
Definition NewGauge (name help : string) : instrument := mkInstrument Gauge name help [] [].
Definition NewHistogramVec (name help : string) (buckets : list float64) (labels : list string) : instrument :=
  mkInstrument Histogram name help labels buckets.

(** [v.WithLabelValues(values...)]: the child of the vector, or a panic when
    there are not as many values as labels, or one is not valid UTF-8. *)
Definition WithLabelValues (i : instrument) (values : list string) : outcome (list string) :=
  if negb (length values =? length (i_labels i))%nat then Panic "inconsistent label cardinality"
  else if negb (forallb ValidString values) then Panic "label value is not valid UTF-8"
  else Ret values.

(** ** The registry *)

(** What a collector describes of a metric. *)
Record desc := mkDesc { fqName : string; d_labels : list string }.

Definition describe (i : instrument) : desc := mkDesc (i_name i) (i_labels i).

(** Names that every version of the client accepts: an identifier; for a
    label, not a reserved one. *)
Definition name_start (c : ascii) : bool :=
  in_range 65 90 c || in_range 97 122 c || bool_decide (c = "_"%char).
Definition name_byte (c : ascii) : bool := name_start c || in_range 48 57 c.

Definition identifier (s : string) : bool :=
  match s with
  | EmptyString => false
  | String c s => name_start c && all_bytes name_byte s
  end.

Definition label_name (s : string) : bool :=
  identifier s && negb (String.prefix "__" s) && negb (String.eqb s "le").

Definition valid_desc (d : desc) : bool :=
  identifier (fqName d) && forallb label_name (d_labels d) && bool_decide (NoDup (d_labels d)).

(** [prometheus.Registry] and the two collectors of client_golang; a
    collector is the list of what it describes.  [registered] are the metric
    names a registry holds. *)
Class Prometheus (R : Type) := {
  prometheus_NewRegistry : R;
  registry_Register : R -> list desc -> result R;
  registered : R -> gset string;
  NewGoCollector : list desc;
  NewProcessCollector : list desc
}.

(** The metrics of a collector can be registered together. *)
Definition consistent (ds : list desc) : Prop := Forall (fun d => valid_desc d = true) ds /\ NoDup (fqName <$> ds).

(** Registration succeeds for valid descriptors under names that are free;
    the collectors of the library carry its prefixes. *)
Class PrometheusLaws (R : Type) `{!Prometheus R} : Prop := {
  NewRegistry_empty : registered (prometheus_NewRegistry (R:=R)) = ∅;
  Register_ok (r : R) ds :
    consistent ds -> (forall d, d ∈ ds -> fqName d ∉ registered r) ->
    exists r', registry_Register r ds = Ok r' /\ registered r' = registered r ∪ list_to_set (fqName <$> ds);
  GoCollector_descs : consistent (NewGoCollector (R:=R));
  GoCollector_prefix d : d ∈ NewGoCollector (R:=R) -> String.prefix "go_" (fqName d) = true;
  ProcessCollector_descs : consistent (NewProcessCollector (R:=R));
  ProcessCollector_prefix d : d ∈ NewProcessCollector (R:=R) -> String.prefix "process_" (fqName d) = true
}.

(** ** [Metrics] *)

(** A field is nil until it is set. *)
Record Metrics_t := mkMetrics {
  HTTPRequests : option instrument;
  HTTPDuration : option instrument;
  HTTPRequestSize : option instrument;
  HTTPResponseSize : option instrument;
  HTTPInflight : option instrument;
  HTTPPanics : option instrument;
  WebhookEvents : option instrument;
  WebhookSigResults : option instrument;
  WebhookProcessing : option instrument;
  HTTPRateLimited : option instrument;
  K8sApplyTotal : option instrument;
  K8sSyncDuration : option instrument;
  JSMPayloadParseErrors : option instrument;
  JSMNoopTotal : option instrument;
  JSMResponseTotal : option instrument
}.

(** The literal [m/10^e]. *)
Definition dec (m e : Z) : float64 := f64_of_dec false m (- e).

Definition httpDurationBuckets : list float64 :=
  [dec 5 3; dec 1 2; dec 25 3; dec 5 2; dec 1 1; dec 25 2; dec 5 1; f64_of_Z 1; dec 25 1; f64_of_Z 5].

Definition httpSizeBuckets : list float64 :=
  f64_of_Z <$> [256; 1024; 4096; 16384; 65536; 262144; 1048576].

Definition k8sSyncBuckets : list float64 :=
  [dec 1 1; dec 25 2; dec 5 1; f64_of_Z 1; f64_of_Z 2; f64_of_Z 5; f64_of_Z 10; f64_of_Z 20; f64_of_Z 30].

Definition addPhase2Metrics (m : Metrics_t) : Metrics_t :=
  mkMetrics (HTTPRequests m) (HTTPDuration m) (HTTPRequestSize m) (HTTPResponseSize m) (HTTPInflight m)
    (HTTPPanics m) (WebhookEvents m) (WebhookSigResults m) (WebhookProcessing m) (HTTPRateLimited m)
    (Some (NewCounterVec "webhookd_k8s_apply_total" "Server-Side Apply attempts by CR kind and outcome."
             ["kind"; "outcome"]))
    (Some (NewHistogramVec "webhookd_k8s_sync_duration_seconds"
             "Watch-loop latency from Patch return to Ready=True / timeout, by CR kind and outcome."
             k8sSyncBuckets ["kind"; "outcome"]))
    (Some (NewCounterVec "webhookd_jsm_payload_parse_errors_total"
             "JSM payloads that failed to decode / extract, by reason." ["reason"]))
    (Some (NewCounter "webhookd_jsm_noop_total"
             "JSM webhooks that returned NoopAction. Unlabeled to bound cardinality; per-status breakdown lives in spans."))
    (Some (NewCounterVec "webhookd_jsm_response_total" "Dispatcher responses to JSM by HTTP status code."
             ["status_code"])).

(** The literal of [NewMetrics]. *)
Definition phase1Metrics : Metrics_t :=
  mkMetrics
    (Some (NewCounterVec "webhookd_http_requests_total" "Total HTTP requests by method, route, and status."
             ["method"; "route"; "status"]))
    (Some (NewHistogramVec "webhookd_http_request_duration_seconds"
             "HTTP request latency by method, route, and status." httpDurationBuckets ["method"; "route"; "status"]))
    (Some (NewHistogramVec "webhookd_http_request_size_bytes" "HTTP request body size by method and route."
             httpSizeBuckets ["method"; "route"]))
    (Some (NewHistogramVec "webhookd_http_response_size_bytes" "HTTP response body size by method and route."
             httpSizeBuckets ["method"; "route"]))
    (Some (NewGauge "webhookd_http_inflight_requests" "In-flight HTTP requests across all routes."))
    (Some (NewCounter "webhookd_http_panics_total" "HTTP handlers that panicked and were recovered."))
    (Some (NewCounterVec "webhookd_webhook_events_total"
             "Webhook events received by provider, event type, and outcome." ["provider"; "event_type"; "outcome"]))
    (Some (NewCounterVec "webhookd_webhook_signature_validation_total"
             "Signature validation outcomes by provider and result." ["provider"; "result"]))
    (Some (NewHistogramVec "webhookd_webhook_processing_duration_seconds"
             "Webhook processing latency by provider and event type." httpDurationBuckets ["provider"; "event_type"]))
    (Some (NewCounterVec "webhookd_http_rate_limited_total" "Requests rejected by the per-provider rate limiter."
             ["provider"]))
    None None None None None.

(** [config.BuildInfo] *)
Record BuildInfo := mkBuildInfo { bi_Version : string; bi_Commit : string; bi_GoVersion : string }.

(** A gauge with one child, whose value is 1. *)
Definition newBuildInfoCollector (b : BuildInfo) : outcome (instrument * (list string * Z)) :=
  let g := NewGaugeVec "webhookd_build_info" "Build provenance for the running webhookd process."
             ["version"; "commit"; "go_version"] in
  match WithLabelValues g [bi_Version b; bi_Commit b; bi_GoVersion b] with
  | Panic v => Panic v
  | Ret child => Ret (g, (child, 1))
  end.

Section Registration.
Context {R : Type} `{!Prometheus R}.

(** [reg.MustRegister(cs...)]: one after the other; the first error is a
    panic, and so is a nil collector. *)
Fixpoint MustRegister (r : R) (cs : list (option (list desc))) : outcome R :=
  match cs with
  | [] => Ret r
  | None :: _ => Panic "invalid memory address or nil pointer dereference"
  | Some ds :: cs =>
      match registry_Register r ds with
      | Err e => Panic (ErrorText e)
      | Ok r => MustRegister r cs
      end
  end.

Definition collector (i : option instrument) : option (list desc) := (fun i => [describe i]) <$> i.

(** The fields, in the order they are registered in. *)
Definition fields (m : Metrics_t) : list (option instrument) :=
  [HTTPRequests m; HTTPDuration m; HTTPRequestSize m; HTTPResponseSize m; HTTPInflight m; HTTPPanics m;
   WebhookEvents m; WebhookSigResults m; WebhookProcessing m; HTTPRateLimited m; K8sApplyTotal m;
   K8sSyncDuration m; JSMPayloadParseErrors m; JSMNoopTotal m; JSMResponseTotal m].

Definition NewMetrics (b : BuildInfo) : outcome (R * Metrics_t * (list string * Z)) :=
  let reg := prometheus_NewRegistry in
  let m := addPhase2Metrics phase1Metrics in
  match newBuildInfoCollector b with
  | Panic v => Panic v
  | Ret (g, child) =>
      match MustRegister reg ((collector <$> fields m)
              ++ [Some NewGoCollector; Some NewProcessCollector; collector (Some g)]) with
      | Panic v => Panic v
      | Ret reg => Ret (reg, m, child)
      end
  end.

End Registration.

(** ** Field names *)

Definition instrument_of (m : Metrics_t) (field : string) : option instrument :=
  let eq := String.eqb field in
  if eq "HTTPRequests" then HTTPRequests m else if eq "HTTPDuration" then HTTPDuration m
  else if eq "HTTPRequestSize" then HTTPRequestSize m else if eq "HTTPResponseSize" then HTTPResponseSize m
  else if eq "HTTPInflight" then HTTPInflight m else if eq "HTTPPanics" then HTTPPanics m
  else if eq "WebhookEvents" then WebhookEvents m else if eq "WebhookSigResults" then WebhookSigResults m
  else if eq "WebhookProcessing" then WebhookProcessing m else if eq "HTTPRateLimited" then HTTPRateLimited m
  else if eq "K8sApplyTotal" then K8sApplyTotal m else if eq "K8sSyncDuration" then K8sSyncDuration m
  else if eq "JSMPayloadParseErrors" then JSMPayloadParseErrors m
  else if eq "JSMNoopTotal" then JSMNoopTotal m else if eq "JSMResponseTotal" then JSMResponseTotal m
  else None.

(** The instruments of the running program. *)
Definition webhookd_metrics : Metrics_t := addPhase2Metrics phase1Metrics.

Definition webhookd_names : list string := default "" <$> (fmap i_name <$> fields webhookd_metrics).

(** ** Registration succeeds *)

(** Bucket bounds a histogram accepts: strictly increasing. *)
Fixpoint increasing (bs : list float64) : bool :=
  match bs with
  | x :: ((y :: _) as bs) => f64_lt x y && increasing bs
  | _ => true
  end.

Lemma prefix_clash (p q s : string) :
  String.prefix p s = true -> String.prefix q s = true -> String.prefix p q = true \/ String.prefix q p = true.
Proof.
  revert q s. induction p as [|c p IH].
  { intros q s. left. by destruct q. }
  intros [|d q] [|e s]; [done|by right|done|]. cbn.
  destruct (ascii_dec c e) as [<-|]; [|done]. destruct (ascii_dec d c) as [->|]; [|done].
  intros Hp Hq. destruct (ascii_dec c c); [|done]. by eapply IH.
Qed.

Section RegistrationLaws.
Context {R : Type} `{!Prometheus R, !PrometheusLaws R}.
Implicit Types r : R.

Lemma MustRegister_ok (css : list (list desc)) r :
  Forall (fun d => valid_desc d = true) (concat css) -> NoDup (fqName <$> concat css) ->
  (forall d, d ∈ concat css -> fqName d ∉ registered r) ->
  exists r', MustRegister r (Some <$> css) = Ret r'
    /\ registered r' = registered r ∪ list_to_set (fqName <$> concat css).
Proof.
  revert r. induction css as [|ds css IH]; intros r Hv Hn Hfree.
  { exists r. split; [done|]. cbn. set_solver. }
  cbn [concat] in *. apply Forall_app in Hv as [Hv1 Hv2]. rewrite fmap_app in Hn.
  apply NoDup_app in Hn as (Hn1 & Hdis & Hn2).
  destruct (Register_ok r ds (conj Hv1 Hn1)) as (r1 & E1 & Hr1); [intros d Hd; apply Hfree; set_solver|].
  destruct (IH r1 Hv2 Hn2) as (r2 & E2 & Hr2).
  { intros d Hd. rewrite Hr1, not_elem_of_union. split; [apply Hfree; set_solver|].
    rewrite elem_of_list_to_set. intros Hin. apply (Hdis _ Hin), list_elem_of_fmap. by exists d. }
  exists r2. cbn [fmap list_fmap MustRegister]. rewrite E1. split; [done|]. rewrite Hr2, Hr1, fmap_app. set_solver.
Qed.

(** The names of the program cannot clash with those of the library. *)
Lemma names_apart p (ds : list desc) d :
  (forall d, d ∈ ds -> String.prefix p (fqName d) = true) -> String.prefix "webhookd_" (fqName d) = true ->
  String.prefix p "webhookd_" = false -> String.prefix "webhookd_" p = false -> fqName d ∉ fqName <$> ds.
Proof.
  intros Hp Hd H1 H2 (d' & He & Hin)%list_elem_of_fmap. specialize (Hp d' Hin). rewrite <- He in Hp.
  destruct (prefix_clash _ _ _ Hp Hd); congruence.
Qed.

Definition build_info : instrument :=
  NewGaugeVec "webhookd_build_info" "Build provenance for the running webhookd process."
    ["version"; "commit"; "go_version"].

Definition own_descs : list desc := describe <$> omap id (fields webhookd_metrics).

(** All the descriptors [NewMetrics] registers. *)
Definition all_collectors : list (list desc) :=
  ((fun d => [d]) <$> own_descs) ++ [NewGoCollector (R:=R); NewProcessCollector (R:=R); [describe build_info]].

Lemma concat_singles {A} (l : list A) : concat ((fun x => [x]) <$> l) = l.
Proof. induction l as [|x l IH]; cbn; [done|by f_equal]. Qed.

Lemma own_prefix d : d ∈ own_descs ++ [describe build_info] -> String.prefix "webhookd_" (fqName d) = true.
Proof.
  assert (forallb (fun d => String.prefix "webhookd_" (fqName d)) (own_descs ++ [describe build_info]) = true) as H
    by (vm_compute; reflexivity).
  intros Hd. rewrite forallb_forall in H. apply H. by apply list_elem_of_In.
Qed.

Lemma all_collectors_ok :
  Forall (fun d => valid_desc d = true) (concat all_collectors) /\ NoDup (fqName <$> concat all_collectors).
Proof.
  unfold all_collectors. rewrite concat_app, concat_singles. cbn [concat]. rewrite app_nil_r.
  destruct (GoCollector_descs (R:=R)) as [Hg1 Hg2]. destruct (ProcessCollector_descs (R:=R)) as [Hp1 Hp2]. split.
  - rewrite !Forall_app. split; [|split; [done|split; [done|]]]; (apply (bool_decide_unpack _); vm_compute; exact I).
  - rewrite !fmap_app, !NoDup_app. split; [apply (bool_decide_unpack _); vm_compute; exact I|].
    assert (forall n, n ∈ fqName <$> (own_descs ++ [describe build_info]) ->
      n ∉ fqName <$> NewGoCollector (R:=R) /\ n ∉ fqName <$> NewProcessCollector (R:=R)) as Hown.
    { intros n (d & -> & Hd%own_prefix)%list_elem_of_fmap.
      split; eapply names_apart; eauto using GoCollector_prefix, ProcessCollector_prefix. }
    split; [|split; [done|split; [|split; [done|split]]]].
    + intros n Hn. rewrite !not_elem_of_app. destruct (Hown n) as [? ?]; [rewrite fmap_app; apply elem_of_app; by left|].
      split; [done|]. split; [done|].
      assert (Forall (fun n => n ∉ fqName <$> [describe build_info]) (fqName <$> own_descs)) as Hb
        by (apply (bool_decide_unpack _); vm_compute; exact I).
      rewrite Forall_forall in Hb. by apply Hb.
    + intros n Hn. rewrite not_elem_of_app. split.
      * intros Hn'. apply list_elem_of_fmap in Hn as (d & -> & Hd), Hn' as (d' & He & Hd').
        apply GoCollector_prefix in Hd. apply ProcessCollector_prefix in Hd'. rewrite He in Hd.
        destruct (prefix_clash _ _ _ Hd Hd'); discriminate.
      * intros Hb. destruct (Hown n) as [? _]; [rewrite fmap_app; apply elem_of_app; by right|done].
    + intros n Hn Hb. destruct (Hown n) as [_ ?]; [rewrite fmap_app; apply elem_of_app; by right|done].
    + apply NoDup_singleton.
Qed.

Lemma NewMetrics_run (b : BuildInfo) :
  if ValidString (bi_Version b) && ValidString (bi_Commit b) && ValidString (bi_GoVersion b) then
    exists reg, NewMetrics (R:=R) b = Ret (reg, webhookd_metrics, ([bi_Version b; bi_Commit b; bi_GoVersion b], 1))
      /\ registered reg = list_to_set (fqName <$> concat all_collectors)
  else exists v, NewMetrics (R:=R) b = Panic v.
Proof.
  unfold NewMetrics, newBuildInfoCollector, WithLabelValues. cbn [length Nat.eqb negb i_labels NewGaugeVec forallb].
  rewrite andb_true_r, andb_assoc. destruct (_ && _ && _) eqn:Ev; cbn [negb]; [|by eexists].
  destruct all_collectors_ok as [Hv Hn].
  destruct (MustRegister_ok all_collectors prometheus_NewRegistry Hv Hn) as (r' & E & Hr).
  { intros d _. rewrite NewRegistry_empty. set_solver. }
  match goal with |- context [MustRegister _ ?l] => change l with (Some <$> all_collectors) end.
  rewrite E. exists r'. split; [done|]. by rewrite Hr, NewRegistry_empty, (left_id_L ∅ (∪)).
Qed.

Lemma all_names :
  (list_to_set (fqName <$> concat all_collectors) : gset string)
  = list_to_set ("webhookd_build_info" :: webhookd_names
      ++ (fqName <$> NewGoCollector (R:=R)) ++ (fqName <$> NewProcessCollector (R:=R))).
Proof.
  unfold all_collectors. rewrite concat_app, concat_singles. cbn [concat].
  rewrite app_nil_r, !fmap_app, list_to_set_cons, !list_to_set_app_L.
  change (fqName <$> own_descs) with webhookd_names. change (fqName <$> [describe build_info]) with ["webhookd_build_info"].
  rewrite list_to_set_singleton_L.
  generalize (list_to_set webhookd_names : gset string), (list_to_set (fqName <$> NewGoCollector (R:=R)) : gset string),
    (list_to_set (fqName <$> NewProcessCollector (R:=R)) : gset string). clear. intros. set_solver.
Qed.

(** C16: [NewMetrics] fails only on build information that is not valid
    UTF-8.  Else registration never panics: the registry then holds the
    fifteen instruments, the build information and the collectors of the
    library under distinct names, no field of [Metrics] is nil, the buckets of
    every histogram are strictly increasing, as it requires, and the build
    gauge has the one child with the three values, set to 1. *)
Theorem NewMetrics_registers (b : BuildInfo) :
  match NewMetrics (R:=R) b with
  | Panic _ => ~ (ValidString (bi_Version b) && ValidString (bi_Commit b) && ValidString (bi_GoVersion b) = true)
  | Ret (reg, m, (child, value)) =>
      registered reg = list_to_set ("webhookd_build_info" :: webhookd_names
        ++ (fqName <$> NewGoCollector (R:=R)) ++ (fqName <$> NewProcessCollector (R:=R)))
      /\ Forall is_Some (fields m) /\ length (fields m) = 15%nat
      /\ Forall (fun i => increasing (default [] (i_buckets <$> i)) = true) (fields m)
      /\ child = [bi_Version b; bi_Commit b; bi_GoVersion b] /\ value = 1
  end.
Proof.
  pose proof (NewMetrics_run b) as Hrun. destruct (_ && _ && _).
  - destruct Hrun as (reg & -> & Hr). rewrite Hr, all_names. split; [done|].
    split; [apply (bool_decide_unpack _); vm_compute; exact I|]. split; [done|].
    split; [apply (bool_decide_unpack _); vm_compute; exact I|done].
  - by destruct Hrun as [v ->].
Qed.

End RegistrationLaws.

(** ** A concrete registry *)

Module InstrumentsSample.

(** The registry as its set of names, with two collectors of one metric. *)
#[export] Instance registry0 : Prometheus (gset string) := {|
  prometheus_NewRegistry := ∅;
  registry_Register r ds :=
    if forallb valid_desc ds && bool_decide (NoDup (fqName <$> ds))
       && forallb (fun d => bool_decide (fqName d ∉ r)) ds
    then Ok (r ∪ list_to_set (fqName <$> ds)) else Err (Opaque "duplicate metrics collector registration attempted");
  registered r := r;
  NewGoCollector := [mkDesc "go_goroutines" []];
  NewProcessCollector := [mkDesc "process_open_fds" []]
|}.

#[export] Instance registry0_laws : PrometheusLaws (gset string).
Proof.
  split; cbn.
  - done.
  - intros r ds [Hv Hn] Hfree. replace (forallb valid_desc ds) with true.
    2:{ symmetry. apply forallb_forall. rewrite Forall_forall in Hv. intros d Hd. by apply Hv, list_elem_of_In. }
    rewrite (bool_decide_true _ Hn). cbn [andb]. replace (forallb _ ds) with true; [by eexists|].
    symmetry. apply forallb_forall. intros d Hd. apply bool_decide_eq_true. by apply Hfree, list_elem_of_In.
  - split; [by repeat constructor|apply NoDup_singleton].
  - by intros d ->%list_elem_of_singleton.
  - split; [by repeat constructor|apply NoDup_singleton].
  - by intros d ->%list_elem_of_singleton.
Qed.

Definition build0 : BuildInfo := mkBuildInfo "1.2.3" "abc" "go1.25".

Lemma NewMetrics_registers_witness :
  exists reg m, NewMetrics (R:=gset string) build0 = Ret (reg, m, (["1.2.3"; "abc"; "go1.25"], 1))
    /\ Forall is_Some (fields m).
Proof.
  pose proof (NewMetrics_registers (R:=gset string) build0) as H.
  destruct (NewMetrics (R:=gset string) build0) as [[[reg m] [child value]]|v] eqn:E.
  - destruct H as (_ & Hf & _ & _ & -> & ->). exists reg, m. split; [reflexivity|exact Hf].
  - destruct H. vm_compute. reflexivity.
Defined.

End InstrumentsSample.
