(* ===== verification/Telemetry.v ===== *)
(** * Logging and tracing ([internal/observability/logging.go], [tracing.go])

    The logger: a handler of [log/slog] inside the [traceHandler] that adds
    the span of the context to every record.  A [slog.Handler] is the class
    [SlogHandler]; the handlers of the standard library are modelled up to
    the rendering of a line, which is kept as a tree of attributes.
    The tracer provider: what [NewTracerProvider] asks the OpenTelemetry SDK
    for; the SDK's constructors are the class [OTelSDK]. *)

From Stdlib Require Import SpecFloat.
From S2P Require Import Prelude GoStrings Unicode GoFloat Runtime Config.

(** ** [log/slog] *)

Definition attr : Type := string * string.

(** [slog.Record], less its time. *)
Record slog_Record := mkSlogRecord { r_Level : Level; r_Message : string; r_attrs : list attr }.

(** [r.AddAttrs(attrs...)] *)
Definition AddAttrs (r : slog_Record) (attrs : list attr) : slog_Record :=
  mkSlogRecord (r_Level r) (r_Message r) (r_attrs r ++ attrs).

Inductive log_format := TextFormat | JSONFormat.

(** An attribute of a line, or a group of them. *)
Inductive tree :=
| TAttr (a : attr)
| TGroup (name : string) (ts : list tree).

Record line := mkLine { ln_format : log_format; ln_level : Level; ln_msg : string; ln_attrs : list tree }.

(** [slog.Handler]; what is written is a list of lines. *)
Class SlogHandler (H : Type) := {
  Enabled : H -> Level -> bool;
  slog_Handle : H -> Context -> slog_Record -> list line;
  WithAttrs : H -> list attr -> H;
  WithGroup : H -> string -> H
}.

Definition level_rank (l : Level) : Z :=
  match l with LevelDebug => -4 | LevelInfo => 0 | LevelWarn => 4 | LevelError => 8 end.

(** [slog.NewTextHandler], [slog.NewJSONHandler]: the level of their options,
    the attributes outside any group, and the open groups with theirs, the
    outermost first. *)
Record base_handler := mkBase {
  bh_format : log_format;
  bh_level : Level;
  bh_attrs : list attr;
  bh_groups : list (string * list attr)
}.

Definition NewTextHandler (level : Level) : base_handler := mkBase TextFormat level [] [].
Definition NewJSONHandler (level : Level) : base_handler := mkBase JSONFormat level [] [].

(** The groups around the attributes of a record; an empty group is left
    out. *)
Fixpoint nest (gs : list (string * list attr)) (inner : list attr) : list tree :=
  match gs with
  | [] => TAttr <$> inner
  | (name, attrs) :: gs =>
      match (TAttr <$> attrs) ++ nest gs inner with
      | [] => []
      | t :: ts => [TGroup name (t :: ts)]
      end
  end.

Fixpoint add_to_last (gs : list (string * list attr)) (attrs : list attr) : list (string * list attr) :=
  match gs with
  | [] => []
  | [(name, old)] => [(name, old ++ attrs)]
  | g :: gs => g :: add_to_last gs attrs
  end.

#[export] Instance base_SlogHandler : SlogHandler base_handler := {
  Enabled h l := level_rank (bh_level h) <=? level_rank l;
  slog_Handle h _ r :=
    [mkLine (bh_format h) (r_Level r) (r_Message r) ((TAttr <$> bh_attrs h) ++ nest (bh_groups h) (r_attrs r))];
  WithAttrs h attrs :=
    match bh_groups h with
    | [] => mkBase (bh_format h) (bh_level h) (bh_attrs h ++ attrs) []
    | gs => mkBase (bh_format h) (bh_level h) (bh_attrs h) (add_to_last gs attrs)
    end;
  WithGroup h name :=
    if String.eqb name "" then h
    else mkBase (bh_format h) (bh_level h) (bh_attrs h) (bh_groups h ++ [(name, [])])
}.

(** ** logging.go *)

Record traceHandler {H : Type} := mkTraceHandler { inner : H }.
Arguments traceHandler : clear implicits.
Arguments mkTraceHandler {H} _.

Section TraceHandler.
Context {H : Type} `{!SlogHandler H}.

Definition traceHandler_Handle (h : traceHandler H) (ctx : Context) (r : slog_Record) : list line :=
  let r :=
    match ctx_span ctx with
    | Some sc => AddAttrs r [("trace_id", TraceID sc); ("span_id", SpanID sc)]
    | None => r
    end in
  slog_Handle (inner h) ctx r.

Definition traceHandler_WithAttrs (h : traceHandler H) (attrs : list attr) : traceHandler H :=
  mkTraceHandler (WithAttrs (inner h) attrs).

Definition traceHandler_WithGroup (h : traceHandler H) (name : string) : traceHandler H :=
  mkTraceHandler (WithGroup (inner h) name).

(** [Enabled] is promoted from the embedded handler. *)
#[export] Instance traceHandler_SlogHandler : SlogHandler (traceHandler H) := {
  Enabled h l := Enabled (inner h) l;
  slog_Handle := traceHandler_Handle;
  WithAttrs := traceHandler_WithAttrs;
  WithGroup := traceHandler_WithGroup
}.

End TraceHandler.

Definition NewLogger (level : Level) (format : string) : traceHandler base_handler :=
  let base := if String.eqb format "text" then NewTextHandler level else NewJSONHandler level in
  mkTraceHandler base.

(** ** [slog.Logger] *)

(** How a logger is derived from another: [With] and [WithGroup], which
    return the receiver when there is nothing to add. *)
Inductive derivation :=
| With (attrs : list attr)
| InGroup (name : string).

Definition derive {H : Type} `{!SlogHandler H} (h : H) (d : derivation) : H :=
  match d with
  | With [] => h
  | With attrs => WithAttrs h attrs
  | InGroup name => if String.eqb name "" then h else WithGroup h name
  end.

(** [logger.Log(ctx, level, msg, attrs...)] *)
Definition Log {H : Type} `{!SlogHandler H} (h : H) (ctx : Context) (level : Level) (msg : string) (attrs : list attr)
  : list line :=
  if Enabled h level then slog_Handle h ctx (mkSlogRecord level msg attrs) else [].

(** ** What a logger writes *)

(** The attributes of a line with the groups they are in. *)
Fixpoint flatten (path : list string) (t : tree) : list (list string * attr) :=
  match t with
  | TAttr a => [(path, a)]
  | TGroup name ts => concat (flatten (path ++ [name]) <$> ts)
  end.

Definition flatten_all (ts : list tree) : list (list string * attr) := concat (flatten [] <$> ts).

(** The attributes and the open groups after some derivations. *)
Definition scope : Type := list (list string * attr) * list string.

Definition enter (s : scope) (d : derivation) : scope :=
  match d with
  | With attrs => (s.1 ++ (pair s.2 <$> attrs), s.2)
  | InGroup name => if String.eqb name "" then s else (s.1, s.2 ++ [name])
  end.

Definition group_path (h : base_handler) : list string := (bh_groups h).*1.

Lemma flatten_attrs path attrs : concat (flatten path <$> (TAttr <$> attrs)) = pair path <$> attrs.
Proof. induction attrs as [|a attrs IH]; [done|]. cbn. by f_equal. Qed.

Lemma flatten_group path name ts :
  concat (flatten path <$> match ts with [] => [] | t :: ts => [TGroup name (t :: ts)] end)
  = concat (flatten (path ++ [name]) <$> ts).
Proof. destruct ts; [done|]. cbn. by rewrite app_nil_r. Qed.

(** The attributes of the open groups, each with its path. *)
Fixpoint group_attrs (path : list string) (gs : list (string * list attr)) : list (list string * attr) :=
  match gs with
  | [] => []
  | (name, attrs) :: gs => (pair (path ++ [name]) <$> attrs) ++ group_attrs (path ++ [name]) gs
  end.

Lemma flatten_nest path gs attrs :
  concat (flatten path <$> nest gs attrs) = group_attrs path gs ++ (pair (path ++ gs.*1) <$> attrs).
Proof.
  revert path. induction gs as [|[name old] gs IH]; intros path; cbn [nest group_attrs].
  - by rewrite flatten_attrs, app_nil_r.
  - rewrite flatten_group, fmap_app, concat_app, flatten_attrs, IH. cbn. rewrite <- !(assoc_L (++)). done.
Qed.

Lemma group_attrs_snoc path gs name : group_attrs path (gs ++ [(name, [])]) = group_attrs path gs.
Proof.
  revert path. induction gs as [|[n old] gs IH]; intros path; [done|]. cbn. by rewrite IH.
Qed.

Lemma group_attrs_add path gs attrs :
  gs <> [] -> group_attrs path (add_to_last gs attrs) = group_attrs path gs ++ (pair (path ++ gs.*1) <$> attrs)
    /\ (add_to_last gs attrs).*1 = gs.*1.
Proof.
  revert path. induction gs as [|[n old] gs IH]; intros path Hne; [done|]. destruct gs as [|g gs].
  - cbn. rewrite !app_nil_r, fmap_app. done.
  - destruct (IH (path ++ [n])) as [IH1 IH2]; [done|]. cbn [add_to_last group_attrs fmap list_fmap fst] in *.
    change (add_to_last ((n, old) :: g :: gs) attrs) with ((n, old) :: add_to_last (g :: gs) attrs).
    cbn [group_attrs fmap list_fmap fst]. rewrite IH1, IH2. rewrite <- !(assoc_L (++)). done.
Qed.

(** The scope of a handler, as it renders it. *)
Definition scope_of (h : base_handler) : scope := ((pair [] <$> bh_attrs h) ++ group_attrs [] (bh_groups h), group_path h).

Lemma derive_scope h d : scope_of (derive h d) = enter (scope_of h) d.
Proof.
  destruct h as [fmt lvl attrs gs], d as [new|name]; cbn [derive enter].
  - destruct new as [|a new].
    { unfold enter, scope_of. cbn. by rewrite app_nil_r. }
    cbn [WithAttrs base_SlogHandler bh_groups]. destruct gs as [|g gs].
    + unfold enter, scope_of, group_path. cbn [bh_attrs bh_groups group_attrs fmap list_fmap fst snd].
      by rewrite !app_nil_r, fmap_app.
    + destruct (group_attrs_add [] (g :: gs) (a :: new)) as [H1 H2]; [done|].
      unfold enter, scope_of, group_path. cbn [bh_attrs bh_groups fst snd]. rewrite H1, H2, (assoc_L (++)). done.
  - destruct (String.eqb_spec name "") as [->|Hne]; [done|]. cbn [WithGroup base_SlogHandler].
    rewrite (proj2 (String.eqb_neq name "") Hne). unfold scope_of, group_path. cbn [bh_attrs bh_groups fst snd].
    by rewrite group_attrs_snoc, fmap_app.
Qed.

Lemma derive_trace (h : traceHandler base_handler) d : derive h d = mkTraceHandler (derive (inner h) d).
Proof. destruct h as [h], d as [[|a new]|name]; [done|done|]. cbn [derive inner]. by destruct (String.eqb name ""). Qed.

Lemma derive_level h d : bh_level (derive h d) = bh_level h /\ bh_format (derive h d) = bh_format h.
Proof. destruct d as [[|a new]|name]; cbn; [done| |]; by repeat case_match. Qed.

(** The span of a context as attributes. *)
Definition span_attrs (ctx : Context) : list attr :=
  match ctx_span ctx with
  | Some sc => [("trace_id", TraceID sc); ("span_id", SpanID sc)]
  | None => []
  end.

(** C39: Every line is correlated.  A logger of the program, however it was
    derived by adding attributes and opening groups, writes one line for a
    call at or above the configured level and none below.  The line carries
    the attributes of the derivations, each under the groups open at the
    time, then those of the call, then, if and only if the context has an
    active span, its trace and span ids, under the innermost group. *)
Theorem Log_correlated (level : Level) (format : string) (ds : list derivation) ctx l msg attrs :
  let s := foldl enter ([], []) ds in
  match Log (foldl derive (NewLogger level format) ds) ctx l msg attrs with
  | [] => level_rank l < level_rank level
  | [ln] =>
      level_rank level <= level_rank l /\ ln_level ln = l /\ ln_msg ln = msg
      /\ ln_format ln = (if String.eqb format "text" then TextFormat else JSONFormat)
      /\ flatten_all (ln_attrs ln) = s.1 ++ (pair s.2 <$> (attrs ++ span_attrs ctx))
  | _ => False
  end.
Proof.
  intros s. set (base := if String.eqb format "text" then NewTextHandler level else NewJSONHandler level).
  assert (forall ds h, foldl derive (mkTraceHandler h) ds = mkTraceHandler (foldl derive h ds)) as Htr.
  { clear. induction ds as [|d ds IH]; intros h; [done|]. cbn [foldl]. by rewrite derive_trace, IH. }
  assert (forall ds h, scope_of (foldl derive h ds) = foldl enter (scope_of h) ds) as Hsc.
  { clear. induction ds as [|d ds IH]; intros h; [done|]. cbn [foldl]. by rewrite IH, derive_scope. }
  assert (forall ds h, bh_level (foldl derive h ds) = bh_level h /\ bh_format (foldl derive h ds) = bh_format h) as Hlv.
  { clear. induction ds as [|d ds IH]; intros h; [done|]. cbn [foldl]. destruct (IH (derive h d)) as [-> ->].
    apply derive_level. }
  unfold NewLogger. fold base. rewrite Htr. specialize (Hsc ds base). destruct (Hlv ds base) as [Hl Hf].
  set (h := foldl derive base ds) in *. unfold Log. cbn [Enabled traceHandler_SlogHandler inner base_SlogHandler].
  rewrite Hl. replace (bh_level base) with level by (by subst base; case_match).
  destruct (level_rank level <=? level_rank l) eqn:E; bool_to_prop; [|done].
  cbn [slog_Handle traceHandler_SlogHandler]. unfold traceHandler_Handle. cbn [inner].
  replace (match ctx_span ctx with Some sc => AddAttrs _ _ | None => _ end)
    with (mkSlogRecord l msg (attrs ++ span_attrs ctx)).
  2:{ unfold span_attrs, AddAttrs. destruct (ctx_span ctx); cbn; by rewrite ?app_nil_r. }
  cbn [slog_Handle base_SlogHandler ln_attrs ln_format ln_level ln_msg r_Level r_Message r_attrs].
  split; [done|]. split; [done|]. split; [done|]. split; [rewrite Hf; by subst base; case_match|].
  unfold flatten_all. rewrite fmap_app, concat_app, flatten_attrs, flatten_nest, (assoc_L (++)).
  assert (scope_of base = ([], [])) as Hb by (by subst base; case_match). rewrite Hb in Hsc. fold s in Hsc.
  rewrite <- Hsc. done.
Qed.

(** ** tracing.go *)

Inductive Sampler :=
| NeverSample
| AlwaysSample
| TraceIDRatioBased (fraction : float64)
| ParentBased (root : Sampler).

Definition samplerFor (ratio : float64) : Sampler :=
  if f64_le (f64_of_Z 1) ratio then ParentBased AlwaysSample
  else if f64_le ratio (f64_of_Z 0) then ParentBased NeverSample
  else ParentBased (TraceIDRatioBased ratio).

Abbreviation resource := (gmap string string).

Inductive resource_option :=
| WithAttributes (attrs : list attr)
| WithFromEnv.

(** What the SDK constructs, with exporters of type [Exp];
    [OTEL_RESOURCE_ATTRIBUTES] as the SDK reads it. *)
Class OTelSDK (Exp : Type) := {
  resource_New : Context -> list resource_option -> result resource;
  env_attributes : resource;
  otlptracehttp_New : Context -> result Exp
}.

Definition detected `{!OTelSDK Exp} (o : resource_option) : resource :=
  match o with
  | WithAttributes attrs => list_to_map attrs
  | WithFromEnv => env_attributes
  end.

(** A resource merges what its options detect, in order; on a common key the
    later one wins. *)
Class OTelSDKLaws (Exp : Type) `{!OTelSDK Exp} : Prop := {
  resource_New_merges ctx opts r :
    resource_New ctx opts = Ok r -> r = foldl (fun acc o => detected o ∪ acc) ∅ opts
}.

(** [sdktrace.TracerProvider], as it is configured. *)
Record TracerProvider {Exp : Type} := mkTracerProvider {
  tp_resource : resource;
  tp_sampler : Sampler;
  tp_exporter : option Exp
}.
Arguments TracerProvider : clear implicits.
Arguments mkTracerProvider {Exp} _ _ _.

Section Tracing.
Context {Exp : Type} `{!OTelSDK Exp}.

Definition buildResource (ctx : Context) (cfg : Config.Config) : result resource :=
  let attrs :=
    [WithAttributes [("service.name", ServiceName cfg); ("service.version", ServiceVersion cfg)]; WithFromEnv] in
  match resource_New ctx attrs with
  | Err e => Err (wrapped "resource.New" e)
  | Ok res => Ok res
  end.

Definition NewTracerProvider (ctx : Context) (cfg : Config.Config) : result (TracerProvider Exp) :=
  match buildResource ctx cfg with
  | Err e => Err (wrapped "build resource" e)
  | Ok res =>
      if negb (TracingEnabled cfg) then Ok (mkTracerProvider res NeverSample None)
      else
        match otlptracehttp_New ctx with
        | Err e => Err (wrapped "otlp http exporter" e)
        | Ok exp => Ok (mkTracerProvider res (samplerFor (TracingSampleRatio cfg)) (Some exp))
        end
  end.

Lemma one_or_zero (r : float64) : f64_le (f64_of_Z 1) r = true -> f64_le r (f64_of_Z 0) = false.
Proof.
  change (f64_of_Z 1) with (S754_finite false 4503599627370496 (-52)). change (f64_of_Z 0) with (S754_zero false).
  unfold f64_le, SFleb. destruct r as [[]|[]| |[] m e]; cbn; try done.
Qed.

Context `{!OTelSDKLaws Exp}.

(** Tracing is set up as configured.  The resource of the provider
    carries the configured service name and version unless the environment
    overrides them, and everything the environment sets.  With tracing off
    nothing is exported and no span is sampled.  With tracing on there is an
    exporter, and a trace without a parent is always sampled exactly when the
    ratio is at least 1, never when it is at most 0, and else by the ratio
    itself (also when it is not a number).  A failure says which part
    failed. *)
Theorem NewTracerProvider_spec ctx (cfg : Config.Config) :
  match NewTracerProvider ctx cfg with
  | Ok tp =>
      (forall k v, env_attributes !! k = Some v -> tp_resource tp !! k = Some v)
      /\ (env_attributes !! "service.name" = None -> tp_resource tp !! "service.name" = Some (ServiceName cfg))
      /\ (env_attributes !! "service.version" = None -> tp_resource tp !! "service.version" = Some (ServiceVersion cfg))
      /\ (TracingEnabled cfg = false <-> tp_exporter tp = None)
      /\ (TracingEnabled cfg = false -> tp_sampler tp = NeverSample)
      /\ (TracingEnabled cfg = true ->
          (tp_sampler tp = ParentBased AlwaysSample <-> f64_le (f64_of_Z 1) (TracingSampleRatio cfg) = true)
          /\ (tp_sampler tp = ParentBased NeverSample <-> f64_le (TracingSampleRatio cfg) (f64_of_Z 0) = true)
          /\ (tp_sampler tp = ParentBased AlwaysSample \/ tp_sampler tp = ParentBased NeverSample
              \/ tp_sampler tp = ParentBased (TraceIDRatioBased (TracingSampleRatio cfg))))
  | Err e =>
      (exists e0, buildResource ctx cfg = Err e0 /\ e = wrapped "build resource" e0)
      \/ (TracingEnabled cfg = true /\ exists e0, otlptracehttp_New ctx = Err e0 /\ e = wrapped "otlp http exporter" e0)
  end.
Proof.
  unfold NewTracerProvider. destruct (buildResource ctx cfg) as [res|e0] eqn:Er; [|left; eauto].
  assert ((forall k v, env_attributes !! k = Some v -> res !! k = Some v)
      /\ (env_attributes !! "service.name" = None -> res !! "service.name" = Some (ServiceName cfg))
      /\ (env_attributes !! "service.version" = None -> res !! "service.version" = Some (ServiceVersion cfg)))
    as (H1 & H2 & H3).
  { unfold buildResource in Er. destruct (resource_New ctx _) as [r|] eqn:En; [|done]. injection Er as <-.
    apply resource_New_merges in En as ->. cbn [foldl detected]. rewrite (right_id_L ∅ (∪)).
    split; [intros k v Hk; by apply lookup_union_Some_l|].
    split; intros Hn; by rewrite lookup_union_r. }
  destruct (TracingEnabled cfg) eqn:Et; cbn [negb].
  - destruct (otlptracehttp_New ctx) as [exp|e0] eqn:Ex; [|right; eauto]. cbn [tp_resource tp_exporter tp_sampler].
    split; [done|]. split; [done|]. split; [done|]. split; [done|]. split; [done|]. intros _. unfold samplerFor.
    pose proof (one_or_zero (TracingSampleRatio cfg)) as H01.
    destruct (f64_le (f64_of_Z 1) (TracingSampleRatio cfg)); [rewrite H01 by done; naive_solver|].
    destruct (f64_le (TracingSampleRatio cfg) (f64_of_Z 0)); naive_solver.
  - cbn. by repeat split.
Qed.

End Tracing.

(** ** A concrete SDK *)

Module TelemetrySample.

#[export] Instance sdk0 : OTelSDK unit := {|
  resource_New _ opts := Ok (foldl (fun acc o =>
    match o with WithAttributes attrs => list_to_map attrs | WithFromEnv => {["service.name" := "override"]} end ∪ acc) ∅ opts);
  env_attributes := {["service.name" := "override"]};
  otlptracehttp_New _ := Ok tt
|}.

#[export] Instance sdk0_laws : OTelSDKLaws unit.
Proof. split. by intros ctx opts r [= <-]. Qed.

Definition cfg0 : Config.Config := (literal (H:=plain_tables) ∅ None).1.

Lemma NewTracerProvider_spec_witness :
  exists tp, NewTracerProvider (Exp:=unit) (mkContext None None None) cfg0 = Ok tp
    /\ tp_resource tp !! "service.name" = Some "override".
Proof.
  pose proof (NewTracerProvider_spec (Exp:=unit) (mkContext None None None) cfg0) as H.
  destruct (NewTracerProvider (Exp:=unit) (mkContext None None None) cfg0) as [tp|e] eqn:E.
  - destruct H as (H & _). exists tp. split; [reflexivity|]. apply H. reflexivity.
  - discriminate E.
Defined.

(** A derived logger inside a span. *)
Example Log0 :
  Log (foldl derive (NewLogger LevelInfo "json") [With [("app", "w")]; InGroup "g"])
    (mkContext None (Some (mkSpanContext "t" "s")) None) LevelWarn "m" [("k", "v")]
  = [mkLine JSONFormat LevelWarn "m"
       [TAttr ("app", "w"); TGroup "g" [TAttr ("k", "v"); TAttr ("trace_id", "t"); TAttr ("span_id", "s")]]].
Proof. reflexivity. Qed.

End TelemetrySample.
