(* ===== verification/Startup.v ===== *)
(** * Startup wiring

    [internal/webhook/jsm/init.go] (the factory and its registration),
    [internal/k8s/client.go] ([NewClients]) and [buildDispatcher] of
    [cmd/webhookd/main.go]: from a loaded configuration to a dispatcher.
    client-go and controller-runtime constructors are parameters. *)

From S2P Require Import Prelude GoStrings Unicode GoTime GoFloat Result JsonEncode Runtime Recorder Action.
From S2P Require Import WizApi JsmProvider Executor Registry Dispatcher System Config.

(** [clientcmd], [ctrl] and the two client constructors, over a type of
    [*rest.Config]s. *)
Class K8sLibrary (RC : Type) := {
  BuildConfigFromFlags : string -> result RC;
  GetConfig : result RC;
  NewWithWatch : RC -> result unit;
  NewForConfig : RC -> result unit
}.

Section Startup.
Context {C L RC : Type} `{UnicodeTables, !K8sClient C object object_list, !ApiErrors, !Tracer, !K8sLibrary RC}.

(** ** internal/k8s/client.go *)

Definition loadRESTConfig (kubeconfigPath : string) : result RC :=
  if negb (String.eqb kubeconfigPath "") then BuildConfigFromFlags kubeconfigPath else GetConfig.

(** The two clients are values of the library, used through [K8sClient]. *)
Record Clients := mkClients { CtrlClient : unit; Clientset : unit; RESTConfig : RC }.

Definition NewClients (cfg : Config.Config) : result Clients :=
  let got := APIGroup (CR cfg) in
  let want := Group GroupVersion in
  if negb (String.eqb got want) then
    Err (Errorf ("WEBHOOK_CR_API_GROUP=" +:+ Quote got +:+ " disagrees with imported wizapi.GroupVersion.Group="
                 +:+ Quote want +:+ "; reconcile config and rebuild before continuing") [])
  else
    match loadRESTConfig (Kubeconfig cfg) with
    | Err e => Err (wrapped "k8s config" e)
    | Ok restCfg =>
        match NewWithWatch restCfg with
        | Err e => Err (wrapped "k8s client" e)
        | Ok ctrlClient =>
            match NewForConfig restCfg with
            | Err e => Err (wrapped "k8s clientset" e)
            | Ok clientset => Ok (mkClients ctrlClient clientset restCfg)
            end
        end
    end.

(** ** internal/webhook/jsm/init.go *)

(** [webhook.ProviderDeps], less the logger. *)
Record ProviderDeps := mkProviderDeps { deps_Config : Config.Config; deps_HasMetrics : bool }.

Definition jsm_config (deps : ProviderDeps) : @Jsm.Config C L :=
  let cfg := deps_Config deps in
  Jsm.mkConfig (Config.TriggerStatus (JSM cfg)) (Config.FieldProviderGroupID (JSM cfg))
    (Config.FieldRole (JSM cfg)) (Config.FieldProject (JSM cfg)) (Config.IdentityProviderID (JSM cfg))
    (CR_Namespace (CR cfg))
    (Jsm.mkSignatureConfig (SigningSecret cfg) (SignatureHeader cfg) (TimestampHeader cfg) (TimestampSkew cfg) None)
    (deps_HasMetrics deps).

Definition factory (deps : ProviderDeps) : result (Provider C L object object_list) :=
  Ok (Jsm.provider (Jsm.New (jsm_config deps))).

(** [RegisterProvider] is [Register] on the registry of the package. *)
Definition RegisterProvider (DefaultRegistry : @Registry C L object object_list ProviderDeps) (name : string)
    (f : ProviderDeps -> result (Provider C L object object_list)) : outcome (@Registry C L object object_list ProviderDeps) :=
  Register DefaultRegistry name f.

(** The [init] of package jsm. *)
Definition jsm_init (reg : @Registry C L object object_list ProviderDeps) := RegisterProvider reg "jsm" factory.

(** [DefaultRegistry] as [main] finds it. *)
Definition DefaultRegistry : outcome (@Registry C L object object_list ProviderDeps) := jsm_init NewRegistry.

(** ** buildDispatcher *)

Definition enabled (deps : ProviderDeps) : list string := EnabledProviders (deps_Config deps).

Definition main_executor (cfg : Config.Config) (metrics : bool) : @Executor C L :=
  NewExecutor true metrics
    (mkExecutorConfig (Config.FieldManager (CR cfg)) (Config.SyncTimeout (CR cfg)) None).

Definition buildDispatcher (cfg : Config.Config) (metrics : bool)
  : outcome (result (@Dispatcher C L object object_list)) :=
  match NewClients cfg with
  | Err e => Ret (Err (wrapped "k8s clients" e))
  | Ok _ =>
      match DefaultRegistry with
      | Panic v => Panic v
      | Ret reg =>
          match Build enabled reg (mkProviderDeps cfg metrics) with
          | Err e => Ret (Err e)
          | Ok providers =>
              match NewDispatcher (mkDispatcherConfig providers (Execute (main_executor cfg metrics))
                                     metrics (Config.MaxBodyBytes cfg)) with
              | Panic v => Panic v
              | Ret d => Ret (Ok d)
              end
          end
      end
  end.

(** ** Laws *)

Definition main_jsm (cfg : Config.Config) (metrics : bool) : @Jsm.Config C L :=
  Jsm.New (jsm_config (mkProviderDeps cfg metrics)).

Definition main_provider (cfg : Config.Config) (metrics : bool) : Provider C L object object_list :=
  Jsm.provider (main_jsm cfg metrics).

Lemma build_main (cfg : Config.Config) metrics reg ps :
  DefaultRegistry = Ret reg -> Build enabled reg (mkProviderDeps cfg metrics) = Ok ps ->
  Forall (fun n => n = "jsm") (EnabledProviders cfg)
  /\ ps = map (fun _ => main_provider cfg metrics) (EnabledProviders cfg).
Proof.
  intros Hreg HB. unfold DefaultRegistry, jsm_init, RegisterProvider, Register in Hreg. cbn in Hreg. rewrite lookup_empty in Hreg.
  injection Hreg as <-. unfold Build in HB. apply build_loop_ok in HB as (qs & -> & HF). cbn [app] in *.
  unfold enabled in HF. cbn [deps_Config] in HF.
  induction HF as [|n p ns qs (f & Hf & Hp) HF IH]; [split; [constructor|done]|].
  cbn in Hf. apply lookup_insert_Some in Hf as [[<- <-]|[_ Hf]]; [|by rewrite lookup_empty in Hf].
  injection Hp as <-. destruct IH as [IH1 ->]. split; [by constructor|done].
Qed.

Lemma buildDispatcher_cases (env : gmap string string) (cfg : Config.Config) (metrics : bool) :
  Load env = Ok cfg ->
  match buildDispatcher cfg metrics with
  | Panic _ => False
  | Ret (Err _) => True
  | Ret (Ok d) =>
      APIGroup (CR cfg) = "wiz.webhookd.io" /\ Forall (fun n => n = "jsm") (EnabledProviders cfg)
      /\ d_maxBodyBytes d = Config.MaxBodyBytes cfg
      /\ forall n p, d_providers d !! n = Some p
           <-> n = "jsm" /\ "jsm" ∈ EnabledProviders cfg /\ p = main_provider cfg metrics
  end.
Proof.
  intros Hload. destruct (Load_checked env cfg Hload) as (_ & Hv & Hnd & _).
  unfold buildDispatcher, NewClients.
  destruct (String.eqb_spec (APIGroup (CR cfg)) (Group GroupVersion)) as [Hg|]; cbn [negb]; [|done].
  destruct (loadRESTConfig (Kubeconfig cfg)) as [rc|]; [|done].
  destruct (NewWithWatch rc); [|done]. destruct (NewForConfig rc); [|done].
  destruct DefaultRegistry as [reg|v] eqn:Hreg.
  2:{ unfold DefaultRegistry, jsm_init, RegisterProvider, Register in Hreg. cbn in Hreg. by rewrite lookup_empty in Hreg. }
  destruct (Build enabled reg (mkProviderDeps cfg metrics)) as [ps|] eqn:HB; [|done].
  destruct (build_main cfg metrics reg ps Hreg HB) as [Hjsm ->].
  unfold NewDispatcher. cbn [Dispatcher.MaxBodyBytes Providers].
  pose proof (register_all_spec (map (fun _ => main_provider cfg metrics) (EnabledProviders cfg)) ∅) as Hr.
  assert (map Name (map (fun _ => main_provider cfg metrics) (EnabledProviders cfg)) = EnabledProviders cfg) as Hn.
  { clear -Hjsm. induction Hjsm as [|n ns -> Hns IH]; [done|]. cbn. by f_equal. }
  rewrite Hn in Hr. destruct (register_all _ ∅) as [m|v].
  2:{ apply Hr. split; [done|]. intros p _. apply lookup_empty. }
  destruct Hr as (_ & _ & Hm). split; [done|]. split; [done|]. split.
  - cbn. pose proof (valid_body _ Hv). by replace (Config.MaxBodyBytes cfg <=? 0) with false by lia.
  - intros n p. cbn. rewrite Hm, lookup_empty. split.
    + intros [?|[Hin Hname]]; [done|]. apply list_elem_of_fmap in Hin as (x & -> & Hx).
      split; [by subst n|]. rewrite Forall_forall in Hjsm. rewrite <- (Hjsm x Hx) at 1. done.
    + intros (-> & Hin & ->). right. split; [|done]. apply list_elem_of_fmap. by exists "jsm".
Qed.

(** The JSM provider a configuration calls for, field by field. *)
Record jsm_configured (cfg : Config.Config) (metrics : bool) (c : @Jsm.Config C L) : Prop := {
  jc_TriggerStatus : Jsm.TriggerStatus c = Config.TriggerStatus (JSM cfg);
  jc_FieldProviderGroupID : Jsm.FieldProviderGroupID c = Config.FieldProviderGroupID (JSM cfg);
  jc_FieldRole : Jsm.FieldRole c = Config.FieldRole (JSM cfg);
  jc_FieldProject : Jsm.FieldProject c = Config.FieldProject (JSM cfg);
  jc_IdentityProviderID : Jsm.cfg_IdentityProviderID c = Config.IdentityProviderID (JSM cfg);
  jc_Namespace : Jsm.cfg_Namespace c = CR_Namespace (CR cfg);
  jc_Secret : Jsm.SecretBytes (Jsm.cfg_Signature c) = SigningSecret cfg;
  jc_SigHeader : Jsm.SigHeader (Jsm.cfg_Signature c) = SignatureHeader cfg;
  jc_TSHeader : Jsm.TSHeader (Jsm.cfg_Signature c) = TimestampHeader cfg;
  jc_Skew : Jsm.Skew (Jsm.cfg_Signature c) = TimestampSkew cfg;
  jc_Now : Jsm.Now (Jsm.cfg_Signature c) = Some time_Now;
  jc_Metrics : Jsm.HasMetrics c = metrics
}.

(** Those of the factory are, and no others. *)
Lemma main_jsm_configured cfg metrics c : jsm_configured cfg metrics c <-> c = main_jsm cfg metrics.
Proof.
  split; [|intros ->; by constructor]. destruct c as [? ? ? ? ? ? [] ?]. intros []. cbn in *. by subst.
Qed.

(** The executor a configuration calls for. *)
Record executor_configured (cfg : Config.Config) (metrics : bool) (e : @Executor C L) : Prop := {
  ec_FieldManager : exec_FieldManager e
    = if String.eqb (Config.FieldManager (CR cfg)) "" then "webhookd" else Config.FieldManager (CR cfg);
  ec_SyncTimeout : exec_SyncTimeout e = Config.SyncTimeout (CR cfg);
  ec_clock : exec_clock e = time_Now;
  ec_HasMetrics : Executor.HasMetrics e = metrics
}.

Lemma buildDispatcher_executor (cfg : Config.Config) (metrics : bool) d :
  buildDispatcher cfg metrics = Ret (Ok d) -> d_executor d = Execute (main_executor cfg metrics).
Proof. unfold buildDispatcher, NewDispatcher. intros E. repeat case_match; by simplify_eq/=. Qed.

(** C37: Wiring a loaded configuration never panics (the allow-list has no
    duplicates), and a dispatcher it yields serves exactly the enabled
    providers, JSM alone can be enabled, with the configured body limit and
    the API group the client was built for.  Its JSM provider verifies with
    the configured secret, signature header, timestamp header and skew against
    the system clock, and takes its trigger status, its three field ids, the
    identity provider and the namespace from the settings of these names; its
    executor has the configured field manager, [webhookd] when that is empty,
    and sync timeout. *)
Theorem buildDispatcher_spec (env : gmap string string) (cfg : Config.Config) (metrics : bool) :
  Load env = Ok cfg ->
  match buildDispatcher cfg metrics with
  | Panic _ => False
  | Ret (Err _) => True
  | Ret (Ok d) =>
      APIGroup (CR cfg) = "wiz.webhookd.io" /\ Forall (fun n => n = "jsm") (EnabledProviders cfg)
      /\ d_maxBodyBytes d = Config.MaxBodyBytes cfg
      /\ (exists e, executor_configured cfg metrics e /\ d_executor d = Execute e)
      /\ forall n p, d_providers d !! n = Some p
           <-> n = "jsm" /\ "jsm" ∈ EnabledProviders cfg
               /\ exists c, jsm_configured cfg metrics c /\ p = Jsm.provider c
  end.
Proof.
  intros Hload. pose proof (buildDispatcher_cases env cfg metrics Hload) as Hb.
  destruct (buildDispatcher cfg metrics) as [[d|]|] eqn:E; [|done..]. destruct Hb as (Hg & Hj & Hm & Hp).
  do 3 (split; [done|]). split; [exists (main_executor cfg metrics); split; [done|by apply buildDispatcher_executor]|].
  intros n p. rewrite Hp. setoid_rewrite main_jsm_configured. naive_solver.
Qed.

(** With a provider enabled, the dispatcher is the one [System] is about. *)
Lemma buildDispatcher_jsm (env : gmap string string) (cfg : Config.Config) (metrics : bool) d :
  Load env = Ok cfg -> EnabledProviders cfg <> [] -> buildDispatcher cfg metrics = Ret (Ok d) ->
  d = jsm_dispatcher (main_jsm cfg metrics) (main_executor cfg metrics) metrics (Config.MaxBodyBytes cfg).
Proof.
  intros Hload Hne. destruct (Load_checked env cfg Hload) as (_ & Hv & Hnd & _).
  unfold buildDispatcher. destruct (NewClients cfg); [|done].
  destruct DefaultRegistry as [reg|v] eqn:Hreg; [|done].
  destruct (Build enabled reg (mkProviderDeps cfg metrics)) as [ps|] eqn:HB; [|done].
  destruct (build_main cfg metrics reg ps Hreg HB) as [Hjsm ->].
  assert (EnabledProviders cfg = ["jsm"]) as Hen.
  { destruct (EnabledProviders cfg) as [|n1 [|n2 ns]]; [done|by apply Forall_cons in Hjsm as [-> _]|].
    apply Forall_cons in Hjsm as [-> Hjsm]. apply Forall_cons in Hjsm as [-> _].
    apply NoDup_cons in Hnd as [Hin _]. destruct Hin. by left. }
  rewrite Hen. unfold NewDispatcher. cbn. pose proof (valid_body _ Hv).
  replace (Config.MaxBodyBytes cfg <=? 0) with false by lia. by intros [= <-].
Qed.

End Startup.

(** ** A concrete start *)

Module StartupSample.
Import ExecutorSample.

#[local] Instance tables0 : UnicodeTables := plain_tables.

#[local] Instance library0 : K8sLibrary unit := {|
  BuildConfigFromFlags _ := Ok tt;
  GetConfig := Ok tt;
  NewWithWatch _ := Ok tt;
  NewForConfig _ := Ok tt
|}.

(** The configuration of the minimal environment. *)
Definition cfg0 : Config.Config :=
  match Load ConfigSample.minimal_env with
  | Ok c => c
  | Err _ => set_secret (literal ConfigSample.minimal_env None).1 ""
  end.

Lemma Load_cfg0 : Load ConfigSample.minimal_env = Ok cfg0.
Proof. vm_compute. reflexivity. Qed.

Lemma buildDispatcher_spec_witness :
  exists d c, buildDispatcher (C:=cluster) (L:=unit) cfg0 true = Ret (Ok d)
    /\ d_maxBodyBytes d = 1048576
    /\ d_providers d !! "jsm" = Some (Jsm.provider c) /\ Jsm.SecretBytes (Jsm.cfg_Signature c) = SigningSecret cfg0.
Proof.
  pose proof (buildDispatcher_spec (C:=cluster) (L:=unit) ConfigSample.minimal_env cfg0 true Load_cfg0) as H.
  destruct (buildDispatcher (C:=cluster) (L:=unit) cfg0 true) as [[d|e]|v] eqn:E.
  - exists d, (main_jsm cfg0 true). destruct H as (_ & _ & Hm & _ & Hp). split; [reflexivity|].
    split; [rewrite Hm; vm_compute; reflexivity|]. split; [|reflexivity].
    apply Hp. split; [reflexivity|]. split; [apply (bool_decide_unpack _); vm_compute; exact I|].
    eexists. split; [|reflexivity]. constructor; reflexivity.
  - exfalso. apply (f_equal (fun o => match o with Ret (Err _) => true | _ => false end)) in E.
    vm_compute in E. discriminate E.
  - destruct H.
Defined.

End StartupSample.
