(* ===== verification/Public.v ===== *)
(** * The public handler ([buildPublicHandler] and the wiring of [run], main.go)

    The mux with its one route, inside the middleware chain.  A middleware is
    shown to preserve what the handler inside it does ([handles]), for every
    description [P] of a request's effect that does not depend on what the
    middleware touches ([stable]); the theorems about the dispatcher are
    lifted through the chain that way. *)

From Stdlib Require Import Ascii.
From S2P Require Import Prelude GoStrings Unicode GoTime GoFloat Signature Json JsonEncode Result Runtime Recorder.
From S2P Require Import Action WizApi JsmPayload JsmProvider Executor Registry Dispatcher System Httpx ServeMux.
From S2P Require Import Config Startup.

(** ** Messages *)

(** Two requests that carry the same message: they can differ in what the
    program attaches, the context and the route. *)
Record same_message (q q' : Request) : Prop := {
  msg_method : Method q' = Method q;
  msg_uri : RequestURI q' = RequestURI q;
  msg_url : URL q' = URL q;
  msg_header : Header q' = Header q;
  msg_length : ContentLength q' = ContentLength q;
  msg_body : ReqBody q' = ReqBody q
}.

#[export] Instance same_message_preorder : PreOrder same_message.
Proof. split; [by intros ?; constructor|]. intros ??? [] []. constructor; congruence. Qed.

(** ** otelhttp *)

(** [otelhttp.NewHandler(next, operation, WithServerName(name))] *)
Class OTelHTTP (C L : Type) := {
  otelhttp_NewHandler : Handler C L -> string -> string -> Handler C L
}.

(** The program's own instruments are as they were. *)
Definition same_instruments {C L : Type} (w w' : world C L) : Prop :=
  w_counters w' = w_counters w /\ w_observed w' = w_observed w.

(** It runs the handler once, on a copy of the request whose context carries
    its span, with a writer that forwards to the one it got, and otherwise
    touches telemetry only, and not the program's Prometheus instruments. *)
Class OTelHTTPLaws (C L : Type) `{!OTelHTTP C L} : Prop := {
  otelhttp_runs next op name rw r (w : world C L) q :
    w_requests w !! r = Some q ->
    exists q1 w1 w3,
      w_requests w1 = w_requests w ++ [q1] /\ same_message q q1
      /\ ctx_request_id (ReqContext q1) = ctx_request_id (ReqContext q)
      /\ w_conn w1 = w_conn w /\ w_recorders w1 = w_recorders w
      /\ w_cluster w1 = w_cluster w /\ w_clock w1 = w_clock w
      /\ otelhttp_NewHandler next op name rw r w = ((next rw (length (w_requests w)) w1).1, w3)
      /\ same_io (next rw (length (w_requests w)) w1).2 w3
      /\ Pattern q1 = Pattern q /\ same_instruments w w1 /\ same_instruments (next rw (length (w_requests w)) w1).2 w3
}.

(** ** The handler *)

Section Handler.
Context {C L : Type} `{!UUID, !RateLimiter L float64, !OTelHTTP C L}.
Local Notation M := (M C L).
Local Notation Handler := (Handler C L).

Definition OTel (serviceName : string) (next : Handler) : Handler := otelhttp_NewHandler next "" serviceName.

Definition webhook_pattern : pattern :=
  mkPattern "POST" [Lit "webhook"; Wild "provider"] "POST /webhook/{provider}".

(** The handler mounted when no provider is enabled. *)
Definition disabled : Handler := fun w _ =>
  SetHeader w "Retry-After" "30" ;;
  http_Error w "webhook dispatcher disabled" 503.

Definition buildPublicHandler (cfg : Config.Config) (dispatcher : option Handler) : Handler :=
  let mux := [(webhook_pattern, match dispatcher with Some d => d | None => disabled end)] in
  Chain (mux_ServeHTTP mux)
    [Recover; OTel (ServiceName cfg); RequestID;
     RateLimit (mkRateLimitConfig (RateLimitRPS cfg) (RateLimitBurst cfg)); SLog; Metrics].

End Handler.

(** ** Middlewares preserve what is inside them *)

Section Preserve.
Context {C L : Type} `{!UUID, !RateLimiter L float64, !OTelHTTP C L, !OTelHTTPLaws C L}.
Implicit Types (w : world C L) (next : Handler C L).

(** A description of what serving a request does that reads of the request
    only its message, of the world before only cluster and clock, and of the
    world after only cluster and response. *)
Definition stable (P : Request -> world C L -> world C L -> Prop) : Prop :=
  forall q q1 w w1 w2 w', same_message q q1 -> w_cluster w1 = w_cluster w -> w_clock w1 = w_clock w ->
    w_cluster w' = w_cluster w2 -> w_conn w' = w_conn w2 -> P q1 w1 w2 -> P q w w'.

Variable P : Request -> world C L -> world C L -> Prop.
Hypothesis P_stable : stable P.

Lemma keeps_app w w1 q1 : w_requests w1 = w_requests w ++ [q1] -> keeps_requests w w1.
Proof. intros E l q Hq. exists q. split; [|done]. rewrite E. by apply lookup_app_l_Some. Qed.

Lemma Metrics_handles next : handles P next -> handles P (Metrics next).
Proof.
  intros Hn rw r w q Hq Hg Hf.
  destruct (Metrics_run P next rw r w q Hn Hq Hg Hf)
    as (q' & w1 & w2 & w' & _ & (Hcl & Hck & _ & _) & HP & E & Hg' & S & Hk & _).
  exists w'. split; [done|]. split; [done|].
  split; [etrans; [exact Hk|apply keeps_eq; by destruct S]|].
  destruct S. by apply (P_stable q q w w1 w2 w').
Qed.

Lemma SLog_handles next : handles P next -> handles P (SLog next).
Proof.
  intros Hn rw r w q Hq Hg Hf. unfold SLog. erewrite bind_run by reflexivity.
  set (wa := set_reads (S (w_reads w)) w).
  destruct (newStatusRecorder_good rw wa) as (rw' & wb & Eb & Hgb & Hro & -> & Hcb);
    [by apply (good_header rw w)|apply Hf|].
  rewrite (bind_run _ _ _ _ _ Eb).
  assert (w_requests wb !! r = Some q) as Hqb by (by rewrite (ro_requests _ _ Hro)).
  destruct (Hn _ r wb q Hqb Hgb) as (wc & Ec & Hgc & Hkc & HP); [by split; rewrite Hcb; apply Hf|].
  rewrite (bind_run _ _ _ _ _ Ec). destruct (Hkc r q Hqb) as (q' & Hq' & _).
  erewrite (bind_run (deref_request r)) by (unfold deref_request; rewrite Hq'; reflexivity).
  destruct (good_status _ _ _ Hgc) as (s & Es & _). cbn [status_of]. rewrite (bind_run _ _ _ _ _ Es).
  erewrite bind_run by reflexivity. eexists. split; [reflexivity|].
  split; [apply (good_header rw wc); [by eapply good_inner|done|done]|].
  split; [etrans; [apply keeps_eq, (ro_requests _ _ Hro)|]; etrans; [exact Hkc|by apply keeps_eq]|].
  eapply (P_stable q q w wb wc); [done|by destruct Hro|by destruct Hro|done|done|done].
Qed.

Lemma Recover_handles next : handles P next -> handles P (Recover next).
Proof.
  intros Hn rw r w q Hq Hg Hf. destruct (Hn rw r w q Hq Hg Hf) as (w' & E & Hrest).
  exists w'. split; [|done]. unfold Recover, recovering. by rewrite E.
Qed.

(** A handler that may also panic, before it has written anything or reached
    the cluster. *)
Definition panics_clean (rw : ResponseWriter) w w' : Prop :=
  good rw w' /\ fresh w' /\ keeps_requests w w' /\ w_cluster w' = w_cluster w.

Definition may_panic next : Prop :=
  forall rw r w q, w_requests w !! r = Some q -> good rw w -> fresh w ->
    (exists w', next rw r w = (Ret tt, w') /\ good rw w' /\ keeps_requests w w' /\ P q w w')
    \/ (exists v w', next rw r w = (Panic v, w') /\ panics_clean rw w w').

(** [Recover] answers 500 for it. *)
Lemma Recover_panics next :
  (forall q w w', w_cluster w' = w_cluster w -> c_status (w_conn w') = Some 500 -> P q w w') ->
  may_panic next -> handles P (Recover next).
Proof.
  intros H500 Hn rw r w q Hq Hg Hf. unfold Recover, recovering.
  destruct (Hn rw r w q Hq Hg Hf) as [(w' & E & Hrest)|(v & w1 & E & Hg1 & [Hs1 _] & Hk1 & Hc1)]; rewrite E.
  { by exists w'. }
  destruct (Hk1 r q Hq) as (q1 & Hq1 & _). unfold inc.
  destruct (counter_add "HTTPPanics" [] 1 w1) as (w2 & E2 & S2 & _). rewrite (bind_run _ _ _ _ _ E2).
  erewrite (bind_run (deref_request r)) by (unfold deref_request; rewrite (same_requests _ _ S2), Hq1; reflexivity).
  erewrite bind_run by reflexivity. match goal with |- context [WriteHeader rw 500 ?w0] => set (w3 := w0) end.
  destruct (WriteHeader_good rw w3 500) as (w' & E' & Hg' & Hro & _ & Hs & _); [|lia|].
  { apply (good_header rw w1); [done|cbn; by destruct S2|cbn; by rewrite (same_conn _ _ S2)]. }
  exists w'. split; [done|]. split; [done|]. split.
  - etrans; [exact Hk1|]. apply keeps_eq. rewrite (ro_requests _ _ Hro). cbn. by destruct S2.
  - apply H500; [rewrite (ro_cluster _ _ Hro); cbn; by rewrite (same_cluster _ _ S2)|].
    rewrite Hs. cbn. by rewrite (same_conn _ _ S2), Hs1.
Qed.

Lemma OTel_may_panic name next : may_panic next -> may_panic (OTel name next).
Proof.
  intros Hn rw r w q Hq Hg Hf. unfold OTel.
  destruct (otelhttp_runs next "" name rw r w q Hq)
    as (q1 & w1 & w3 & Hr1 & Hm & _ & Hc1 & Hrec & Hcl & Hck & -> & S & _).
  destruct (Hn rw (length (w_requests w)) w1 q1) as [(w2 & E & Hg2 & Hk & HP)|(v & w2 & E & Hg2 & Hf2 & Hk & Hcl2)].
  - rewrite Hr1, lookup_app_r by done. by rewrite Nat.sub_diag.
  - apply (good_header rw w); [done|done|by rewrite Hc1].
  - split; rewrite Hc1; apply Hf.
  - left. rewrite E in *. cbn in S. exists w3. split; [done|].
    split; [apply (good_header rw w2); [done|by destruct S|by rewrite (same_conn _ _ S)]|].
    split; [etrans; [by eapply keeps_app|]; etrans; [exact Hk|apply keeps_eq; by destruct S]|].
    destruct S. by apply (P_stable q q1 w w1 w2 w3).
  - right. rewrite E in *. cbn in S. exists v, w3. split; [done|].
    split; [apply (good_header rw w2); [done|by destruct S|by rewrite (same_conn _ _ S)]|].
    split; [split; rewrite (same_conn _ _ S); apply Hf2|].
    split; [etrans; [by eapply keeps_app|]; etrans; [exact Hk|apply keeps_eq; by destruct S]|].
    rewrite (same_cluster _ _ S). congruence.
Qed.

Lemma RequestID_may_panic next : may_panic next -> may_panic (RequestID next).
Proof.
  intros Hn rw r w q Hq Hg Hf. destruct (RequestID_run next rw r w q Hq) as (w1 & -> & Hr1 & Hc1 & Hrec & Hcl & Hck).
  destruct (Hn rw (length (w_requests w)) w1 (identified w q))
    as [(w2 & E & Hg2 & Hk & HP)|(v & w2 & E & Hg2 & Hf2 & Hk & Hcl2)].
  - rewrite Hr1, lookup_app_r by done. by rewrite Nat.sub_diag.
  - apply (good_header rw w); [done|done|by rewrite Hc1].
  - split; rewrite Hc1; apply Hf.
  - left. exists w2. split; [done|]. split; [done|]. split; [etrans; [by eapply keeps_app|done]|].
    apply (P_stable q (identified w q) w w1 w2 w2); try done.
  - right. exists v, w2. split; [done|]. split; [done|]. split; [done|].
    split; [etrans; [by eapply keeps_app|done]|congruence].
Qed.

(** A refusal of the limiter leaves the cluster alone and answers 429, or
    panics when the segment is no label value. *)
Lemma RateLimit_may_panic (cfg : @RateLimitConfig float64) next :
  (forall q w w', w_cluster w' = w_cluster w -> c_status (w_conn w') = Some 429 -> P q w w') ->
  handles P next -> may_panic (RateLimit cfg next).
Proof.
  intros Hrefuse Hn rw r w q Hq Hg Hf. unfold RateLimit.
  erewrite (bind_run (deref_request r)) by (unfold deref_request; rewrite Hq; reflexivity). cbv zeta.
  destruct (String.eqb (providerFromPath (URL_Path q)) ""); [left; by apply Hn|].
  destruct (getLimiter_run cfg (providerFromPath (URL_Path q)) w)
    as (lim & wa & Ea & _ & _ & Hca & Hcla & Hqa & _ & Hka & Hcoa & Hreca).
  rewrite (bind_run _ _ _ _ _ Ea). erewrite bind_run by reflexivity.
  destruct (limiter_Allow lim _) as [[] lim2]; unfold putLimiter at 1; erewrite bind_run by reflexivity.
  - left. match goal with |- context [next rw r ?w0] => set (wb := w0) end.
    destruct (Hn rw r wb q) as (w' & E & Hg' & Hk & HP).
    + cbn. by rewrite Hqa.
    + apply (good_header rw w); [done|done|cbn; by rewrite Hca].
    + split; cbn; rewrite Hca; apply Hf.
    + exists w'. split; [done|]. split; [done|]. split; [etrans; [by apply (keeps_eq w wb)|done]|].
      by apply (P_stable q q w wb w' w').
  - unfold inc_values. destruct (forallb ValidString _).
    2:{ right. do 2 eexists. split; [reflexivity|]. split; [|split; [|split]].
        - apply (good_header rw w); [done|done|cbn; by rewrite Hca].
        - split; cbn; rewrite Hca; apply Hf.
        - by apply keeps_eq.
        - done. }
    left. match goal with |- context [mbind _ (inc _ _) ?w0] => set (wb := w0) end.
    destruct (counter_add "HTTPRateLimited" [providerFromPath (URL_Path q)] 1 wb) as (wc & Ec & Sc & _ & _).
    unfold inc. rewrite (bind_run _ _ _ _ _ Ec).
    destruct (retryAfter_run (providerFromPath (URL_Path q)) lim2 wc) as (n & we & Ee & _ & Hce & Hcle & Hqe & Hrece & _).
    rewrite (bind_run _ _ _ _ _ Ee). destruct Sc as [Sc1 Sc2 Sc3 Sc4 _ _].
    unfold SetHeader. erewrite bind_run by reflexivity.
    match goal with |- context [WriteHeader rw 429 ?w0] => set (wd := w0) end.
    destruct (WriteHeader_good rw wd 429) as (w' & E & Hg' & Hro & _ & Hs & _); [|lia|].
    { apply (good_header rw w); [done|cbn; by rewrite Hrece, Sc4|cbn; rewrite Hce, Sc2; cbn; by rewrite Hca]. }
    exists w'. split; [done|]. split; [done|].
    split; [apply keeps_eq; rewrite (ro_requests _ _ Hro); cbn; by rewrite Hqe, Sc3|].
    apply Hrefuse; [rewrite (ro_cluster _ _ Hro); cbn; by rewrite Hcle, Sc1|].
    rewrite Hs. cbn. rewrite Hce, Sc2. cbn. rewrite Hca. by destruct Hf as [-> _].
Qed.

End Preserve.

(** ** The mux *)

Section MuxLaws.
Context {C L : Type}.
Implicit Types w : world C L.

Lemma set_route_run r patStr vs w q :
  w_requests w !! r = Some q ->
  exists w1, set_route r patStr vs w = (Ret tt, w1) /\ w_requests w1 !! r = Some (with_route patStr vs q)
    /\ keeps_requests w w1 /\ w_conn w1 = w_conn w /\ w_recorders w1 = w_recorders w
    /\ w_cluster w1 = w_cluster w /\ w_clock w1 = w_clock w.
Proof.
  intros Hq. eexists. split; [reflexivity|]. cbn. rewrite list_lookup_alter_eq, Hq. split; [done|].
  split; [|done]. intros l q0 Hl. cbn. destruct (decide (l = r)) as [->|Hne].
  - exists (with_route patStr vs q). rewrite list_lookup_alter_eq, Hq. split; [done|]. cbn. congruence.
  - exists q0. by rewrite list_lookup_alter_ne.
Qed.

(** A response that leaves the cluster alone. *)
Definition answers (code : Z) (q : Request) w w' : Prop :=
  w_cluster w' = w_cluster w /\ c_status (w_conn w') = Some code.

Lemma handles_http_Error msg code :
  200 <= code <= 999 -> body_allowed code = true -> handles (answers code) (fun rw _ => http_Error rw msg code).
Proof.
  intros Hc Hb rw r w q Hq Hg Hf.
  destruct (http_Error_run rw w msg code Hg Hf Hc Hb) as (w' & E & Hg' & Hro & [Hs _] & _).
  exists w'. split; [done|]. split; [done|]. split; [apply keeps_eq|split]; by destruct Hro.
Qed.

Lemma handles_WriteHeader code :
  200 <= code <= 999 -> handles (answers code) (fun rw _ => WriteHeader rw code).
Proof.
  intros Hc rw r w q Hq Hg [Hs _].
  destruct (WriteHeader_good rw w code Hg Hc) as (w' & E & Hg' & Hro & _ & Hs' & _).
  exists w'. split; [done|]. split; [done|]. rewrite Hs in Hs'. split; [apply keeps_eq|split]; by destruct Hro.
Qed.

(** A header may be set first. *)
Lemma handles_SetHeader code k v h :
  handles (answers code) h -> handles (answers code) (fun rw r => SetHeader rw k v ;; h rw r).
Proof.
  intros Hh rw r w q Hq Hg Hf. unfold SetHeader.
  destruct (modify_header_run (Header_Set k v) w) as (w0 & E0 & Hro & Hr0 & Hc0). rewrite (bind_run _ _ _ _ _ E0).
  destruct (Hh rw r w0 q) as (w' & E & Hg' & Hk & [Hcl Hs]).
  - by rewrite (ro_requests _ _ Hro).
  - apply (good_header rw w); [done|done|by rewrite Hc0].
  - split; rewrite Hc0; apply Hf.
  - exists w'. split; [done|]. split; [done|]. split; [etrans; [apply keeps_eq, (ro_requests _ _ Hro)|done]|].
    split; [by rewrite Hcl, (ro_cluster _ _ Hro)|done].
Qed.

Lemma handles_Redirect url : handles (answers 307) (fun rw r => Redirect rw r url).
Proof.
  intros rw r w q Hq Hg [Hs Hb]. unfold Redirect.
  erewrite (bind_run (deref_request r)) by (unfold deref_request; rewrite Hq; reflexivity).
  erewrite bind_run by reflexivity. cbv zeta. unfold SetHeader. erewrite bind_run by reflexivity.
  set (hadCT := match _ !! "Content-Type" with Some _ => true | None => false end).
  set (f := Header_Set "Location" (hexEscapeNonASCII url)). set (wa := set_conn (upd_header f) w).
  assert (exists wb, (if negb hadCT && (String.eqb (Method q) "GET" || String.eqb (Method q) "HEAD")
      then modify (set_conn (upd_header (Header_Set "Content-Type" "text/html; charset=utf-8"))) else mret tt) wa
      = (Ret tt, wb) /\ response_only w wb /\ w_recorders wb = w_recorders w
        /\ c_status (w_conn wb) = c_status (w_conn w)) as (wb & Eb & Hrob & Hrb & Hsb).
  { destruct (negb hadCT && _); eexists; (split; [reflexivity|]); by repeat split. }
  rewrite (bind_run _ _ _ _ _ Eb). rewrite Hs in Hsb.
  destruct (WriteHeader_good rw wb 307) as (wc & Ec & Hgc & Hroc & _ & Hsc & _); [|lia|].
  { apply (good_header rw w); [done|done|by rewrite Hsb]. }
  rewrite (bind_run _ _ _ _ _ Ec). rewrite Hsb in Hsc. cbn in Hsc.
  destruct (negb hadCT && String.eqb (Method q) "GET").
  - match goal with |- context [Write rw ?b] =>
      destruct (Write_good rw wc b Hgc) as (n & e & wd & Ed & Hgd & Hrod & _ & Hsd & _) end.
    rewrite (bind_run _ _ _ _ _ Ed). exists wd. split; [done|]. split; [done|]. rewrite Hsc in Hsd. cbn in Hsd.
    split; [apply keeps_eq|split]; destruct Hrob, Hroc, Hrod; congruence.
  - exists wc. split; [done|]. split; [done|]. split; [apply keeps_eq|split]; destruct Hrob, Hroc; congruence.
Qed.

(** Fill in the route, then serve. *)
Lemma handles_route (P P0 : Request -> world C L -> world C L -> Prop) patStr vs h rw r w q :
  handles P0 h -> w_requests w !! r = Some q -> good rw w -> fresh w ->
  (forall w1 w', w_cluster w1 = w_cluster w -> w_clock w1 = w_clock w ->
     P0 (with_route patStr vs q) w1 w' -> P q w w') ->
  exists w', (set_route r patStr vs ;; h rw r) w = (Ret tt, w') /\ good rw w' /\ keeps_requests w w' /\ P q w w'.
Proof.
  intros Hh Hq Hg Hf HP.
  destruct (set_route_run r patStr vs w q Hq) as (w1 & E1 & Hq1 & Hk1 & Hc1 & Hr1 & Hcl1 & Hck1).
  rewrite (bind_run _ _ _ _ _ E1). destruct (Hh rw r w1 _ Hq1) as (w' & E' & Hg' & Hk' & HP0).
  - apply (good_header rw w); [done|done|by rewrite Hc1].
  - split; rewrite Hc1; apply Hf.
  - exists w'. split; [done|]. split; [done|]. split; [by etrans|]. by eapply HP.
Qed.

(** What a mux does: a registered handler on the request with its route
    filled in, or an answer of the mux's own. *)
Lemma mux_handles (P : Request -> world C L -> world C L -> Prop)
    (P0 : pattern -> Request -> world C L -> world C L -> Prop) (m : mux (Handler C L)) :
  (forall p h, (p, h) ∈ m -> handles (P0 p) h) ->
  (forall q w w' s, RequestURI q = "*" \/ (forall p h vs, findHandler m q <> Found p h vs) ->
     s ∈ [307; 400; 404; 405] -> answers s q w w' -> P q w w') ->
  (forall q w w1 w' p h vs, findHandler m q = Found p h vs ->
     w_cluster w1 = w_cluster w -> w_clock w1 = w_clock w ->
     P0 p (with_route (pat_text p) vs q) w1 w' -> P q w w') ->
  handles P (mux_ServeHTTP m).
Proof.
  intros Hh Hown Hfound rw r w q Hq Hg Hf. unfold mux_ServeHTTP.
  erewrite (bind_run (deref_request r)) by (unfold deref_request; rewrite Hq; reflexivity).
  destruct (String.eqb_spec (RequestURI q) "*") as [Hstar|_].
  { assert (forall h, handles (answers 400) h ->
      exists w', h rw r w = (Ret tt, w') /\ good rw w' /\ keeps_requests w w' /\ P q w w') as Hans.
    { intros h Hc. destruct (Hc rw r w q Hq Hg Hf) as (w' & E & Hg' & Hk & Ha). exists w'.
      split; [done|]. split; [done|]. split; [done|]. apply (Hown _ _ _ 400); [by left|set_solver|done]. }
    destruct (ProtoAtLeast11 q).
    - apply (Hans (fun rw _ => SetHeader rw "Connection" "close" ;; WriteHeader rw 400)).
      apply handles_SetHeader, handles_WriteHeader. lia.
    - apply (Hans (fun rw _ => mret tt ;; WriteHeader rw 400)). apply handles_WriteHeader. lia. }
  assert (forall code patStr h, (forall p h vs, findHandler m q <> Found p h vs) ->
    code ∈ [307; 404; 405] -> handles (answers code) h ->
    exists w', (set_route r patStr [] ;; h rw r) w = (Ret tt, w') /\ good rw w' /\ keeps_requests w w' /\ P q w w')
    as Hroute.
  { intros code patStr h Hnone Hcode Hc. eapply (handles_route P); [exact Hc|done|done|done|].
    intros w1 w' Hcl _ [Ha Hs]. apply (Hown _ _ _ code); [by right|set_solver|]. split; [by rewrite Ha|done]. }
  destruct (findHandler m q) as [p h vs|loc patStr|ms|] eqn:EF.
  - eapply (handles_route P); [by eapply Hh, findHandler_in|done|done|done|]. intros w1 w' Hcl Hck HP.
    by eapply Hfound.
  - apply (Hroute 307 patStr (fun rw r => Redirect rw r loc)); [by intros ? ? ? E; congruence|set_solver|apply handles_Redirect].
  - apply (Hroute 405 "" (fun rw _ => SetHeader rw "Allow" (String.concat ", " ms) ;; http_Error rw "Method Not Allowed" 405));
      [by intros ? ? ? E; congruence|set_solver|]. apply handles_SetHeader, handles_http_Error; [lia|done].
  - apply (Hroute 404 "" (fun rw _ => http_Error rw "404 page not found" 404)); [by intros ? ? ? E; congruence|set_solver|].
    apply handles_http_Error; [lia|done].
Qed.

End MuxLaws.

(** ** The program *)

(** The wiring of [run]: no dispatcher without an enabled provider. *)
Definition wire {C L RC : Type} `{UnicodeTables, !K8sClient C object object_list, !ApiErrors, !Tracer, !K8sLibrary RC,
    !UUID, !RateLimiter L float64, !OTelHTTP C L} (cfg : Config.Config) : outcome (result (Handler C L)) :=
  match EnabledProviders cfg with
  | [] => Ret (Ok (buildPublicHandler cfg None))
  | _ =>
      match buildDispatcher (C:=C) (L:=L) cfg true with
      | Panic v => Panic v
      | Ret (Err err) => Ret (Err (wrapped "dispatcher" err))
      | Ret (Ok d) => Ret (Ok (buildPublicHandler cfg (Some (ServeHTTP d))))
      end
  end.

Section Program.
Context {C L RC : Type} `{UnicodeTables, !K8sClient C object object_list, !ApiErrors, !Tracer, !K8sLibrary RC}.
Context `{!UUID, !RateLimiter L float64, !OTelHTTP C L, !OTelHTTPLaws C L}.
Variables (env : gmap string string) (cfg : Config.Config).
Hypothesis loaded : Load env = Ok cfg.
Implicit Types w : world C L.

(** The escaped path is clean, and its segments name the webhook route and a
    provider. *)
Definition routed (q : Request) (name : string) : Prop :=
  Method q = "POST" /\ cleanPath (EscapedPath (URL q)) = EscapedPath (URL q)
  /\ exists raw1 raw2, EscapedPath (URL q) = String slash (raw1 +:+ String slash raw2)
       /\ ~ sIn slash raw1 /\ ~ sIn slash raw2 /\ pathUnescape raw1 = "webhook"
       /\ raw2 <> "" /\ name <> "/" /\ pathUnescape raw2 = name.

Lemma found_routed {X} (h : X) q p h' vs :
  findHandler [(webhook_pattern, h)] q = Found p h' vs <->
  p = webhook_pattern /\ h' = h /\ exists name, vs = [("provider", name)] /\ routed q name.
Proof.
  rewrite findHandler_one by done. cbn [pat_method pat_segments webhook_pattern].
  assert (method_matches "POST" (Method q) = true <-> Method q = "POST") as Hm.
  { unfold method_matches. destruct (String.eqb_spec "POST" (Method q)); [naive_solver|].
    rewrite andb_false_r. naive_solver. }
  destruct (cleanPath_rooted (EscapedPath (URL q))) as (p0 & Hp0).
  split.
  - intros (-> & -> & HM & _ & Hc & Hs). apply Hm in HM. split; [done|]. split; [done|].
    rewrite <- Hc, Hp0 in Hs. apply match_two in Hs as (raw1 & raw2 & -> & Hf1 & Hf2 & Hl & Hne & Hsl & ->); [|done].
    exists (pathUnescape raw2). split; [done|]. split; [done|]. split; [done|]. exists raw1, raw2.
    rewrite <- Hc, Hp0. done.
  - intros (-> & -> & name & -> & HM & Hc & raw1 & raw2 & Hp & Hf1 & Hf2 & Hl & Hne & Hsl & <-).
    split; [done|]. split; [done|]. split; [by apply Hm|]. split; [by rewrite HM|]. split; [done|].
    rewrite Hp. apply match_two; [done|]. by exists raw1, raw2.
Qed.

(** The public mux hands a request to the webhook handler exactly when
    it is a POST whose escaped path is clean and has two segments, the first
    of which unescapes to webhook and the second, not empty and not an escaped
    slash, to the provider's name, which the handler then reads. *)
Theorem webhook_route_iff {X} (h : X) (q : Request) p h' vs :
  findHandler [(webhook_pattern, h)] q = Found p h' vs <->
  p = webhook_pattern /\ h' = h /\ exists name, vs = [("provider", name)] /\ routed q name.
Proof. apply found_routed. Qed.

Local Notation jsm := (main_jsm (C:=C) (L:=L) cfg true).
Local Notation exec := (main_executor (C:=C) (L:=L) cfg true).

(** A message the program acts on: posted to the JSM route, complete, within
    the limit, signed at an instant of the clock. *)
Definition genuine (q : Request) w : Prop :=
  routed q "jsm" /\ Z.of_nat (String.length (b_data (ReqBody q))) <= Config.MaxBodyBytes cfg
  /\ b_err (ReqBody q) = None
  /\ exists n, signed jsm q (b_data (ReqBody q)) (time_of_ns (w_clock w n)).

(** What the program does with a message. *)
Inductive handled (q : Request) w w' : Prop :=
| handled_aside status :
    w_cluster w' = w_cluster w -> c_status (w_conn w') = Some status -> status <> 504 ->
    (status = 200 -> genuine q w /\ exists payload,
       Decode (b_data (ReqBody q)) = Ok payload /\ Payload_Status payload <> Jsm.TriggerStatus jsm) ->
    handled q w w'
| handled_executed ctx payload g role project res :
    genuine q w -> approved jsm (b_data (ReqBody q)) payload g role project ->
    executed exec ctx (Jsm.applyAction jsm payload g role project) (w_cluster w) res (w_cluster w') ->
    c_status (w_conn w') = Some (HTTPStatus (Kind res)) ->
    handled q w w'.

Lemma routed_message q q1 name : same_message q q1 -> routed q1 name -> routed q name.
Proof. intros [Hm _ Hu _ _ _]. unfold routed. by rewrite Hm, Hu. Qed.

Lemma genuine_message q q1 w w1 :
  same_message q q1 -> w_clock w1 = w_clock w -> genuine q1 w1 -> genuine q w.
Proof.
  intros Hm Hc (Hr & Hl & He & n & Hs). pose proof (routed_message _ _ _ Hm Hr) as Hr'.
  destruct Hm as [_ _ _ Hh _ Hb]. rewrite Hb in *. split; [done|]. split; [done|]. split; [done|]. exists n.
  unfold signed in *. by rewrite Hh, Hc in Hs.
Qed.

Lemma handled_stable : stable handled.
Proof.
  intros q q1 w w1 w2 w' Hm Hcl Hck Hcl' Hcn' Hh. pose proof (msg_body _ _ Hm) as Hb.
  destruct Hh as [s Hc Hs H504 H200|ctx payload g role pj res Hg Ha Hx Hs].
  - eapply (handled_aside _ _ _ s); [congruence|congruence|done|]. intros Hok. destruct (H200 Hok) as [Hg Hp].
    split; [by eapply genuine_message|by rewrite <- Hb].
  - rewrite Hb in *. apply (handled_executed _ _ _ ctx payload g role pj res); [by eapply genuine_message|exact Ha| |congruence].
    rewrite Hcl', <- Hcl. exact Hx.
Qed.

Lemma answers_handled s q w w' : s <> 200 -> s <> 504 -> answers s q w w' -> handled q w w'.
Proof. intros Hs Hs' [Hc Hst]. by eapply handled_aside. Qed.

(** The chain around the mux. *)
Lemma public_handles d :
  (forall p h, (p, h) ∈ [(webhook_pattern, match d with Some d => d | None => disabled end)] ->
     handles (fun q w w' => (exists name, PathValues q = {[ "provider" := name ]} /\ routed q name) -> handled q w w') h) ->
  handles handled (buildPublicHandler cfg d).
Proof.
  intros Hd. unfold buildPublicHandler. repeat rewrite Chain_cons.
  apply (Recover_panics handled), OTel_may_panic, RequestID_may_panic, RateLimit_may_panic, SLog_handles, Metrics_handles;
    try apply handled_stable.
  { intros q w w' Hc Hs. by apply (answers_handled 500). }
  { intros q w w' Hc Hs. by apply (answers_handled 429). }
  apply (mux_handles _ (fun _ => _) _ Hd).
  - intros q w w' s _ Hs Ha. apply (answers_handled s); [intros ->; set_solver|intros ->; set_solver|done].
  - intros q w w1 w' p h vs Hf Hcl Hck Hh. apply found_routed in Hf as (-> & _ & name & -> & Hr).
    apply (handled_stable q (with_route (pat_text webhook_pattern) [("provider", name)] q) w w1 w' w');
      try done. apply Hh. by exists name.
Qed.

Lemma disabled_handles P : (forall q w w', answers 503 q w w' -> P q w w') -> handles P (disabled (C:=C) (L:=L)).
Proof.
  intros HP rw r w q Hq Hg Hf.
  assert (handles (answers 503) (disabled (C:=C) (L:=L))) as Hd
    by (apply handles_SetHeader, handles_http_Error; [lia|done]).
  destruct (Hd rw r w q Hq Hg Hf) as (w' & E & Hg' & Hk & Ha). exists w'. eauto.
Qed.

Lemma main_clock : forall f, Jsm.Now (Jsm.cfg_Signature jsm) = Some f -> quiet f.
Proof. intros f [= <-]. apply quiet_time_Now. Qed.

(** An authentic request that was routed is a genuine message. *)
Lemma authentic_genuine q name w :
  PathValues q = {[ "provider" := name ]} -> routed q name ->
  authentic jsm (Config.MaxBodyBytes cfg) q w -> genuine q w.
Proof.
  intros Hv Hr (Hp & Hl & He & t & w1 & Ht & Hs). rewrite Hv, lookup_singleton_eq in Hp. injection Hp as ->.
  split; [done|]. split; [done|]. split; [done|]. exists (w_reads w). injection Ht as <- _. exact Hs.
Qed.

Lemma dispatcher_handles :
  handles (fun q w w' => (exists name, PathValues q = {[ "provider" := name ]} /\ routed q name) -> handled q w w')
    (ServeHTTP (jsm_dispatcher jsm exec true (Config.MaxBodyBytes cfg))).
Proof.
  intros rw r w q Hq Hg Hf.
  pose proof (Execute_spec (O:=object) (OL:=object_list) exec quiet_time_Now) as Hspec.
  destruct (ServeHTTP_serves _ (jsm_providers_pure jsm exec true (Config.MaxBodyBytes cfg) main_clock) rw r q w Hq Hg Hf)
    as (w' & st & b & E & Hg' & _ & Hreq & _).
  exists w'. split; [done|]. split; [done|]. split; [by apply keeps_eq|]. intros (name & Hv & Hr).
  destruct (jsm_served jsm exec true (Config.MaxBodyBytes cfg) main_clock quiet_time_Now rw r q w w' Hq Hg Hf E)
    as [s Hc Hs H504 H200|payload g role pj res Ha Hp Hx Hs].
  - eapply handled_aside; [done|done|done|]. intros Hok. destruct (H200 Hok) as [Ha Hrest].
    split; [by eapply authentic_genuine|done].
  - apply (handled_executed _ _ _ (ReqContext q) payload g role pj res); [by eapply authentic_genuine|done|done|done].
Qed.

(** The handler [run] serves, whatever the configuration that loaded. *)
Lemma wire_handles h : wire cfg = Ret (Ok h) -> handles handled h.
Proof.
  unfold wire. destruct (EnabledProviders cfg) as [|n ns] eqn:En.
  - intros [= <-]. apply public_handles. intros p h0 [= -> ->]%list_elem_of_singleton.
    apply disabled_handles. intros q w w' Ha _. by apply (answers_handled 503).
  - destruct (buildDispatcher cfg true) as [[d|]|] eqn:Ed; try done. intros [= <-].
    apply (buildDispatcher_jsm env) in Ed as ->; [|done|by rewrite En].
    apply public_handles. intros p h0 [= -> ->]%list_elem_of_singleton. apply dispatcher_handles.
Qed.

(** Every request to the public listener is answered, without a panic,
    and handled in one of two ways: the cluster is untouched, and then a 200
    is only for a genuine message whose ticket is not in the trigger status;
    or a genuine message carries an approved ticket, whose apply is executed
    on the cluster and decides the status. *)
Theorem public_serves h r w q :
  wire cfg = Ret (Ok h) -> w_requests w !! r = Some q -> fresh w ->
  exists w', h RWConn r w = (Ret tt, w') /\ handled q w w'.
Proof.
  intros Hw Hq Hf. destruct (wire_handles h Hw RWConn r w q Hq (good_conn w) Hf) as (w' & E & _ & _ & Hh). eauto.
Qed.

(** C1: Only a signed, approved ticket reaches the cluster.  If a request to
    the public listener changes the cluster, then it was posted to the route
    of the JSM provider, its complete body fits the configured limit, the
    HMAC over timestamp and body, under the configured secret, checks at an
    instant of the clock, the body is a ticket in the configured trigger
    status whose three configured fields are non-blank strings, and the
    change is the execution of the apply of that ticket's resource. *)
Theorem public_cluster_change h r w q w' :
  wire cfg = Ret (Ok h) -> w_requests w !! r = Some q -> fresh w ->
  h RWConn r w = (Ret tt, w') -> w_cluster w' <> w_cluster w ->
  genuine q w
  /\ exists ctx payload g role project res, approved jsm (b_data (ReqBody q)) payload g role project
      /\ executed exec ctx (Jsm.applyAction jsm payload g role project) (w_cluster w) res (w_cluster w').
Proof.
  intros Hw Hq Hf E Hne. destruct (wire_handles h Hw RWConn r w q Hq (good_conn w) Hf) as (w2 & E' & _ & _ & Hh).
  rewrite E in E'. injection E' as <-. destruct Hh as [s Hsame _ _ _|ctx payload g role pj res Hg Ha Hx _]; [done|].
  split; [done|]. by exists ctx, payload, g, role, pj, res.
Qed.

(** C2: A success response tells the truth.  If a request to the public
    listener is answered 200, the message was genuine, and either its ticket
    is not in the trigger status and the cluster is untouched, or it is an
    approved ticket, the API server accepted the ticket's stamped resource,
    and a [SAMLGroupMapping] of that name, seen in the cluster after the
    apply, had observed at least the applied generation and carried the
    condition Ready=True. *)
Theorem public_success_is_ready `{!TracerLaws} h r w q w' :
  wire cfg = Ret (Ok h) -> w_requests w !! r = Some q -> fresh w ->
  h RWConn r w = (Ret tt, w') -> c_status (w_conn w') = Some 200 ->
  genuine q w /\ exists payload, Decode (b_data (ReqBody q)) = Ok payload
  /\ ((Payload_Status payload <> Jsm.TriggerStatus jsm /\ w_cluster w' = w_cluster w)
      \/ exists ctx g role project applied cr,
          approved jsm (b_data (ReqBody q)) payload g role project
          /\ ready_for exec ctx (Jsm.applyAction jsm payload g role project) (w_cluster w)
               applied (ObjSAMLGroupMapping cr) (st_ObservedGeneration (sgm_Status cr))
          /\ GetGeneration applied <= st_ObservedGeneration (sgm_Status cr)
          /\ exists c, c ∈ Conditions (sgm_Status cr) /\ c_Type c = "Ready" /\ c_Status c = "True").
Proof.
  intros Hw Hq Hf E H200. destruct (wire_handles h Hw RWConn r w q Hq (good_conn w) Hf) as (w2 & E' & _ & _ & Hh).
  rewrite E in E'. injection E' as <-. destruct Hh as [s Hsame Hs _ Hnoop|ctx payload g role pj res Hg Ha Hx Hs].
  - rewrite H200 in Hs. injection Hs as <-. destruct (Hnoop eq_refl) as [Hg (payload & Hd & Hne)].
    split; [done|]. exists payload. auto.
  - split; [done|]. exists payload. split; [by destruct Ha|]. right. rewrite H200 in Hs. injection Hs as Hs.
    destruct (executed_success _ _ _ _ _ _ _ _ _ _ Hx (eq_sym Hs)) as (applied & cr & Hr & Hle & Hc).
    by exists ctx, g, role, pj, applied, cr.
Qed.

End Program.

(** ** A concrete program

    The minimal configuration, on the one-object cluster of
    [ExecutorSample]; a ticket posted to it ends in an applied resource. *)

Module PublicSample.
Import ExecutorSample.

#[local] Instance tables0 : UnicodeTables := plain_tables.
#[local] Instance library0 : K8sLibrary unit := StartupSample.library0.
#[local] Instance uuid0 : UUID := HttpxSample.uuid0.

#[local] Instance limiter0 : RateLimiter Z float64 := {|
  Reservation := unit;
  rate_NewLimiter _ burst := burst;
  limiter_Allow tokens _ := if 0 <? tokens then (true, tokens - 1) else (false, tokens);
  limiter_Reserve tokens _ := (tt, tokens - 1);
  reservation_Delay _ _ := 2500000000;
  reservation_Cancel _ tokens _ := tokens + 1
|}.

(** A span around the handler. *)
#[local] Instance otel0 {C L : Type} : OTelHTTP C L := {|
  otelhttp_NewHandler next op name rw r w :=
    match (span (SpanStart op) ;;
           WithContext r (fun ctx => mkContext (ctx_request_id ctx) (Some (mkSpanContext "trace-1" "span-1")) (ctx_done ctx))) w with
    | (Ret r', w1) => let '(o, w2) := next rw r' w1 in (o, (span SpanEnd w2).2)
    | (Panic v, w1) => (Panic v, w1)
    end
|}.

#[local] Instance otel0_laws {C L : Type} : OTelHTTPLaws C L.
Proof.
  split. intros next op name rw r w q Hq. cbn [otelhttp_NewHandler otel0].
  erewrite bind_run by reflexivity. unfold WithContext.
  erewrite (bind_run (deref_request r)) by (unfold deref_request; cbn; rewrite Hq; reflexivity).
  erewrite bind_run by reflexivity. erewrite bind_run by reflexivity. cbn [mret M_ret].
  match goal with |- context [next rw _ ?w0] => set (w1 := w0) end.
  do 2 eexists. exists (span SpanEnd (next rw (length (w_requests w)) w1).2).2.
  split; [exact (eq_refl (w_requests w1))|]. split; [by constructor|]. repeat (split; [done|]).
  split; [cbn; by destruct (next rw (length (w_requests w)) w1)|]. split; [by constructor|]. done.
Qed.

Definition cfg0 : Config.Config := StartupSample.cfg0.

Definition body0 : string :=
  Encode (jsm_body "SEC-1" "Ready to Provision"
    [("customfield_1", "team-a"); ("customfield_2", "reader"); ("customfield_3", " p1 ")]).

Definition request0 : Request :=
  mkRequest "POST" "/webhook/jsm" true (mkURL "/webhook/jsm" "/webhook/jsm" "") "" ∅
    {[ "X-Webhook-Signature" := [sign "s3cret" "1700000000" body0]; "X-Webhook-Timestamp" := ["1700000000"] ]}
    (Z.of_nat (String.length body0)) (mkBody body0 None) (mkContext None None None).

Definition w0 : world cluster Z := start_world None (fun n => T0 + Z.of_nat n) [request0].

Definition handler0 : Handler cluster Z :=
  match wire cfg0 with Ret (Ok h) => h | _ => fun _ _ => mret tt end.

Lemma wire0 : wire cfg0 = Ret (Ok handler0).
Proof.
  assert (match wire (C:=cluster) (L:=Z) cfg0 with Ret (Ok _) => true | _ => false end = true) as H
    by (vm_compute; reflexivity).
  unfold handler0. by destruct (wire cfg0) as [[h|]|].
Qed.

(** The run: answered 200, and the resource is in the cluster. *)
Example handler0_run :
  let '(o, w') := handler0 RWConn 0%nat w0 in
  (o, c_status (w_conn w'), c_body (w_conn w'), GetName <$> w_cluster w')
  = (Ret tt, Some 200,
     squote "{'status':'success','crName':'jsm-sec-1','namespace':'wiz-operator','observedGeneration':1,'traceId':'trace-1','requestId':'id-2'}"
       +:+ single (chr 10),
     Some "jsm-sec-1").
Proof. vm_compute. reflexivity. Qed.

Lemma run0 :
  exists w', handler0 RWConn 0%nat w0 = (Ret tt, w') /\ c_status (w_conn w') = Some 200
    /\ w_cluster w' <> w_cluster w0.
Proof.
  pose proof handler0_run as H. destruct (handler0 RWConn 0%nat w0) as [o w'].
  injection H as -> Hs _ Hc. exists w'. split; [done|]. split; [done|]. cbn. by intros E; rewrite E in Hc.
Qed.

Lemma public_fresh0 : fresh w0.
Proof. split; reflexivity. Qed.

Lemma public_serves_witness :
  exists w', handler0 RWConn 0%nat w0 = (Ret tt, w') /\ handled cfg0 request0 w0 w'.
Proof.
  exact (public_serves ConfigSample.minimal_env cfg0 StartupSample.Load_cfg0 handler0 0%nat w0 request0
           wire0 eq_refl public_fresh0).
Defined.

Lemma public_cluster_change_witness : genuine (C:=cluster) cfg0 request0 w0.
Proof.
  destruct run0 as (w' & E & _ & Hne).
  exact (proj1 (public_cluster_change ConfigSample.minimal_env cfg0 StartupSample.Load_cfg0 handler0 0%nat w0
           request0 w' wire0 eq_refl public_fresh0 E Hne)).
Defined.

Lemma public_success_is_ready_witness :
  exists payload, Decode body0 = Ok payload /\ genuine (C:=cluster) cfg0 request0 w0.
Proof.
  destruct run0 as (w' & E & Hs & _).
  destruct (public_success_is_ready ConfigSample.minimal_env cfg0 StartupSample.Load_cfg0 handler0 0%nat w0
           request0 w' wire0 eq_refl public_fresh0 E Hs) as [Hg (payload & Hd & _)].
  exists payload. split; [exact Hd|exact Hg].
Defined.

End PublicSample.
