(* ===== verification/Convergence.v ===== *)
(** * Deliveries over time: what is left in the cluster

    JSM delivers webhooks more than once and in any order, and the operator
    writes statuses meanwhile.  Here whole histories of requests and operator
    steps are considered: the resources in the cluster are those of the
    genuine, approved tickets, the last one written winning; a repeated
    delivery changes nothing but the three stamps of the executor; and one for
    a resource that is ready is answered at once.

    What the API server does with an apply is documented and not part of the
    program: the class [ApiServer] names the state it keeps and [ApiServerLaws]
    its behaviour, for server-side apply with forced ownership under a schema
    whose lists are atomic (the default), with no admission hook that rewrites
    objects. *)

From S2P Require Import Prelude GoStrings Unicode GoTime GoFloat Signature Json JsonEncode Result Runtime Recorder.
From S2P Require Import Action WizApi JsmPayload JsmProvider Executor Dispatcher System Httpx Config Startup Public.

(** ** The API server *)

(** The status is the operator's; the rest is what was asked for. *)
Definition desired_of (o : object) : object :=
  match o with
  | ObjSAMLGroupMapping cr =>
      ObjSAMLGroupMapping (mkSAMLGroupMapping (sgm_TypeMeta cr) (sgm_ObjectMeta cr) (sgm_Spec cr) zeroStatus)
  | ObjProject p => ObjProject (mkProject (p_TypeMeta p) (p_ObjectMeta p) (p_SpecName p) (mkProjectStatus 0 []))
  | ObjUserRole u => ObjUserRole (mkUserRole (u_TypeMeta u) (u_ObjectMeta u) (u_SpecName u) (mkUserRoleStatus 0 []))
  end.

(** Objects are stored by kind, namespace and name. *)
Abbreviation key := (string * string * string)%type.

Definition kind_of (o : object) : string :=
  match o with
  | ObjSAMLGroupMapping _ => "SAMLGroupMapping"
  | ObjProject _ => "Project"
  | ObjUserRole _ => "UserRole"
  end.

Definition mapping_key (ns n : string) : key := ("SAMLGroupMapping", ns, n).

Definition cr_key (cr : SAMLGroupMapping) : key :=
  mapping_key (om_Namespace (sgm_ObjectMeta cr)) (om_Name (sgm_ObjectMeta cr)).

(** A cluster as the API server keeps it: the objects by key, and the label
    and annotation keys a field manager owns in each
    ([metadata.managedFields]).  [operator] is what can happen to the cluster
    while a call is under way. *)
Class ApiServer (C : Type) := {
  stored : C -> key -> option object;
  owned_labels : C -> key -> string -> gset string;
  owned_annotations : C -> key -> string -> gset string;
  operator : C -> C -> Prop
}.

Section Server.
Context {C : Type} `{!ApiServer C}.

(** Only statuses differ at this key. *)
Definition same_at (k : key) (c c' : C) : Prop :=
  desired_of <$> stored c' k = desired_of <$> stored c k
  /\ (forall owner, owned_labels c' k owner = owned_labels c k owner)
  /\ forall owner, owned_annotations c' k owner = owned_annotations c k owner.

#[export] Instance same_at_preorder k : PreOrder (same_at k).
Proof.
  split; [by intros ?|]. intros ??? (H1 & H2 & H3) (H1' & H2' & H3').
  split; [congruence|]. split; intros owner; congruence.
Qed.

(** Applied keys have the applied values; a key that is not applied, and not
    owned by the manager, keeps its value. *)
Definition merged (applied prev result : string_map_t) (owned : gset string) : Prop :=
  (forall k v, applied !! k = Some v -> result !! k = Some v)
  /\ (forall k, applied !! k = None -> k ∉ owned -> result !! k = prev !! k).

(** A forced server-side apply of a mapping by a manager, from [c] to [c']:
    spec and type are those sent, labels and annotations are merged, the
    manager owns what it sent, the generation counts the changes of the spec,
    the status is kept, and no other object is touched. *)
Record ssa_applied (owner : string) (cr : SAMLGroupMapping) (c c' : C) (new : SAMLGroupMapping) : Prop := {
  ssa_stored : stored c' (cr_key cr) = Some (ObjSAMLGroupMapping new);
  ssa_type : sgm_TypeMeta new = sgm_TypeMeta cr;
  ssa_name : om_Name (sgm_ObjectMeta new) = om_Name (sgm_ObjectMeta cr)
             /\ om_Namespace (sgm_ObjectMeta new) = om_Namespace (sgm_ObjectMeta cr);
  ssa_spec : sgm_Spec new = sgm_Spec cr;
  ssa_labels :
    merged (om_Labels (sgm_ObjectMeta cr))
      (default ∅ (GetLabels <$> stored c (cr_key cr)))
      (om_Labels (sgm_ObjectMeta new))
      (owned_labels c (cr_key cr) owner);
  ssa_annotations :
    merged (om_Annotations (sgm_ObjectMeta cr))
      (default ∅ (GetAnnotations <$> stored c (cr_key cr)))
      (om_Annotations (sgm_ObjectMeta new))
      (owned_annotations c (cr_key cr) owner);
  ssa_owned :
    owned_labels c' (cr_key cr) owner
      = dom (om_Labels (sgm_ObjectMeta cr))
    /\ owned_annotations c' (cr_key cr) owner
      = dom (om_Annotations (sgm_ObjectMeta cr));
  ssa_generation :
    match stored c (cr_key cr) with
    | Some (ObjSAMLGroupMapping old) =>
        (sgm_Spec old = sgm_Spec cr -> om_Generation (sgm_ObjectMeta new) = om_Generation (sgm_ObjectMeta old))
        /\ om_Generation (sgm_ObjectMeta old) <= om_Generation (sgm_ObjectMeta new)
        /\ sgm_Status new = sgm_Status old
    | _ => om_Generation (sgm_ObjectMeta new) = 1
    end;
  ssa_frame k : k <> cr_key cr -> stored c' k = stored c k /\ same_at k c c'
}.

(** An answer decoded into an object: what the server sent is there; a field
    that is left out of the JSON (an empty one) can keep an older value. *)
Definition answers_with (o s : object) : Prop :=
  GetName o = GetName s /\ GetNamespace o = GetNamespace s
  /\ (GetGeneration s <> 0 -> GetGeneration o = GetGeneration s)
  /\ match s with
     | ObjSAMLGroupMapping cr => exists cr', o = ObjSAMLGroupMapping cr'
         /\ (st_ObservedGeneration (sgm_Status cr) <> 0 ->
             st_ObservedGeneration (sgm_Status cr') = st_ObservedGeneration (sgm_Status cr))
         /\ (Conditions (sgm_Status cr) <> [] -> Conditions (sgm_Status cr') = Conditions (sgm_Status cr))
     | _ => True
     end.

End Server.

(** Every field of the spec is in the JSON that is sent. *)
Definition complete (cr : SAMLGroupMapping) : Prop := Description (sgm_Spec cr) <> "".

Class ApiServerLaws (C : Type) `{!K8sClient C object object_list, !ApiServer C} : Prop := {
  operator_preorder :: PreOrder operator;
  operator_status c c' k : operator c c' -> same_at k c c';
  (** An accepted patch is applied and answers what is stored. *)
  Patch_accepted ctx cr owner c o1 c1 :
    complete cr -> client_Patch ctx (ObjSAMLGroupMapping cr) owner true c = (None, o1, c1) ->
    exists ca cb new, operator c ca /\ ssa_applied owner cr ca cb new /\ operator cb c1
      /\ answers_with o1 (ObjSAMLGroupMapping new);
  (** One that failed was applied, for all the caller knows, or not. *)
  Patch_failed ctx cr owner c err o1 c1 :
    complete cr -> client_Patch ctx (ObjSAMLGroupMapping cr) owner true c = (Some err, o1, c1) ->
    exists ca cb, operator c ca /\ (cb = ca \/ exists new, ssa_applied owner cr ca cb new) /\ operator cb c1;
  Get_reads ctx ns n into c err o c1 :
    client_Get ctx ns n into c = (err, o, c1) ->
    exists ca, operator c ca /\ operator ca c1
      /\ (err = None -> exists s, stored ca (kind_of into, ns, n) = Some s /\ answers_with o s);
  Watch_reads ctx ol ns c r c1 : client_Watch ctx ol ns c = (r, c1) -> operator c c1;
  Stop_reads s c : operator c (watcher_Stop s c)
}.

(** ** What one execution leaves *)

(** The mapping of an approved ticket. *)
Definition ticket_cr {C L : Type} `{UnicodeTables} (cfg : @Jsm.Config C L) (payload : Payload) (g role project : string)
  : SAMLGroupMapping :=
  Jsm.BuildSAMLGroupMapping (Jsm.CRName (IssueKey payload)) (Jsm.cfg_Namespace cfg)
    (Jsm.BuildSpec g role project (Jsm.cfg_IdentityProviderID cfg) (Jsm.BuildDescription (IssueKey payload))).

(** The mapping that is sent for a ticket, with labels and annotations. *)
Definition sent_cr (cr : SAMLGroupMapping) (labels annotations : string_map_t) : SAMLGroupMapping :=
  mkSAMLGroupMapping (sgm_TypeMeta cr)
    (mkObjectMeta (om_Name (sgm_ObjectMeta cr)) (om_Namespace (sgm_ObjectMeta cr)) (om_Generation (sgm_ObjectMeta cr))
       labels annotations)
    (sgm_Spec cr) (sgm_Status cr).

(** The annotations the executor stamps, which differ from one delivery to
    the next. *)
Definition stamp_keys : list string := [AnnotationTraceID; AnnotationReqID; AnnotationApplied].

Section Effects.
Context {C L : Type} `{UnicodeTables, !K8sClient C object object_list, !ApiErrors, !Tracer, !ApiServer C, !ApiServerLaws C}.
Variables (cfg : @Jsm.Config C L) (e : @Executor C L).
Implicit Types (c : C) (cr new : SAMLGroupMapping).

Local Notation ticket := (ticket_cr cfg).
Local Notation action := (Jsm.applyAction cfg).
Local Notation owner := (exec_FieldManager e).

Definition sent_labels : string_map_t := mergeLabels ∅ (systemLabels "jsm").

Definition sent_annotations (payload : Payload) (t : Time) (ctx : Context) : string_map_t :=
  mergeAnnotations ∅ {[ Jsm.AnnotationIssue := IssueKey payload ]} (stamps t ctx).

(** What [apply] sends for a ticket. *)
Lemma stamped_ticket payload g role project ctx t :
  stamped (action payload g role project) ctx t
  = ObjSAMLGroupMapping (sent_cr (ticket payload g role project) sent_labels (sent_annotations payload t ctx)).
Proof. reflexivity. Qed.

Lemma sent_annotations_lookup payload t ctx k :
  k ∉ stamp_keys ->
  sent_annotations payload t ctx !! k = ({[ Jsm.AnnotationIssue := IssueKey payload ]} : string_map_t) !! k.
Proof.
  intros Hk. unfold sent_annotations. rewrite mergeAnnotations_lookup, stamps_lookup.
  apply not_elem_of_cons in Hk as [Hk1 [Hk2 [Hk3 _]%not_elem_of_cons]%not_elem_of_cons].
  rewrite (proj2 (String.eqb_neq _ _) Hk1), (proj2 (String.eqb_neq _ _) Hk2), (proj2 (String.eqb_neq _ _) Hk3).
  cbn [andb]. by destruct (_ !! k).
Qed.

Lemma sent_complete payload g role project labels annotations :
  complete (sent_cr (ticket payload g role project) labels annotations).
Proof. done. Qed.

Lemma waited_operator act (applied : object) D start c res c' :
  waited e act applied D start c res c' -> operator c c'.
Proof.
  assert (forall c c1, not_yet act applied c c1 -> operator c c1) as Hny.
  { intros x y. unfold not_yet. destruct (DeepCopyObject applied); [|by intros ->].
    intros (ctx & err & obj & HG & _). apply Get_reads in HG as (ca & Op1 & Op2 & _). by etrans. }
  intros [ctx cur obj g c1 _ HG _|ctx err c1 c2 Hn HW|ctx s v t c1 c2 Hn HW _].
  - apply Get_reads in HG as (ca & Op1 & Op2 & _). by etrans.
  - etrans; [by apply Hny|by eapply Watch_reads].
  - etrans; [by apply Hny|]. etrans; [by eapply Watch_reads|apply Stop_reads].
Qed.

(** An execution is operator steps around at most one application of the
    ticket's mapping, and exactly one when it is answered 200 or 504. *)
Definition left_by payload g role project (res : ExecResult) c c' : Prop :=
  exists ca cb t ctx, operator c ca /\ operator cb c'
    /\ let cr := sent_cr (ticket payload g role project) sent_labels (sent_annotations payload t ctx) in
       (exists new, ssa_applied owner cr ca cb new)
       \/ (cb = ca /\ HTTPStatus (Kind res) <> 200 /\ HTTPStatus (Kind res) <> 504).

Lemma executed_left ctx payload g role project c res c' :
  executed e ctx (action payload g role project) c res c' -> left_by payload g role project res c c'.
Proof.
  intros [ctx' obj err o1 c1 Hs HP|ctx' obj o1 c1 err o2 c2 Hs HP HG|ctx' obj o1 c1 applied c2 D start res' c3 Hs HP HG Hw];
    destruct Hs as (t & n & _ & _ & ->); rewrite stamped_ticket in HP.
  - apply Patch_failed in HP as (ca & cb & Op1 & Hab & Op2); [|apply sent_complete].
    exists ca, cb, t, ctx'. split; [done|]. split; [done|].
    pose proof (classifyK8sErr_kind (wrapped "ssa patch" err) (GetNamespace o1) (GetName o1)) as Hk.
    destruct Hab as [->|Hnew]; [right|by left]. split; [done|].
    set_unfold in Hk. destruct Hk as [->|[->|[->|[]]]]; done.
  - apply Patch_accepted in HP as (ca & cb & new & Op1 & Hssa & Op2 & _); [|apply sent_complete].
    apply Get_reads in HG as (cd & Op3 & Op4 & _). exists ca, cb, t, ctx'. split; [done|].
    split; [by do 2 (etrans; [done|])|]. left. by exists new.
  - apply Patch_accepted in HP as (ca & cb & new & Op1 & Hssa & Op2 & _); [|apply sent_complete].
    apply Get_reads in HG as (cd & Op3 & Op4 & _). apply waited_operator in Hw. exists ca, cb, t, ctx'. split; [done|].
    split; [by do 3 (etrans; [done|])|]. left. by exists new.
Qed.

End Effects.

(** ** Reading the cluster *)

Section Reading.
Context {C : Type} `{!ApiServer C}.

(** The spec stored under a name, when there is a mapping. *)
Definition spec_at (c : C) (k : key) : option SAMLGroupMappingSpec :=
  match stored c k with Some (ObjSAMLGroupMapping cr) => Some (sgm_Spec cr) | _ => None end.

(** An object up to its status and the executor's stamps. *)
Definition unstamped (o : object) : object :=
  let o := desired_of o in
  SetAnnotations (filter (fun '(k, _) => k ∉ stamp_keys) (GetAnnotations o)) o.

Lemma same_at_stored (c c' : C) k cr :
  same_at k c c' -> stored c k = Some (ObjSAMLGroupMapping cr) ->
  exists cr', stored c' k = Some (ObjSAMLGroupMapping cr')
    /\ desired_of (ObjSAMLGroupMapping cr') = desired_of (ObjSAMLGroupMapping cr).
Proof.
  intros (Hd & _) Hs. rewrite Hs in Hd. cbn [fmap option_fmap option_map] in Hd.
  destruct (stored c' k) as [[cr'|?|?]|]; try done. exists cr'. split; [done|]. cbn in Hd. by apply (inj Some) in Hd.
Qed.

Lemma same_at_spec (c c' : C) k : same_at k c c' -> spec_at c' k = spec_at c k.
Proof.
  intros (Hd & _). unfold spec_at. destruct (stored c k) as [[]|], (stored c' k) as [[]|]; try done.
  by injection Hd as _ _ ->.
Qed.

Lemma same_at_unstamped (c c' : C) k :
  same_at k c c' -> unstamped <$> stored c' k = unstamped <$> stored c k.
Proof.
  intros (Hd & _). destruct (stored c k) as [o|], (stored c' k) as [o'|]; try done.
  injection Hd as Hd. cbn. unfold unstamped. by rewrite Hd.
Qed.

Lemma unstamped_eq (a b : SAMLGroupMapping) :
  sgm_TypeMeta a = sgm_TypeMeta b -> om_Name (sgm_ObjectMeta a) = om_Name (sgm_ObjectMeta b) ->
  om_Namespace (sgm_ObjectMeta a) = om_Namespace (sgm_ObjectMeta b) ->
  om_Generation (sgm_ObjectMeta a) = om_Generation (sgm_ObjectMeta b) ->
  om_Labels (sgm_ObjectMeta a) = om_Labels (sgm_ObjectMeta b) ->
  (forall k, k ∉ stamp_keys -> om_Annotations (sgm_ObjectMeta a) !! k = om_Annotations (sgm_ObjectMeta b) !! k) ->
  sgm_Spec a = sgm_Spec b ->
  unstamped (ObjSAMLGroupMapping a) = unstamped (ObjSAMLGroupMapping b).
Proof.
  destruct a as [ta [na nsa ga la aa] spa sta], b as [tb [nb nsb gb lb ab] spb stb]. cbn. intros -> -> -> -> -> Ha ->.
  unfold unstamped. cbn. do 3 f_equal. apply map_eq. intros k. rewrite !map_lookup_filter.
  destruct (decide (k ∈ stamp_keys)) as [Hk|Hk]; [|by rewrite Ha].
  destruct (ab !! k), (aa !! k); cbn; rewrite ?option_guard_False by (by intros ?); done.
Qed.

(** Merging the same keys again, owning what was merged before. *)
Lemma merged_again (applied1 applied2 prev1 result1 result2 : string_map_t) (owned1 : gset string) k :
  merged applied1 prev1 result1 owned1 -> merged applied2 result1 result2 (dom applied1) ->
  applied2 !! k = applied1 !! k -> result2 !! k = result1 !! k.
Proof.
  intros [Ha1 _] [Ha2 Hk2] E. destruct (applied1 !! k) as [v|] eqn:E1.
  - by rewrite (Ha1 _ _ E1), (Ha2 _ _ E).
  - apply Hk2; [done|]. by apply not_elem_of_dom.
Qed.

End Reading.

Section Program.
Context {C L RC : Type} `{UnicodeTables, !K8sClient C object object_list, !ApiErrors, !Tracer, !K8sLibrary RC}.
Context `{!UUID, !RateLimiter L float64, !OTelHTTP C L, !OTelHTTPLaws C L, !ApiServer C, !ApiServerLaws C}.
Implicit Types (c : C) (w : world C L).

Section Executions.
Variables (cfg : @Jsm.Config C L) (e : @Executor C L).

(** An application of a ticket's mapping on top of another one of the same,
    with operator steps in between, changes the stamps only. *)
Lemma ssa_again payload g role project t1 ctx1 t2 ctx2 c1 c2 c3 c4 new1 new2 :
  let cr t ctx := sent_cr (ticket_cr cfg payload g role project) sent_labels (sent_annotations payload t ctx) in
  ssa_applied (exec_FieldManager e) (cr t1 ctx1) c1 c2 new1 -> operator c2 c3 ->
  ssa_applied (exec_FieldManager e) (cr t2 ctx2) c3 c4 new2 ->
  unstamped (ObjSAMLGroupMapping new2) = unstamped (ObjSAMLGroupMapping new1).
Proof.
  intros cr [St1 Ty1 [Na1 Ns1] Sp1 La1 An1 [OL1 OA1] _ _] Hop [St2 Ty2 [Na2 Ns2] Sp2 La2 An2 _ Ge2 _].
  pose proof (operator_status c2 c3 (cr_key (cr t1 ctx1)) Hop) as Hat.
  destruct (same_at_stored _ _ _ _ Hat St1) as (old & Hst & Hold).
  destruct Hat as (_ & HL & HA). injection Hold as Ho1 Ho2 Ho3.
  change (cr_key (cr t2 ctx2)) with (cr_key (cr t1 ctx1)) in *.
  rewrite Hst in Ge2, La2, An2. rewrite HL, OL1 in La2. rewrite HA, OA1 in An2. cbn in La2, An2. rewrite Ho2 in La2, An2.
  destruct Ge2 as (Hgen & _). rewrite Ho2, Ho3 in Hgen. specialize (Hgen Sp1).
  apply unstamped_eq; [by rewrite Ty2, Ty1|by rewrite Na2, Na1|by rewrite Ns2, Ns1|done| | |by rewrite Sp2, Sp1].
  - apply map_eq. intros k. by apply (merged_again _ _ _ _ _ _ k La1 La2).
  - intros k Hk. apply (merged_again _ _ _ _ _ _ k An1 An2). cbn. by rewrite !sent_annotations_lookup.
Qed.

(** What an execution does to the specs: nothing but, at most, storing the
    ticket's; and it does store it when it is answered 200 or 504. *)
Lemma left_specs payload g role project res c c' :
  left_by cfg e payload g role project res c c' ->
  let cr := ticket_cr cfg payload g role project in
  (forall k, k <> cr_key cr -> same_at k c c')
  /\ (spec_at c' (cr_key cr) = Some (sgm_Spec cr)
      \/ (same_at (cr_key cr) c c' /\ HTTPStatus (Kind res) <> 200 /\ HTTPStatus (Kind res) <> 504)).
Proof.
  intros (ca & cb & t & ctx & Op1 & Op2 & Hab) cr.
  assert (forall k, same_at k ca cb -> same_at k c c') as Hsame.
  { intros k Hs. etrans; [by apply operator_status|]. etrans; [done|by apply operator_status]. }
  destruct Hab as [(new & Hssa)|(-> & Hk)].
  - split; [intros k Hne; by apply Hsame, (ssa_frame _ _ _ _ _ Hssa)|left].
    rewrite (same_at_spec _ _ _ (operator_status cb c' _ Op2)). unfold spec_at.
    pose proof (ssa_stored _ _ _ _ _ Hssa : stored cb (cr_key cr) = _) as Hst. by rewrite Hst, (ssa_spec _ _ _ _ _ Hssa).
  - split; [intros k _; by apply Hsame|right; split; [by apply Hsame|done]].
Qed.

(** A second execution for the same ticket changes the stamps only, whatever
    it is answered, when the first one was answered 200 or 504. *)
Lemma left_again payload g role project res1 res2 c0 c1 c2 c3 k :
  left_by cfg e payload g role project res1 c0 c1 -> operator c1 c2 ->
  HTTPStatus (Kind res1) = 200 \/ HTTPStatus (Kind res1) = 504 ->
  left_by cfg e payload g role project res2 c2 c3 ->
  unstamped <$> stored c3 k = unstamped <$> stored c1 k.
Proof.
  intros Hl1 Hop Hs Hl2. pose proof Hl2 as Hl2'. apply left_specs in Hl2' as [Hother _].
  set (cr := ticket_cr cfg payload g role project) in *.
  destruct (decide (k = cr_key cr)) as [->|Hne].
  2:{ apply same_at_unstamped. etrans; [by apply operator_status|by apply Hother]. }
  destruct Hl1 as (ca & cb & t1 & ctx1 & _ & Op1 & [(new1 & S1)|(_ & H200 & H504)]); [|by destruct Hs].
  destruct Hl2 as (cd & ce & t2 & ctx2 & Op2 & Op3 & [(new2 & S2)|(-> & _)]).
  - rewrite (same_at_unstamped _ _ _ (operator_status _ _ _ Op3)), (same_at_unstamped _ _ _ (operator_status _ _ _ Op1)).
    pose proof (ssa_stored _ _ _ _ _ S1 : stored cb (cr_key cr) = _) as St1.
    pose proof (ssa_stored _ _ _ _ _ S2 : stored ce (cr_key cr) = _) as St2.
    rewrite St1, St2. cbn [fmap option_fmap option_map]. f_equal.
    eapply (ssa_again payload g role project); [exact S1| |exact S2]. by do 2 (etrans; [done|]).
  - apply same_at_unstamped, operator_status. by do 2 (etrans; [done|]).
Qed.

(** *** Ready resources stay ready *)

(** The operator has reconciled the object at its generation. *)
Definition reconciled (cr : SAMLGroupMapping) : Prop :=
  om_Generation (sgm_ObjectMeta cr) <= st_ObservedGeneration (sgm_Status cr)
  /\ Jsm.ready_condition (Conditions (sgm_Status cr)) = true.

(** The cluster holds, reconciled, a mapping with this spec. *)
Definition settled (ns n : string) (spec : SAMLGroupMappingSpec) (gen : Z) c : Prop :=
  exists cr, stored c (mapping_key ns n) = Some (ObjSAMLGroupMapping cr) /\ sgm_Spec cr = spec
    /\ om_Name (sgm_ObjectMeta cr) = n /\ om_Namespace (sgm_ObjectMeta cr) = ns
    /\ om_Generation (sgm_ObjectMeta cr) = gen /\ 0 < gen /\ reconciled cr.

(** The ticket's mapping is settled. *)
Definition settled_ticket payload g role project gen c : Prop :=
  let cr := ticket_cr cfg payload g role project in
  settled (om_Namespace (sgm_ObjectMeta cr)) (om_Name (sgm_ObjectMeta cr)) (sgm_Spec cr) gen c.

(** The operator does not take back that an object is reconciled. *)
Definition keeps_ready : Prop := forall c c' k cr cr',
  operator c c' -> stored c k = Some (ObjSAMLGroupMapping cr) -> stored c' k = Some (ObjSAMLGroupMapping cr') ->
  reconciled cr -> reconciled cr'.

(** Applies go through, and so do fetches of what is there. *)
Definition available : Prop :=
  (forall ctx cr owner c, (client_Patch ctx (ObjSAMLGroupMapping cr) owner true c).1.1 = None)
  /\ forall ctx ns n o c, is_Some (stored c (kind_of o, ns, n)) -> (client_Get ctx ns n o c).1.1 = None.

Hypothesis operator_keeps_ready : keeps_ready.
Hypothesis server_available : available.

Lemma settled_operator ns n spec gen c c' : operator c c' -> settled ns n spec gen c -> settled ns n spec gen c'.
Proof using operator_keeps_ready ApiServerLaws0.
  intros Hop (cr & Hs & Hsp & Hn & Hns & Hg & Hpos & Hr).
  destruct (same_at_stored c c' _ cr (operator_status _ _ _ Hop) Hs) as (cr' & Hs' & Hd).
  pose proof (operator_keeps_ready c c' _ cr cr' Hop Hs Hs' Hr) as Hr'. injection Hd as _ Hm Hsp'.
  exists cr'. rewrite Hm, Hsp'. done.
Qed.

(** A fetch of a settled mapping passes the provider's check. *)
Lemma settled_fetched ns n spec gen ctx cr0 c err obj c1 :
  settled ns n spec gen c -> client_Get ctx ns n (ObjSAMLGroupMapping cr0) c = (err, obj, c1) ->
  err = None /\ settled ns n spec gen c1 /\ exists cr, obj = ObjSAMLGroupMapping cr
    /\ GetName obj = n /\ GetNamespace obj = ns /\ GetGeneration obj = gen /\ (Jsm.IsReady obj gen).1 = true.
Proof using operator_keeps_ready server_available ApiServerLaws0.
  intros Hs HG. pose proof Hs as (old & Hold & _).
  pose proof (proj2 server_available ctx ns n (ObjSAMLGroupMapping cr0) c (ex_intro _ _ Hold)) as Herr.
  rewrite HG in Herr. cbn in Herr. subst err. apply Get_reads in HG as (ca & Op1 & Op2 & Hans).
  destruct (Hans eq_refl) as (s & Hst & Hname & Hns & Hgen & Hshape).
  pose proof (settled_operator _ _ _ _ _ _ Op1 Hs) as Ha. split; [done|].
  split; [by eapply settled_operator|]. destruct Ha as (cr & Hst' & _ & Hn & Hns' & Hg & Hpos & Hle & Hc).
  unfold mapping_key in Hst'. cbn [kind_of] in Hst. rewrite Hst in Hst'. injection Hst' as ->.
  destruct Hshape as (cr' & -> & Hobs & Hconds). exists cr'. split; [done|]. split; [by etrans|]. split; [by etrans|].
  cbn in Hgen |- *. split; [rewrite <- Hg; apply Hgen; lia|].
  rewrite Hobs by lia. rewrite Hconds by (intros E; by rewrite E in Hc).
  replace (_ <? gen) with false by lia. by rewrite Hc.
Qed.

(** Applying the spec of a settled mapping again leaves it settled. *)
Lemma settled_applied payload g role project t ctx gen c c' new :
  settled_ticket payload g role project gen c ->
  ssa_applied (exec_FieldManager e)
    (sent_cr (ticket_cr cfg payload g role project) sent_labels (sent_annotations payload t ctx)) c c' new ->
  settled_ticket payload g role project gen c'.
Proof.
  intros (old & Hs & Hsp & Hn & Hns & Hg & Hpos & Hle & Hc) [St _ [Na Ns] Sp _ _ _ Ge _].
  change (cr_key _) with (cr_key (ticket_cr cfg payload g role project)) in Ge, St. unfold cr_key in Ge. rewrite Hs in Ge.
  destruct Ge as (Hgen & _ & Hst). specialize (Hgen Hsp).
  exists new. split; [exact St|]. split; [done|]. split; [done|]. split; [done|]. split; [by rewrite Hgen|]. split; [done|].
  unfold reconciled. by rewrite Hst, Hgen.
Qed.

Lemma settled_patched ctx payload g role project t gen c err o1 c1 :
  settled_ticket payload g role project gen c ->
  client_Patch ctx (stamped (Jsm.applyAction cfg payload g role project) ctx t) (exec_FieldManager e) true c
    = (err, o1, c1) ->
  err = None /\ settled_ticket payload g role project gen c1 /\ exists cr1, o1 = ObjSAMLGroupMapping cr1
    /\ GetName o1 = Jsm.CRName (IssueKey payload) /\ GetNamespace o1 = Jsm.cfg_Namespace cfg.
Proof using operator_keeps_ready server_available ApiServerLaws0.
  intros Hs HP. rewrite stamped_ticket in HP.
  match type of HP with client_Patch _ (ObjSAMLGroupMapping ?cr) _ _ _ = _ =>
    pose proof (proj1 server_available ctx cr (exec_FieldManager e) c) as Herr end.
  rewrite HP in Herr. cbn in Herr. subst err. split; [done|].
  apply Patch_accepted in HP as (ca & cb & new & Op1 & Hssa & Op2 & Hn & Hns & _ & cr1 & -> & _); [|apply sent_complete].
  destruct (ssa_name _ _ _ _ _ Hssa) as [Hn2 Hns2]. split; [|exists cr1; split; [done|]; split; by etrans].
  eapply settled_operator; [exact Op2|]. eapply settled_applied; [|exact Hssa]. by eapply settled_operator.
Qed.

(** C7: A retry for a resource that is ready already succeeds.  When the
    cluster holds the ticket's mapping, reconciled by the operator, which does
    not take that back, and the API server is available, executing the ticket
    again answers Ready and leaves the mapping reconciled at the generation it
    had: the apply does not raise the generation, so a fetch passes the check
    without any work of the operator. *)
Theorem redelivery_ready ctx payload g role project w gen :
  quiet (exec_clock e) -> settled_ticket payload g role project gen (w_cluster w) ->
  exists res w', Execute e ctx (Apply (Jsm.applyAction cfg payload g role project)) w = (Ret res, w')
    /\ Kind res = ResultReady /\ CRName res = Jsm.CRName (IssueKey payload)
    /\ settled_ticket payload g role project gen (w_cluster w').
Proof using operator_keeps_ready server_available ApiServerLaws0.
  intros Hq Hs. set (act := Jsm.applyAction cfg payload g role project).
  destruct (Execute_executed e ctx act w Hq) as (res & w' & E & _ & Hx). exists res, w'. split; [done|]. clear E.
  destruct Hx as [ctx' obj err o1 c1 Hsent HP|ctx' obj o1 c1 err o2 c2 Hsent HP HG
                 |ctx' obj o1 c1 applied c2 D start res c3 Hsent HP HG Hw];
    destruct Hsent as (t & k & _ & _ & ->);
    destruct (settled_patched _ _ _ _ _ _ _ _ _ _ _ Hs HP) as (Herr & Hs1 & cr1 & -> & Hn1 & Hns1); [done|..];
    rewrite Hn1, Hns1 in HG;
    destruct (settled_fetched _ _ _ _ _ _ _ _ _ _ Hs1 HG) as (Herr' & Hs2 & cr2 & -> & Hna & Hnsa & Hga & _); [done|].
  pose proof (settled_operator _ _ _ _ _ _ (waited_operator e _ _ _ _ _ _ _ Hw) Hs2) as Hs3.
  assert (forall c, ~ not_yet act (ObjSAMLGroupMapping cr2) c2 c) as Hnever.
  { intros c (ctx3 & err3 & obj & HG3 & Hready). rewrite Hna, Hnsa in HG3.
    destruct (settled_fetched _ _ _ _ _ _ _ _ _ _ Hs2 HG3) as (-> & _ & cr3 & _ & _ & _ & _ & Hok).
    specialize (Hready eq_refl). cbn [ReadyCheck act Jsm.applyAction] in Hready. by rewrite Hga, Hok in Hready. }
  destruct Hw as [ctx2 cur obj g2 c4 _ _ _|ctx2 err c4 c5 Hny HW|ctx2 s v t2 c4 c5 Hny HW _].
  - split; [done|]. split; [exact Hna|exact Hs3].
  - by destruct (Hnever c4).
  - by destruct (Hnever c4).
Qed.

End Executions.

(** ** The program over time *)

Section Time.
Variables (env : gmap string string) (cfg : Config.Config) (h : Handler C L).
Hypothesis Hload : Load env = Ok cfg.
Hypothesis Hwire : wire cfg = Ret (Ok h).

Local Notation jsm := (main_jsm (C:=C) (L:=L) cfg true).
Local Notation exec := (main_executor (C:=C) (L:=L) cfg true).

(** One request, served in a world with the given cluster: the cluster left
    and the status answered. *)
Inductive serves_at (q : Request) : C -> Z -> C -> Prop :=
| serves_at_run r w w' status :
    w_requests w !! r = Some q -> fresh w -> h RWConn r w = (Ret tt, w') ->
    c_status (w_conn w') = Some status -> serves_at q (w_cluster w) status (w_cluster w').

(** Requests, with what they are answered, and operator steps between them. *)
Inductive history (c : C) : list (Request * Z) -> C -> Prop :=
| history_start : history c [] c
| history_operator log c1 c2 : history c log c1 -> operator c1 c2 -> history c log c2
| history_served log q status c1 c2 :
    history c log c1 -> serves_at q c1 status c2 -> history c (log ++ [(q, status)]) c2.

(** The message is genuine at some instant. *)
Definition genuine_message (q : Request) : Prop := exists w : world C L, genuine cfg q w.

Definition approved_ticket (q : Request) payload g role project : Prop :=
  approved jsm (b_data (ReqBody q)) payload g role project.

(** A served request left the cluster alone, and then a 200 is for a ticket
    that is not approved and there is no 504; or executed its ticket. *)
Lemma serves_at_effect q c status c' :
  serves_at q c status c' ->
  (c' = c /\ status <> 504 /\ (status = 200 -> forall payload g role project, ~ approved_ticket q payload g role project))
  \/ (genuine_message q /\ exists payload g role project res, approved_ticket q payload g role project
        /\ status = HTTPStatus (Kind res) /\ left_by jsm exec payload g role project res c c').
Proof.
  intros [r w w' st Hq Hf E Hst].
  destruct (wire_handles env cfg Hload h Hwire RWConn r w q Hq (good_conn w) Hf) as (w2 & E' & _ & _ & Hh).
  rewrite E in E'. injection E' as <-. destruct Hh as [s Hc Hs H504 H200|ctx payload g role pj res Hg Ha Hx Hs].
  - left. rewrite Hst in Hs. injection Hs as <-. split; [done|]. split; [done|]. intros Hok payload g role pj (Hd & Ht & _).
    destruct (H200 Hok) as (_ & payload' & Hd' & Hne). congruence.
  - right. split; [by exists w|]. exists payload, g, role, pj, res. split; [done|]. split; [congruence|].
    by eapply executed_left.
Qed.

(** Writes of specs under names, the later ones winning. *)
Definition write : Type := key * SAMLGroupMappingSpec.

Definition replay (ws : list (option write)) (specs : key -> option SAMLGroupMappingSpec) (k : key)
  : option SAMLGroupMappingSpec :=
  foldl (fun acc o => match o with
                      | Some (k', spec) => if decide (k' = k) then Some spec else acc
                      | None => acc
                      end) (specs k) ws.

(** What a request wrote: the resource of its approved ticket, and it was
    genuine; or nothing, and then an approved ticket was not answered 200 or
    504. *)
Definition wrote (entry : Request * Z) (o : option write) : Prop :=
  match o with
  | Some (k, spec) => genuine_message entry.1 /\ exists payload g role project,
      approved_ticket entry.1 payload g role project
      /\ k = mapping_key (Jsm.cfg_Namespace jsm) (Jsm.CRName (IssueKey payload))
      /\ spec = Jsm.BuildSpec g role project (Jsm.cfg_IdentityProviderID jsm) (Jsm.BuildDescription (IssueKey payload))
  | None => entry.2 = 200 \/ entry.2 = 504 ->
      forall payload g role project, ~ approved_ticket entry.1 payload g role project
  end.

(** C4: The cluster is what the tickets say.  Over any history of requests to
    the public listener, with the operator at work between and during them,
    each request writes nothing or the resource of its ticket, which was
    genuinely signed and approved, and does write it when it is answered 200
    or 504 for such a ticket; the specs of the mappings in the cluster are
    the initial ones overwritten by these in order; and an object that none
    of them wrote is, but for its status, as it was. *)
Theorem history_refines c log c' :
  history c log c' ->
  exists ws, Forall2 wrote log ws
    /\ (forall k, spec_at c' k = replay ws (spec_at c) k)
    /\ forall k, (forall spec, Some (k, spec) ∉ ws) -> same_at k c c'.
Proof.
  induction 1 as [|log c1 c2 _ (ws & Hw & Hspecs & Hsame) Hop|log q status c1 c2 _ (ws & Hw & Hspecs & Hsame) Hs].
  - exists []. split; [done|]. split; [done|]. by intros.
  - exists ws. split; [done|]. split.
    + intros k. rewrite <- Hspecs. by apply same_at_spec, operator_status.
    + intros k Hn. etrans; [by apply Hsame|by apply operator_status].
  - assert (forall o, wrote (q, status) o ->
      (forall k, spec_at c2 k = match o with Some (k', spec) => if decide (k' = k) then Some spec else spec_at c1 k
                                | None => spec_at c1 k end) ->
      (forall k, (forall spec, o <> Some (k, spec)) -> same_at k c1 c2) ->
      exists ws, Forall2 wrote (log ++ [(q, status)]) ws /\ (forall k, spec_at c2 k = replay ws (spec_at c) k)
        /\ forall k, (forall spec, Some (k, spec) ∉ ws) -> same_at k c c2) as Hstep.
    { intros o Ho Hsp Hsa. exists (ws ++ [o]). split; [apply Forall2_app; [done|by repeat constructor]|]. split.
      - intros k. unfold replay. rewrite foldl_app. cbn [foldl]. rewrite Hsp, Hspecs. by destruct o as [[]|].
      - intros k Hn. etrans; [apply Hsame; set_solver|]. apply Hsa. intros spec ->. apply (Hn spec). set_solver. }
    apply serves_at_effect in Hs as [(-> & H504 & H200)|(Hg & payload & g & role & pj & res & Ha & Hst & Hl)].
    + apply (Hstep None); [|done|by intros]. intros [?|?]; [by apply H200|done].
    + apply left_specs in Hl as [Hother [Hspec|(Hkey & H200 & H504)]]; set (cr := ticket_cr jsm payload g role pj) in *.
      * apply (Hstep (Some (cr_key cr, sgm_Spec cr))); [split; [done|]; by exists payload, g, role, pj| |].
        -- intros k. destruct (decide (cr_key cr = k)) as [<-|Hne]; [exact Hspec|]. by apply same_at_spec, Hother, not_eq_sym.
        -- intros k Hn. apply Hother. intros ->. by apply (Hn (sgm_Spec cr)).
      * assert (forall k, same_at k c1 c2) as Hall
          by (intros k; destruct (decide (k = cr_key cr)) as [->|Hne]; [exact Hkey|by apply Hother]).
        apply (Hstep None); [cbn; intros [?|?]; congruence|intros k; by apply same_at_spec|by intros].
Qed.


End Time.
End Program.

(** ** A concrete API server

    It keeps objects with the keys each manager owns, and answers a watch with
    nothing. *)

Module ConvergenceSample.
Import ExecutorSample.

Record cell := mkCell { k_obj : object; k_labels : gmap string (gset string); k_annotations : gmap string (gset string) }.

Abbreviation server := (gmap key cell).

(** The operator writes statuses, and does not take readiness back. *)
Definition cell_evolves (k k' : cell) : Prop :=
  desired_of (k_obj k') = desired_of (k_obj k) /\ k_labels k' = k_labels k /\ k_annotations k' = k_annotations k
  /\ forall cr cr', k_obj k = ObjSAMLGroupMapping cr -> k_obj k' = ObjSAMLGroupMapping cr' -> reconciled cr -> reconciled cr'.

Definition evolves0 (c c' : server) : Prop :=
  forall k, match c !! k, c' !! k with
            | Some x, Some x' => cell_evolves x x'
            | None, None => True
            | _, _ => False
            end.

#[export] Instance server0 : ApiServer server := {|
  stored c k := k_obj <$> c !! k;
  owned_labels c k owner := default ∅ (c !! k ≫= fun x => k_labels x !! owner);
  owned_annotations c k owner := default ∅ (c !! k ≫= fun x => k_annotations x !! owner);
  operator := evolves0
|}.

(** Applied keys win; of the others, those the manager owned are dropped. *)
Definition merge0 (applied prev : string_map_t) (owned : gset string) : string_map_t :=
  applied ∪ filter (fun '(k, _) => k ∉ owned) prev.

#[local] Instance RoleRef_eq : EqDecision RoleRef.
Proof. solve_decision. Defined.
#[local] Instance ProjectRef_eq : EqDecision ProjectRef.
Proof. solve_decision. Defined.
#[local] Instance Spec_eq : EqDecision SAMLGroupMappingSpec.
Proof. solve_decision. Defined.

(** The mapping stored for one that is applied: the generation counts changes
    of the spec, and starts at 1; the status is kept. *)
Definition apply0 (cr : SAMLGroupMapping) (old : option object) (labels annotations : string_map_t) : SAMLGroupMapping :=
  let meta gen := mkObjectMeta (om_Name (sgm_ObjectMeta cr)) (om_Namespace (sgm_ObjectMeta cr)) gen labels annotations in
  match old with
  | Some (ObjSAMLGroupMapping o) =>
      let gen := om_Generation (sgm_ObjectMeta o) in
      mkSAMLGroupMapping (sgm_TypeMeta cr)
        (meta (if decide (sgm_Spec o = sgm_Spec cr) then gen else gen + 1)) (sgm_Spec cr) (sgm_Status o)
  | _ => mkSAMLGroupMapping (sgm_TypeMeta cr) (meta 1) (sgm_Spec cr) zeroStatus
  end.

Definition patch0 (cr : SAMLGroupMapping) (owner : string) (c : server) : SAMLGroupMapping * server :=
  let k := cr_key cr in
  let new := apply0 cr (stored c k)
    (merge0 (om_Labels (sgm_ObjectMeta cr)) (default ∅ (GetLabels <$> stored c k)) (owned_labels c k owner))
    (merge0 (om_Annotations (sgm_ObjectMeta cr)) (default ∅ (GetAnnotations <$> stored c k)) (owned_annotations c k owner)) in
  (new, <[k := mkCell (ObjSAMLGroupMapping new)
                 (<[owner := dom (om_Labels (sgm_ObjectMeta cr))]> (default ∅ (k_labels <$> c !! k)))
                 (<[owner := dom (om_Annotations (sgm_ObjectMeta cr))]> (default ∅ (k_annotations <$> c !! k)))]> c).

#[export] Instance client1 : K8sClient server object object_list := {|
  client_Patch ctx obj owner force c :=
    match obj with
    | ObjSAMLGroupMapping cr => let '(new, c1) := patch0 cr owner c in (None, ObjSAMLGroupMapping new, c1)
    | _ => (Some (Opaque "unsupported kind"), obj, c)
    end;
  client_Get ctx ns n into c :=
    match stored c (kind_of into, ns, n) with
    | Some o => (None, o, c)
    | None => (Some (Opaque "not found"), into, c)
    end;
  client_Watch ctx ol ns c := (Ok (mkWatcher 0 [] None), c);
  watcher_Stop s c := c
|}.

Lemma merge0_merged applied prev owned : merged applied prev (merge0 applied prev owned) owned.
Proof.
  unfold merge0. split.
  - intros k v Hk. by apply lookup_union_Some_l.
  - intros k Hk Ho. rewrite lookup_union_r by done. rewrite map_lookup_filter.
    destruct (prev !! k); [|done]. cbn. by rewrite option_guard_True.
Qed.

Lemma patch0_applied cr owner c : ssa_applied owner cr c (patch0 cr owner c).2 (patch0 cr owner c).1.
Proof.
  unfold patch0. cbn [fst snd]. set (k := cr_key cr).
  assert (forall l a, let new := apply0 cr (stored c k) l a in
    sgm_TypeMeta new = sgm_TypeMeta cr /\ om_Name (sgm_ObjectMeta new) = om_Name (sgm_ObjectMeta cr)
    /\ om_Namespace (sgm_ObjectMeta new) = om_Namespace (sgm_ObjectMeta cr) /\ sgm_Spec new = sgm_Spec cr
    /\ om_Labels (sgm_ObjectMeta new) = l /\ om_Annotations (sgm_ObjectMeta new) = a) as Hnew.
  { intros l a. unfold apply0. by destruct (stored c k) as [[]|]. }
  match goal with |- ssa_applied _ _ _ _ (apply0 _ _ ?l ?a) => destruct (Hnew l a) as (H1 & H2 & H3 & H4 & H5 & H6) end.
  split; fold k.
  - cbn. by rewrite lookup_insert_eq.
  - done.
  - done.
  - done.
  - rewrite H5. apply merge0_merged.
  - rewrite H6. apply merge0_merged.
  - split; cbn [owned_labels owned_annotations server0]; rewrite lookup_insert_eq; cbn; by rewrite lookup_insert_eq.
  - unfold apply0. destruct (stored c k) as [[o|?|?]|]; cbn; try done. destruct (decide _); repeat split; try done; try lia.
  - intros k' Hne. unfold same_at. cbn. by rewrite !lookup_insert_ne by done.
Qed.

#[export] Instance cell_evolves_preorder : PreOrder cell_evolves.
Proof.
  split.
  - intros x. split; [done|]. split; [done|]. split; [done|]. intros cr cr' -> [= <-]. done.
  - intros x y z (D1 & L1 & A1 & R1) (D2 & L2 & A2 & R2). split; [congruence|]. split; [congruence|]. split; [congruence|].
    intros cr cr' Hx Hz Hr. rewrite Hx in D1. destruct (k_obj y) as [cy|?|?] eqn:Ey; try done.
    apply (R2 cy cr'); [done|done|]. by apply (R1 cr cy).
Qed.

#[export] Instance evolves0_preorder : PreOrder evolves0.
Proof.
  split.
  - intros c k. by destruct (c !! k).
  - intros a b c Hab Hbc k. specialize (Hab k). specialize (Hbc k).
    destruct (a !! k), (b !! k), (c !! k); try done. by etrans.
Qed.

(** An object answers for itself. *)
Lemma answers_refl o : answers_with o o.
Proof. split; [done|]. split; [done|]. split; [done|]. destruct o as [cr|?|?]; [|done|done]. by exists cr. Qed.

#[export] Instance server0_laws : ApiServerLaws server.
Proof.
  split.
  - apply _.
  - intros c c' k Hop. specialize (Hop k). unfold same_at. cbn.
    destruct (c !! k) as [x|], (c' !! k) as [x'|]; try done. destruct Hop as (Hd & Hl & Ha & _). cbn. by rewrite Hd, Hl, Ha.
  - intros ctx cr owner c o1 c1 _ HP. cbn [client_Patch client1] in HP.
    pose proof (patch0_applied cr owner c) as Hssa. destruct (patch0 cr owner c) as [new c2]. injection HP as <- <-.
    exists c, c2, new. split; [reflexivity|]. split; [done|]. split; [reflexivity|apply answers_refl].
  - intros ctx cr owner c err o1 c1 _ HP. cbn [client_Patch client1] in HP. by destruct (patch0 cr owner c).
  - intros ctx ns n into c err o c1 HG. cbn [client_Get client1] in HG. exists c. split; [reflexivity|].
    destruct (stored c (kind_of into, ns, n)) as [s|] eqn:Es; injection HG as <- <- <-;
      (split; [reflexivity|]); intros; try done. exists s. split; [done|apply answers_refl].
  - intros ctx ol ns c r c1 [= _ <-]. reflexivity.
  - intros s c. reflexivity.
Qed.

(** *** A program on this server *)

#[local] Instance tables1 : UnicodeTables := plain_tables.
#[local] Instance library1 : K8sLibrary unit := StartupSample.library0.
#[local] Instance uuid1 : UUID := HttpxSample.uuid0.
#[local] Existing Instance PublicSample.limiter0.
#[local] Existing Instance PublicSample.otel0.
#[local] Existing Instance PublicSample.otel0_laws.

Definition cfg1 : Config.Config := StartupSample.cfg0.

Definition handler1 : Handler server Z :=
  match wire cfg1 with Ret (Ok h) => h | _ => fun _ _ => mret tt end.

Lemma wire1 : wire cfg1 = Ret (Ok handler1).
Proof.
  assert (match wire (C:=server) (L:=Z) cfg1 with Ret (Ok _) => true | _ => false end = true) as H
    by (vm_compute; reflexivity).
  unfold handler1. by destruct (wire cfg1) as [[h|]|].
Qed.

(** The ticket of [PublicSample] delivered to a cluster, at a time of day. *)
Definition world1 (c : server) (t : Z) : world server Z :=
  start_world c (fun n => T0 + t + Z.of_nat n) [PublicSample.request0].

Definition deliver (c : server) (t : Z) : world server Z := (handler1 RWConn 0%nat (world1 c t)).2.

(** The first delivery, and one a minute later. *)
Definition c1 : server := w_cluster (deliver ∅ 0).
Definition c2 : server := w_cluster (deliver c1 (60 * Second)).

Lemma deliver_serves c t status :
  (let '(o, w) := handler1 RWConn 0%nat (world1 c t) in (o, c_status (w_conn w))) = (Ret tt, Some status) ->
  serves_at handler1 PublicSample.request0 c status (w_cluster (deliver c t)).
Proof.
  unfold deliver. destruct (handler1 RWConn 0%nat (world1 c t)) as [o w'] eqn:E. intros [= -> Hs].
  exact (serves_at_run handler1 PublicSample.request0 0%nat (world1 c t) w' status eq_refl (conj eq_refl eq_refl) E Hs).
Qed.

(** Nobody reconciles the mapping, so both deliveries time out. *)
Lemma delivered1 : serves_at handler1 PublicSample.request0 ∅ 504 c1.
Proof. apply deliver_serves. vm_compute. reflexivity. Qed.

Lemma delivered2 : serves_at handler1 PublicSample.request0 c1 504 c2.
Proof. apply deliver_serves. vm_compute. reflexivity. Qed.

Definition key1 : key := mapping_key "wiz-operator" "jsm-sec-1".

Definition applied_at (c : server) : option string :=
  stored c key1 ≫= fun o => GetAnnotations o !! AnnotationApplied.

(** They stamped different times. *)
Example stamps_differ : (applied_at c1, applied_at c2) = (Some "2023-11-14T22:13:20Z", Some "2023-11-14T22:14:20Z").
Proof. vm_compute. reflexivity. Qed.


Lemma history1 : history handler1 ∅ [(PublicSample.request0, 504); (PublicSample.request0, 504)] c2.
Proof.
  apply (history_served _ _ [(PublicSample.request0, 504)] _ _ c1); [|exact delivered2].
  apply (history_served _ _ [] _ _ ∅); [constructor|exact delivered1].
Qed.

Lemma history_refines_witness :
  exists ws, Forall2 (wrote (C:=server) (L:=Z) cfg1) [(PublicSample.request0, 504); (PublicSample.request0, 504)] ws
    /\ spec_at c2 key1 = replay ws (fun _ => None) key1.
Proof.
  destruct (history_refines ConfigSample.minimal_env cfg1 handler1 StartupSample.Load_cfg0 wire1 ∅
              [(PublicSample.request0, 504); (PublicSample.request0, 504)] c2 history1) as (ws & Hw & Hs & _).
  exists ws. split; [exact Hw|]. rewrite Hs. reflexivity.
Defined.

(** *** A mapping the operator has reconciled *)

Definition jsm1 : @Jsm.Config server unit :=
  Jsm.mkConfig "Approved" "cf_group" "cf_role" "cf_project" "idp-1" "wiz"
    (Jsm.mkSignatureConfig "topsecret" "X-Webhook-Signature" "X-Webhook-Timestamp" (5 * Minute) None) true.

Definition executor1 : @Executor server unit := NewExecutor true true (mkExecutorConfig "" (20 * Second) None).

Definition payload1 : Payload :=
  match Decode (Encode (jsm_body "SEC-1" "Approved" [])) with
  | Ok p => p
  | Err _ => zeroPayload
  end.

Definition ticket1 : SAMLGroupMapping := ticket_cr jsm1 payload1 "team-a" "reader" "p1".

Definition ready1 : SAMLGroupMapping :=
  mkSAMLGroupMapping (sgm_TypeMeta ticket1) (mkObjectMeta "jsm-sec-1" "wiz" 3 ∅ ∅) (sgm_Spec ticket1)
    (mkSAMLGroupMappingStatus 3 [mkCondition "Ready" "True" "" ""]).

Definition world2 : world server unit :=
  start_world {[ cr_key ready1 := mkCell (ObjSAMLGroupMapping ready1) ∅ ∅ ]} (fun n => T0 + Z.of_nat n) [].

Lemma keeps_ready1 : keeps_ready (C:=server).
Proof.
  intros c c' k cr cr' Hop Hs Hs' Hr. specialize (Hop k). cbn in Hs, Hs'.
  destruct (c !! k) as [x|], (c' !! k) as [x'|]; try done. injection Hs as Hs. injection Hs' as Hs'.
  by apply (proj2 (proj2 (proj2 Hop)) cr cr').
Qed.

Lemma available1 : available (C:=server).
Proof.
  split; [intros ctx cr owner c; cbn; by destruct (patch0 cr owner c)|].
  intros ctx ns n o c [s Hs]. cbn [client_Get client1]. by rewrite Hs.
Qed.

Lemma redelivery_ready_witness :
  exists res w', Execute executor1 ctx0 (Apply (Jsm.applyAction jsm1 payload1 "team-a" "reader" "p1")) world2 = (Ret res, w')
    /\ Kind res = ResultReady /\ settled_ticket jsm1 payload1 "team-a" "reader" "p1" 3 (w_cluster w').
Proof.
  destruct (redelivery_ready jsm1 executor1 keeps_ready1 available1 ctx0 payload1 "team-a" "reader" "p1" world2 3
              quiet_time_Now) as (res & w' & E & Hk & _ & Hs).
  - exists ready1. repeat split; try reflexivity; lia.
  - exists res, w'. split; [exact E|]. split; [exact Hk|exact Hs].
Defined.

End ConvergenceSample.
