(* ===== verification/Interleaving.v ===== *)
(** * Concurrent executions

    Requests are served on goroutines of their own, so the API calls of one
    execution come between those of others.  [tstep] is one API call of an
    execution, with the code around it; [executed_alone] shows that a run of
    these steps alone is what [Execute] does.  The theorem on interleaved runs
    then says what the cluster holds and what the answers mean, whatever the
    schedule. *)

From stdpp Require Import relations.
From S2P Require Import Prelude GoStrings Unicode GoTime Json JsonEncode Result Runtime Action WizApi JsmPayload.
From S2P Require Import JsmProvider Executor System Convergence.

Section Threads.
Context {C L O OL : Type} `{!ClientObject O, !K8sClient C O OL, !ApiErrors, !Tracer}.
Variable e : @Executor C L.
Implicit Types (act : ApplyAction O OL) (c : C) (applied : O).

(** Where an execution is: before the patch, before the fetch of its result,
    before the first fetch of the wait, before the watch, in the loop, or
    done. *)
Inductive thread :=
| Patching act (ctx : Context)
| Fetching act (ctx : Context) (o1 : O)
| Checking act applied
| Watching act applied
| Looping act applied (s : watcher O)
| Done (res : ExecResult).

(** One API call of an execution, and what the code does up to the next. *)
Inductive tstep : C -> thread -> C -> thread -> Prop :=
| t_refused act ctx ctx' obj err o1 c c1 :
    sent act ctx ctx' obj ->
    client_Patch ctx' obj (exec_FieldManager e) true c = (Some err, o1, c1) ->
    tstep c (Patching act ctx) c1 (Done (classifyK8sErr (wrapped "ssa patch" err) (GetNamespace o1) (GetName o1)))
| t_patched act ctx ctx' obj o1 c c1 :
    sent act ctx ctx' obj ->
    client_Patch ctx' obj (exec_FieldManager e) true c = (None, o1, c1) ->
    tstep c (Patching act ctx) c1 (Fetching act ctx' o1)
| t_lost act ctx o1 err o2 c c1 :
    client_Get ctx (GetNamespace o1) (GetName o1) o1 c = (Some err, o2, c1) ->
    tstep c (Fetching act ctx o1) c1 (Done (classifyK8sErr (wrapped "post-apply get" err) (GetNamespace o2) (GetName o2)))
| t_fetched act ctx o1 applied c c1 :
    client_Get ctx (GetNamespace o1) (GetName o1) o1 c = (None, applied, c1) ->
    tstep c (Fetching act ctx o1) c1 (Checking act applied)
| t_uncopied act applied c :
    DeepCopyObject applied = None -> tstep c (Checking act applied) c (Watching act applied)
| t_ready act applied ctx cur obj g c c1 :
    DeepCopyObject applied = Some cur ->
    client_Get ctx (GetNamespace applied) (GetName applied) cur c = (None, obj, c1) ->
    ReadyCheck act obj (GetGeneration applied) = (true, g) ->
    tstep c (Checking act applied) c1 (Done (mkExecResult ResultReady "" (GetName applied) (GetNamespace applied) g))
| t_not_ready act applied ctx cur err obj c c1 :
    DeepCopyObject applied = Some cur ->
    client_Get ctx (GetNamespace applied) (GetName applied) cur c = (err, obj, c1) ->
    (err = None -> (ReadyCheck act obj (GetGeneration applied)).1 = false) ->
    tstep c (Checking act applied) c1 (Watching act applied)
| t_unwatched act applied ctx err c c1 :
    client_Watch ctx (ListObject act) (GetNamespace applied) c = (Err err, c1) ->
    tstep c (Watching act applied) c1
      (Done (mkExecResult ResultTransientFailure ("watch: " +:+ ErrorText err) (GetName applied) (GetNamespace applied) 0))
| t_watched act applied ctx s c c1 :
    client_Watch ctx (ListObject act) (GetNamespace applied) c = (Ok s, c1) ->
    tstep c (Watching act applied) c1 (Looping act applied s)
| t_decided act applied s D start v t c :
    select_loop (Some D) (GetName applied) (fun o => ReadyCheck act o (GetGeneration applied))
      (Z.max start (opened s)) (deliveries s) (closes s) = Some (v, t) ->
    tstep c (Looping act applied s) (watcher_Stop s c) (Done (verdict_result e applied v)).

(** The steps of one execution with nothing in between. *)
Definition alone (x y : C * thread) : Prop := tstep x.1 x.2 y.1 y.2.

Lemma alone_l c t c1 t1 z : tstep c t c1 t1 -> rtc alone (c1, t1) z -> rtc alone (c, t) z.
Proof. intros Hs Hr. eapply rtc_l; [|exact Hr]. exact Hs. Qed.

(** What an execution has still to do, when it ends in [res] and [c']. *)
Definition remains (res : ExecResult) (c' : C) (x : C * thread) : Prop :=
  match x with
  | (c, Patching act ctx) => executed e ctx act c res c'
  | (c, Fetching act ctx o1) =>
      (exists err o2, client_Get ctx (GetNamespace o1) (GetName o1) o1 c = (Some err, o2, c')
         /\ res = classifyK8sErr (wrapped "post-apply get" err) (GetNamespace o2) (GetName o2))
      \/ exists applied c1 D start, client_Get ctx (GetNamespace o1) (GetName o1) o1 c = (None, applied, c1)
         /\ waited e act applied D start c1 res c'
  | (c, Checking act applied) => exists D start, waited e act applied D start c res c'
  | (c, Watching act applied) =>
      forall c0, not_yet act applied c0 c -> exists D start, waited e act applied D start c0 res c'
  | (c, Looping act applied s) => exists D start v t,
      select_loop (Some D) (GetName applied) (fun o => ReadyCheck act o (GetGeneration applied))
        (Z.max start (opened s)) (deliveries s) (closes s) = Some (v, t)
      /\ res = verdict_result e applied v /\ c' = watcher_Stop s c
  | (c, Done res') => res' = res /\ c' = c
  end.

Lemma remains_step res c' x y : alone x y -> remains res c' y -> remains res c' x.
Proof.
  destruct x as [c t], y as [c1 t1]. unfold alone. cbn [fst snd]. intros Hs.
  destruct Hs as [act ctx ctx' obj err o1 c c1 Hsent HP|act ctx ctx' obj o1 c c1 Hsent HP|act ctx o1 err o2 c c1 HG
    |act ctx o1 applied c c1 HG|act applied c Hd|act applied ctx cur obj g c c1 Hd HG Hr
    |act applied ctx cur err obj c c1 Hd HG Hr|act applied ctx err c c1 HW|act applied ctx s c c1 HW
    |act applied s D start v t c Hl]; cbn [remains].
  - intros [<- ->]. by eapply executed_refused.
  - intros [(err & o2 & HG & ->)|(applied & c2 & D & start & HG & Hw)]; [by eapply executed_lost|by eapply executed_waited].
  - intros [<- ->]. left. eauto.
  - intros (D & start & Hw). right. eauto 10.
  - intros Hrest. apply Hrest. unfold not_yet. by rewrite Hd.
  - intros [<- ->]. exists 0, 0. by eapply waited_fetched.
  - intros Hrest. apply Hrest. unfold not_yet. rewrite Hd. eauto.
  - intros [<- ->] c0 Hny. exists 0, 0. by eapply waited_unwatched.
  - intros (D & start & v & t & Hl & -> & ->) c0 Hny. exists D, start. by eapply waited_watched.
  - intros [<- ->]. eauto 10.
Qed.

(** An execution is a run of these steps alone. *)
Lemma executed_alone ctx act c res c' :
  executed e ctx act c res c' <-> rtc alone (c, Patching act ctx) (c', Done res).
Proof.
  split.
  - assert (forall res c' applied D start c,
      waited e act applied D start c res c' -> rtc alone (c, Checking act applied) (c', Done res)) as Hwait.
    { assert (forall applied c c1, not_yet act applied c c1 -> alone (c, Checking act applied) (c1, Watching act applied)) as Hny.
      { intros applied c0 c1. unfold not_yet. destruct (DeepCopyObject applied) as [cur|] eqn:Ed; [|intros ->; by apply t_uncopied].
        intros (ctx0 & err & obj & HG & Hr). by eapply t_not_ready. }
      intros res0 c'0 applied D start c0 [ctx0 cur obj g c1 Hd HG Hr|ctx0 err c1 c2 Hn HW|ctx0 s v t c1 c2 Hn HW Hl].
      - eapply alone_l; [by eapply t_ready|done].
      - eapply rtc_l; [by apply Hny|]. eapply alone_l; [by eapply t_unwatched|done].
      - eapply rtc_l; [by apply Hny|]. eapply alone_l; [by eapply t_watched|]. eapply alone_l; [by eapply t_decided|done]. }
    intros [ctx' obj err o1 c1 Hs HP|ctx' obj o1 c1 err o2 c2 Hs HP HG|ctx' obj o1 c1 applied c2 D start r c3 Hs HP HG Hw].
    + eapply alone_l; [by eapply t_refused|done].
    + eapply alone_l; [by eapply t_patched|]. eapply alone_l; [by eapply t_lost|done].
    + eapply alone_l; [by eapply t_patched|]. eapply alone_l; [by eapply t_fetched|]. by eapply Hwait.
  - intros Hr. assert (forall x, rtc alone x (c', Done res) -> remains res c' x) as Hall.
    { intros x Hx. remember (c', Done res) as y eqn:Ey. induction Hx as [|x y z Hs _ IH]; [by subst|].
      eapply remains_step; [done|by apply IH]. }
    by apply (Hall (c, Patching act ctx)).
Qed.

(** Steps an execution can still take. *)
Definition steps_to_go (t : thread) : nat :=
  match t with
  | Patching _ _ => 5 | Fetching _ _ _ => 4 | Checking _ _ => 3 | Watching _ _ => 2 | Looping _ _ _ => 1 | Done _ => 0
  end.

Lemma tstep_works c t c1 t1 : tstep c t c1 t1 -> (steps_to_go t1 < steps_to_go t)%nat.
Proof. destruct 1; cbn; lia. Qed.

(** An execution that is not done can take a step, whatever the others do. *)
Lemma tstep_enabled c t : steps_to_go t <> 0%nat -> exists c1 t1, tstep c t c1 t1.
Proof.
  destruct t as [act ctx|act ctx o1|act applied|act applied|act applied s|res]; [| | | | |done]; intros _.
  - set (ctx' := mkContext (ctx_request_id ctx) (tracer_Start ctx "k8s.apply" 0) (ctx_done ctx)).
    assert (sent act ctx ctx' (stamped act ctx' (time_of_ns 0))) as Hs by (by do 2 eexists).
    destruct (client_Patch ctx' (stamped act ctx' (time_of_ns 0)) (exec_FieldManager e) true c) as [[[err|] o1] c1] eqn:HP;
      do 2 eexists; [by eapply t_refused|by eapply t_patched].
  - destruct (client_Get ctx (GetNamespace o1) (GetName o1) o1 c) as [[[err|] o2] c1] eqn:HG;
      do 2 eexists; [by eapply t_lost|by eapply t_fetched].
  - destruct (DeepCopyObject applied) as [cur|] eqn:Hd; [|do 2 eexists; by apply t_uncopied].
    destruct (client_Get (mkContext None None None) (GetNamespace applied) (GetName applied) cur c) as [[[err|] obj] c1] eqn:HG;
      [do 2 eexists; by eapply t_not_ready|].
    destruct (ReadyCheck act obj (GetGeneration applied)) as [[] g] eqn:Hr; do 2 eexists; [by eapply t_ready|].
    eapply t_not_ready; [done|done|]. by rewrite Hr.
  - destruct (client_Watch (mkContext None None None) (ListObject act) (GetNamespace applied) c) as [[s|err] c1] eqn:HW;
      do 2 eexists; [by eapply t_watched|by eapply t_unwatched].
  - destruct (select_loop_ends (GetName applied) (fun o => ReadyCheck act o (GetGeneration applied)) 0
                (Z.max 0 (opened s)) (deliveries s) (closes s)) as (v & t & Hl).
    do 2 eexists. by eapply t_decided.
Qed.

End Threads.

(** ** Tickets in parallel *)

Record ticket := mkTicket { tk_payload : Payload; tk_group : string; tk_role : string; tk_project : string; tk_ctx : Context }.

Section Tickets.
Context {C L : Type} `{UnicodeTables, !K8sClient C object object_list, !ApiErrors, !Tracer, !ApiServer C, !ApiServerLaws C}.
Variables (cfg : @Jsm.Config C L) (e : @Executor C L).
Implicit Types (c : C) (tk : ticket) (t : @thread object object_list).

Definition tk_act tk : ApplyAction object object_list :=
  Jsm.applyAction cfg (tk_payload tk) (tk_group tk) (tk_role tk) (tk_project tk).

Definition tk_cr tk : SAMLGroupMapping := ticket_cr cfg (tk_payload tk) (tk_group tk) (tk_role tk) (tk_project tk).

(** What a ticket writes. *)
Definition tk_write tk : write := (cr_key (tk_cr tk), sgm_Spec (tk_cr tk)).

(** The cluster and the executions; the count is of the steps of these, the
    operator's are free. *)
Inductive interleaved (x : C * list thread) : nat -> C * list thread -> Prop :=
| interleaved_start : interleaved x 0 x
| interleaved_operator n c c1 ts : interleaved x n (c, ts) -> operator c c1 -> interleaved x n (c1, ts)
| interleaved_step n c ts i t c1 t1 :
    interleaved x n (c, ts) -> ts !! i = Some t -> tstep e c t c1 t1 -> interleaved x (S n) (c1, <[i := t1]> ts).

Definition start_all (tks : list ticket) : list thread := (fun tk => Patching (tk_act tk) (tk_ctx tk)) <$> tks.

(** The execution is the ticket's. *)
Definition about tk t : Prop :=
  match t with
  | Patching act _ | Fetching act _ _ | Checking act _ | Watching act _ | Looping act _ _ => act = tk_act tk
  | Done _ => True
  end.

Definition patching t : bool := match t with Patching _ _ => true | _ => false end.

Definition answered_well t : Prop :=
  match t with Done res => HTTPStatus (Kind res) = 200 \/ HTTPStatus (Kind res) = 504 | _ => True end.

Lemma tstep_about tk c t c1 t1 : tstep e c t c1 t1 -> about tk t -> about tk t1 /\ patching t1 = false.
Proof. by destruct 1. Qed.

(** A step from the patch on only reads; the patch writes the ticket's spec,
    or is refused and then not answered 200 or 504. *)
Lemma tstep_effect tk c t c1 t1 :
  tstep e c t c1 t1 -> about tk t ->
  (patching t = true
   /\ (forall k, k <> (tk_write tk).1 -> same_at k c c1) /\ spec_at c1 (tk_write tk).1 = Some (tk_write tk).2)
  \/ ((forall k, same_at k c c1) /\ (patching t = true -> ~ answered_well t1)).
Proof.
  assert (forall c c1, operator c c1 -> forall k, same_at k c c1) as Hop by (intros; by apply operator_status).
  assert (forall c c1 (now : Time) ctx ca cb new, operator c ca ->
    ssa_applied (exec_FieldManager e) (sent_cr (tk_cr tk) sent_labels (sent_annotations (tk_payload tk) now ctx)) ca cb new ->
    operator cb c1 -> (forall k, k <> (tk_write tk).1 -> same_at k c c1) /\ spec_at c1 (tk_write tk).1 = Some (tk_write tk).2)
    as Hwrite.
  { intros x y now ctx ca cb new Op1 Hssa Op2.
    destruct (left_specs cfg e (tk_payload tk) (tk_group tk) (tk_role tk) (tk_project tk) (plainResult ResultReady "") x y)
      as [Hother [Hspec|(_ & Hno & _)]]; [|done|done].
    exists ca, cb, now, ctx. eauto 10. }
  intros Hs Ha.
  destruct Hs as [act ctx ctx' obj err o1 c c1 Hsent HP|act ctx ctx' obj o1 c c1 Hsent HP|act ctx o1 err o2 c c1 HG
    |act ctx o1 applied c c1 HG|act applied c Hd|act applied ctx cur obj g c c1 Hd HG Hr
    |act applied ctx cur err obj c c1 Hd HG Hr|act applied ctx err c c1 HW|act applied ctx s c c1 HW
    |act applied s D start v t c Hl]; cbn [about] in Ha; try subst act.
  1,2: destruct Hsent as (t & n & _ & _ & ->); unfold tk_act in HP; rewrite stamped_ticket in HP.
  - apply Patch_failed in HP as (ca & cb & Op1 & Hab & Op2); [|apply sent_complete].
    destruct Hab as [->|(new & Hssa)]; [right|left; split; [done|by eapply Hwrite]].
    split; [intros k; etrans; by apply Hop|]. intros _. unfold answered_well.
    pose proof (classifyK8sErr_kind (wrapped "ssa patch" err) (GetNamespace o1) (GetName o1)) as Hk.
    set_unfold in Hk. destruct Hk as [->|[->|[->|[]]]]; cbn; lia.
  - apply Patch_accepted in HP as (ca & cb & new & Op1 & Hssa & Op2 & _); [|apply sent_complete].
    left. split; [done|by eapply Hwrite].
  - right. apply Get_reads in HG as (ca & Op1 & Op2 & _). split; [intros k; etrans; by apply Hop|done].
  - right. apply Get_reads in HG as (ca & Op1 & Op2 & _). split; [intros k; etrans; by apply Hop|done].
  - right. done.
  - right. apply Get_reads in HG as (ca & Op1 & Op2 & _). split; [intros k; etrans; by apply Hop|done].
  - right. apply Get_reads in HG as (ca & Op1 & Op2 & _). split; [intros k; etrans; by apply Hop|done].
  - right. apply Watch_reads in HW. split; [by apply Hop|done].
  - right. apply Watch_reads in HW. split; [by apply Hop|done].
  - right. split; [apply Hop, Stop_reads|done].
Qed.

(** Each execution is its ticket's, and has written when it is past the patch
    and not refused. *)
Definition threads_ok (tks : list ticket) (ts : list thread) (ws : list nat) : Prop :=
  forall i tk, tks !! i = Some tk -> exists t, ts !! i = Some t /\ about tk t
    /\ (patching t = true -> i ∉ ws) /\ (patching t = false -> answered_well t -> i ∈ ws).

(** Which executions have written, in order, and what that says. *)
Record progress (tks : list ticket) (c0 : C) (n : nat) (c : C) (ts : list thread) (ws : list nat) : Prop := {
  pr_threads : threads_ok tks ts ws;
  pr_length : length ts = length tks;
  pr_nodup : NoDup ws;
  pr_specs k : spec_at c k = replay ((fun i => tk_write <$> tks !! i) <$> ws) (spec_at c0) k;
  pr_frame k : (forall spec, Some (k, spec) ∉ (fun i => tk_write <$> tks !! i) <$> ws) -> same_at k c0 c;
  pr_count : (n + sum_list_with steps_to_go ts <= 5 * length tks)%nat
}.

Lemma progress_start tks c : progress tks c 0 c (start_all tks) [].
Proof.
  split.
  - intros i tk Hi. unfold start_all. rewrite list_lookup_fmap, Hi. eexists. split; [done|]. split; [done|].
    split; [by intros ? ?%elem_of_nil|done].
  - apply length_fmap.
  - constructor.
  - done.
  - done.
  - unfold start_all. induction tks as [|tk tks IH]; [done|]. cbn in *. lia.
Qed.

Lemma sum_insert_lt ts i t t1 :
  ts !! i = Some t -> (steps_to_go t1 < steps_to_go t)%nat ->
  (S (sum_list_with steps_to_go (<[i := t1]> ts)) <= sum_list_with (@steps_to_go object object_list) ts)%nat.
Proof.
  revert i. induction ts as [|x ts IH]; intros [|i] Hi Hlt; [done|done| |].
  - injection Hi as ->. change (S (steps_to_go t1 + sum_list_with steps_to_go ts) <= steps_to_go t + sum_list_with steps_to_go ts)%nat. lia.
  - specialize (IH i Hi Hlt).
    change (S (steps_to_go x + sum_list_with steps_to_go (<[i := t1]> ts)) <= steps_to_go x + sum_list_with steps_to_go ts)%nat. lia.
Qed.

(** The other executions are as they were. *)
Lemma threads_step (tks : list ticket) (ts : list thread) (ws ws' : list nat) (i : nat) tk t t1 :
  tks !! i = Some tk -> ts !! i = Some t -> about tk t1 -> patching t1 = false ->
  (answered_well t1 -> i ∈ ws') -> (forall j, j <> i -> j ∈ ws' <-> j ∈ ws) ->
  threads_ok tks ts ws -> threads_ok tks (<[i := t1]> ts) ws'.
Proof.
  intros Hi Ht Ha Hp Hw Hws Hall j tkj Hj. destruct (decide (j = i)) as [->|Hne].
  - rewrite Hi in Hj. injection Hj as <-. exists t1. rewrite list_lookup_insert_eq by (by eapply lookup_lt_Some).
    split; [done|]. split; [done|]. split; [by rewrite Hp|done].
  - destruct (Hall j tkj Hj) as (tj & Htj & Haj & H1' & H2'). exists tj. rewrite list_lookup_insert_ne by done.
    rewrite Hws by done. done.
Qed.

Lemma progress_step tks c0 n c ts ws i t c1 t1 :
  progress tks c0 n c ts ws -> ts !! i = Some t -> tstep e c t c1 t1 ->
  exists ws', progress tks c0 (S n) c1 (<[i := t1]> ts) ws'.
Proof.
  intros [Hth Hlen Hnd Hsp Hfr Hcnt] Ht Hs. pose proof (lookup_lt_Some _ _ _ Ht) as Hi. rewrite Hlen in Hi.
  apply lookup_lt_is_Some_2 in Hi as [tk Htk]. destruct (Hth i tk Htk) as (t' & Ht' & Ha & Hpt & Hnp).
  rewrite Ht in Ht'. injection Ht' as <-. destruct (tstep_about tk _ _ _ _ Hs Ha) as [Ha1 Hp1].
  pose proof (tstep_works e _ _ _ _ Hs) as Hw. pose proof (sum_insert_lt ts i t t1 Ht Hw) as Hsum.
  assert (length (<[i := t1]> ts) = length tks) as Hlen1 by (by rewrite length_insert).
  destruct (tstep_effect tk _ _ _ _ Hs Ha) as [(Hp & Hother & Hspec)|(Hsame & Hbad)].
  - exists (ws ++ [i]). split; [| done| | | |lia].
    + eapply (threads_step tks ts ws); [done|done|done|done|set_solver|intros j Hj; set_solver|done].
    + apply NoDup_app. split; [done|]. split; [|apply NoDup_singleton].
      intros j Hj ->%list_elem_of_singleton. by apply Hpt.
    + intros k. rewrite fmap_app. unfold replay. rewrite foldl_app. cbn [fmap list_fmap foldl]. rewrite Htk. cbn.
      destruct (decide (cr_key (tk_cr tk) = k)) as [<-|Hne]; [exact Hspec|].
      rewrite (same_at_spec _ _ _ (Hother k (not_eq_sym Hne))). apply Hsp.
    + intros k Hn. rewrite fmap_app in Hn. etrans; [apply Hfr; intros spec; specialize (Hn spec); set_solver|].
      apply Hother. intros ->. apply (Hn (sgm_Spec (tk_cr tk))). cbn. rewrite Htk. set_solver.
  - exists ws. split; [|done|done| | |lia].
    + eapply (threads_step tks ts ws); [done|done|done|done| |done|done].
      intros Hans. destruct (patching t) eqn:Hp; [by destruct (Hbad eq_refl)|].
      apply Hnp; [done|]. destruct t; try done. by inversion Hs.
    + intros k. rewrite (same_at_spec _ _ _ (Hsame k)). apply Hsp.
    + intros k Hn. etrans; [by apply Hfr|apply Hsame].
Qed.

Lemma interleaved_progress tks c0 n c ts :
  interleaved (c0, start_all tks) n (c, ts) -> exists ws, progress tks c0 n c ts ws.
Proof.
  intros Hr. remember (c, ts) as y eqn:Ey. revert c ts Ey.
  induction Hr as [|n c c1 ts _ IH Hop|n c ts i t c1 t1 _ IH Ht Hs]; intros c' ts' [= <- <-].
  - exists []. apply progress_start.
  - destruct (IH _ _ eq_refl) as (ws & [Hth Hlen Hnd Hsp Hfr Hcnt]). exists ws. split; try done.
    + intros k. rewrite <- Hsp. by apply same_at_spec, operator_status.
    + intros k Hn. etrans; [by apply Hfr|by apply operator_status].
  - destruct (IH _ _ eq_refl) as (ws & Hp). by eapply progress_step.
Qed.

(** C6: Concurrent executions are as good as some order of them.  For any
    tickets executed in parallel, interleaved with each other and with the
    operator in any way, they make at most five API calls for each ticket, in
    all, and an execution that is not done can always go on; there is an order of some of them, each
    once, such that the specs in the cluster are the initial ones overwritten
    by theirs in that order; an execution that is answered 200 or 504 is in
    it, one that has not patched yet is not; and an object none of them writes
    is, but for its status, as it was. *)
Theorem interleaved_linearizable tks c0 n c ts :
  interleaved (c0, start_all tks) n (c, ts) ->
  (n <= 5 * length tks)%nat
  /\ (forall i t, ts !! i = Some t -> (exists res, t = Done res) \/ exists c1 t1, tstep e c t c1 t1)
  /\ exists order, NoDup order
       /\ (forall i res, ts !! i = Some (Done res) -> HTTPStatus (Kind res) = 200 \/ HTTPStatus (Kind res) = 504 -> i ∈ order)
       /\ (forall i act ctx, ts !! i = Some (Patching act ctx) -> i ∉ order)
       /\ (forall k, spec_at c k = replay ((fun i => tk_write <$> tks !! i) <$> order) (spec_at c0) k)
       /\ forall k, (forall spec, Some (k, spec) ∉ (fun i => tk_write <$> tks !! i) <$> order) -> same_at k c0 c.
Proof.
  intros Hr. destruct (interleaved_progress _ _ _ _ _ Hr) as (ws & [Hth Hlen Hnd Hsp Hfr Hcnt]).
  assert (forall i t, ts !! i = Some t -> (patching t = true -> i ∉ ws) /\ (patching t = false -> answered_well t -> i ∈ ws))
    as Hin.
  { intros i t Ht. pose proof (lookup_lt_Some _ _ _ Ht) as Hi. rewrite Hlen in Hi. apply lookup_lt_is_Some_2 in Hi as [tk Htk].
    destruct (Hth i tk Htk) as (t' & Ht' & _ & H1' & H2'). rewrite Ht in Ht'. by injection Ht' as <-. }
  split; [lia|]. split.
  - intros i t Ht. destruct (decide (steps_to_go t = 0%nat)) as [Hz|Hnz].
    + left. destruct t; try done. by eexists.
    + right. by apply tstep_enabled.
  - exists ws. split; [done|]. split; [intros i res Hi; by apply (Hin i _ Hi)|].
    split; [intros i act ctx Hi; by apply (Hin i _ Hi)|done].
Qed.

End Tickets.

(** ** Two tickets on the server of [ConvergenceSample]

    The same issue with two roles: the second execution patches first, so the
    role of the first is what is stored. *)

Module InterleavingSample.
Import ExecutorSample ConvergenceSample.

#[local] Instance tables2 : UnicodeTables := plain_tables.

Definition ticket_of (role : string) : ticket := mkTicket payload1 "team-a" role "p1" ctx0.

Definition tks0 : list ticket := [ticket_of "reader"; ticket_of "admin"].

Definition span_ctx : Context :=
  mkContext (ctx_request_id ctx0) (tracer_Start ctx0 "k8s.apply" 0) (ctx_done ctx0).

(** The answer to a patch for a ticket at noon, and the cluster left. *)
Definition patched (c : server) (role : string) : object * server :=
  let '(_, o, c) := client_Patch span_ctx (stamped (tk_act jsm1 (ticket_of role)) span_ctx (time_of_ns T0))
                      (exec_FieldManager executor1) true c in (o, c).

Lemma patch_step c role :
  tstep executor1 c (Patching (tk_act jsm1 (ticket_of role)) ctx0) (patched c role).2
    (Fetching (tk_act jsm1 (ticket_of role)) span_ctx (patched c role).1).
Proof.
  unfold patched. eapply t_patched; [by exists (time_of_ns T0), 0%nat|].
  unfold tk_act. rewrite stamped_ticket. cbn [client_Patch client1]. by destruct (patch0 _ _ _).
Qed.

Definition ca : server := (patched ∅ "admin").2.
Definition cb : server := (patched ca "reader").2.

Lemma run2 : exists ts, interleaved executor1 (∅, start_all jsm1 tks0) 2 (cb, ts).
Proof.
  pose proof (interleaved_step executor1 _ 0 ∅ _ 1 _ _ _ (interleaved_start executor1 (∅, start_all jsm1 tks0)) eq_refl
                (patch_step ∅ "admin")) as Hr.
  eexists. exact (interleaved_step executor1 _ 1 _ _ 0 _ _ _ Hr eq_refl (patch_step ca "reader")).
Qed.

Definition role_at (c : server) : option string :=
  (fun spec => rr_Name (sp_RoleRef spec)) <$> spec_at c (mapping_key "wiz" "jsm-sec-1").

Example roles : (role_at ca, role_at cb) = (Some "admin", Some "reader").
Proof. vm_compute. reflexivity. Qed.

Lemma interleaved_linearizable_witness :
  exists order, NoDup order
    /\ forall k, spec_at cb k = replay ((fun i => tk_write jsm1 <$> tks0 !! i) <$> order) (fun _ => None) k.
Proof.
  destruct run2 as [ts Hr].
  destruct (interleaved_linearizable jsm1 executor1 tks0 ∅ 2 cb ts Hr) as (_ & _ & order & Hnd & _ & _ & Hs & _).
  exists order. split; [exact Hnd|]. intros k. rewrite Hs. reflexivity.
Defined.

End InterleavingSample.
