(* ===== verification/Labels.v ===== *)
(** * Instruments are used as they are declared

    [WithLabelValues] panics when it gets the wrong number of values or one
    that is not valid UTF-8.  Here every sample the public handler records is
    checked against the declarations of [Instruments]: the field exists, its
    kind fits, the values fit its labels, and the labels of the Kubernetes
    and JSM instruments take the finitely many values their comments list.
    The world keeps every sample ever recorded, so this is an invariant of
    the world; [preserves] carries it through the code. *)

From S2P Require Import Prelude GoStrings Unicode GoTime GoFloat Signature Json JsonEncode Result Runtime Recorder.
From S2P Require Import Action WizApi JsmPayload JsmProvider Executor Registry Dispatcher System Httpx ServeMux.
From S2P Require Import Config Instruments Startup Public.

Create HintDb labels.

(** ** Well-typed samples *)

(** The values the comments of metrics.go promise. *)
Definition apply_outcomes : list string := ["created"; "updated"; "error"].
Definition sync_outcomes : list string := ["ready"; "timeout"; "transient"].
Definition parse_reasons : list string := ["invalid_json"; "missing_field"; "wrong_type"; "empty_field"].
Definition response_statuses : list string := ["200"; "400"; "422"; "500"; "503"; "504"].

Definition in_domain (field : string) (values : list string) : bool :=
  if String.eqb field "K8sApplyTotal" then
    bool_decide (values ∈ (fun o => ["SAMLGroupMapping"; o]) <$> apply_outcomes)
  else if String.eqb field "K8sSyncDuration" then
    bool_decide (values ∈ (fun o => ["SAMLGroupMapping"; o]) <$> sync_outcomes)
  else if String.eqb field "JSMPayloadParseErrors" then bool_decide (values ∈ (fun r => [r]) <$> parse_reasons)
  else if String.eqb field "JSMResponseTotal" then bool_decide (values ∈ (fun s => [s]) <$> response_statuses)
  else true.

Definition is_histogram (i : instrument) : bool :=
  match i_kind i with Histogram => true | _ => false end.

(** The sample is one the instrument in [field] takes. *)
Definition sample_ok (histogram : bool) (field : string) (values : list string) : bool :=
  match instrument_of webhookd_metrics field with
  | None => false
  | Some i =>
      eqb (is_histogram i) histogram
      && (match WithLabelValues i values with Ret _ => true | Panic _ => false end)
      && in_domain field values
  end.

Lemma Itoa_valid (z : Z) : ValidString (Itoa z) = true.
Proof.
  assert (forall s, sForall (fun c => is_digit c = true) s -> is_ascii s = true) as Hd.
  { induction s as [|c s IH]; [done|]. intros [Hc Hs]. cbn. rewrite (IH Hs), andb_true_r.
    unfold is_digit, in_range in Hc. bool_to_prop. apply Z.ltb_lt. lia. }
  assert (forall x : N, is_ascii (pretty x) = true) as Hp.
  { intros x. unfold pretty, pretty_N. case_decide; [done|].
    destruct (pretty_N_go_digits x "" ltac:(lia)) as (c & q & -> & Hc & _ & Hq). apply Hd.
    rewrite append_nil_r. by split. }
  apply ValidString_ascii. destruct (Itoa_cases z) as (sign & x & [->| ->] & ->); [apply Hp|]. cbn. apply Hp.
Qed.

(** ** The invariant *)

Section Invariant.
Context {C L : Type}.
Local Notation M := (M C L).
Implicit Types w : world C L.

Record well_typed w : Prop := {
  typed_counters field values v : w_counters w !! (field, values) = Some v -> sample_ok false field values = true;
  typed_observed field values v : (field, values, v) ∈ w_observed w -> sample_ok true field values = true
}.

(** Method and route of a request can be label values; for the method this
    is because net/http admits only tokens. *)
Definition labelled (q : Request) : Prop := ValidString (Method q) = true /\ ValidString (Pattern q) = true.

Definition requests_labelled w : Prop := forall l q, w_requests w !! l = Some q -> labelled q.

Definition inv w : Prop := well_typed w /\ requests_labelled w.

(** [m] keeps the invariant, whether it returns or panics; a value it returns
    satisfies [Q]. *)
Definition preserves {A} (Q : A -> Prop) (m : M A) : Prop :=
  forall w, inv w -> inv (m w).2 /\ forall a, (m w).1 = Ret a -> Q a.

Definition safe {A} (m : M A) : Prop := preserves (fun _ => True) m.

Lemma preserves_ret {A} (Q : A -> Prop) a : Q a -> preserves Q (mret a).
Proof. intros Ha w Hw. split; [done|]. by intros ? [= <-]. Qed.

Lemma preserves_bind {A B} (P : A -> Prop) (Q : B -> Prop) (m : M A) (f : A -> M B) :
  preserves P m -> (forall a, P a -> preserves Q (f a)) -> preserves Q (m ≫= f).
Proof.
  intros Hm Hf w Hw. destruct (Hm w Hw) as [Hi Ha]. unfold mbind, M_bind.
  destruct (m w) as [[a|v] w1]; cbn in *; [by apply Hf; [apply Ha|]|done].
Qed.

Lemma preserves_weaken {A} (P Q : A -> Prop) (m : M A) : (forall a, P a -> Q a) -> preserves P m -> preserves Q m.
Proof. intros HPQ Hm w Hw. destruct (Hm w Hw) as [Hi Ha]. eauto. Qed.

Lemma safe_preserves {A} (P : A -> Prop) (m : M A) : preserves P m -> safe m.
Proof. by apply preserves_weaken. Qed.

Lemma safe_bind {A B} (m : M A) (f : A -> M B) : safe m -> (forall a, safe (f a)) -> safe (m ≫= f).
Proof. intros Hm Hf. eapply preserves_bind; [exact Hm|]. intros a _. apply Hf. Qed.

Lemma safe_ret {A} (a : A) : safe (mret a).
Proof. by apply preserves_ret. Qed.

Lemma safe_panic {A} v : safe (panic v : M A).
Proof. intros w Hw. split; [done|]. intros a E. discriminate. Qed.

Lemma safe_defer {A} d (m : M A) : safe d -> safe m -> safe (defer d m).
Proof.
  intros Hd Hm w Hw. unfold defer. destruct (Hm w Hw) as [Hi _]. destruct (m w) as [o w1]. cbn in *.
  destruct (Hd w1 Hi) as [Hi2 _]. by destruct (d w1) as [[] w2].
Qed.

Lemma inv_recovering h m w : (forall v, safe (h v)) -> inv (m w).2 -> inv (recovering h m w).2.
Proof.
  intros Hh Hm. unfold recovering. destruct (m w) as [[a|v] w1]; cbn in *; [done|]. by apply Hh.
Qed.

(** Samples and requests are as they were. *)
Definition untouched w w' : Prop := same_instruments w w' /\ w_requests w' = w_requests w.

Lemma inv_untouched w w' : untouched w w' -> inv w -> inv w'.
Proof.
  intros [[Hc Ho] Hr] [[H1 H2] H3]. split; [split|].
  - intros f vs v. rewrite Hc. apply H1.
  - intros f vs v. rewrite Ho. apply H2.
  - intros l q. rewrite Hr. apply H3.
Qed.

Lemma safe_frame {A} (m : M A) : (forall w, untouched w (m w).2) -> safe m.
Proof. intros Hm w Hw. split; [|done]. by eapply inv_untouched. Qed.

Lemma safe_modify f : (forall w, untouched w (f w)) -> safe (modify f : M unit).
Proof. intros Hf. by apply safe_frame. Qed.

Lemma safe_get {A} (f : world C L -> A) : safe (get f).
Proof. by apply safe_frame. Qed.

Lemma safe_clock : safe (clock_read : M Z).
Proof. by apply safe_frame. Qed.

Lemma safe_log level msg attrs : safe (log level msg attrs : M unit).
Proof. by apply safe_frame. Qed.

Lemma safe_span ev : safe (span ev : M unit).
Proof. by apply safe_frame. Qed.

Lemma safe_add_counter field values d : sample_ok false field values = true -> safe (add_counter field values d : M unit).
Proof.
  intros Hok w [[H1 H2] H3]. split; [|done]. split; [split|]; [|exact H2|exact H3].
  intros f vs v Hl. cbn in Hl. apply lookup_insert_Some in Hl as [[[= <- <-] _]|[_ Hl]]; [done|by eapply H1].
Qed.

Lemma safe_inc field values : sample_ok false field values = true -> safe (inc field values : M unit).
Proof. apply safe_add_counter. Qed.

Lemma safe_observe field values v : sample_ok true field values = true -> safe (observe field values v : M unit).
Proof.
  intros Hok w [[H1 H2] H3]. split; [|done]. split; [split|]; [exact H1| |exact H3].
  intros f vs v' Hl. cbn in Hl. apply elem_of_app in Hl as [Hl|Hl%list_elem_of_singleton]; [by eapply H2|].
  by injection Hl as -> -> _.
Qed.

Lemma preserves_deref r : preserves labelled (deref_request r : M Request).
Proof.
  intros w [Hw Hr]. unfold deref_request. destruct (w_requests w !! r) as [q|] eqn:Eq; (split; [by split|]).
  - intros ? [= <-]. by eapply Hr.
  - done.
Qed.

End Invariant.

#[export] Hint Resolve safe_ret safe_get safe_clock safe_log safe_span safe_panic : labels.

(** Follow the code; the leaves are hints. *)
Ltac safe_tac :=
  repeat first
    [ solve [auto with labels]
    | (apply safe_bind; [|intros])
    | (apply safe_modify; by intros)
    | case_match ].

(** ** Responses *)

Section Writers.
Context {C L : Type}.
Local Notation M := (M C L).

Lemma safe_SetHeader rw k v : safe (SetHeader rw k v : M unit).
Proof. unfold SetHeader. safe_tac. Qed.

Lemma safe_conn_WriteHeader code : safe (conn_WriteHeader code : M unit).
Proof. unfold conn_WriteHeader. safe_tac. Qed.

Lemma safe_conn_Write b : safe (conn_Write b : M (Z * option error)).
Proof. unfold conn_Write. pose proof safe_conn_WriteHeader. safe_tac. Qed.

Lemma safe_deref_recorder l : safe (deref_recorder l : M statusRecorder).
Proof. apply safe_frame. intros w. unfold deref_recorder. by case_match. Qed.

Lemma safe_upd_recorder l s : safe (upd_recorder l s : M unit).
Proof. by apply safe_modify. Qed.

Hint Resolve safe_SetHeader safe_conn_WriteHeader safe_conn_Write safe_deref_recorder safe_upd_recorder : labels.

Lemma safe_newStatusRecorder rw : safe (newStatusRecorder rw : M ResponseWriter).
Proof. unfold newStatusRecorder. safe_tac. Qed.

Lemma safe_WriteHeader rw code : safe (WriteHeader rw code : M unit).
Proof. induction rw as [|l rw IH]; cbn [WriteHeader]; safe_tac. Qed.

Lemma safe_Write rw b : safe (Write rw b : M (Z * option error)).
Proof. induction rw as [|l rw IH]; cbn [Write]; safe_tac. Qed.

Hint Resolve safe_newStatusRecorder safe_WriteHeader safe_Write : labels.

Lemma safe_http_Error rw msg code : safe (http_Error rw msg code : M unit).
Proof. unfold http_Error, DelHeader. safe_tac. Qed.

Lemma safe_status_of rw : safe (status_of rw : M statusRecorder).
Proof. unfold status_of. safe_tac. Qed.

(** A copy of a request keeps method and route. *)
Lemma safe_WithContext r f : safe (WithContext r f : M nat).
Proof.
  eapply preserves_bind; [apply preserves_deref|]. intros q Hq. apply safe_bind; [apply safe_get|]. intros l.
  apply safe_bind; [|intros; apply safe_ret]. intros w [Hw Hr]. split; [|done].
  split; [by destruct Hw; split|]. intros l' q' Hl. cbn in Hl.
  apply lookup_app_Some in Hl as [Hl|[_ Hl]]; [by eapply Hr|]. apply list_lookup_singleton_Some in Hl as [_ <-]. exact Hq.
Qed.

Lemma safe_set_route r patStr vs : ValidString patStr = true -> safe (set_route r patStr vs : M unit).
Proof.
  intros Hp w [Hw Hr]. split; [|done]. split; [by destruct Hw; split|]. intros l q Hl. cbn in Hl.
  destruct (decide (l = r)) as [->|Hne].
  - rewrite list_lookup_alter_eq in Hl. destruct (w_requests w !! r) as [q0|] eqn:E; [|done]. injection Hl as <-.
    destruct (Hr r q0 E) as [Hm _]. by split.
  - rewrite list_lookup_alter_ne in Hl by done. by eapply Hr.
Qed.

End Writers.

#[export] Hint Resolve safe_SetHeader safe_WriteHeader safe_Write safe_http_Error safe_status_of safe_newStatusRecorder
  safe_deref_recorder safe_WithContext : labels.

(** ** Provider and executor *)

Section Backend.
Context {C L : Type} `{UnicodeTables, !K8sClient C object object_list, !ApiErrors, !Tracer}.
Local Notation M := (M C L).

Lemma extractReason_known err : Jsm.extractReason err ∈ parse_reasons.
Proof. unfold Jsm.extractReason. repeat case_match; apply (bool_decide_unpack _); vm_compute; exact I. Qed.

Lemma decodeReason_known err : Jsm.decodeReason err ∈ parse_reasons.
Proof. unfold Jsm.decodeReason. repeat case_match; apply (bool_decide_unpack _); vm_compute; exact I. Qed.

Lemma safe_recordParseErr (p : @Jsm.Config C L) reason : reason ∈ parse_reasons -> safe (Jsm.recordParseErr p reason).
Proof.
  intros Hr. unfold Jsm.recordParseErr. case_match; [apply safe_ret|]. apply safe_inc.
  repeat (apply elem_of_cons in Hr as [->|Hr]); [done..|]. by apply elem_of_nil in Hr.
Qed.

Lemma safe_recordNoop (p : @Jsm.Config C L) : safe (Jsm.recordNoop p).
Proof. unfold Jsm.recordNoop. case_match; [apply safe_ret|by apply safe_inc]. Qed.

(** What [Handle] asks for has the one kind the program applies. *)
Definition mapping_action (r : result (Action object object_list)) : Prop :=
  match r with
  | Ok (Apply act) => act_Kind act = "SAMLGroupMapping"
  | _ => True
  end.

Lemma preserves_extract p payload field next :
  (forall s, preserves mapping_action (next s)) -> preserves mapping_action (Jsm.extract (C:=C) (L:=L) p payload field next).
Proof.
  intros Hn. unfold Jsm.extract. destruct (ExtractString payload field); [apply Hn|].
  eapply preserves_bind; [apply safe_recordParseErr, extractReason_known|]. intros _ _. by apply preserves_ret.
Qed.

Lemma preserves_Handle (p : @Jsm.Config C L) body : preserves mapping_action (Jsm.Handle p body).
Proof.
  unfold Jsm.Handle. destruct (Decode body) as [payload|err].
  - case_match.
    + eapply preserves_bind; [apply safe_recordNoop|]. intros _ _. by apply preserves_ret.
    + do 3 (apply preserves_extract; intros ?). by apply preserves_ret.
  - eapply preserves_bind; [apply safe_recordParseErr, decodeReason_known|]. intros _ _. by apply preserves_ret.
Qed.

Lemma safe_time_Now : safe (time_Now : M Time).
Proof. unfold time_Now. safe_tac. Qed.

Lemma safe_VerifySignature r body (cfg : @Jsm.SignatureConfig C L) :
  (forall f, Jsm.Now cfg = Some f -> safe f) -> safe (Jsm.VerifySignature r body cfg).
Proof.
  intros Hnow. unfold Jsm.VerifySignature. apply safe_bind; [eapply safe_preserves, preserves_deref|]. intros q.
  apply safe_bind; [|intros; apply safe_ret]. destruct (Jsm.Now cfg) as [f|]; [by apply Hnow|apply safe_time_Now].
Qed.

Lemma applyOutcome_known (o : object) : applyOutcome o ∈ apply_outcomes.
Proof. unfold applyOutcome. repeat case_match; apply (bool_decide_unpack _); vm_compute; exact I. Qed.

Lemma syncOutcome_known k : syncOutcome k ∈ sync_outcomes.
Proof. destruct k; apply (bool_decide_unpack _); vm_compute; exact I. Qed.

Variable e : @Executor C L.
Hypothesis clock_safe : safe (exec_clock e).

Lemma safe_observeApply o : o ∈ apply_outcomes -> safe (observeApply e "SAMLGroupMapping" o).
Proof.
  intros Ho. unfold observeApply. case_match; [apply safe_ret|]. apply safe_inc.
  repeat (apply elem_of_cons in Ho as [->|Ho]); [done..|]. by apply elem_of_nil in Ho.
Qed.

Lemma safe_observeSync o d : o ∈ sync_outcomes -> safe (observeSync e "SAMLGroupMapping" o d).
Proof.
  intros Ho. unfold observeSync. case_match; [apply safe_ret|]. apply safe_observe.
  repeat (apply elem_of_cons in Ho as [->|Ho]); [done..|]. by apply elem_of_nil in Ho.
Qed.

(** Calls of the cluster touch neither samples nor requests. *)
Lemma safe_Patch ctx (o : object) owner force : safe (Patch (L:=L) ctx o owner force).
Proof. apply safe_frame. intros w. unfold Patch. by destruct (client_Patch _ _ _ _ _) as [[]]. Qed.

Lemma safe_Get ctx ns name (o : object) : safe (Get (L:=L) ctx ns name o).
Proof. apply safe_frame. intros w. unfold Get. by destruct (client_Get _ _ _ _ _) as [[]]. Qed.

Lemma safe_Watch ctx (l : object_list) ns : safe (Watch (L:=L) ctx l ns).
Proof. apply safe_frame. intros w. unfold Watch. by destruct (client_Watch _ _ _ _). Qed.

Lemma safe_Stop s : safe (Stop (L:=L) s).
Proof. by apply safe_frame. Qed.

Lemma safe_Start ctx name attrs : safe (Start (C:=C) (L:=L) ctx name attrs).
Proof. unfold Start. safe_tac. Qed.

Hint Resolve safe_Patch safe_Get safe_Watch safe_Stop safe_Start : labels.

Lemma safe_apply ctx act : safe (apply e ctx act).
Proof. unfold apply, applyPatched, applyError, systemAnnotations. safe_tac. Qed.

Lemma safe_awaitReady ctx act applied g start base : safe (awaitReady e ctx act applied g start base).
Proof. unfold awaitReady, watchUntilReady. safe_tac. Qed.

Lemma safe_waitForSync ctx act applied : act_Kind act = "SAMLGroupMapping" -> safe (waitForSync e ctx act applied).
Proof.
  intros Hk. unfold waitForSync, WithTimeout. rewrite Hk.
  pose proof safe_awaitReady. pose proof (fun k d => safe_observeSync (syncOutcome k) d (syncOutcome_known k)). safe_tac.
Qed.

Lemma safe_Execute ctx a : mapping_action (Ok a) -> safe (Execute e ctx a).
Proof.
  intros Ha. destruct a as [reason|act|T]; cbn [Execute]; try apply safe_ret. cbn in Ha.
  pose proof safe_apply. pose proof (fun o => safe_waitForSync o act). rewrite Ha.
  pose proof (safe_observeApply "error" ltac:(apply (bool_decide_unpack _); vm_compute; exact I)).
  pose proof (fun o => safe_observeApply (applyOutcome o) (applyOutcome_known o)). safe_tac.
Qed.

End Backend.

(** ** Dispatcher, mux and middleware *)

Definition safe_handler {C L : Type} (h : Handler C L) : Prop := forall rw r, safe (h rw r).

Section Frontend.
Context {C L : Type} `{UnicodeTables, !K8sClient C object object_list, !ApiErrors, !Tracer}.
Context `{!UUID, !RateLimiter L float64, !OTelHTTP C L, !OTelHTTPLaws C L}.
Local Notation M := (M C L).
Implicit Types h next : Handler C L.

Lemma safe_writeResponse (d : @Dispatcher C L object object_list) ctx rw prov res : safe (writeResponse d ctx rw prov res).
Proof.
  unfold writeResponse.
  assert (safe (inc "JSMResponseTotal" [Itoa (HTTPStatus (Kind res))] : M unit))
    by (apply safe_inc; destruct (Kind res); vm_compute; reflexivity).
  safe_tac.
Qed.

Lemma safe_ReadAll rw b n : safe (ReadAll rw b n : M read_result).
Proof. unfold ReadAll. safe_tac. Qed.

Lemma safe_ServeHTTP (cfg : @Jsm.Config C L) (e : @Executor C L) metrics maxBody :
  (forall f, Jsm.Now (Jsm.cfg_Signature cfg) = Some f -> safe f) -> safe (exec_clock e) ->
  safe_handler (ServeHTTP (jsm_dispatcher cfg e metrics maxBody)).
Proof.
  intros Hnow Hclock rw r. unfold ServeHTTP. apply safe_bind; [eapply safe_preserves, preserves_deref|]. intros q. cbv zeta.
  destruct (d_providers _ !! _) as [prov|] eqn:Ep; [|safe_tac].
  cbn in Ep. apply lookup_singleton_Some in Ep as [_ <-]. apply safe_bind; [apply safe_ReadAll|].
  intros [body| |err]; [|safe_tac..]. apply safe_bind; [by apply safe_VerifySignature|].
  intros [bad|]; [safe_tac|]. eapply preserves_bind; [apply preserves_Handle|].
  intros [a|err] Ha; [|apply safe_writeResponse].
  apply safe_bind; [by apply safe_Execute|intros; apply safe_writeResponse].
Qed.

Lemma safe_disabled : safe_handler (disabled (C:=C) (L:=L)).
Proof. intros rw r. unfold disabled. safe_tac. Qed.

Lemma safe_Redirect rw r url : safe (Redirect rw r url : M unit).
Proof. unfold Redirect. apply safe_bind; [eapply safe_preserves, preserves_deref|]. intros q. safe_tac. Qed.

(** The last part of a string that ends in a slash. *)
Lemma ends_in_slash (a x b : string) : a +:+ "/" = x +:+ b -> b <> "" -> sIn slash b.
Proof.
  revert a. induction x as [|c x IH]; intros a E Hb.
  - rewrite append_nil_l in E. subst b. clear. induction a as [|d a IH]; [by left|by right].
  - destruct a as [|d a]; rewrite append_cons in E.
    + injection E as _ E. by destruct x, b.
    + rewrite append_cons in E. injection E as _ E. by eapply IH.
Qed.

(** The public mux redirects, if at all, to the cleaned path: there is no
    subtree for a slash to be appended for, so the route is its pattern or
    none. *)
Lemma public_redirect h q loc patStr :
  findHandler [(webhook_pattern, h)] q = RedirectTo loc patStr -> ValidString patStr = true.
Proof.
  assert (forall p, match_segments (pat_segments webhook_pattern) (String slash p +:+ "/") = None) as Hseg.
  { intros p. rewrite append_cons. destruct (match_segments _ _) as [vs|] eqn:E; [|done]. exfalso.
    apply match_two in E as (raw1 & raw2 & E & _ & Hs2 & _ & Hne & _); [|done]. apply Hs2.
    apply (ends_in_slash p (raw1 +:+ "/") raw2); [by rewrite append_assoc|done]. }
  assert (forall method path, tree_match [(webhook_pattern, h)] method path
    = if method_matches "POST" method then
        match match_segments (pat_segments webhook_pattern) path with Some vs => Some (webhook_pattern, h, vs) | None => None end
      else None) as Htree.
  { intros method path. unfold tree_match, matching. cbn [foldr pat_method webhook_pattern is_tail existsb].
    destruct (method_matches _ _); cbn [andb Bool.eqb is_tail existsb pat_segments webhook_pattern orb]; [|done].
    by destruct (match_segments _ path). }
  destruct (cleanPath_rooted (EscapedPath (URL q))) as (p0 & Hp0).
  unfold findHandler, matchOrRedirect. rewrite !Htree, Hp0, Hseg.
  destruct (String.eqb_spec (Method q) "CONNECT") as [->|_].
  { change (method_matches "POST" "CONNECT") with false. rewrite andb_false_r. by repeat case_match. }
  destruct (method_matches "POST" (Method q)); rewrite andb_false_r; repeat case_match; intros ?; simplify_eq; try done.
  all: by vm_compute.
Qed.

Lemma safe_mux (h : Handler C L) : safe_handler h -> safe_handler (mux_ServeHTTP [(webhook_pattern, h)]).
Proof.
  intros Hh rw r. unfold mux_ServeHTTP. apply safe_bind; [eapply safe_preserves, preserves_deref|]. intros q.
  case_match; [safe_tac|]. destruct (findHandler _ q) as [p h' vs|loc patStr|ms|] eqn:E.
  - apply found_routed in E as (-> & -> & _). apply safe_bind; [by apply safe_set_route|]. intros _. apply Hh.
  - apply safe_bind; [by eapply safe_set_route, public_redirect|]. intros _. apply safe_Redirect.
  - apply safe_bind; [by apply safe_set_route|]. intros _. safe_tac.
  - apply safe_bind; [by apply safe_set_route|]. intros _. safe_tac.
Qed.

Lemma routeOf_valid q : labelled q -> ValidString (routeOf q) = true.
Proof. intros [_ Hp]. unfold routeOf. by case_match. Qed.

(** A sample of an HTTP instrument with values that are valid. *)
Lemma http_sample_ok hist field (values : list string) i :
  instrument_of webhookd_metrics field = Some i -> is_histogram i = hist -> length values = length (i_labels i) ->
  in_domain field values = true -> Forall (fun v => ValidString v = true) values -> sample_ok hist field values = true.
Proof.
  intros Hi Hh Hlen Hd Hv. unfold sample_ok, WithLabelValues. rewrite Hi, Hh, eqb_reflx, Hlen, Nat.eqb_refl, Hd. cbn.
  replace (forallb ValidString values) with true; [done|]. symmetry. apply forallb_forall.
  rewrite Forall_forall in Hv. intros v Hin. by apply Hv, list_elem_of_In.
Qed.

Lemma safe_Metrics next : safe_handler next -> safe_handler (Metrics next).
Proof.
  intros Hn rw r. unfold Metrics. apply safe_bind; [by apply safe_add_counter|]. intros _.
  apply safe_defer; [by apply safe_add_counter|]. apply safe_bind; [apply safe_clock|]. intros start.
  apply safe_bind; [apply safe_newStatusRecorder|]. intros rec. apply safe_bind; [apply Hn|]. intros _.
  eapply preserves_bind; [apply preserves_deref|]. intros q Hq. apply safe_bind; [apply safe_status_of|]. intros s. cbv zeta.
  pose proof (Itoa_valid (rec_status s)). pose proof (routeOf_valid q Hq). destruct Hq as [Hm _].
  apply safe_bind; [eapply safe_inc, http_sample_ok; by eauto|]. intros _.
  apply safe_bind; [apply safe_clock|]. intros now.
  apply safe_bind; [eapply safe_observe, http_sample_ok; by eauto|]. intros _.
  apply safe_bind; [|intros _; eapply safe_observe, http_sample_ok; by eauto].
  case_match; [eapply safe_observe, http_sample_ok; by eauto|apply safe_ret].
Qed.

Lemma safe_SLog next : safe_handler next -> safe_handler (SLog next).
Proof.
  intros Hn rw r. unfold SLog. do 2 (apply safe_bind; [auto with labels|intros ?]). apply safe_bind; [apply Hn|]. intros _.
  apply safe_bind; [eapply safe_preserves, preserves_deref|]. intros q. safe_tac.
Qed.

Lemma inv_Recover next rw r w : inv (next rw r w).2 -> inv (Recover next rw r w).2.
Proof.
  intros Hn. unfold Recover. apply inv_recovering; [|done]. intros v.
  apply safe_bind; [by apply safe_inc|]. intros _. apply safe_bind; [eapply safe_preserves, preserves_deref|]. intros q. safe_tac.
Qed.

Lemma safe_RequestID next : safe_handler next -> safe_handler (RequestID next).
Proof.
  intros Hn rw r. unfold RequestID. apply safe_bind; [eapply safe_preserves, preserves_deref|]. intros q.
  do 3 (apply safe_bind; [auto with labels|intros ?]). apply Hn.
Qed.

Lemma safe_retryAfter provider (lim : L) : safe (retryAfter (C:=C) provider lim).
Proof. unfold retryAfter, putLimiter. safe_tac. Qed.

Lemma safe_RateLimit cfg next : safe_handler next -> safe_handler (RateLimit cfg next).
Proof.
  intros Hn rw r. unfold RateLimit, getLimiter, putLimiter. apply safe_bind; [eapply safe_preserves, preserves_deref|].
  intros q. cbv zeta. case_match; [apply Hn|]. apply safe_bind; [safe_tac|]. intros lim.
  apply safe_bind; [apply safe_clock|]. intros now. destruct (limiter_Allow lim now) as [ok lim'].
  apply safe_bind; [by apply safe_modify|]. intros _. destruct ok; [apply Hn|].
  apply safe_bind; [|intros _; pose proof (safe_retryAfter (providerFromPath (URL_Path q)) lim'); safe_tac].
  unfold inc_values. destruct (forallb ValidString _) eqn:Ev; [|apply safe_panic]. cbn [forallb] in Ev.
  rewrite andb_true_r in Ev. eapply safe_inc, http_sample_ok; by eauto.
Qed.

Lemma inv_OTel name next rw r w q :
  safe_handler next -> w_requests w !! r = Some q -> inv w -> inv (OTel name next rw r w).2.
Proof.
  intros Hn Eq [[Ht1 Ht2] Ht3]. unfold OTel. destruct (otelhttp_runs next "" name rw r w q Eq)
    as (q1 & w1 & w3 & Hr1 & Hm & _ & _ & _ & _ & _ & -> & S & Hp & [Hc Ho] & Hi3). cbn [snd].
  apply (inv_untouched (next rw (length (w_requests w)) w1).2); [by split; [|destruct S]|].
  apply Hn. split; [split|].
  - intros f vs v. rewrite Hc. apply Ht1.
  - intros f vs v. rewrite Ho. apply Ht2.
  - intros l q' Hl. rewrite Hr1 in Hl. apply lookup_app_Some in Hl as [Hl|[_ Hl]]; [by eapply Ht3|].
    apply list_lookup_singleton_Some in Hl as [_ <-]. destruct (Ht3 r q Eq) as [Hmq Hpq].
    split; [by rewrite (msg_method _ _ Hm)|by rewrite Hp].
Qed.

Lemma inv_public cfg d rw r w q :
  safe_handler (match d with Some d => d | None => disabled end) ->
  w_requests w !! r = Some q -> inv w -> inv (buildPublicHandler cfg d rw r w).2.
Proof.
  intros Hd Hq Hw. unfold buildPublicHandler. repeat rewrite Chain_cons.
  eapply inv_Recover, inv_OTel; [|exact Hq|exact Hw].
  by apply safe_RequestID, safe_RateLimit, safe_SLog, safe_Metrics, safe_mux.
Qed.

End Frontend.

(** ** The program *)

Section Typed.
Context {C L RC : Type} `{UnicodeTables, !K8sClient C object object_list, !ApiErrors, !Tracer, !K8sLibrary RC}.
Context `{!UUID, !RateLimiter L float64, !OTelHTTP C L, !OTelHTTPLaws C L}.

Lemma wire_inv (env : gmap string string) (cfg : Config.Config) (h : Handler C L) r (w : world C L) q :
  Load env = Ok cfg -> wire cfg = Ret (Ok h) -> w_requests w !! r = Some q -> inv w -> inv (h RWConn r w).2.
Proof.
  intros Hload Hw Hq Hi. revert Hw. unfold wire. destruct (EnabledProviders cfg) as [|n ns] eqn:En.
  - intros [= <-]. by apply (inv_public cfg None RWConn r w q safe_disabled).
  - destruct (buildDispatcher cfg true) as [[d|]|] eqn:Ed; try done. intros [= <-].
    apply (buildDispatcher_jsm env) in Ed as ->; [|done|by rewrite En].
    eapply (inv_public cfg (Some _) RWConn r w q); [|done|done].
    apply safe_ServeHTTP; [by intros f [= <-]; apply safe_time_Now|apply safe_time_Now].
Qed.

(** C17: Instruments are well typed.  Serving a request on the public
    listener, whatever it is and whether handlers panic, records only samples
    that the instruments registered by [NewMetrics] take: the field exists,
    counters are counted and histograms observed, there are as many label
    values as labels, each valid UTF-8, and the values of the Kubernetes and
    JSM instruments are among the finitely many documented ones.  So no call
    of [WithLabelValues] can panic but the rate limiter's on a segment that
    is not UTF-8, which records nothing. *)
Theorem samples_well_typed (env : gmap string string) (cfg : Config.Config) (h : Handler C L) r (w : world C L) q :
  Load env = Ok cfg -> wire cfg = Ret (Ok h) -> w_requests w !! r = Some q ->
  well_typed w -> requests_labelled w -> well_typed (h RWConn r w).2 /\ requests_labelled (h RWConn r w).2.
Proof. intros Hload Hw Hq Ht Hr. by apply (wire_inv env cfg h r w q). Qed.

End Typed.

Module LabelsSample.
Import ExecutorSample PublicSample.

#[local] Instance tables0 : UnicodeTables := plain_tables.
#[local] Instance library0 : K8sLibrary unit := StartupSample.library0.
#[local] Instance uuid0 : UUID := HttpxSample.uuid0.
#[local] Existing Instance limiter0.
#[local] Existing Instance otel0.
#[local] Existing Instance otel0_laws.

(** The samples of one approved ticket. *)
Example handler0_samples :
  (map_to_list (w_counters (handler0 RWConn 0%nat w0).2)).*1 ≡ₚ
    [("HTTPInflight", []); ("HTTPRequests", ["POST"; "POST /webhook/{provider}"; "200"]);
     ("JSMResponseTotal", ["200"]); ("K8sApplyTotal", ["SAMLGroupMapping"; "created"])].
Proof. apply (bool_decide_unpack _). vm_compute. exact I. Qed.

Lemma samples_well_typed_witness : well_typed (handler0 RWConn 0%nat w0).2.
Proof.
  apply (samples_well_typed ConfigSample.minimal_env cfg0 handler0 0%nat w0 request0 StartupSample.Load_cfg0 wire0 eq_refl).
  - split; [intros f vs v Hl; discriminate Hl|intros f vs v Hl; inversion Hl].
  - intros [|l] q Hl; [injection Hl as <-; split; reflexivity|discriminate Hl].
Defined.

End LabelsSample.
