(* ===== verification/Lifecycle.v ===== *)
(** * The process ([realMain], [run], [startServer], [waitForShutdown],
    [drainServers], main.go) and the admin listener ([NewAdminMux], admin.go)

    The run of the program after its wiring, as a timed state machine: the
    main goroutine, the two listener goroutines, the connections of the two
    servers, the signal handler and the clock move independently, and talk
    through the buffered error channel, the readiness flag and the signal
    context.  [Shutdown] and the flush of the traces block: they return when
    the server is idle, when the exporter is done, or when their context is. *)

From S2P Require Import Prelude GoStrings Unicode GoTime GoFloat Result JsonEncode Runtime Recorder Action.
From S2P Require Import WizApi Executor Httpx ServeMux Config Startup Public.

(** ** The admin listener *)

Section Admin.
Context {C L : Type}.
Local Notation Handler := (Handler C L).

(** [promhttp.HandlerFor] and the handlers of net/http/pprof, by name. *)
Variables (promhttp : Handler) (pprof : string -> Handler).

Definition registerPProf : mux Handler :=
  [(mkPattern "GET" [Lit "debug"; Lit "pprof"; Tail] "GET /debug/pprof/", pprof "Index");
   (mkPattern "GET" [Lit "debug"; Lit "pprof"; Lit "cmdline"] "GET /debug/pprof/cmdline", pprof "Cmdline");
   (mkPattern "GET" [Lit "debug"; Lit "pprof"; Lit "profile"] "GET /debug/pprof/profile", pprof "Profile");
   (mkPattern "GET" [Lit "debug"; Lit "pprof"; Lit "symbol"] "GET /debug/pprof/symbol", pprof "Symbol");
   (mkPattern "GET" [Lit "debug"; Lit "pprof"; Lit "trace"] "GET /debug/pprof/trace", pprof "Trace")].

Definition admin_mux (ready pprofEnabled : bool) : mux Handler :=
  [(mkPattern "GET" [Lit "healthz"] "GET /healthz", healthz);
   (mkPattern "GET" [Lit "readyz"] "GET /readyz", readyz ready);
   (mkPattern "GET" [Lit "metrics"] "GET /metrics", promhttp)]
  ++ (if pprofEnabled then registerPProf else []).

(** [ready] is the flag as it is when the request is served. *)
Definition NewAdminMux (ready pprofEnabled : bool) : Handler :=
  Chain (mux_ServeHTTP (admin_mux ready pprofEnabled)) [Recover; Metrics].

End Admin.

(** ** The state machine *)

Inductive listener :=
| Idle
| Running
| Closing
| Returned.

(** The open connections of a server: those between two requests, which
    [Shutdown] closes, and those with a request in flight, which it waits
    for. *)
Record conns := mkConns {
  idle_conns : nat;
  busy_conns : nat
}.

(** The deadline of a context: none for [context.Background()]. *)
Definition WithTimeout (now timeout : Z) : option Z := Some (now + timeout).

Definition expired (deadline : option Z) (now : Z) : bool :=
  match deadline with Some d => d <=? now | None => false end.

(** Where the main goroutine is.  [listenErr] is what the [select] received;
    [Draining*] is inside a call of [Shutdown], and [ctx] is the deadline of
    the context of both calls; [Flushing] is inside the deferred
    [shutdownTracerProvider], with a deadline of its own and what [run] is
    about to return. *)
Inductive phase :=
| Booting
| BootingAdmin
| Booted
| Waiting
| Selected (listenErr : option error)
| Unready (listenErr : option error)
| DrainingPublic (ctx : option Z) (listenErr : option error)
| DrainedPublic (ctx : option Z) (listenErr pubErr : option error)
| DrainingAdmin (ctx : option Z) (listenErr pubErr : option error)
| Drained (listenErr pubErr admErr : option error)
| Flushing (ctx : option Z) (ret : option error)
| Exited (code : Z).

(** [p_flushed]: the tracer provider's [Shutdown] was called and is over. *)
Record proc := mkProc {
  p_phase : phase;
  p_public : listener;
  p_admin : listener;
  p_pubConns : conns;
  p_admConns : conns;
  p_ready : bool;
  p_errCh : list (option error);
  p_signal : bool;
  p_flushed : bool;
  p_now : Z
}.

Definition start_proc : proc :=
  mkProc Booting Idle Idle (mkConns 0 0) (mkConns 0 0) false [] false false 0.

(** The value [waitForShutdown] returns. *)
Definition shutdown_result (listenErr pubErr admErr : option error) : option error :=
  match pubErr, admErr, listenErr with
  | Some e, _, _ => Some (wrapped "public shutdown" e)
  | None, Some e, _ => Some (wrapped "admin shutdown" e)
  | None, None, Some e => Some e
  | None, None, None => None
  end.

(** [realMain]'s exit code. *)
Definition exit_code (err : option error) : Z := match err with Some _ => 1 | None => 0 end.

(** [Shutdown] closes a listener that is still serving. *)
Definition close_listener (l : listener) : listener :=
  match l with Running => Closing | l => l end.

(** How a step of the main goroutine comes about: it runs on; its [select]
    takes the signal or the channel; [Shutdown] looks at the connections,
    [lnErr] being what closing the listener gave; the context of the call it
    waits in is done; or the flush comes to its end. *)
Inductive choice :=
| Runs
| TakesSignal
| TakesError
| Polls (lnErr : option error)
| Expires
| Flushes.

(** [http.Server.Shutdown] after it has closed the listener: what it returns
    and the connections it leaves.  It closes the idle connections and returns
    when none is left, and gives up when its context is done; otherwise it
    goes on waiting. *)
Definition Shutdown_returns (ctx : option Z) (now : Z) (cs : conns) (c : choice) : option (option error * conns) :=
  match c with
  | Polls lnErr => if Nat.eqb (busy_conns cs) 0 then Some (lnErr, mkConns 0 0) else None
  | Expires => if expired ctx now then Some (Some (Opaque "context deadline exceeded"), cs) else None
  | _ => None
  end.

(** What a [TracerProvider]'s [Shutdown] promises: it ends by itself or when
    its context is done. *)
Definition flush_returns (ctx : option Z) (now : Z) (c : choice) : bool :=
  match c with Flushes => true | Expires => expired ctx now | _ => false end.

Section Machine.
(** [cfg.ShutdownTimeout]. *)
Context (ShutdownTimeout : Z).

(** The main goroutine: its next state, or [None] when it is blocked or the
    choice is not open to it. *)
Definition main_step (s : proc) (c : choice) : option proc :=
  let '(mkProc ph pub adm pcs acs ready ch sig fl now) := s in
  match ph, c with
  | Booting, Runs => Some (mkProc BootingAdmin Running adm pcs acs ready ch sig fl now)
  | BootingAdmin, Runs => Some (mkProc Booted pub Running pcs acs ready ch sig fl now)
  | Booted, Runs => Some (mkProc Waiting pub adm pcs acs true ch sig fl now)
  | Waiting, TakesSignal => if sig then Some (mkProc (Selected None) pub adm pcs acs ready ch sig fl now) else None
  | Waiting, TakesError =>
      match ch with
      | [] => None
      | e :: ch => Some (mkProc (Selected e) pub adm pcs acs ready ch sig fl now)
      end
  | Selected l, Runs => Some (mkProc (Unready l) pub adm pcs acs false ch sig fl now)
  | Unready l, Runs =>
      let ctx := WithTimeout now ShutdownTimeout in
      Some (mkProc (DrainingPublic ctx l) (close_listener pub) adm pcs acs ready ch sig fl now)
  | DrainingPublic ctx l, c =>
      '(err, pcs) ← Shutdown_returns ctx now pcs c;
      Some (mkProc (DrainedPublic ctx l err) pub adm pcs acs ready ch sig fl now)
  | DrainedPublic ctx l pe, Runs =>
      Some (mkProc (DrainingAdmin ctx l pe) pub (close_listener adm) pcs acs ready ch sig fl now)
  | DrainingAdmin ctx l pe, c =>
      '(err, acs) ← Shutdown_returns ctx now acs c;
      Some (mkProc (Drained l pe err) pub adm pcs acs ready ch sig fl now)
  | Drained l pe ae, Runs =>
      Some (mkProc (Flushing (WithTimeout now ShutdownTimeout) (shutdown_result l pe ae)) pub adm pcs acs ready ch sig fl now)
  | Flushing ctx ret, c =>
      if flush_returns ctx now c then Some (mkProc (Exited (exit_code ret)) pub adm pcs acs ready ch sig true now) else None
  | _, _ => None
  end.

(** The other goroutines live as long as the process does. *)
Definition alive (s : proc) : bool := match p_phase s with Exited _ => false | _ => true end.

(** What happens around the main goroutine, to either server: a listener
    goroutine ends with an error, or because it was closed; a connection is
    accepted, finishes its request (and is kept or not), is used again, or is
    hung up. *)
Inductive happening :=
| Fails (err : error)
| Stops
| Accepts
| Finishes (kept : bool)
| Reuses
| HangsUp.

(** One of them on a server: its listener, its connections and what its
    goroutine ([startServer]) sends. *)
Definition server_step (name : string) (l : listener) (cs : conns) (h : happening)
    : option (listener * conns * list (option error)) :=
  let '(mkConns idle busy) := cs in
  match h, l, idle, busy with
  | Fails err, Running, _, _ => Some (Returned, cs, [Some (wrapped (name +:+ " listener") err)])
  | Stops, Closing, _, _ => Some (Returned, cs, [None])
  | Accepts, Running, _, _ => Some (l, mkConns idle (S busy), [])
  | Finishes kept, _, _, S busy => Some (l, mkConns (if kept then S idle else idle) busy, [])
  | Reuses, _, S idle, _ => Some (l, mkConns idle (S busy), [])
  | HangsUp, _, S idle, _ => Some (l, mkConns idle busy, [])
  | _, _, _, _ => None
  end.

Inductive step : proc -> proc -> Prop :=
| step_main s c s' : main_step s c = Some s' -> step s s'
| step_signal ph pub adm pcs acs ready ch sig fl now :
    alive (mkProc ph pub adm pcs acs ready ch sig fl now) = true ->
    step (mkProc ph pub adm pcs acs ready ch sig fl now) (mkProc ph pub adm pcs acs ready ch true fl now)
| step_time ph pub adm pcs acs ready ch sig fl now now' :
    alive (mkProc ph pub adm pcs acs ready ch sig fl now) = true -> now <= now' ->
    step (mkProc ph pub adm pcs acs ready ch sig fl now) (mkProc ph pub adm pcs acs ready ch sig fl now')
| step_public ph pub adm pcs acs ready ch sig fl now h pub' pcs' sent :
    alive (mkProc ph pub adm pcs acs ready ch sig fl now) = true ->
    server_step "public" pub pcs h = Some (pub', pcs', sent) ->
    step (mkProc ph pub adm pcs acs ready ch sig fl now) (mkProc ph pub' adm pcs' acs ready (ch ++ sent) sig fl now)
| step_admin ph pub adm pcs acs ready ch sig fl now h adm' acs' sent :
    alive (mkProc ph pub adm pcs acs ready ch sig fl now) = true ->
    server_step "admin" adm acs h = Some (adm', acs', sent) ->
    step (mkProc ph pub adm pcs acs ready ch sig fl now) (mkProc ph pub adm' pcs acs' ready (ch ++ sent) sig fl now).

Definition reachable (s : proc) : Prop := rtc step start_proc s.

(** ** Safety *)

(** The main goroutine is between [ready.Store(true)] and
    [ready.Store(false)]. *)
Definition serving (ph : phase) : bool :=
  match ph with Waiting | Selected _ => true | _ => false end.

Definition sends (l : listener) : nat := match l with Returned => 1 | _ => 0 end.

(** What a phase says about the listeners: (public, admin) not started, up
    (or failed), or asked to close. *)
Definition up (l : listener) : Prop := l = Running \/ l = Returned.
Definition down (l : listener) : Prop := l = Closing \/ l = Returned.

Definition listeners_ok (s : proc) : Prop :=
  match p_phase s with
  | Booting => p_public s = Idle /\ p_admin s = Idle
  | BootingAdmin => up (p_public s) /\ p_admin s = Idle
  | Booted | Waiting | Selected _ | Unready _ => up (p_public s) /\ up (p_admin s)
  | DrainingPublic _ _ | DrainedPublic _ _ _ => down (p_public s) /\ up (p_admin s)
  | DrainingAdmin _ _ _ | Drained _ _ _ | Flushing _ _ | Exited _ => down (p_public s) /\ down (p_admin s)
  end.

Record inv (s : proc) : Prop := {
  inv_ready : p_ready s = serving (p_phase s);
  inv_listeners : listeners_ok s;
  inv_channel : (length (p_errCh s) <= sends (p_public s) + sends (p_admin s))%nat;
  inv_flushed : p_flushed s = negb (alive s)
}.

Lemma up_Running : up Running.
Proof. by left. Qed.

Lemma close_listener_down l : up l -> down (close_listener l).
Proof. intros [->| ->]; [by left|by right]. Qed.

Lemma close_listener_sends l : sends (close_listener l) = sends l.
Proof. by destruct l. Qed.

Lemma main_step_inv s c s' : inv s -> main_step s c = Some s' -> inv s'.
Proof.
  destruct s as [ph pub adm pcs acs ready ch sig fl now]. intros [Hr Hl Hc Hf]. cbn in *. unfold listeners_ok, alive in *.
  destruct ph, c; cbn in *; destruct_and?; intros E; repeat case_match; simplify_eq/=; constructor;
    unfold listeners_ok, alive in *; cbn in *; rewrite ?close_listener_sends;
    try done; try lia; try (split; by auto using close_listener_down, up_Running).
Qed.

(** What a happening keeps of its server. *)
Lemma server_step_keeps name l cs h l' cs' sent :
  server_step name l cs h = Some (l', cs', sent) ->
  (l' = l /\ sent = []) \/ (l = Running /\ l' = Returned /\ exists e, sent = [Some e])
  \/ (l = Closing /\ l' = Returned /\ sent = [None]).
Proof. unfold server_step. intros E. repeat case_match; simplify_eq; eauto 10. Qed.

Lemma step_inv s s' : inv s -> step s s' -> inv s'.
Proof.
  intros Hi Hs. destruct Hs as [s c s' E|? ? ? ? ? ? ? ? ? ? Ha|? ? ? ? ? ? ? ? ? ? ? Ha _
    |ph pub adm pcs acs ready ch sig fl now h l' cs' sent Ha E|ph pub adm pcs acs ready ch sig fl now h l' cs' sent Ha E];
    [by eapply main_step_inv|destruct Hi; by constructor..| |];
    destruct Hi as [Hr Hl Hc Hf]; apply server_step_keeps in E;
    constructor; try done; unfold listeners_ok, up, down in *; cbn in *; rewrite ?length_app;
    destruct E as [[-> ->]|[(-> & -> & ? & ->)|(-> & -> & ->)]]; cbn in *; try lia; try done; destruct ph; naive_solver.
Qed.

Lemma reachable_inv s : reachable s -> inv s.
Proof.
  revert s. apply (rtc_ind_r inv start_proc); [|by intros; eapply step_inv]. by constructor.
Qed.

(** C27: In every reachable state of the process: it reports ready exactly
    between the start of both listeners and the first step of the shutdown;
    the error channel never holds more than its two slots, so no listener
    goroutine blocks on it; and when the process exits, both servers have been
    told to stop, readiness is withdrawn and the flush of the traces is over. *)
Theorem lifecycle_safe s :
  reachable s ->
  p_ready s = serving (p_phase s) /\ (length (p_errCh s) <= 2)%nat
  /\ (serving (p_phase s) = true -> up (p_public s) /\ up (p_admin s))
  /\ forall code, p_phase s = Exited code ->
       down (p_public s) /\ down (p_admin s) /\ p_ready s = false /\ p_flushed s = true.
Proof.
  intros [Hr Hl Hc Hf]%reachable_inv. unfold listeners_ok, alive in *.
  split; [done|]. split; [destruct (p_public s), (p_admin s); cbn in *; lia|]. split.
  - by destruct (p_phase s).
  - intros code E. rewrite E in *. destruct Hl. by rewrite Hr, Hf.
Qed.

(** ** Exit codes *)

(** What the [select] received, once it is over. *)
Definition received (ph : phase) : option (option error) :=
  match ph with
  | Selected l | Unready l | DrainingPublic _ l | DrainedPublic _ l _ | DrainingAdmin _ l _ | Drained l _ _ => Some l
  | _ => None
  end.

(** The [select] is still to come. *)
Definition before_select (ph : phase) : bool :=
  match ph with Booting | BootingAdmin | Booted | Waiting => true | _ => false end.

(** [run] returned, or is about to return, nil. *)
Definition succeeded (ph : phase) : bool :=
  match ph with Flushing _ None => true | Exited code => code =? 0 | _ => false end.

(** The call of [Shutdown] on the public, the admin server returned nil. *)
Definition public_drained (ph : phase) : bool :=
  match ph with
  | DrainedPublic _ _ None | DrainingAdmin _ _ None | Drained _ None _ => true
  | ph => succeeded ph
  end.

Definition admin_drained (ph : phase) : bool :=
  match ph with Drained _ _ None => true | ph => succeeded ph end.

(** Until the [select] no listener is being closed, so what they send is an
    error; a [select] that received none, and a [run] that returns nil, had a
    signal; a server whose [Shutdown] returned nil has no connection left. *)
Record exit_inv (s : proc) : Prop := {
  ei_before : before_select (p_phase s) = true ->
    p_public s <> Closing /\ p_admin s <> Closing /\ Forall is_Some (p_errCh s);
  ei_received : received (p_phase s) = Some None -> p_signal s = true;
  ei_public : public_drained (p_phase s) = true -> p_pubConns s = mkConns 0 0;
  ei_admin : admin_drained (p_phase s) = true -> p_admConns s = mkConns 0 0;
  ei_succeeded : succeeded (p_phase s) = true -> p_signal s = true
}.

Lemma Shutdown_nil ctx now cs c cs' : Shutdown_returns ctx now cs c = Some (None, cs') -> cs' = mkConns 0 0.
Proof. unfold Shutdown_returns. intros E. by repeat case_match; simplify_eq. Qed.

Lemma exit_code_0 ret : (exit_code ret =? 0) = true -> ret = None.
Proof. by destruct ret. Qed.

Lemma shutdown_result_nil l pe ae : shutdown_result l pe ae = None <-> l = None /\ pe = None /\ ae = None.
Proof. destruct l, pe, ae; naive_solver. Qed.

Lemma main_step_exit_inv s c s' : exit_inv s -> main_step s c = Some s' -> exit_inv s'.
Proof.
  destruct s as [ph pub adm pcs acs ready ch sig fl now]. intros [Hb Hr Hp Ha He] E. cbn in *.
  destruct ph as [| | | |l|l|ctx l|ctx l pe|ctx l pe|l pe ae|ctx ret|code]; cbn in *;
    try (destruct (Hb eq_refl) as (Hp1 & Hq & Hch)).
  7: { destruct (Shutdown_returns ctx now pcs c) as [[err pcs']|] eqn:Es; simplify_eq/=. constructor; cbn; try done.
       intros Hn. destruct err; [done|]. by eapply Shutdown_nil. }
  8: { destruct (Shutdown_returns ctx now acs c) as [[err acs']|] eqn:Es; simplify_eq/=. constructor; cbn; try done.
       intros Hn. destruct err; [done|]. by eapply Shutdown_nil. }
  9: { destruct (flush_returns ctx now c); simplify_eq. constructor; cbn; try done; intros ->%exit_code_0; auto. }
  all: destruct c; try done; repeat case_match; simplify_eq; constructor; cbn; try done.
  2-4: destruct l; naive_solver.
  intros [= ->]. by apply Forall_cons in Hch as [[? [=]] _].
Qed.

Lemma server_step_quiet name l h l' cs' sent :
  down l -> server_step name l (mkConns 0 0) h = Some (l', cs', sent) -> cs' = mkConns 0 0.
Proof. intros [-> | ->] E; destruct h; by simplify_eq/=. Qed.

(** A server that is drained has been asked to close. *)
Lemma drained_down s :
  inv s -> (public_drained (p_phase s) = true -> down (p_public s)) /\ (admin_drained (p_phase s) = true -> down (p_admin s)).
Proof.
  intros [_ Hl _ _]. unfold listeners_ok in Hl.
  destruct (p_phase s) as [| | | | | | |? ? [] |? ? [] |? [] [] |? [] |]; cbn; naive_solver.
Qed.

Lemma step_exit_inv s s' : inv s -> exit_inv s -> step s s' -> exit_inv s'.
Proof.
  intros Hinv Hi Hs. destruct (drained_down s Hinv) as [Hdp Hda].
  destruct Hs as [s c s' E|? ? ? ? ? ? ? ? ? ? Ha|? ? ? ? ? ? ? ? ? ? ? Ha _
    |ph pub adm pcs acs ready ch sig fl now h l' cs' sent Ha E|ph pub adm pcs acs ready ch sig fl now h l' cs' sent Ha E];
    [by eapply main_step_exit_inv|destruct Hi; by constructor..| |]; destruct Hi as [Hb Hr Hp Hq He]; cbn in *.
  all: constructor; cbn; try done.
  1, 3: intros (Hp1 & Hq1 & Hf)%Hb; apply server_step_keeps in E;
    destruct E as [[-> ->]|[(-> & -> & ? & ->)|(-> & -> & ->)]]; rewrite ?app_nil_r, ?Forall_app;
    repeat split; try done; by constructor.
  - intros Hd. rewrite (Hp Hd) in E. by eapply server_step_quiet; [apply Hdp|].
  - intros Hd. rewrite (Hq Hd) in E. by eapply server_step_quiet; [apply Hda|].
Qed.

Lemma reachable_exit_inv s : reachable s -> exit_inv s.
Proof.
  intros Hs. enough (inv s /\ exit_inv s) by tauto. revert s Hs. apply (rtc_ind_r _ start_proc).
  - by repeat constructor.
  - intros s s' _ Hs [Hi He]. split; [by eapply step_inv|by eapply step_exit_inv].
Qed.

(** The end of the drain a state comes from: what the [select] received and
    what the calls of [Shutdown] returned. *)
Definition after_drain (s : proc) (l pe ae : option error) : Prop :=
  exists s0, reachable s0 /\ p_phase s0 = Drained l pe ae /\ rtc step s0 s.

Definition exits_from (s : proc) : Prop :=
  match p_phase s with
  | Flushing _ ret => exists l pe ae, after_drain s l pe ae /\ ret = shutdown_result l pe ae
  | Exited code => exists l pe ae, after_drain s l pe ae /\ code = exit_code (shutdown_result l pe ae)
  | _ => True
  end.

Lemma after_drain_step s s' l pe ae : after_drain s l pe ae -> step s s' -> after_drain s' l pe ae.
Proof. intros (s0 & Hr & Hp & Hs) Hst. exists s0. split; [done|]. split; [done|]. by eapply rtc_r. Qed.

Lemma step_exits_from s s' : reachable s -> exits_from s -> step s s' -> exits_from s'.
Proof.
  intros Hreach Hf Hst. pose proof (fun l pe ae H => after_drain_step s s' l pe ae H Hst) as Hkeep.
  unfold exits_from in *. destruct Hst as [s c s' E| | | |]; cbn in *; try (by case_match; naive_solver).
  destruct s as [ph pub adm pcs acs ready ch sig fl now]. cbn in *.
  destruct ph as [| | | |l|l|ctx l|ctx l pe|ctx l pe|l pe ae|ctx ret|code]; cbn in *.
  7: by destruct (Shutdown_returns _ _ _ _) as [[]|]; simplify_eq/=.
  8: by destruct (Shutdown_returns _ _ _ _) as [[]|]; simplify_eq/=.
  9: { destruct (flush_returns ctx now c); simplify_eq/=. destruct Hf as (l & pe & ae & Hd & ->). exists l, pe, ae. eauto. }
  all: destruct c; try done; repeat case_match; simplify_eq/=; try done.
  exists l, pe, ae. split; [|done]. eexists. split; [exact Hreach|]. split; [done|]. apply rtc_once. by apply (step_main _ Runs).
Qed.

Lemma reachable_exits_from s : reachable s -> exits_from s.
Proof.
  intros Hs. pattern s. revert s Hs. apply rtc_ind_r; [done|]. intros s s' Hr Hst IH. by eapply step_exits_from.
Qed.

Lemma exited_code s code :
  reachable s -> p_phase s = Exited code ->
  exists l pe ae, after_drain s l pe ae /\ (code = 0 \/ code = 1) /\ (code = 0 <-> l = None /\ pe = None /\ ae = None).
Proof.
  intros Hs He. pose proof (reachable_exits_from s Hs) as Hf. unfold exits_from in Hf. rewrite He in Hf.
  destruct Hf as (l & pe & ae & Hd & ->). exists l, pe, ae. split; [done|]. rewrite <- shutdown_result_nil.
  destruct (shutdown_result l pe ae); cbn; naive_solver.
Qed.

(** ** Termination of the shutdown *)

(** The process is on its way out: told by a signal or by a listener that
    failed, or past the [select]. *)
Definition stopping (s : proc) : Prop :=
  p_signal s = true \/ p_errCh s <> [] \/ before_select (p_phase s) = false.

(** The deadline of the call the main goroutine is in. *)
Definition waits_until (ph : phase) : option (option Z) :=
  match ph with
  | DrainingPublic ctx _ | DrainingAdmin ctx _ _ | Flushing ctx _ => Some ctx
  | _ => None
  end.

(** The main goroutine can go on, whatever the requests and the exporter
    do. *)
Definition unblocked (s : proc) : bool :=
  match p_phase s with
  | Waiting => p_signal s || negb (bool_decide (p_errCh s = []))
  | Exited _ => false
  | ph => match waits_until ph with Some ctx => expired ctx (p_now s) | None => true end
  end.

(** Steps of a process whose main goroutine is scheduled: time does not pass
    while it can go on, nor beyond the deadline that unblocks it. *)
Definition prompt (s s' : proc) : Prop :=
  step s s' /\ (p_now s' = p_now s
                \/ unblocked s = false /\ forall d, waits_until (p_phase s) = Some (Some d) -> p_now s' <= d).

(** Steps that need no help: no request finishes, no flush comes to its
    end; only the main goroutine and the clock move. *)
Inductive unaided : proc -> proc -> Prop :=
| unaided_main s c s' : c <> Flushes -> main_step s c = Some s' -> unaided s s'
| unaided_time ph pub adm pcs acs ready ch sig fl now now' :
    alive (mkProc ph pub adm pcs acs ready ch sig fl now) = true -> now <= now' ->
    unaided (mkProc ph pub adm pcs acs ready ch sig fl now) (mkProc ph pub adm pcs acs ready ch sig fl now').

(** The steps of the main goroutine that are left, and the time it can still
    be kept waiting. *)
Definition remaining (ph : phase) : nat :=
  match ph with
  | Booting => 11 | BootingAdmin => 10 | Booted => 9 | Waiting => 8 | Selected _ => 7 | Unready _ => 6
  | DrainingPublic _ _ => 5 | DrainedPublic _ _ _ => 4 | DrainingAdmin _ _ _ => 3 | Drained _ _ _ => 2
  | Flushing _ _ => 1 | Exited _ => 0
  end.

Definition budget : Z := Z.max 0 ShutdownTimeout.

Definition time_left (ctx : option Z) (now : Z) : Z :=
  match ctx with Some d => Z.max 0 (d - now) | None => 0 end.

Definition wait_left (s : proc) : Z :=
  match p_phase s with
  | DrainingPublic ctx _ | DrainedPublic ctx _ _ | DrainingAdmin ctx _ _ => time_left ctx (p_now s) + budget
  | Drained _ _ _ => budget
  | Flushing ctx _ => time_left ctx (p_now s)
  | Exited _ => 0
  | _ => 2 * budget
  end.

(** The context of a call under way has a deadline, at most the timeout
    ahead. *)
Definition deadline_ok (s : proc) : Prop :=
  match p_phase s with
  | DrainingPublic ctx _ | DrainedPublic ctx _ _ | DrainingAdmin ctx _ _ | Flushing ctx _ =>
      exists d, ctx = Some d /\ d <= p_now s + ShutdownTimeout
  | _ => True
  end.

Lemma main_step_clock s c s' :
  main_step s c = Some s' -> deadline_ok s ->
  p_now s' = p_now s /\ remaining (p_phase s) = S (remaining (p_phase s'))
  /\ deadline_ok s' /\ wait_left s' <= wait_left s /\ (stopping s -> stopping s').
Proof.
  destruct s as [ph pub adm pcs acs ready ch sig fl now].
  destruct ph as [| | | |l|l|ctx l|ctx l pe|ctx l pe|l pe ae|ctx ret|code], c; cbn; intros E Hd; try done;
    repeat case_match; simplify_eq/=; unfold wait_left, time_left, deadline_ok, budget, stopping; cbn;
    try (destruct Hd as (d & -> & Hd));
    repeat split; try done; try lia; try naive_solver lia.
Qed.

(** The other steps leave the main goroutine where it is. *)
Lemma step_elsewhere s s' :
  step s s' -> (exists c, main_step s c = Some s')
  \/ p_phase s' = p_phase s /\ alive s = true /\ p_now s <= p_now s' /\ (p_signal s = true -> p_signal s' = true)
     /\ (p_errCh s <> [] -> p_errCh s' <> []).
Proof.
  intros [s0 c s1 E| | | |]; [by left; exists c|right; cbn..]; repeat split; try done; try lia.
  all: by intros Hne [Hch _]%app_nil.
Qed.

Lemma step_deadline_ok s s' : deadline_ok s -> step s s' -> deadline_ok s'.
Proof.
  intros Hd [[c E]|(Hp & _ & Hn & _)]%step_elsewhere; [by eapply main_step_clock|].
  unfold deadline_ok in *. rewrite Hp. case_match; try done; destruct Hd as (d & -> & Hd); exists d; (split; [done|lia]).
Qed.

Lemma reachable_deadline_ok s : reachable s -> deadline_ok s.
Proof. revert s. apply (rtc_ind_r deadline_ok start_proc); [done|]. by intros; eapply step_deadline_ok. Qed.

Lemma wait_left_bound s : deadline_ok s -> wait_left s <= 2 * budget.
Proof.
  unfold deadline_ok, wait_left, time_left, budget. case_match; intros Hd; try (destruct Hd as (d & -> & Hd)); lia.
Qed.

Lemma wait_left_nonneg s : 0 <= wait_left s.
Proof. unfold wait_left, time_left, budget. repeat case_match; lia. Qed.

Lemma stopping_step s s' : deadline_ok s -> stopping s -> step s s' -> stopping s'.
Proof.
  intros Hd Hs [[c E]|(Hp & _ & _ & Hsig & Hch)]%step_elsewhere; [by eapply main_step_clock|].
  unfold stopping in *. rewrite Hp. naive_solver.
Qed.

(** While the main goroutine is scheduled, waiting uses up the time left. *)
Lemma prompt_clock s s' :
  deadline_ok s -> stopping s -> prompt s s' -> p_now s' + wait_left s' <= p_now s + wait_left s.
Proof.
  intros Hd Hstop [Hst Hclock]. apply step_elsewhere in Hst as [[c E]|(Hp & Ha & Hn & _)].
  { apply main_step_clock in E as (-> & _ & _ & Hw & _); [lia|done]. }
  destruct Hclock as [Heq|[Hub Hdl]]; [unfold wait_left; rewrite Hp, Heq; lia|].
  unfold wait_left, unblocked, deadline_ok, stopping, alive in *. rewrite Hp.
  destruct (p_phase s) as [| | | |l|l|ctx l|ctx l pe|ctx l pe|l pe ae|ctx ret|code]; cbn in *; try done.
  1: { exfalso. apply orb_false_iff in Hub as [Hs Hc]. apply negb_false_iff, bool_decide_eq_true in Hc. naive_solver congruence. }
  all: destruct Hd as (d & -> & Hd); specialize (Hdl d eq_refl); cbn in *; lia.
Qed.

Lemma unblocked_steps s : unblocked s = true -> exists c s', c <> Flushes /\ main_step s c = Some s'.
Proof.
  destruct s as [ph pub adm pcs acs ready ch sig fl now]. unfold unblocked. cbn.
  destruct ph as [| | | |l|l|ctx l|ctx l pe|ctx l pe|l pe ae|ctx ret|code]; cbn; intros Hu; try done.
  4: { destruct sig; [by exists TakesSignal; eexists|]. destruct ch; [done|]. by exists TakesError; eexists. }
  6, 8, 10: exists Expires; cbn; rewrite Hu; by eexists.
  all: exists Runs; by eexists.
Qed.

(** Blocked, it waits for a deadline at most the timeout ahead. *)
Lemma blocked_waits s :
  deadline_ok s -> stopping s -> alive s = true -> unblocked s = false ->
  exists d, waits_until (p_phase s) = Some (Some d) /\ p_now s < d <= p_now s + ShutdownTimeout.
Proof.
  unfold deadline_ok, stopping, alive, unblocked. intros Hd Hs Ha Hu.
  destruct (p_phase s) as [| | | |l|l|ctx l|ctx l pe|ctx l pe|l pe ae|ctx ret|code]; cbn in *; try done.
  - exfalso. apply orb_false_iff in Hu as [Hs' Hc]. apply negb_false_iff, bool_decide_eq_true in Hc. naive_solver congruence.
  - destruct Hd as (d & -> & Hd). exists d. split; [done|]. cbn in Hu. lia.
  - destruct Hd as (d & -> & Hd). exists d. split; [done|]. cbn in Hu. lia.
  - destruct Hd as (d & -> & Hd). exists d. split; [done|]. cbn in Hu. lia.
Qed.

(** Unaided, it gets a step further: at once, or at the deadline. *)
Lemma unaided_progress s :
  deadline_ok s -> stopping s -> alive s = true ->
  exists s', rtc unaided s s' /\ (remaining (p_phase s') < remaining (p_phase s))%nat /\ deadline_ok s' /\ stopping s'
    /\ p_now s' + wait_left s' <= p_now s + wait_left s.
Proof.
  intros Hd Hs Ha. assert (exists s1, rtc unaided s s1 /\ p_phase s1 = p_phase s /\ deadline_ok s1 /\ stopping s1
    /\ p_now s1 + wait_left s1 <= p_now s + wait_left s /\ unblocked s1 = true)
    as (s1 & Hrun & Hp & Hd1 & Hs1 & Hw1 & Hu).
  { destruct (unblocked s) eqn:Hu; [by exists s|].
    destruct (blocked_waits s Hd Hs Ha Hu) as (d & Hw & Hnow).
    destruct s as [ph pub adm pcs acs ready ch sig fl now]. cbn in *.
    assert (prompt (mkProc ph pub adm pcs acs ready ch sig fl now) (mkProc ph pub adm pcs acs ready ch sig fl d)) as Hpr.
    { split; [apply step_time; [done|lia]|]. right. split; [done|]. cbn. intros d'. rewrite Hw. intros [= <-]. lia. }
    eexists. split; [apply rtc_once, (unaided_time _ _ _ _ _ _ _ _ _ _ d); [done|lia]|]. split; [done|].
    split; [eapply step_deadline_ok; [done|apply Hpr]|]. split; [eapply stopping_step; [done..|apply Hpr]|].
    split; [exact (prompt_clock _ _ Hd Hs Hpr)|]. unfold unblocked. cbn. destruct ph; simplify_eq/=; lia. }
  destruct (unblocked_steps s1 Hu) as (c & s2 & Hc & E). exists s2.
  split; [eapply rtc_r; [done|by eapply unaided_main]|].
  destruct (main_step_clock s1 c s2 E Hd1) as (Hn & Hr & Hd2 & Hw2 & Hs2). rewrite <- Hp. repeat split; auto; lia.
Qed.

Lemma unaided_exit s :
  deadline_ok s -> stopping s ->
  exists s' code, rtc unaided s s' /\ p_phase s' = Exited code /\ p_now s' <= p_now s + wait_left s.
Proof.
  remember (remaining (p_phase s)) as n eqn:Hn. revert s Hn. induction (lt_wf n) as [n _ IH]. intros s -> Hd Hs.
  destruct (alive s) eqn:Ha.
  - destruct (unaided_progress s Hd Hs Ha) as (s1 & Hrun & Hlt & Hd1 & Hs1 & Hw1).
    destruct (IH _ Hlt s1 eq_refl Hd1 Hs1) as (s2 & code & Hrun2 & He & Hw2). exists s2, code.
    split; [by etrans|]. split; [done|lia].
  - unfold alive in Ha. destruct (p_phase s) as [| | | | | | | | | | |code] eqn:E; try done.
    exists s, code. split; [apply rtc_refl|]. split; [done|]. pose proof (wait_left_nonneg s). lia.
Qed.

Lemma prompt_run s s1 :
  rtc prompt s s1 -> deadline_ok s -> stopping s ->
  deadline_ok s1 /\ stopping s1 /\ p_now s1 + wait_left s1 <= p_now s + wait_left s.
Proof.
  induction 1 as [s|s s0 s1 Hst _ IH]; intros Hd Hs; [split; [done|split; [done|lia]]|].
  pose proof (prompt_clock s s0 Hd Hs Hst) as Hw. destruct Hst as [Hst _].
  destruct IH as (? & ? & ?); [by eapply step_deadline_ok|by eapply stopping_step|]. repeat split; try done. lia.
Qed.

(** C28: Shutdown terminates, and in bounded time, even when requests hang
    and the exporter does not answer.  Take any reachable state in which a
    signal has arrived or a listener has failed, and any run from there in
    which the main goroutine is scheduled when it can go on.  Then the clock
    has advanced by at most twice the shutdown timeout, one for the drain of
    both servers, one for the flush; until it exits, the main goroutine can
    take a step or waits for a deadline at most one timeout ahead; and without
    any request finishing or the flush coming to its end, its own steps and
    the passing of time take it to the exit, within the same bound. *)
Theorem lifecycle_exits s s1 :
  reachable s -> stopping s -> rtc prompt s s1 ->
  p_now s1 <= p_now s + 2 * Z.max 0 ShutdownTimeout
  /\ (alive s1 = true ->
       (exists c s', c <> Flushes /\ main_step s1 c = Some s')
       \/ exists d, waits_until (p_phase s1) = Some (Some d) /\ p_now s1 < d <= p_now s1 + ShutdownTimeout)
  /\ exists s2 code, rtc unaided s1 s2 /\ p_phase s2 = Exited code
       /\ p_now s2 <= p_now s + 2 * Z.max 0 ShutdownTimeout.
Proof.
  intros Hr Hs Hrun. pose proof (reachable_deadline_ok s Hr) as Hd. pose proof (wait_left_bound s Hd) as Hb.
  destruct (prompt_run s s1 Hrun Hd Hs) as (Hd1 & Hs1 & Hw). pose proof (wait_left_nonneg s1).
  unfold budget in Hb. split; [lia|]. split.
  - intros Ha. destruct (unblocked s1) eqn:Hu; [left; by apply unblocked_steps|right; by apply blocked_waits].
  - destruct (unaided_exit s1 Hd1 Hs1) as (s2 & code & Hrun2 & He & Hn). exists s2, code. repeat split; try done. lia.
Qed.

End Machine.

(** ** Readiness as the probes see it *)

Section Probes.
Context {C L : Type}.
Variables (promhttp : Handler C L) (pprof : string -> Handler C L).
Hypothesis promhttp_behaves : well_behaved promhttp.
Hypothesis pprof_behaves : forall name, well_behaved (pprof name).
Implicit Types w : world C L.

(** A probe's answer. *)
Definition probed (code : Z) (body : string) w w' : Prop :=
  w_cluster w' = w_cluster w /\ answered w' code body.

Lemma probe_handles code body :
  200 <= code <= 999 -> body_allowed code = true ->
  handles (fun _ w w' => probed code body w w') (fun rw _ => WriteHeader rw code ;; writeBody rw body).
Proof.
  intros Hc Hb rw r w q Hq Hg [Hs Hbody].
  destruct (WriteHeader_good rw w code Hg Hc) as (w1 & E1 & Hg1 & Hro1 & _ & Hs1 & _ & Hb1).
  rewrite (bind_run _ _ _ _ _ E1). rewrite Hs in Hs1. cbn in Hs1. unfold writeBody.
  destruct (Write_good rw w1 body Hg1) as (n & e & w2 & E2 & Hg2 & Hro2 & _ & Hs2 & _ & Hb2).
  rewrite (bind_run _ _ _ _ _ E2). rewrite Hs1 in Hs2, Hb2. cbn in Hs2, Hb2.
  exists w2. split; [done|]. split; [done|]. split; [apply keeps_eq; destruct Hro1, Hro2; congruence|].
  split; [destruct Hro1, Hro2; congruence|]. split; [done|]. rewrite (ro_broken _ _ Hro2). intros Hbr.
  destruct (Hb2 Hbr Hb) as [-> _]. by rewrite Hb1, Hbody.
Qed.

Lemma readyz_handles (ready : bool) :
  handles (fun _ w w' => probed (if ready then 200 else 503) (if ready then "ready" else "not ready") w w')
    (readyz (C:=C) (L:=L) ready).
Proof. destruct ready; apply probe_handles; done || lia. Qed.

(** A request of the readiness probe. *)
Definition probe_request (q : Request) : Prop :=
  Method q = "GET" /\ EscapedPath (URL q) = "/readyz" /\ RequestURI q <> "*".

Lemma readyz_found (ready enabled : bool) q :
  probe_request q ->
  findHandler (admin_mux promhttp pprof ready enabled) q
  = Found (mkPattern "GET" [Lit "readyz"] "GET /readyz") (readyz ready) [].
Proof. intros (Hm & Hp & _). unfold findHandler. rewrite Hm, Hp. by destruct enabled. Qed.

Lemma admin_handles (ready enabled : bool) :
  handles (fun q w w' => probe_request q ->
             probed (if ready then 200 else 503) (if ready then "ready" else "not ready") w w')
    (NewAdminMux promhttp pprof ready enabled).
Proof.
  set (P := fun (q : Request) w w' => probe_request q ->
    probed (if ready then 200 else 503) (if ready then "ready" else "not ready") w w').
  assert (stable P) as HP.
  { intros q q1 w w1 w2 w' Hm Hcl _ Hcl' Hcn HP Hpr. destruct Hm as [Hm1 Hm2 Hm3 _ _ _].
    destruct HP as [Hc Ha]; [unfold probe_request in *; by rewrite Hm1, Hm2, Hm3|].
    split; [congruence|]. unfold answered in *. by rewrite Hcn. }
  unfold NewAdminMux. rewrite !Chain_cons. apply Recover_handles, Metrics_handles; [done|].
  apply (mux_handles P (fun p _ w w' => pat_text p = "GET /readyz" ->
    probed (if ready then 200 else 503) (if ready then "ready" else "not ready") w w')).
  - assert (forall h text, text <> "GET /readyz" -> well_behaved (C:=C) (L:=L) h ->
      handles (fun _ w w' => text = "GET /readyz" ->
        probed (if ready then 200 else 503) (if ready then "ready" else "not ready") w w') h) as Hother.
    { intros h text Hne Hh rw r w q Hq Hg Hf. destruct (Hh rw r w q Hq Hg Hf) as (w' & E & Hg' & Hk & _).
      exists w'. split; [done|]. split; [done|]. split; [done|]. done. }
    intros p h Hin. unfold admin_mux in Hin. apply elem_of_app in Hin as [Hin|Hin].
    + repeat (apply elem_of_cons in Hin as [Hin|Hin]); [simplify_eq..|by apply elem_of_nil in Hin].
      * apply Hother; [done|]. intros rw r w q Hq Hg Hf.
        destruct (probe_handles 200 "ok" ltac:(lia) eq_refl rw r w q Hq Hg Hf) as (w' & E & Hg' & Hk & _). eauto 10.
      * intros rw r w q Hq Hg Hf. destruct (readyz_handles ready rw r w q Hq Hg Hf) as (w' & E & Hg' & Hk & Hp).
        exists w'. auto.
      * by apply Hother.
    + destruct enabled; [|by apply elem_of_nil in Hin]. unfold registerPProf in Hin.
      repeat (apply elem_of_cons in Hin as [Hin|Hin]); [simplify_eq; by apply Hother..|by apply elem_of_nil in Hin].
  - intros q w w' s Hno _ _ Hpr. exfalso. destruct Hno as [Hstar|Hno]; [by destruct Hpr as (_ & _ & ?)|].
    by eapply Hno, readyz_found.
  - intros q w w1 w' p h vs Hfound Hcl _ Hp Hpr. rewrite (readyz_found _ _ _ Hpr) in Hfound.
    injection Hfound as <- _ _. destruct (Hp eq_refl) as [Hc Ha]. split; [by rewrite Hc|done].
Qed.

(** C29: The readiness probe tells the truth: in every reachable state of the
    process, GET /readyz on the admin listener is answered 200 when the main
    goroutine is serving and 503 when it is starting or shutting down, and
    the probe does not touch the cluster. *)
Theorem readyz_truth timeout s enabled r w q :
  reachable timeout s -> probe_request q -> w_requests w !! r = Some q -> fresh w ->
  exists w', NewAdminMux promhttp pprof (p_ready s) enabled RWConn r w = (Ret tt, w')
    /\ w_cluster w' = w_cluster w
    /\ answered w' (if serving (p_phase s) then 200 else 503) (if serving (p_phase s) then "ready" else "not ready").
Proof.
  intros Hs Hpr Hq Hf. destruct (reachable_inv timeout s Hs) as [Hready _ _ _].
  destruct (admin_handles (p_ready s) enabled RWConn r w q Hq (good_conn w) Hf) as (w' & E & _ & _ & Hp).
  exists w'. split; [done|]. rewrite <- Hready. by apply Hp.
Qed.

End Probes.

(** ** A concrete life *)

Module LifecycleSample.

(** The process up and serving, with a request in flight; told to stop; and
    in the drain. *)
Definition life0 (ph : phase) (pub : listener) (busy : nat) (ready sig : bool) (now : Z) : proc :=
  mkProc ph pub Running (mkConns 0 busy) (mkConns 0 0) ready [] sig false now.

Definition serving0 : proc := life0 Waiting Running 1 true false 0.
Definition signalled0 : proc := life0 Waiting Running 1 true true 7.
Definition draining0 : proc := life0 (DrainingPublic (Some 32) None) Closing 1 false true 7.

Lemma serving0_reachable : reachable 25 serving0.
Proof.
  do 3 (eapply rtc_l; [by apply (step_main 25 _ Runs)|]).
  eapply rtc_l; [by apply (step_public 25 _ _ _ _ _ _ _ _ _ _ Accepts)|]. apply rtc_refl.
Qed.

Lemma signalled0_reachable : reachable 25 signalled0.
Proof.
  eapply rtc_r; [|by apply step_signal]. eapply rtc_r; [apply serving0_reachable|]. by apply step_time.
Qed.

Lemma draining0_prompt : rtc (prompt 25) signalled0 draining0.
Proof.
  eapply rtc_l; [split; [by apply (step_main 25 _ TakesSignal)|by left]|].
  do 2 (eapply rtc_l; [split; [by apply (step_main 25 _ Runs)|by left]|]). apply rtc_refl.
Qed.

(** While the request runs, [Shutdown] cannot return before the deadline. *)
Example draining0_blocked : map (main_step 25 draining0) [Runs; Polls None; Expires; Flushes] = [None; None; None; None].
Proof. reflexivity. Qed.

Lemma lifecycle_safe_witness : up (p_public signalled0) /\ up (p_admin signalled0).
Proof.
  destruct (lifecycle_safe 25 signalled0 signalled0_reachable) as (_ & _ & H & _). apply H. reflexivity.
Defined.

Lemma lifecycle_exits_witness :
  exists s2 code, rtc (unaided 25) draining0 s2 /\ p_phase s2 = Exited code /\ p_now s2 <= 57.
Proof.
  destruct (lifecycle_exits 25 signalled0 draining0 signalled0_reachable (or_introl eq_refl) draining0_prompt) as (_ & _ & H).
  exact H.
Defined.

Definition probe0 : Request :=
  mkRequest "GET" "/readyz" true (mkURL "/readyz" "/readyz" "") "" ∅ ∅ 0 (mkBody "" None) (mkContext None None None).

Definition w0 : world unit unit := start_world tt (fun n => Z.of_nat n) [probe0].

Definition nop : Handler unit unit := fun _ _ => mret tt.

Lemma nop_behaves : well_behaved nop.
Proof. intros rw r w q Hq Hg Hf. by exists w. Qed.

Lemma readyz_truth_witness :
  exists w', NewAdminMux nop (fun _ => nop) true true RWConn 0%nat w0 = (Ret tt, w')
    /\ c_status (w_conn w') = Some 200.
Proof.
  destruct (readyz_truth nop (fun _ => nop) nop_behaves (fun _ => nop_behaves) 25 serving0 true 0%nat w0 probe0
              serving0_reachable) as (w' & E & _ & Hs & _).
  - repeat split. discriminate.
  - reflexivity.
  - split; reflexivity.
  - exists w'. split; [exact E|exact Hs].
Defined.

End LifecycleSample.
