(* ===== verification/Main.v ===== *)
(** * Starting up ([run], [shutdownTracerProvider], main.go; [NewServer], server.go)

    From the environment to two configured servers: configuration, logger,
    tracer provider, metrics, handlers.  What [run] does to the process on
    the way is a list of events; a deferred call runs on every way out, also
    when a panic passes.  [Lifecycle] takes over when the servers exist. *)

From S2P Require Import Prelude GoStrings Unicode GoTime GoFloat Signature Json JsonEncode Result Runtime Recorder.
From S2P Require Import Action WizApi JsmPayload JsmProvider Executor Registry Dispatcher System Httpx ServeMux.
From S2P Require Import Config Instruments Telemetry Startup Public Labels Lifecycle.

(** ** server.go *)

(** [http.Server], over the type of its handler. *)
Record http_Server {H : Type} := mkServer {
  srv_Addr : string;
  srv_Handler : H;
  srv_ReadTimeout : Z;
  srv_ReadHeaderTimeout : Z;
  srv_WriteTimeout : Z;
  srv_IdleTimeout : Z;
  srv_BaseContext : Context
}.
Arguments http_Server : clear implicits.
Arguments mkServer {H} _ _ _ _ _ _ _.

Definition NewServer {H : Type} (baseCtx : Context) (addr : string) (h : H) (cfg : Config.Config) : http_Server H :=
  mkServer addr h (ReadTimeout cfg) (ReadHeaderTimeout cfg) (WriteTimeout cfg) (IdleTimeout cfg) baseCtx.

(** A server with its address, handler and base context, and each of its
    timeouts the one configured under that name. *)
Record configured {H : Type} (ctx : Context) (addr : string) (h : H) (cfg : Config.Config) (srv : http_Server H) : Prop := {
  configured_Addr : srv_Addr srv = addr;
  configured_Handler : srv_Handler srv = h;
  configured_ReadTimeout : srv_ReadTimeout srv = ReadTimeout cfg;
  configured_ReadHeaderTimeout : srv_ReadHeaderTimeout srv = ReadHeaderTimeout cfg;
  configured_WriteTimeout : srv_WriteTimeout srv = WriteTimeout cfg;
  configured_IdleTimeout : srv_IdleTimeout srv = IdleTimeout cfg;
  configured_BaseContext : srv_BaseContext srv = ctx
}.

Lemma NewServer_configured {H : Type} ctx addr (h : H) cfg : configured ctx addr h cfg (NewServer ctx addr h cfg).
Proof. by constructor. Qed.

(** ** main.go *)

(** What starting up does to the process. *)
Inductive event :=
| EvSetTracerProvider
| EvSetTextMapPropagator (fields : list string)
| EvTracerShutdown (budget : Z)
| EvLogError (msg : string) (err : error).

(** The budget is that of a fresh background context, so a signal does not
    shorten it; [err] is what the flush returns. *)
Definition shutdownTracerProvider (timeout : Z) (err : option error) : list event :=
  EvTracerShutdown timeout ::
  match err with
  | Some e => [EvLogError "tracer provider shutdown" e]
  | None => []
  end.

Section Main.
Context {C L RC Exp R : Type} `{UnicodeTables, !K8sClient C object object_list, !ApiErrors, !Tracer, !K8sLibrary RC}.
Context `{!UUID, !RateLimiter L float64, !OTelHTTP C L, !OTelSDK Exp, !Prometheus R}.
(** [promhttp.HandlerFor] a registry, the handlers of pprof, and what the
    tracer provider's [Shutdown] returns. *)
Context (promhttp : R -> Handler C L) (pprof : string -> Handler C L) (flush_err : option error).

(** What [run] hands to the listeners.  The admin handler reads the
    readiness flag when it serves. *)
Record app := mkApp {
  app_cfg : Config.Config;
  app_logger : traceHandler base_handler;
  app_tracer : TracerProvider Exp;
  app_metrics : Metrics_t;
  app_registry : R;
  app_public : http_Server (Handler C L);
  app_admin : http_Server (bool -> Handler C L)
}.

(** The rest of [run] after the tracer provider is installed, to the servers.
    [wire] is the part on dispatcher and public handler. *)
Definition run_handlers (ctx : Context) (cfg : Config.Config) (b : BuildInfo) (logger : traceHandler base_handler)
    (tp : TracerProvider Exp) : outcome (result app) :=
  match NewMetrics b with
  | Panic v => Panic v
  | Ret (reg, metrics, _) =>
      match wire cfg with
      | Panic v => Panic v
      | Ret (Err e) => Ret (Err e)
      | Ret (Ok publicHandler) =>
          let adminHandler ready := NewAdminMux (promhttp reg) pprof ready (PProfEnabled cfg) in
          Ret (Ok (mkApp cfg logger tp metrics reg
                     (NewServer ctx (Addr cfg) publicHandler cfg)
                     (NewServer ctx (AdminAddr cfg) adminHandler cfg)))
      end
  end.

(** [run], up to the start of the listeners: the servers, the error it
    returns, or a panic; with its events.  The deferred flush belongs to the
    ways out that end here. *)
Definition run (env : gmap string string) (b : BuildInfo) (ctx : Context) : outcome (result app) * list event :=
  match Load env with
  | Err e => (Ret (Err (wrapped "load config" e)), [])
  | Ok cfg =>
      let logger := NewLogger (LogLevel cfg) (LogFormat cfg) in
      match NewTracerProvider ctx cfg with
      | Err e => (Ret (Err (wrapped "tracer provider" e)), [])
      | Ok tp =>
          let evs := [EvSetTracerProvider; EvSetTextMapPropagator ["tracecontext"; "baggage"]] in
          let flush := shutdownTracerProvider (ShutdownTimeout cfg) flush_err in
          match run_handlers ctx cfg b logger tp with
          | Ret (Ok a) => (Ret (Ok a), evs)
          | o => (o, evs ++ flush)
          end
      end
  end.

(** With a configuration that loaded, wiring does not panic. *)
Lemma wire_no_panic env cfg v : Load env = Ok cfg -> wire (C:=C) (L:=L) cfg <> Panic v.
Proof.
  intros Hload. unfold wire. destruct (EnabledProviders cfg); [done|].
  pose proof (buildDispatcher_cases (C:=C) (L:=L) env cfg true Hload) as Hb.
  by destruct (buildDispatcher cfg true) as [[]|].
Qed.

(** Starting up panics only when the build information is no label. *)
Lemma run_panics `{!PrometheusLaws R} env b ctx v evs :
  run env b ctx = (Panic v, evs) ->
  ~ (ValidString (bi_Version b) && ValidString (bi_Commit b) && ValidString (bi_GoVersion b) = true).
Proof.
  unfold run, run_handlers. intros Hrun Hvalid. destruct (Load env) as [cfg|] eqn:El; [|done].
  destruct (NewTracerProvider ctx cfg); [|done]. pose proof (NewMetrics_run (R:=R) b) as Hm. rewrite Hvalid in Hm.
  destruct Hm as (reg & Em & _). rewrite Em in Hrun.
  destruct (wire cfg) as [[]|] eqn:Ew; try done. by eapply wire_no_panic.
Qed.

Definition is_flush (e : event) : bool := match e with EvTracerShutdown _ => true | _ => false end.

(** C26: Starting up either yields two servers or cleans up after itself.
    Without a valid configuration or a tracer provider nothing was installed;
    after that the provider is flushed once on every failure, a panic
    included, within the configured shutdown budget, and not when the servers
    start.  Then both servers have the read, read-header, write and idle
    timeouts configured under these names, their own address and the signal's
    context as base, the public one serves the handler wired
    from the configuration, the admin one the probes, and the process cannot
    have panicked unless its build information is not UTF-8. *)
Theorem run_spec `{!PrometheusLaws R} env b ctx :
  match run env b ctx with
  | (Ret (Ok a), evs) =>
      Load env = Ok (app_cfg a) /\ filter (fun e => is_flush e = true) evs = []
      /\ NewTracerProvider ctx (app_cfg a) = Ok (app_tracer a)
      /\ app_logger a = NewLogger (LogLevel (app_cfg a)) (LogFormat (app_cfg a))
      /\ app_metrics a = webhookd_metrics
      /\ (exists h, wire (app_cfg a) = Ret (Ok h) /\ configured ctx (Addr (app_cfg a)) h (app_cfg a) (app_public a))
      /\ configured ctx (AdminAddr (app_cfg a))
           (fun ready => NewAdminMux (promhttp (app_registry a)) pprof ready (PProfEnabled (app_cfg a)))
           (app_cfg a) (app_admin a)
  | (Ret (Err e), evs) =>
      (evs = [] /\ ((exists e0, Load env = Err e0 /\ e = wrapped "load config" e0)
                    \/ exists cfg e0, Load env = Ok cfg /\ NewTracerProvider (Exp:=Exp) ctx cfg = Err e0
                         /\ e = wrapped "tracer provider" e0))
      \/ exists cfg, Load env = Ok cfg /\ wire (C:=C) (L:=L) cfg = Ret (Err e)
           /\ filter (fun e => is_flush e = true) evs = [EvTracerShutdown (ShutdownTimeout cfg)]
  | (Panic _, evs) =>
      ~ (ValidString (bi_Version b) && ValidString (bi_Commit b) && ValidString (bi_GoVersion b) = true)
      /\ exists cfg, Load env = Ok cfg /\ filter (fun e => is_flush e = true) evs = [EvTracerShutdown (ShutdownTimeout cfg)]
  end.
Proof.
  assert (forall cfg : Config.Config, filter (fun e => is_flush e = true)
    ([EvSetTracerProvider; EvSetTextMapPropagator ["tracecontext"; "baggage"]]
       ++ shutdownTracerProvider (ShutdownTimeout cfg) flush_err) = [EvTracerShutdown (ShutdownTimeout cfg)]) as Hflush
    by (intros cfg; unfold shutdownTracerProvider; by destruct flush_err).
  unfold run. destruct (Load env) as [cfg|e0] eqn:El; [|left; split; [done|left; eauto]].
  destruct (NewTracerProvider ctx cfg) as [tp|e0] eqn:Et; [|left; split; [done|right; eauto]].
  unfold run_handlers. pose proof (NewMetrics_run (R:=R) b) as Hm. destruct (_ && _ && _).
  2:{ destruct Hm as [v ->]. split; [done|]. exists cfg. auto. }
  destruct Hm as (reg & -> & _). destruct (wire cfg) as [[h|e]|v] eqn:Ew.
  - cbn. repeat (split; [done|]). split; [exists h; split; [done|]|]; apply NewServer_configured.
  - right. exists cfg. auto.
  - by apply (wire_no_panic env) in Ew.
Qed.

(** What a successful start is made of. *)
Lemma run_started env b ctx a evs :
  run env b ctx = (Ret (Ok a), evs) ->
  Load env = Ok (app_cfg a) /\ app_metrics a = webhookd_metrics
  /\ wire (app_cfg a) = Ret (Ok (srv_Handler (app_public a))).
Proof.
  unfold run, run_handlers. destruct (Load env) as [cfg|]; [|done]. destruct (NewTracerProvider ctx cfg) as [tp|]; [|done].
  destruct (NewMetrics b) as [[[reg m] child]|v] eqn:Em; [|done].
  destruct (wire cfg) as [[h|]|] eqn:Ew; try done. intros [= <- _]. cbn. split; [done|]. split; [|done].
  revert Em. unfold NewMetrics. repeat case_match; try done. by intros [= _ <- _].
Qed.

(** C3: A program that started serves.  Every request to its public server is
    answered, a panic of a handler included, and handled in one of two ways:
    the cluster is untouched, and then a 200 is only for a genuine message
    whose ticket is not in the trigger status; or a genuine message carries
    an approved ticket, whose apply is executed on the cluster and decides the
    status.  The instruments it records with are those it registered, used
    as declared. *)
Theorem run_public `{!OTelHTTPLaws C L} env b ctx a evs r (w : world C L) q :
  run env b ctx = (Ret (Ok a), evs) -> w_requests w !! r = Some q -> fresh w -> Labels.inv w ->
  exists w', srv_Handler (app_public a) RWConn r w = (Ret tt, w')
    /\ handled (app_cfg a) q w w' /\ app_metrics a = webhookd_metrics /\ Labels.inv w'.
Proof.
  intros Hrun Hq Hf Hi. destruct (run_started env b ctx a evs Hrun) as (Hload & Hm & Hw).
  destruct (wire_handles env (app_cfg a) Hload _ Hw RWConn r w q Hq (good_conn w) Hf) as (w' & E & _ & _ & Hh).
  exists w'. split; [done|]. split; [done|]. split; [done|].
  pose proof (wire_inv env (app_cfg a) _ r w q Hload Hw Hq Hi) as Hi'. by rewrite E in Hi'.
Qed.

(** How the process ends ([realMain], and Go's status 2 for a panic that is
    not recovered), with the last state of the process when the listeners were
    started: start-up fails, or the process has run to its exit. *)
Inductive realMain (env : gmap string string) (b : BuildInfo) (ctx : Context) : option proc -> Z -> Prop :=
| realMain_failed e evs : run env b ctx = (Ret (Err e), evs) -> realMain env b ctx None (exit_code (Some e))
| realMain_panicked v evs : run env b ctx = (Panic v, evs) -> realMain env b ctx None 2
| realMain_served a evs s code :
    run env b ctx = (Ret (Ok a), evs) -> reachable (ShutdownTimeout (app_cfg a)) s -> p_phase s = Exited code ->
    realMain env b ctx (Some s) code.


End Main.

(** ** A concrete program *)

Module MainSample.
Import ExecutorSample PublicSample InstrumentsSample TelemetrySample.

#[local] Instance tables0 : UnicodeTables := plain_tables.
#[local] Instance library0 : K8sLibrary unit := StartupSample.library0.
#[local] Instance uuid0 : UUID := HttpxSample.uuid0.
#[local] Existing Instance limiter0.
#[local] Existing Instance otel0.
#[local] Existing Instance otel0_laws.

Definition nop0 : Handler cluster Z := fun _ _ => mret tt.

Definition run0 (env : gmap string string) :=
  run (Exp:=unit) (R:=gset string) (fun _ => nop0) (fun _ => nop0) (Some (Opaque "deadline exceeded"))
    env build0 (mkContext None None None).

(** Without a secret nothing is set up. *)
Example run0_empty : (run0 ∅).2 = [] /\ match (run0 ∅).1 with Ret (Err _) => true | _ => false end = true.
Proof. vm_compute. split; reflexivity. Qed.

Definition evs0 : list event := [EvSetTracerProvider; EvSetTextMapPropagator ["tracecontext"; "baggage"]].

Lemma run0_starts : exists a, run0 ConfigSample.minimal_env = (Ret (Ok a), evs0).
Proof.
  assert (match (run0 ConfigSample.minimal_env).1 with Ret (Ok _) => true | _ => false end = true) as H
    by (vm_compute; reflexivity).
  assert ((run0 ConfigSample.minimal_env).2 = evs0) as H2 by (vm_compute; reflexivity).
  destruct (run0 ConfigSample.minimal_env) as [[[a|]|] evs]; try discriminate. exists a. cbn in H2. by rewrite H2.
Qed.

Lemma run_spec_witness :
  exists a, run0 ConfigSample.minimal_env = (Ret (Ok a), evs0) /\ Load ConfigSample.minimal_env = Ok (app_cfg a)
    /\ app_metrics a = webhookd_metrics.
Proof.
  destruct run0_starts as [a E]. exists a. split; [exact E|].
  pose proof (run_spec (Exp:=unit) (R:=gset string) (fun _ => nop0) (fun _ => nop0) (Some (Opaque "deadline exceeded"))
    ConfigSample.minimal_env build0 (mkContext None None None)) as H.
  unfold run0 in E. rewrite E in H. destruct H as (Hl & _ & _ & _ & Hm & _). split; [exact Hl|exact Hm].
Defined.

Lemma run_public_witness :
  exists a w', run0 ConfigSample.minimal_env = (Ret (Ok a), evs0)
    /\ srv_Handler (app_public a) RWConn 0%nat w0 = (Ret tt, w') /\ handled (app_cfg a) request0 w0 w'.
Proof.
  destruct run0_starts as [a E].
  destruct (run_public (Exp:=unit) (R:=gset string) (fun _ => nop0) (fun _ => nop0) (Some (Opaque "deadline exceeded"))
    ConfigSample.minimal_env build0 (mkContext None None None) a evs0 0%nat w0 request0 E eq_refl public_fresh0)
    as (w' & Ew & Hh & _).
  - split; [split|].
    + intros f vs v Hl. discriminate Hl.
    + intros f vs v Hl. inversion Hl.
    + intros [|l] q Hl; [injection Hl as <-; split; reflexivity|discriminate Hl].
  - exists a, w'. split; [exact E|]. split; [exact Ew|exact Hh].
Defined.

(** Told to stop, the process waits for the request in flight and runs to
    the exit. *)
Lemma exit0_reachable timeout : exists s, reachable timeout s /\ p_phase s = Exited 0.
Proof.
  eexists. split.
  - unfold reachable. do 3 (eapply rtc_l; [by apply (step_main timeout _ Runs)|]).
    eapply rtc_l; [by apply (step_public timeout _ _ _ _ _ _ _ _ _ _ Accepts)|].
    eapply rtc_l; [by apply step_signal|]. eapply rtc_l; [by apply (step_main timeout _ TakesSignal)|].
    do 2 (eapply rtc_l; [by apply (step_main timeout _ Runs)|]).
    eapply rtc_l; [by apply (step_public timeout _ _ _ _ _ _ _ _ _ _ (Finishes true))|].
    eapply rtc_l; [by apply (step_main timeout _ (Polls None))|].
    eapply rtc_l; [by apply (step_main timeout _ Runs)|]. eapply rtc_l; [by apply (step_main timeout _ (Polls None))|].
    eapply rtc_l; [by apply (step_main timeout _ Runs)|]. eapply rtc_l; [by apply (step_main timeout _ Flushes)|].
    apply rtc_refl.
  - reflexivity.
Qed.


End MainSample.
