(* ===== verification/Delivery.v ===== *)
(** * Whether an answer arrives ([internal/httpx/server.go], [internal/webhook/executor.go])

    The timeouts of [NewServer] against the wait of the executor.  The
    response of a webhook is written when the executor is done: the dispatcher
    writes nothing before, and the server sends what is written when the
    handler returns.  [http.Server] sets the deadline for writing when it has
    read the header of a request; a write at or after the deadline fails, and
    the client sees the connection close without an answer. *)

From S2P Require Import Prelude GoStrings Unicode GoTime GoFloat Signature Json JsonEncode Result Runtime Recorder.
From S2P Require Import Action WizApi JsmPayload JsmProvider Executor Registry Dispatcher System Httpx ServeMux.
From S2P Require Import Config Startup Main.

(** ** The write deadline of net/http *)

(** A timeout that is zero or negative means that there is none. *)
Definition write_deadline {H : Type} (srv : http_Server H) (header_read : Z) : option Z :=
  if 0 <? srv_WriteTimeout srv then Some (header_read + srv_WriteTimeout srv) else None.

(** Whether a response written at [t] reaches the client. *)
Definition reaches_client {H : Type} (srv : http_Server H) (header_read t : Z) : bool :=
  match write_deadline srv header_read with
  | None => true
  | Some D => t <? D
  end.

Section Delivery.
Context {C L : Type} `{UnicodeTables, !K8sClient C object object_list, !ApiErrors, !Tracer}.
Implicit Types (w : world C L) (e : @Executor C L).

(** The wait in [w] opens a watch whose loop ends with [v] at [t]. *)
Definition wait_ends e parent (act : ApplyAction object object_list) (applied : object) w (v : verdict) (t : Z) : Prop :=
  exists ctx s c c', client_Watch ctx (ListObject act) (GetNamespace applied) c = (Ok s, c')
    /\ select_loop (Some (wait_deadline e parent w)) (GetName applied)
         (fun o => ReadyCheck act o (GetGeneration applied))
         (Z.max (w_clock w (S (w_reads w))) (opened s)) (deliveries s) (closes s) = Some (v, t).

(** The context of the wait is not ended by its parent: the client stays and
    the server is not shut down. *)
Definition undisturbed e (parent : Context) w : Prop :=
  forall p, ctx_done parent = Some p -> w_clock w (w_reads w) + exec_SyncTimeout e <= p.

Lemma undisturbed_deadline e parent w :
  undisturbed e parent w -> wait_deadline e parent w = w_clock w (w_reads w) + exec_SyncTimeout e.
Proof.
  unfold undisturbed, wait_deadline. intros Hp. destruct (ctx_done parent) as [p|]; [|done].
  specialize (Hp p eq_refl). lia.
Qed.

(** A wait that is answered Timeout ended in its loop, at or after the
    deadline. *)
Lemma timeout_ends e parent act applied w res w' :
  waitForSync e parent act applied w = (Ret res, w') -> Kind res = ResultTimeout ->
  exists t, wait_ends e parent act applied w Expired t /\ wait_deadline e parent w <= t.
Proof.
  intros E Hk. destruct (waitForSync_waited e parent act applied w) as (res' & w'' & E' & _ & Hw).
  rewrite E in E'. injection E' as <- <-.
  destruct Hw as [|ctx err c1 c2 _ _|ctx s v t c1 c2 _ HW Hl]; [done|done|].
  destruct v; [|done|done]. exists t. split; [by exists ctx, s, c1, c2|]. by eapply select_loop_expired.
Qed.

(** Every timeout is lost when the server gives up writing first. *)
Lemma timeout_lost {HT : Type} (srv : http_Server HT) e parent act applied w res w' header_read :
  0 < srv_WriteTimeout srv <= exec_SyncTimeout e -> undisturbed e parent w ->
  header_read <= w_clock w (w_reads w) ->
  waitForSync e parent act applied w = (Ret res, w') -> Kind res = ResultTimeout ->
  exists ended, wait_ends e parent act applied w Expired ended
    /\ forall t, ended <= t -> reaches_client srv header_read t = false.
Proof.
  intros Hto Hp Hh E Hk. destruct (timeout_ends _ _ _ _ _ _ _ E Hk) as (ended & Hends & Hle).
  exists ended. split; [done|]. intros t Ht. rewrite undisturbed_deadline in Hle by done.
  unfold reaches_client, write_deadline. replace (0 <? srv_WriteTimeout srv) with true by lia. lia.
Qed.

(** C23: With the default timeouts no client learns of a timeout.
    Whatever else is configured, when neither the write timeout nor the sync
    timeout is, a program that starts has 10 seconds for writing and 20 for
    waiting: every wait that runs into its timeout, undisturbed, ends when the
    write deadline of its request has passed, so the 504 is lost whenever it
    is written.  So is any answer of a wait that took 10 seconds. *)
Theorem default_timeout_lost env cfg {HT : Type} (h : HT) base addr metrics parent act applied w res w' header_read :
  env !! "WEBHOOK_WRITE_TIMEOUT" = None -> env !! "WEBHOOK_CR_SYNC_TIMEOUT" = None -> Load env = Ok cfg ->
  let srv := NewServer base addr h cfg in
  let exec := main_executor (C:=C) (L:=L) cfg metrics in
  header_read <= w_clock w (w_reads w) -> undisturbed exec parent w ->
  waitForSync exec parent act applied w = (Ret res, w') ->
  (Kind res = ResultTimeout -> exists ended, wait_ends exec parent act applied w Expired ended
     /\ forall t, ended <= t -> reaches_client srv header_read t = false)
  /\ (forall v ended, wait_ends exec parent act applied w v ended -> header_read + 10 * Second <= ended ->
      forall t, ended <= t -> reaches_client srv header_read t = false).
Proof.
  intros Hw Hs HL srv exec Hh Hp E. destruct (Load_default_timeouts env cfg Hw Hs HL) as [Hwt Hst].
  assert (srv_WriteTimeout srv = 10 * Second) as Hsrv by done.
  assert (exec_SyncTimeout exec = 20 * Second) as Hexec by done. unfold Second in *. split.
  - intros Hk. apply (timeout_lost srv exec _ _ _ _ res w'); [lia|done|done|done|done].
  - intros v ended _ Hlong t Ht. unfold reaches_client, write_deadline.
    rewrite Hsrv. replace (0 <? 10 * 1000000000) with true by done. lia.
Qed.

(** An answer arrives when the write timeout covers the time before
    the wait, the sync timeout and the time after the wait: then every end of
    the loop, a timeout too, leaves time to write the answer. *)
Theorem answer_in_time {HT : Type} (srv : http_Server HT) e parent act applied w v ended header_read before after :
  (forall ctx c s c', client_Watch ctx (ListObject act) (GetNamespace applied) c = (Ok s, c') ->
     Forall (fun d => busy d = 0%N) (deliveries s) /\ opened s <= wait_deadline e parent w) ->
  w_clock w (S (w_reads w)) <= wait_deadline e parent w ->
  w_clock w (w_reads w) <= header_read + before -> before + exec_SyncTimeout e + after < srv_WriteTimeout srv ->
  wait_ends e parent act applied w v ended ->
  forall t, t <= ended + after -> reaches_client srv header_read t = true.
Proof.
  intros Hwatch Hstart Hbefore Hto (ctx & s & c & c' & HW & Hl) t Ht. destruct (Hwatch _ _ _ _ HW) as [Hb Ho].
  assert (Z.max (w_clock w (S (w_reads w))) (opened s) <= wait_deadline e parent w) as Hmax by lia.
  pose proof (select_loop_deadline _ _ _ _ _ _ _ _ Hb Hmax Hl) as [_ Hend].
  assert (wait_deadline e parent w <= w_clock w (w_reads w) + exec_SyncTimeout e) as Hdl
    by (unfold wait_deadline; destruct (ctx_done parent); lia).
  unfold reaches_client, write_deadline. destruct (0 <? srv_WriteTimeout srv); [lia|done].
Qed.

End Delivery.

(** ** A concrete wait

    The one-object cluster of [ExecutorSample] with an operator that never
    gets to the object. *)

Module DeliverySample.
Import ExecutorSample.

#[local] Instance tables0 : UnicodeTables := plain_tables.

Definition watch_silent : watcher object := mkWatcher (T0 + 3) [] None.

#[local] Instance client_silent : K8sClient cluster object object_list := {
  client_Patch ctx obj owner force c :=
    let obj := set_meta (meta_gen1 (meta_of obj)) obj in (None, obj, Some obj);
  client_Get ctx ns name into c :=
    match c with Some o => (None, o, c) | None => (Some (Opaque "not found"), into, c) end;
  client_Watch ctx ol ns c := (Ok watch_silent, c);
  watcher_Stop s c := c
}.

Definition applied0 : object := set_meta (meta_gen1 (meta_of wanted_object)) wanted_object.

(** The configuration of the minimal environment. *)
Lemma minimal_loads : exists cfg, Load ConfigSample.minimal_env = Ok cfg.
Proof.
  destruct (Load ConfigSample.minimal_env) as [cfg|err] eqn:E; [by exists cfg|]. vm_compute in E. discriminate E.
Qed.

(** Nothing marks the object ready: the wait of 20 seconds times out. *)
Lemma silent_times_out cfg :
  SyncTimeout (CR cfg) = 20 * Second ->
  exists res w', waitForSync (main_executor cfg true) ctx0 act0 applied0 world0 = (Ret res, w') /\ Kind res = ResultTimeout.
Proof.
  intros Hs. destruct (waitForSync (main_executor cfg true) ctx0 act0 applied0 world0) as [o w'] eqn:E.
  assert ((waitForSync (main_executor cfg true) ctx0 act0 applied0 world0).1
    = Ret (mkExecResult ResultTimeout "operator did not mark Ready=True within 20s" "jsm-sec-1" "wiz" 0)) as E1.
  { unfold main_executor. rewrite Hs. vm_compute. reflexivity. }
  rewrite E in E1. cbn in E1. subst o. by do 2 eexists.
Qed.

Lemma default_timeout_lost_witness :
  exists cfg ended, Load ConfigSample.minimal_env = Ok cfg
    /\ wait_ends (main_executor cfg true) ctx0 act0 applied0 world0 Expired ended
    /\ reaches_client (NewServer ctx0 ":8080" tt cfg) T0 ended = false.
Proof.
  destruct minimal_loads as (cfg & HL). exists cfg.
  destruct (Load_default_timeouts ConfigSample.minimal_env cfg eq_refl eq_refl HL) as [_ Hs].
  destruct (silent_times_out cfg Hs) as (res & w' & E & Hk).
  destruct (default_timeout_lost ConfigSample.minimal_env cfg tt ctx0 ":8080" true ctx0 act0 applied0 world0 res w' T0)
    as [Hlost _].
  - reflexivity.
  - reflexivity.
  - exact HL.
  - vm_compute. discriminate.
  - intros p Hp. discriminate Hp.
  - exact E.
  - destruct (Hlost Hk) as (ended & Hends & Hr). exists ended. split; [exact HL|]. split; [exact Hends|]. apply Hr. lia.
Defined.

(** With 25 seconds for writing the timeout arrives. *)
Lemma answer_in_time_witness :
  reaches_client (mkServer ":8080" tt 0 0 (25 * Second) 0 ctx0) T0 (T0 + 21 * Second) = true.
Proof.
  apply (answer_in_time (mkServer ":8080" tt 0 0 (25 * Second) 0 ctx0) executor0 ctx0 act0 applied0 world0
           Expired (T0 + 20 * Second) T0 Second Second).
  - intros ctx c s c' HW. injection HW as <- <-. split; [constructor|vm_compute; discriminate].
  - vm_compute. discriminate.
  - vm_compute. discriminate.
  - vm_compute. reflexivity.
  - exists ctx0, watch_silent, None, None. split; [reflexivity|vm_compute; reflexivity].
  - unfold Second. lia.
Defined.

End DeliverySample.
