(* ===== verification/Concurrent.v ===== *)
(** * Concurrent requests and the limiter map ([internal/httpx/ratelimit.go])

    Requests run on goroutines of their own and share the [sync.Map] of
    limiters.  [getLimiter] is not one step: another goroutine can store a
    limiter between its [Load] and its [LoadOrStore], each of which is
    atomic.  Here any number of goroutines run it, interleaved in any way;
    a limiter is identified by its address.  [Httpx.getLimiter] runs in
    one step; [getLimiter_linearizable] shows that an interleaving has the
    effect of calls of it one after the other. *)

From stdpp Require Import relations.
From S2P Require Import Prelude Runtime Httpx.

(** Where a goroutine is in [getLimiter(provider)]. *)
Inductive goroutine :=
| Calling (provider : string)
| Missed (provider : string) (newLim : nat)
| Got (provider : string) (lim : nat).

Record shared := mkShared {
  sh_limiters : gmap string nat;
  sh_next : nat;
  sh_threads : list goroutine
}.

(** The next atomic step of a goroutine: [Load], and on a miss
    [rate.NewLimiter], at a new address; then [LoadOrStore]. *)
Definition thread_step (m : gmap string nat) (next : nat) (g : goroutine) : option (gmap string nat * nat * goroutine) :=
  match g with
  | Calling p =>
      match m !! p with
      | Some lim => Some (m, next, Got p lim)
      | None => Some (m, S next, Missed p next)
      end
  | Missed p newLim =>
      match m !! p with
      | Some actual => Some (m, next, Got p actual)
      | None => Some (<[p := newLim]> m, next, Got p newLim)
      end
  | Got _ _ => None
  end.

(** Any goroutine takes its next step. *)
Inductive getLimiter_step : shared -> shared -> Prop :=
| getLimiter_step_thread s i g m next g' :
    sh_threads s !! i = Some g -> thread_step (sh_limiters s) (sh_next s) g = Some (m, next, g') ->
    getLimiter_step s (mkShared m next (<[i := g']> (sh_threads s))).

(** The provider a goroutine asks for. *)
Definition provider_of (g : goroutine) : string :=
  match g with Calling p | Missed p _ | Got p _ => p end.

(** A map with the limiters so far, and goroutines about to call. *)
Definition starts (m : gmap string nat) (next : nat) (ps : list string) : shared := mkShared m next (Calling <$> ps).

(** What holds throughout, from the map [m0]: entries are never replaced or
    dropped, there are new ones only for providers that are asked for, at
    addresses from [n0] on, and what a goroutine got is the entry. *)
Record limiters_ok (m0 : gmap string nat) (n0 : nat) (ps : list string) (s : shared) : Prop := {
  ok_kept : m0 ⊆ sh_limiters s;
  ok_asked p a : sh_limiters s !! p = Some a -> m0 !! p = Some a \/ (p ∈ ps /\ (n0 <= a)%nat);
  ok_next : (n0 <= sh_next s)%nat;
  ok_missed i p a : sh_threads s !! i = Some (Missed p a) -> (n0 <= a)%nat;
  ok_got i p a : sh_threads s !! i = Some (Got p a) -> sh_limiters s !! p = Some a;
  ok_providers : provider_of <$> sh_threads s = ps
}.

(** Each step of a goroutine extends the map at most by its own provider, at
    the address it allocated. *)
Lemma thread_step_map m next g m' next' g' :
  thread_step m next g = Some (m', next', g') ->
  m ⊆ m' /\ (next <= next')%nat /\ provider_of g' = provider_of g
  /\ (forall p a, m' !! p = Some a -> m !! p = Some a \/ g = Missed p a)
  /\ (forall p a, g' = Missed p a -> a = next)
  /\ forall p a, g' = Got p a -> m' !! p = Some a.
Proof.
  intros E. destruct g as [p|p n|p a]; cbn in E; [| |done]; destruct (m !! p) as [b|] eqn:Em; simplify_eq; cbn.
  1-3: repeat split; [done|lia|auto|naive_solver|naive_solver].
  repeat split; [by apply insert_subseteq|lia| |done|].
  - intros q a [[-> ->]|[_ Hq]]%lookup_insert_Some; auto.
  - intros q a [= <- <-]. apply lookup_insert_eq.
Qed.

Lemma step_ok m0 n0 ps s s' : limiters_ok m0 n0 ps s -> getLimiter_step s s' -> limiters_ok m0 n0 ps s'.
Proof.
  intros [Hk Ha Hn Hms Hg Hp] Hs. destruct Hs as [s i g m next g' Hi E].
  destruct (thread_step_map _ _ _ _ _ _ E) as (Hm & Hnx & Hpr & Hnew & Hmiss & Hgot).
  assert (provider_of g ∈ ps) as Hin.
  { rewrite <- Hp. apply list_elem_of_fmap. exists g. split; [done|]. by eapply list_elem_of_lookup_2. }
  split; cbn.
  - by etrans.
  - intros p a [Hl| ->]%Hnew; [by eapply Ha|right]. split; [done|by eapply Hms].
  - lia.
  - intros j p a [(-> & -> & _)|[_ Hj]]%list_lookup_insert_Some; [by rewrite (Hmiss p a)|by eapply Hms].
  - intros j p a [(-> & -> & _)|[_ Hj]]%list_lookup_insert_Some; [by apply Hgot|].
    eapply lookup_weaken; [by eapply Hg|done].
  - rewrite <- Hp. apply list_eq. intros j. rewrite list_lookup_fmap.
    destruct (decide (i = j)) as [<-|Hne].
    + rewrite list_lookup_insert_eq by (by eapply lookup_lt_Some). rewrite list_lookup_fmap, Hi. cbn. by rewrite Hpr.
    + by rewrite list_lookup_insert_ne, list_lookup_fmap.
Qed.

Lemma starts_ok m next ps : limiters_ok m next ps (starts m next ps).
Proof.
  split; cbn.
  - done.
  - intros p a Hp. by left.
  - done.
  - intros i p a Hi. rewrite list_lookup_fmap in Hi. by destruct (ps !! i).
  - intros i p a Hi. rewrite list_lookup_fmap in Hi. by destruct (ps !! i).
  - rewrite <- list_fmap_compose. induction ps as [|p ps IH]; [done|]. cbn. by f_equal.
Qed.

(** How many steps the goroutines have left. *)
Definition steps_left (g : goroutine) : nat := match g with Calling _ => 2 | Missed _ _ => 1 | Got _ _ => 0 end.

Definition work (s : shared) : nat := sum_list_with steps_left (sh_threads s).

Lemma sum_insert (f : goroutine -> nat) l i g g' :
  l !! i = Some g -> (f g' < f g)%nat -> (sum_list_with f (<[i := g']> l) < sum_list_with f l)%nat.
Proof.
  revert i. induction l as [|x l IH]; intros [|i] Hi Hlt; [done|done| |].
  - injection Hi as ->. change (f g' + sum_list_with f l < f g + sum_list_with f l)%nat. lia.
  - specialize (IH i Hi Hlt).
    change (f x + sum_list_with f (<[i := g']> l) < f x + sum_list_with f l)%nat. lia.
Qed.

Lemma step_works s s' : getLimiter_step s s' -> (work s' < work s)%nat.
Proof.
  intros [s0 i g m next g' Hi E]. eapply sum_insert; [done|].
  destruct g as [p|p n|p a]; cbn in E; [| |done]; destruct (_ !! p); simplify_eq; cbn; lia.
Qed.

Lemma unfinished_steps s i g : sh_threads s !! i = Some g -> steps_left g <> 0%nat -> exists s', getLimiter_step s s'.
Proof.
  intros Hi Hw. assert (is_Some (thread_step (sh_limiters s) (sh_next s) g)) as [[[m next] g'] E].
  { destruct g as [p|p n|p a]; cbn; [| |done]; by destruct (_ !! p). }
  eexists. by eapply getLimiter_step_thread.
Qed.

(** The invariant holds of every state a run reaches. *)
Lemma runs_ok m next ps s : rtc getLimiter_step (starts m next ps) s -> limiters_ok m next ps s.
Proof.
  intros Hr. remember (starts m next ps) as s0 eqn:E0.
  assert (limiters_ok m next ps s0) as H0 by (subst; apply starts_ok). clear E0.
  induction Hr as [|? ? ? Hs _ IH]; [done|]. eauto using step_ok.
Qed.

Lemma nsteps_works n s s' : nsteps getLimiter_step n s s' -> (n + work s' <= work s)%nat.
Proof.
  induction 1 as [|n s1 s2 s3 Hs _ IH]; [lia|]. apply step_works in Hs. lia.
Qed.

Lemma starts_work m next ps : work (starts m next ps) = (2 * length ps)%nat.
Proof. unfold work, starts. cbn [sh_threads]. induction ps as [|p ps IH]; [done|]. cbn in *. lia. Qed.

(** When no goroutine can step each has its limiter. *)
Lemma nf_got s i g : nf getLimiter_step s -> sh_threads s !! i = Some g -> exists a, g = Got (provider_of g) a.
Proof.
  intros Hn Hi. destruct (decide (steps_left g = 0%nat)) as [Hz|Hnz].
  - destruct g as [p|p n|p a]; [done|done|by exists a].
  - destruct Hn. destruct (unfinished_steps _ _ _ Hi Hnz) as [s' Hs]. by exists s'.
Qed.

(** When no goroutine can step the map has an entry for every provider that
    was asked for, a new one where there was none. *)
Lemma nf_map m n0 ps s p :
  limiters_ok m n0 ps s -> nf getLimiter_step s ->
  match m !! p with
  | Some a => sh_limiters s !! p = Some a
  | None =>
      if decide (p ∈ ps) then exists a, sh_limiters s !! p = Some a /\ (n0 <= a)%nat
      else sh_limiters s !! p = None
  end.
Proof.
  intros [Hk Ha _ _ Hg Hp] Hn. destruct (m !! p) as [a|] eqn:Em; [by eapply lookup_weaken|].
  destruct (sh_limiters s !! p) as [a|] eqn:El.
  - destruct (Ha _ _ El) as [?|[Hin Hle]]; [congruence|]. rewrite decide_True by done. by exists a.
  - rewrite decide_False; [done|]. intros Hin. rewrite <- Hp in Hin. apply list_elem_of_fmap in Hin as (g & -> & Hin).
    apply list_elem_of_lookup_1 in Hin as [i Hi]. destruct (nf_got _ _ _ Hn Hi) as [a Ea].
    rewrite Ea in Hi. apply Hg in Hi. congruence.
Qed.

Section Sequential.
Context {C L F : Type} `{!RateLimiter L F}.
Implicit Types w : world C L.

(** Calls of [getLimiter], one after the other. *)
Fixpoint callers (cfg : RateLimitConfig) (ps : list string) : M C L unit :=
  match ps with
  | [] => mret tt
  | p :: ps => getLimiter cfg p ;; callers cfg ps
  end.

Lemma callers_run (cfg : RateLimitConfig) ps w :
  exists w', callers cfg ps w = (Ret tt, w')
    /\ forall p, w_limiters w' !! p =
         match w_limiters w !! p with
         | Some lim => Some lim
         | None => if decide (p ∈ ps) then Some (rate_NewLimiter (RPS cfg) (Burst cfg)) else None
         end.
Proof.
  revert w. induction ps as [|p ps IH]; intros w; cbn [callers].
  - exists w. split; [done|]. intros p. destruct (w_limiters w !! p); [done|]. by rewrite decide_False by set_solver.
  - destruct (getLimiter_run cfg p w) as (lim & w1 & E & -> & Hl & _). destruct (IH w1) as (w2 & E2 & H2).
    exists w2. erewrite bind_run by exact E. split; [done|]. intros q. rewrite H2, Hl.
    destruct (decide (p = q)) as [<-|Hne].
    + rewrite lookup_insert_eq. destruct (w_limiters w !! p); [done|]. cbn. by rewrite decide_True by set_solver.
    + rewrite lookup_insert_ne by done. destruct (w_limiters w !! q); [done|].
      destruct (decide (q ∈ ps)); [by rewrite decide_True by set_solver|by rewrite decide_False by set_solver].
Qed.

(** C31: Concurrent requests share one bucket per provider.  However the
    goroutines are interleaved, a run takes at most two atomic steps for each
    and a goroutine that has no limiter yet can always go on; every goroutine
    that has its limiter has the one in the map, so two requests for the same
    provider draw from the same bucket, also when both missed and made a
    limiter of their own, and from the one that was there before when there
    was one.  When all are done each request has the limiter of its provider,
    and the map is the one calls of [Httpx.getLimiter] one after the other
    leave: [h] is the bucket at an address, those allocated in the run being
    new ones. *)
Theorem getLimiter_linearizable (cfg : RateLimitConfig) (h : nat -> L) m next ps n s w :
  nsteps getLimiter_step n (starts m next ps) s -> w_limiters w = h <$> m ->
  (forall a, (next <= a)%nat -> h a = rate_NewLimiter (RPS cfg) (Burst cfg)) ->
  (n <= 2 * length ps)%nat
  /\ (forall i g, sh_threads s !! i = Some g -> (exists a, g = Got (provider_of g) a) \/ exists s', getLimiter_step s s')
  /\ (forall i j p a b, sh_threads s !! i = Some (Got p a) -> sh_threads s !! j = Some (Got p b) -> a = b)
  /\ (forall i p a b, sh_threads s !! i = Some (Got p a) -> m !! p = Some b -> a = b)
  /\ (nf getLimiter_step s ->
      (forall i p, ps !! i = Some p -> exists a, sh_threads s !! i = Some (Got p a) /\ sh_limiters s !! p = Some a)
      /\ exists w', callers cfg ps w = (Ret tt, w') /\ w_limiters w' = h <$> sh_limiters s).
Proof.
  intros Hn Hw Hh. pose proof (nsteps_works _ _ _ Hn) as Hwk. rewrite starts_work in Hwk.
  pose proof (runs_ok m next ps s (rtc_nsteps_2 _ _ _ Hn)) as Hok. pose proof Hok as [Hk _ _ _ Hg Hp].
  split; [lia|]. split; [|split; [|split]].
  - intros i g Hi. destruct (decide (steps_left g = 0%nat)) as [Hz|Hnz].
    + left. destruct g as [p|p k|p a]; [done|done|by exists a].
    + right. by eapply unfinished_steps.
  - intros i j p a b Hi Hj. apply Hg in Hi, Hj. congruence.
  - intros i p a b Hi Hb. apply Hg in Hi. eapply lookup_weaken in Hb; [|done]. congruence.
  - intros Hnf. split.
    + intros i p Hi. rewrite <- Hp, list_lookup_fmap in Hi. apply fmap_Some in Hi as (g & Hi & ->).
      destruct (nf_got _ _ _ Hnf Hi) as [a Ea]. exists a. rewrite Ea in Hi. rewrite Hi. split; [done|by eapply Hg].
    + destruct (callers_run cfg ps w) as (w' & E & Hl). exists w'. split; [done|].
      apply map_eq. intros p. rewrite Hl, Hw, !lookup_fmap. pose proof (nf_map _ _ _ _ p Hok Hnf) as Hm.
      destruct (m !! p) as [a|]; [by rewrite Hm|]. cbn. destruct (decide (p ∈ ps)); [|by rewrite Hm].
      destruct Hm as (a & -> & Hle). cbn. by rewrite Hh.
Qed.

End Sequential.

Module ConcurrentSample.

(** Two requests for "jsm" that both miss: the second one's limiter is dropped. *)
Definition race_end : shared := mkShared {["jsm"%string := 0%nat]} 2 [Got "jsm" 0; Got "jsm" 0].

Lemma race : nsteps getLimiter_step 4 (starts ∅ 0 ["jsm"; "jsm"]%string) race_end.
Proof.
  eapply (nsteps_l _ _ _ (mkShared ∅ 1 [Missed "jsm" 0; Calling "jsm"])).
  { by apply (getLimiter_step_thread (starts ∅ 0 ["jsm"; "jsm"]%string) 0 (Calling "jsm")). }
  eapply (nsteps_l _ _ _ (mkShared ∅ 2 [Missed "jsm" 0; Missed "jsm" 1])).
  { by apply (getLimiter_step_thread (mkShared ∅ 1 [Missed "jsm" 0; Calling "jsm"]) 1 (Calling "jsm")). }
  eapply (nsteps_l _ _ _ (mkShared {["jsm"%string := 0%nat]} 2 [Got "jsm" 0; Missed "jsm" 1])).
  { by apply (getLimiter_step_thread (mkShared ∅ 2 [Missed "jsm" 0; Missed "jsm" 1]) 0 (Missed "jsm" 0)). }
  eapply (nsteps_l _ _ _ race_end); [|apply nsteps_O].
  by apply (getLimiter_step_thread (mkShared {["jsm"%string := 0%nat]} 2 [Got "jsm" 0; Missed "jsm" 1]) 1 (Missed "jsm" 1)).
Qed.

(** Both goroutines are done. *)
Lemma race_nf : nf getLimiter_step race_end.
Proof.
  intros [s' Hs]. inversion Hs as [s i g m next g' Hi E]; subst.
  destruct i as [|[|i]]; cbn in Hi; simplify_eq. all: discriminate E.
Qed.

#[local] Instance limiter1 : RateLimiter Z Z := HttpxSample.limiter0.

(** The map is that of two calls one after the other: one full bucket. *)
Lemma getLimiter_linearizable_witness :
  exists w', callers (mkRateLimitConfig 1 5) ["jsm"; "jsm"]%string (start_world tt (fun n => Z.of_nat n) [])
      = (Ret tt, w') /\ w_limiters w' = {["jsm"%string := 5]}.
Proof.
  destruct (getLimiter_linearizable (C:=unit) (mkRateLimitConfig 1 5) (fun _ => 5) ∅ 0 ["jsm"; "jsm"]%string 4 race_end
              (start_world tt (fun n => Z.of_nat n) []) race) as (_ & _ & _ & _ & H).
  - reflexivity.
  - intros a _. reflexivity.
  - destruct (H race_nf) as (_ & w' & E & Hl). exists w'. split; [exact E|]. rewrite Hl. reflexivity.
Defined.

End ConcurrentSample.
