(* ===== verification/Admission.v ===== *)
(** * Rate limiting over time ([internal/httpx/ratelimit.go])

    What the rate limiter promises the rest of the program: how many requests
    for a provider it admits in an interval, and that a client that waits as
    long as Retry-After says is admitted.

    Requests run on goroutines of their own.  [RateLimit] is a sequence of
    atomic steps here: those of [getLimiter] (in [Concurrent]), [Allow],
    [Reserve], [Delay] and [Cancel], each of which takes the limiter's mutex
    and reads the clock.  Any number of requests arrive at any time, and their
    steps are interleaved in any way; time does not run backwards.
    [Httpx.RateLimit] runs a request in one go; [RateLimit_refines] shows that
    it is a run of these steps.

    [golang.org/x/time/rate] is a parameter; [TokenBucketLaws] is what its
    documentation says of a limiter ("a token bucket of size b, initially full
    and refilled at rate r tokens per second"), in exact arithmetic. *)

From stdpp Require Import relations.
From Stdlib Require Import QArith Qround Lqa.
From S2P Require Import Prelude GoStrings Unicode GoTime Runtime Recorder Executor Httpx Concurrent.

#[local] Open Scope Z_scope.

(** ** The bucket *)

(** Tokens refilled in [d] nanoseconds at [r] tokens per second. *)
Definition refilled (r : Q) (d : Z) : Q := (r * (inject_Z d / inject_Z Second))%Q.

Lemma refilled_nonneg r d : (0 <= r)%Q -> 0 <= d -> (0 <= refilled r d)%Q.
Proof.
  intros Hr Hd. unfold refilled. apply Qmult_le_0_compat; [done|]. apply Qle_shift_div_l; [done|].
  rewrite Qmult_0_l. change 0%Q with (inject_Z 0). by rewrite <- Zle_Qle.
Qed.

Lemma refilled_add r a b c : (refilled r (c - a) == refilled r (b - a) + refilled r (c - b))%Q.
Proof.
  unfold refilled. replace (c - a) with ((b - a) + (c - b)) by lia. rewrite inject_Z_plus. field. done.
Qed.

(** [limit_rate] is the number a [rate.Limit] is; [TokensAt], [Limit] and
    [Burst] are methods of a limiter, [OK] is one of a reservation. *)
Class TokenBucket (L F : Type) `{!RateLimiter L F} := {
  limit_rate : F -> Q;
  TokensAt : L -> Z -> Q;
  limiter_Limit : L -> F;
  limiter_Burst : L -> Z;
  reservation_OK : Reservation -> bool
}.

(** The tokens a reservation took. *)
Definition taken (ok : bool) : Z := if ok then 1 else 0.

Class TokenBucketLaws (L F : Type) `{!RateLimiter L F, !TokenBucket L F} : Prop := {
  (** A new limiter is full. *)
  new_settings f b : limiter_Limit (rate_NewLimiter f b) = f /\ limiter_Burst (rate_NewLimiter f b) = b;
  new_full f b t : (TokensAt (rate_NewLimiter f b) t == inject_Z b)%Q;
  (** Refilled with time, up to the burst. *)
  tokens_cap l t : (TokensAt l t <= inject_Z (limiter_Burst l))%Q;
  tokens_refill l t t' : t <= t' ->
    (TokensAt l t <= TokensAt l t' <= TokensAt l t + refilled (limit_rate (limiter_Limit l)) (t' - t))%Q;
  (** An event is allowed when there is a token, which it takes. *)
  Allow_settings l t : limiter_Limit (limiter_Allow l t).2 = limiter_Limit l
    /\ limiter_Burst (limiter_Allow l t).2 = limiter_Burst l;
  Allow_iff l t : (limiter_Allow l t).1 = true <-> (1 <= TokensAt l t)%Q;
  Allow_takes l t :
    (TokensAt (limiter_Allow l t).2 t == TokensAt l t - inject_Z (taken (limiter_Allow l t).1))%Q;
  (** A reservation takes a token in advance; a limiter that ever has one
      grants it, and it is there when the delay is over. *)
  Reserve_settings l t : limiter_Limit (limiter_Reserve l t).2 = limiter_Limit l
    /\ limiter_Burst (limiter_Reserve l t).2 = limiter_Burst l;
  Reserve_OK l t : 1 <= limiter_Burst l -> (0 < limit_rate (limiter_Limit l))%Q ->
    reservation_OK (limiter_Reserve l t).1 = true;
  Reserve_takes l t :
    (TokensAt (limiter_Reserve l t).2 t
     == TokensAt l t - inject_Z (taken (reservation_OK (limiter_Reserve l t).1)))%Q;
  Reserve_delay l t t' r l' : limiter_Reserve l t = (r, l') -> reservation_OK r = true -> t <= t' ->
    (0 <= TokensAt l' (t' + reservation_Delay r t'))%Q;
  (** Cancelling gives back at most what was taken, and all of it (up to the
      burst) when the reservation is the last one and still waits. *)
  Cancel_settings r l t : limiter_Limit (reservation_Cancel r l t) = limiter_Limit l
    /\ limiter_Burst (reservation_Cancel r l t) = limiter_Burst l;
  Cancel_at_most r l t :
    (TokensAt (reservation_Cancel r l t) t <= TokensAt l t + inject_Z (taken (reservation_OK r)))%Q;
  Cancel_restores l t r l' t1 t2 : limiter_Reserve l t = (r, l') -> reservation_OK r = true ->
    t <= t1 -> 0 < reservation_Delay r t1 -> t1 <= t2 ->
    (TokensAt l' t2 + 1 <= TokensAt (reservation_Cancel r l' t1) t2
     \/ TokensAt (reservation_Cancel r l' t1) t2 == inject_Z (limiter_Burst l'))%Q
}.

(** ** Requests in the rate limiter *)

Section Steps.
Context {L F : Type} `{!RateLimiter L F}.

(** Where a request is in [RateLimit]. *)
Inductive request_pc :=
| Asks (g : goroutine)
| Refused (provider : string) (lim : nat)
| Counted (provider : string) (lim : nat)
| Holds (provider : string) (lim : nat) (r : Reservation)
| Delays (provider : string) (lim : nat) (r : Reservation) (retry : Z)
| Bypasses
| Passed (provider : string)
| TurnedAway (provider : string) (retry : Z)
| Panics (provider : string).

(** The shared state: the [sync.Map], with limiters by address; the limiters,
    each with the provider it was made for; the clock; the requests so far. *)
Record admission := mkAdmission {
  ad_limiters : gmap string nat;
  ad_heap : list (string * L);
  ad_now : Z;
  ad_requests : list request_pc
}.

Definition no_requests (now : Z) : admission := mkAdmission ∅ [] now [].

(** The first statements of the handler, which touch nothing shared. *)
Definition enters (path : string) : request_pc :=
  let provider := providerFromPath path in
  if String.eqb provider "" then Bypasses else Asks (Calling provider).

Variable cfg : @RateLimitConfig F.

(** The next atomic step of a request, at instant [t]. *)
Definition pc_step (t : Z) (m : gmap string nat) (h : list (string * L)) (pc : request_pc)
  : option (gmap string nat * list (string * L) * request_pc) :=
  match pc with
  | Asks (Got p a) =>
      lim ← snd <$> h !! a;
      let '(ok, lim) := limiter_Allow lim t in
      Some (m, <[a := (p, lim)]> h, if ok then Passed p else Refused p a)
  | Asks g =>
      '(m, next, g') ← thread_step m (length h) g;
      let h := if decide (next = length h) then h
               else h ++ [(provider_of g, rate_NewLimiter (RPS cfg) (Burst cfg))] in
      Some (m, h, Asks g')
  | Refused p a => Some (m, h, if ValidString p then Counted p a else Panics p)
  | Counted p a =>
      lim ← snd <$> h !! a;
      let '(r, lim) := limiter_Reserve lim t in
      Some (m, <[a := (p, lim)]> h, Holds p a r)
  | Holds p a r => Some (m, h, Delays p a r (retrySeconds (reservation_Delay r t)))
  | Delays p a r retry =>
      lim ← snd <$> h !! a;
      Some (m, <[a := (p, reservation_Cancel r lim t)]> h, TurnedAway p retry)
  | Bypasses | Passed _ | TurnedAway _ _ | Panics _ => None
  end.

(** A request arrives, or one of them takes its next step. *)
Inductive ad_step : admission -> admission -> Prop :=
| ad_arrives s path :
    ad_step s (mkAdmission (ad_limiters s) (ad_heap s) (ad_now s) (ad_requests s ++ [enters path]))
| ad_moves s i t pc m h pc' :
    ad_requests s !! i = Some pc -> ad_now s <= t ->
    pc_step t (ad_limiters s) (ad_heap s) pc = Some (m, h, pc') ->
    ad_step s (mkAdmission m h t (<[i := pc']> (ad_requests s))).

(** The requests for a provider that were admitted. *)
Definition is_admitted (p : string) (pc : request_pc) : nat :=
  match pc with Passed q => if decide (q = p) then 1 else 0 | _ => 0 end.

Definition admitted (p : string) (s : admission) : nat := sum_list_with (is_admitted p) (ad_requests s).

End Steps.

(** ** Lists of requests *)

(** Replacing one element changes a sum by the difference. *)
Lemma sum_list_insert {A} (f : A -> nat) l i x y :
  l !! i = Some x -> (sum_list_with f (<[i := y]> l) + f x = sum_list_with f l + f y)%nat.
Proof.
  revert i. induction l as [|z l IH]; intros [|i]; cbn; [done|done|intros [= ->]; lia|].
  intros Hi. rewrite <- !Nat.add_assoc. f_equal. exact (IH i Hi).
Qed.

Section Bound.
Context {L F : Type} `{!RateLimiter L F, !TokenBucket L F, !TokenBucketLaws L F}.
Variable cfg : @RateLimitConfig F.
Implicit Types (s : admission (L:=L) (F:=F)) (m : gmap string nat) (h : list (string * L)).

Local Notation rate := (limit_rate (RPS cfg)).

(** The limiter has the configured settings. *)
Definition configured (l : L) : Prop := limiter_Limit l = RPS cfg /\ limiter_Burst l = Burst cfg.

(** The address a request refers to is that of a limiter made for its
    provider. *)
Definition pc_ok m h (pc : request_pc (L:=L) (F:=F)) : Prop :=
  match pc with
  | Asks (Missed p a) => exists l, h !! a = Some (p, l)
  | Asks (Got p a) | Refused p a | Counted p a | Holds p a _ | Delays p a _ _ => m !! p = Some a
  | _ => True
  end.

(** What holds throughout: every limiter is configured, an entry of the map
    was made for its key, and what a request refers to is right. *)
Record shared_ok m h : Prop := {
  so_configured : Forall (fun e => configured e.2) h;
  so_owner p a : m !! p = Some a -> exists l, h !! a = Some (p, l)
}.

Definition admission_ok s : Prop :=
  shared_ok (ad_limiters s) (ad_heap s) /\ Forall (pc_ok (ad_limiters s) (ad_heap s)) (ad_requests s).

(** Maps and limiters grow: no entry is replaced, no limiter changes hands. *)
Definition grows m h m' h' : Prop :=
  m ⊆ m' /\ forall a p l, h !! a = Some (p, l) -> exists l', h' !! a = Some (p, l').

Lemma pc_ok_grows m h m' h' pc : grows m h m' h' -> pc_ok m h pc -> pc_ok m' h' pc.
Proof.
  intros [Hm Hh] Hok.
  destruct pc as [[p|p a|p a]|p a|p a|p a r|p a r n| |p|p n|p]; cbn in *; try done;
    try (by eapply lookup_weaken). destruct Hok as [l Hl]. by eapply Hh.
Qed.

Lemma grows_put m h a p l l' : h !! a = Some (p, l) -> grows m h m (<[a := (p, l')]> h).
Proof.
  intros Ha. split; [done|]. intros b q x Hb. destruct (decide (a = b)) as [<-|Hne].
  - exists l'. rewrite Ha in Hb. injection Hb as <- <-. apply list_lookup_insert_eq. by eapply lookup_lt_Some.
  - exists x. by rewrite list_lookup_insert_ne.
Qed.

Lemma grows_new m h e : grows m h m (h ++ [e]).
Proof. split; [done|]. intros a p l Ha. exists l. by apply lookup_app_l_Some. Qed.

(** Updating the limiter of a provider in place. *)
Lemma shared_put m h a p l l' : shared_ok m h -> h !! a = Some (p, l) -> configured l' -> shared_ok m (<[a := (p, l')]> h).
Proof.
  intros [Hc Ho] Ha Hl. split; [by apply Forall_insert|]. intros q b Hq. destruct (Ho q b Hq) as [x Hx].
  by eapply (grows_put m).
Qed.

(** *** Tokens *)

(** The tokens of a provider: those in its limiter, a full bucket when it has
    none. *)
Definition tokens m h (p : string) (t : Z) : Q :=
  match m !! p with
  | Some a => match h !! a with Some (_, l) => TokensAt l t | None => inject_Z (Burst cfg) end
  | None => inject_Z (Burst cfg)
  end.

Lemma tokens_put m h a p l l' q t :
  shared_ok m h -> m !! p = Some a -> h !! a = Some (p, l) ->
  tokens m (<[a := (p, l')]> h) q t = if decide (q = p) then TokensAt l' t else tokens m h q t.
Proof.
  intros [_ Ho] Hm Ha. unfold tokens. destruct (decide (q = p)) as [->|Hne].
  - rewrite Hm, list_lookup_insert_eq by (by eapply lookup_lt_Some). done.
  - destruct (m !! q) as [b|] eqn:Hq; [|done]. rewrite list_lookup_insert_ne; [done|]. intros <-.
    destruct (Ho q a Hq) as [x Hx]. congruence.
Qed.

Lemma shared_cell m h p a :
  shared_ok m h -> m !! p = Some a -> exists l, h !! a = Some (p, l) /\ configured l
    /\ forall t, tokens m h p t = TokensAt l t.
Proof.
  intros [Hc Ho] Hm. destruct (Ho p a Hm) as [l Hl]. exists l. split; [done|].
  split; [exact (Forall_lookup_1 _ _ _ _ Hc Hl)|]. intros t. unfold tokens. by rewrite Hm, Hl.
Qed.

Lemma tokens_at_most m h p t : shared_ok m h -> (tokens m h p t <= inject_Z (Burst cfg))%Q.
Proof.
  intros Hs. destruct (m !! p) as [a|] eqn:Hm.
  - destruct (shared_cell _ _ _ _ Hs Hm) as (l & _ & [_ <-] & ->). apply tokens_cap.
  - unfold tokens. rewrite Hm. lra.
Qed.

Hypothesis rate_nonneg : (0 <= rate)%Q.

Lemma tokens_later m h p t t' :
  shared_ok m h -> t <= t' -> (tokens m h p t' <= tokens m h p t + refilled rate (t' - t))%Q.
Proof using rate_nonneg TokenBucketLaws0.
  intros Hs Ht. destruct (m !! p) as [a|] eqn:Hm.
  - destruct (shared_cell _ _ _ _ Hs Hm) as (l & _ & [<- _] & Htok). rewrite !Htok.
    by apply tokens_refill.
  - pose proof (refilled_nonneg rate (t' - t) rate_nonneg ltac:(lia)). unfold tokens. rewrite Hm. lra.
Qed.

(** *** The effect of a step *)

(** The tokens a request has taken and can still give back. *)
Definition held_by (p : string) (pc : request_pc (L:=L) (F:=F)) : nat :=
  match pc with
  | Holds q _ r | Delays q _ r _ => if decide (q = p) then Z.to_nat (taken (reservation_OK r)) else 0
  | _ => 0
  end.

Definition held (p : string) s : nat := sum_list_with (held_by p) (ad_requests s).

(** The tokens a request accounts for: held, or spent on its admission. *)
Definition weight (p : string) (pc : request_pc) : Q :=
  inject_Z (Z.of_nat (held_by p pc) + Z.of_nat (is_admitted p pc)).

(** A step makes tokens for nobody. *)
Definition conserves t m h (pc : request_pc) m' h' (pc' : request_pc) : Prop :=
  forall p, (tokens m' h' p t + weight p pc' <= tokens m h p t + weight p pc)%Q.

Lemma put_effect m h a p l l' t pc pc' :
  shared_ok m h -> m !! p = Some a -> h !! a = Some (p, l) -> configured l' ->
  (forall q, q <> p -> weight q pc' = weight q pc) ->
  (TokensAt l' t + weight p pc' <= TokensAt l t + weight p pc)%Q ->
  grows m h m (<[a := (p, l')]> h) /\ shared_ok m (<[a := (p, l')]> h)
  /\ conserves t m h pc m (<[a := (p, l')]> h) pc'.
Proof.
  intros Hs Hm Ha Hc Hother Hown. split; [by eapply grows_put|]. split; [by eapply shared_put|].
  intros q. rewrite (tokens_put m h a p l l' q t Hs Hm Ha). destruct (decide (q = p)) as [->|Hne].
  - unfold tokens. rewrite Hm, Ha. done.
  - rewrite Hother by done. lra.
Qed.

Lemma new_configured : configured (rate_NewLimiter (RPS cfg) (Burst cfg)).
Proof. apply new_settings. Qed.

Lemma shared_new m h p l : shared_ok m h -> configured l -> shared_ok m (h ++ [(p, l)]).
Proof.
  intros [Hc Ho] Hl. split; [apply Forall_app; split; [done|by apply Forall_singleton]|].
  intros q a Hq. destruct (Ho q a Hq) as [x Hx]. exists x. by apply lookup_app_l_Some.
Qed.

Lemma shared_store m h p a l : shared_ok m h -> h !! a = Some (p, l) -> shared_ok (<[p := a]> m) h.
Proof.
  intros [Hc Ho] Ha. split; [done|]. intros q b [[<- <-]|[_ Hq]]%lookup_insert_Some; [by exists l|by apply Ho].
Qed.

(** A lookup that fails stays one for the tokens: a new limiter is at most
    full. *)
Lemma store_tokens m h p a q t :
  shared_ok m h -> shared_ok (<[p := a]> m) h -> m !! p = None ->
  (tokens (<[p := a]> m) h q t <= tokens m h q t)%Q.
Proof.
  intros Hs Hs' Hp. destruct (decide (p = q)) as [<-|Hne].
  - pose proof (tokens_at_most _ _ p t Hs'). unfold tokens at 2. by rewrite Hp.
  - unfold tokens. rewrite lookup_insert_ne by done. lra.
Qed.

Lemma tokens_new m h e q t : shared_ok m h -> tokens m (h ++ [e]) q t = tokens m h q t.
Proof.
  intros [_ Ho]. unfold tokens. destruct (m !! q) as [a|] eqn:Hq; [|done]. destruct (Ho q a Hq) as [l Hl].
  by rewrite Hl, (lookup_app_l_Some _ _ _ _ Hl).
Qed.

(** The steps of [getLimiter]. *)
Lemma asks_effect m h g t m' h' pc' :
  shared_ok m h -> pc_ok m h (Asks g) -> (forall p a, g <> Got p a) ->
  pc_step cfg t m h (Asks g) = Some (m', h', pc') ->
  grows m h m' h' /\ shared_ok m' h' /\ pc_ok m' h' pc' /\ conserves t m h (Asks g) m' h' pc'
  /\ exists g', pc' = Asks g'.
Proof.
  intros Hs Hok Hg E. pose proof Hs as [Hc Ho].
  assert (grows m h m h) as Hrefl by (split; [done|]; eauto).
  destruct g as [p|p a|p a]; [| |by destruct (Hg p a)]; cbn in E.
  - destruct (m !! p) as [a|] eqn:Em; cbn in E; (rewrite decide_True in E by done) || (rewrite decide_False in E by lia);
      injection E as <- <- <-; cbn.
    + split; [done|]. split; [done|]. split; [done|]. split; [intros q; apply Qle_refl|by eexists].
    + split; [apply grows_new|]. split; [apply shared_new; [done|apply new_configured]|].
      split; [eexists; by apply list_lookup_middle|]. split; [|by eexists].
      intros q. rewrite tokens_new by done. apply Qle_refl.
  - destruct Hok as [l Hl].
    destruct (m !! p) as [b|] eqn:Em; cbn in E; rewrite decide_True in E by done; injection E as <- <- <-; cbn.
    + split; [done|]. split; [done|]. split; [done|]. split; [intros q; apply Qle_refl|by eexists].
    + pose proof (shared_store _ _ _ _ _ Hs Hl) as Hs'.
      split; [split; [by apply insert_subseteq|by eauto]|]. split; [done|].
      split; [apply lookup_insert_eq|]. split; [|by eexists].
      intros q. pose proof (store_tokens m h p a q t Hs Hs' Em). unfold weight. cbn [held_by is_admitted]. lra.
Qed.

(** Evaluate the weight of a request. *)
Local Ltac weigh :=
  unfold weight; cbn [held_by is_admitted taken] in *; rewrite ?decide_True, ?decide_False by done;
  change (inject_Z (Z.of_nat 0 + Z.of_nat 0)) with 0%Q; change (inject_Z (Z.of_nat 0 + Z.of_nat 1)) with 1%Q;
  change (inject_Z 0) with 0%Q in *; change (inject_Z 1) with 1%Q in *.

Lemma weight_holds p a r : weight p (Holds p a r) = inject_Z (taken (reservation_OK r)).
Proof. weigh. by destruct (reservation_OK r). Qed.

Lemma weight_delays p a r n : weight p (Delays p a r n) = inject_Z (taken (reservation_OK r)).
Proof. weigh. by destruct (reservation_OK r). Qed.

(** What a step of a request does: others' limiters stay, no tokens are made,
    and a request is admitted only when its provider has one. *)
Record step_effect t m h pc m' h' pc' : Prop := {
  se_grows : grows m h m' h';
  se_shared : shared_ok m' h';
  se_pc : pc_ok m' h' pc';
  se_conserves : conserves t m h pc m' h' pc';
  se_admits p : (is_admitted p pc' <= is_admitted p pc)%nat
    \/ (is_admitted p pc' = S (is_admitted p pc) /\ (1 <= tokens m h p t)%Q)
}.

(** A call on the limiter of the request's provider. *)
Lemma call_effect t m h pc p a l l' pc' :
  shared_ok m h -> m !! p = Some a -> h !! a = Some (p, l) ->
  limiter_Limit l' = limiter_Limit l /\ limiter_Burst l' = limiter_Burst l ->
  pc_ok m h pc' -> (forall q, q <> p -> weight q pc' = weight q pc) ->
  (TokensAt l' t + weight p pc' <= TokensAt l t + weight p pc)%Q ->
  (forall q, is_admitted q pc' = 0%nat \/ (q = p /\ is_admitted q pc' = 1%nat /\ is_admitted q pc = 0%nat
     /\ (1 <= TokensAt l t)%Q)) ->
  step_effect t m h pc m (<[a := (p, l')]> h) pc'.
Proof.
  intros Hs Hm Ha [Hl1 Hl2] Hpc Hother Hown Hadm. destruct (shared_cell _ _ _ _ Hs Hm) as (l0 & Hl0 & [Hc1 Hc2] & Htok).
  rewrite Ha in Hl0. injection Hl0 as <-.
  destruct (put_effect m h a p l l' t pc pc' Hs Hm Ha) as (G & S' & Hcon); [by split; congruence|done|done|].
  split; [done|done|by eapply pc_ok_grows|done|]. intros q. destruct (Hadm q) as [->|(-> & -> & -> & Hone)].
  - left. lia.
  - right. split; [done|]. by rewrite Htok.
Qed.

Lemma pc_step_effect m h pc t m' h' pc' :
  shared_ok m h -> pc_ok m h pc -> pc_step cfg t m h pc = Some (m', h', pc') -> step_effect t m h pc m' h' pc'.
Proof.
  intros Hs Hok E. assert (grows m h m h) as Hrefl by (split; [done|]; eauto).
  assert (forall p a, m !! p = Some a -> exists l, h !! a = Some (p, l)) as Hcell by apply Hs.
  assert (forall g, (forall p a, g <> Got p a) -> pc_ok m h (Asks g) ->
    pc_step cfg t m h (Asks g) = Some (m', h', pc') -> step_effect t m h (Asks g) m' h' pc') as Hasks.
  { intros g Hg Hok' E'. destruct (asks_effect m h g t m' h' pc' Hs Hok' Hg E') as (H1 & H2 & H3 & H4 & g' & ->).
    split; auto. }
  destruct pc as [[p|p a|p a]|p a|p a|p a r|p a r n| |p|p n|p]; try done; [by apply Hasks|by apply Hasks|..];
    cbn [pc_ok] in Hok; destruct (Hcell p a Hok) as [l Hl]; cbn in E; rewrite ?Hl in E; cbn in E.
  - pose proof (Allow_settings l t) as Hset. pose proof (Allow_takes l t) as Htake. pose proof (Allow_iff l t) as Hiff.
    destruct (limiter_Allow l t) as [ok l']. cbn in *. injection E as <- <- <-.
    apply (call_effect t m h _ p a l); [done|done|done|done|by destruct ok|intros q Hne; destruct ok; by weigh| |].
    + destruct ok; weigh; lra.
    + intros q. destruct ok; cbn; [|auto]. destruct (decide (p = q)) as [<-|]; [right|auto].
      split; [done|]. split; [done|]. split; [done|]. by apply Hiff.
  - injection E as <- <- <-. destruct (ValidString p); (split; cbn; [done|done|done|intros q; apply Qle_refl|auto]).
  - pose proof (Reserve_settings l t) as Hset. pose proof (Reserve_takes l t) as Htake.
    destruct (limiter_Reserve l t) as [r l']. cbn in *. injection E as <- <- <-.
    apply (call_effect t m h _ p a l); [done|done|done|done|done|intros q Hne; by weigh| |auto].
    rewrite weight_holds. weigh. lra.
  - injection E as <- <- <-. split; cbn; [done|done|done|intros q; apply Qle_refl|auto].
  - injection E as <- <- <-. pose proof (Cancel_at_most r l t) as Hback.
    apply (call_effect t m h _ p a l); [done|done|done|apply Cancel_settings|done|intros q Hne; by weigh| |auto].
    rewrite weight_delays. weigh. lra.
Qed.

(** *** Runs *)

(** The tokens all requests for a provider account for. *)
Definition total (p : string) (l : list (request_pc (L:=L) (F:=F))) : Z :=
  Z.of_nat (sum_list_with (held_by p) l) + Z.of_nat (sum_list_with (is_admitted p) l).

Lemma total_insert p l i pc pc' :
  l !! i = Some pc ->
  (inject_Z (total p (<[i := pc']> l)) + weight p pc == inject_Z (total p l) + weight p pc')%Q.
Proof.
  intros Hi. unfold weight, total. rewrite <- !inject_Z_plus.
  pose proof (sum_list_insert (held_by p) l i pc pc' Hi). pose proof (sum_list_insert (is_admitted p) l i pc pc' Hi).
  match goal with |- (inject_Z ?a == inject_Z ?b)%Q => by replace a with b by lia end.
Qed.

Definition tokens_now (p : string) s : Q := tokens (ad_limiters s) (ad_heap s) p (ad_now s).

(** What a step does to a provider: time passes, tokens are refilled at most,
    and at most one request is admitted, for a token. *)
Record run_effect (p : string) s s' : Prop := {
  re_now : ad_now s <= ad_now s';
  re_tokens : (tokens_now p s' + inject_Z (total p (ad_requests s'))
    <= tokens_now p s + inject_Z (total p (ad_requests s)) + refilled rate (ad_now s' - ad_now s))%Q;
  re_admits : (admitted p s' <= admitted p s)%nat
    \/ (admitted p s' = S (admitted p s)
        /\ (1 <= tokens_now p s + refilled rate (ad_now s' - ad_now s))%Q)
}.

Lemma enters_weightless p path : held_by p (enters path) = 0%nat /\ is_admitted p (enters path) = 0%nat.
Proof. unfold enters. by destruct (String.eqb _ ""). Qed.

Lemma arrives_effect p s path :
  run_effect p s (mkAdmission (ad_limiters s) (ad_heap s) (ad_now s) (ad_requests s ++ [enters path])).
Proof using rate_nonneg.
  destruct (enters_weightless p path) as [Hh Ha]. split; cbn.
  - lia.
  - unfold total. rewrite !sum_list_with_app. cbn. rewrite Hh, Ha, !Nat.add_0_r.
    pose proof (refilled_nonneg rate (ad_now s - ad_now s) rate_nonneg ltac:(lia)). unfold tokens_now. cbn. lra.
  - left. unfold admitted. cbn. rewrite sum_list_with_app. cbn. lia.
Qed.

Lemma ad_step_effect s s' :
  admission_ok s -> ad_step cfg s s' -> admission_ok s' /\ forall p, run_effect p s s'.
Proof using rate_nonneg TokenBucketLaws0.
  intros [Hs Hr] Hstep. destruct Hstep as [s path|s i t pc m h pc' Hi Ht E].
  - split; [|intros p; apply arrives_effect]. split; [done|]. apply Forall_app. split; [done|].
    apply Forall_singleton. unfold enters. by destruct (String.eqb _ "").
  - destruct (pc_step_effect _ _ _ _ _ _ _ Hs (Forall_lookup_1 _ _ _ _ Hr Hi) E) as [Hg Hs' Hpc Hcon Hadm].
    split.
    { split; [done|]. apply Forall_insert; [|done]. eapply Forall_impl; [exact Hr|]. intros x. by apply pc_ok_grows. }
    intros p. pose proof (tokens_later _ _ p _ _ Hs Ht) as Hlater. specialize (Hcon p).
    pose proof (total_insert p _ i pc pc' Hi) as Htot. split; cbn; [done|unfold tokens_now; cbn; lra|].
    pose proof (sum_list_insert (is_admitted p) _ i pc pc' Hi) as Hsum. unfold admitted, tokens_now. cbn [ad_requests].
    destruct (Hadm p) as [Hle|[Heq Hone]]; [left; lia|right]. split; [lia|]. lra.
Qed.

(** A state from which limiters and requests are right; the first one is. *)
Lemma no_requests_ok now : admission_ok (no_requests now).
Proof. split; [split; [done|]|done]. intros p a Hp. exfalso. exact (lookup_empty_Some (M:=gmap string) _ _ Hp). Qed.

Lemma run_ok s s' : rtc (ad_step cfg) s s' -> admission_ok s -> admission_ok s'.
Proof using rate_nonneg TokenBucketLaws0.
  induction 1 as [|s s1 s' Hstep _ IH]; [done|]. intros Hok. by apply IH, (ad_step_effect s).
Qed.

(** Over a run, tokens and admissions together grow by what is refilled. *)
Lemma run_bound p s s' :
  rtc (ad_step cfg) s s' -> admission_ok s ->
  let gained := refilled rate (ad_now s' - ad_now s) in
  ad_now s <= ad_now s'
  /\ (tokens_now p s' + inject_Z (total p (ad_requests s'))
      <= tokens_now p s + inject_Z (total p (ad_requests s)) + gained)%Q
  /\ ((admitted p s' <= admitted p s)%nat
      \/ (inject_Z (Z.of_nat (admitted p s'))
          <= tokens_now p s + inject_Z (total p (ad_requests s)) + gained)%Q).
Proof using rate_nonneg TokenBucketLaws0.
  intros Hrun Hok. revert s' Hrun. apply rtc_ind_r; cbn zeta.
  - split; [lia|]. split; [|by left]. pose proof (refilled_nonneg rate (ad_now s - ad_now s) rate_nonneg ltac:(lia)). lra.
  - intros s1 s2 Hrun Hstep (Hn & Htok & Hadm). pose proof (run_ok _ _ Hrun Hok) as Hok1.
    destruct (proj2 (ad_step_effect s1 s2 Hok1 Hstep) p) as [Hn2 Htok2 Hadm2].
    pose proof (refilled_add rate (ad_now s) (ad_now s1) (ad_now s2)) as Hsplit.
    pose proof (refilled_nonneg rate (ad_now s2 - ad_now s1) rate_nonneg ltac:(lia)) as Hpos.
    split; [lia|]. split; [lra|]. destruct Hadm2 as [Hle|[-> Hone]].
    + destruct Hadm as [Hle0|Hb]; [left; lia|right].
      assert (inject_Z (Z.of_nat (admitted p s2)) <= inject_Z (Z.of_nat (admitted p s1)))%Q by (rewrite <- Zle_Qle; lia).
      lra.
    + right. assert (inject_Z (Z.of_nat (admitted p s1)) <= inject_Z (total p (ad_requests s1)))%Q
        by (rewrite <- Zle_Qle; unfold total, admitted; lia).
      rewrite Nat2Z.inj_succ, <- Z.add_1_r, inject_Z_plus. change (inject_Z 1) with 1%Q. lra.
Qed.

(** C22: The rate limit holds.  From any moment of any run, the
    requests for a provider admitted by a later moment are at most the burst,
    plus the rate times the time between, plus the tokens that refused
    requests had reserved and not yet given back; from the start of the
    program, when nothing is reserved, they are at most the burst plus the
    rate times the time.  Requests for other providers, however many, make no
    difference. *)
Theorem admission_bounded now p s1 s2 :
  0 <= Burst cfg -> rtc (ad_step cfg) (no_requests now) s1 -> rtc (ad_step cfg) s1 s2 ->
  (inject_Z (Z.of_nat (admitted p s2) - Z.of_nat (admitted p s1))
   <= inject_Z (Burst cfg + Z.of_nat (held p s1)) + refilled rate (ad_now s2 - ad_now s1))%Q.
Proof using rate_nonneg TokenBucketLaws0.
  intros Hburst H0 H1. pose proof (run_ok _ _ H0 (no_requests_ok now)) as Hok.
  destruct (run_bound p _ _ H1 Hok) as (Hn & _ & Hadm).
  pose proof (tokens_at_most _ _ p (ad_now s1) (proj1 Hok)) as Hcap.
  pose proof (refilled_nonneg rate (ad_now s2 - ad_now s1) rate_nonneg ltac:(lia)) as Hpos.
  unfold Z.sub at 1. rewrite !inject_Z_plus, inject_Z_opp. destruct Hadm as [Hle|Hb].
  - assert (inject_Z (Z.of_nat (admitted p s2)) <= inject_Z (Z.of_nat (admitted p s1)))%Q by (rewrite <- Zle_Qle; lia).
    assert (inject_Z 0 <= inject_Z (Burst cfg))%Q by (by rewrite <- Zle_Qle).
    assert (inject_Z 0 <= inject_Z (Z.of_nat (held p s1)))%Q by (rewrite <- Zle_Qle; lia).
    change (inject_Z 0) with 0%Q in *. lra.
  - unfold total, tokens_now in *. rewrite inject_Z_plus in Hb. fold (held p s1) (admitted p s1) in Hb. lra.
Qed.

End Bound.

(** ** The handler is a run of steps *)

Section Alone.
Context {C L F : Type} `{!RateLimiter L F}.
Variable cfg : @RateLimitConfig F.
Implicit Types (s : admission (L:=L) (F:=F)) (m : gmap string nat) (h : list (string * L)) (w : world C L)
  (next : Handler C L).

Lemma retryAfter_exact p (lim : L) w :
  let t k := w_clock w (k + w_reads w)%nat in
  let '(res, l2) := limiter_Reserve lim (t 0%nat) in
  exists w', retryAfter p lim w = (Ret (retrySeconds (reservation_Delay res (t 1%nat))), w')
    /\ w_conn w' = w_conn w /\ w_limiters w' = <[p := reservation_Cancel res l2 (t 2%nat)]> (w_limiters w).
Proof.
  intros t. destruct (limiter_Reserve lim (t 0%nat)) as [res l2] eqn:ER. unfold retryAfter.
  erewrite bind_run by reflexivity. unfold t in ER. cbn [Nat.add] in ER. rewrite ER. unfold putLimiter.
  do 4 (erewrite bind_run by reflexivity; cbv zeta). eexists. split; [reflexivity|]. cbn. by rewrite insert_insert_eq.
Qed.

(** What [RateLimit] does with a request for a provider, with every call on
    the limiter at the instant it reads. *)
Lemma RateLimit_run next r w q :
  w_requests w !! r = Some q -> fresh w ->
  let p := providerFromPath (URL_Path q) in
  let t k := w_clock w (k + w_reads w)%nat in
  let '(ok, l1) := limiter_Allow (default (rate_NewLimiter (RPS cfg) (Burst cfg)) (w_limiters w !! p)) (t 0%nat) in
  p <> "" ->
  if ok then exists w1, RateLimit cfg next RWConn r w = next RWConn r w1
      /\ w_conn w1 = w_conn w /\ w_limiters w1 = <[p := l1]> (w_limiters w)
  else if ValidString p then
    let '(res, l2) := limiter_Reserve l1 (t 1%nat) in
    exists w1, RateLimit cfg next RWConn r w = (Ret tt, w1) /\ c_status (w_conn w1) = Some 429
      /\ Header_Get (c_sent (w_conn w1)) "Retry-After" = Itoa (retrySeconds (reservation_Delay res (t 2%nat)))
      /\ w_limiters w1 = <[p := reservation_Cancel res l2 (t 3%nat)]> (w_limiters w)
  else exists v w1, RateLimit cfg next RWConn r w = (Panic v, w1)
      /\ w_conn w1 = w_conn w /\ w_limiters w1 = <[p := l1]> (w_limiters w).
Proof.
  intros Hq [Hst _] p t. destruct (limiter_Allow _ (t 0%nat)) as [ok l1] eqn:EA. intros Hp. unfold RateLimit.
  erewrite (bind_run (deref_request r)) by (unfold deref_request; rewrite Hq; reflexivity). cbv zeta.
  fold p. rewrite (proj2 (String.eqb_neq p "") Hp).
  destruct (getLimiter_run cfg p w) as (lim & wa & Ea & -> & Hla & Hca & _ & _ & Hra & Hka & _).
  rewrite (bind_run _ _ _ _ _ Ea). erewrite bind_run by reflexivity. cbv zeta. rewrite Hra, Hka.
  unfold t in EA. cbn [Nat.add] in EA. rewrite EA. unfold putLimiter at 1.
  erewrite bind_run by reflexivity. destruct ok.
  { eexists. split; [reflexivity|]. cbn. by rewrite Hla, insert_insert_eq. }
  unfold inc_values. cbn [forallb]. destruct (ValidString p); cbn [andb].
  2:{ do 2 eexists. split; [reflexivity|]. cbn. by rewrite Hla, insert_insert_eq. }
  destruct (limiter_Reserve l1 (t 1%nat)) as [res l2] eqn:ER. unfold inc.
  erewrite bind_run by reflexivity. rewrite (bind_run (add_counter "HTTPRateLimited" [p] 1) _ _ _ _ eq_refl).
  match goal with |- context [mbind _ (retryAfter p l1) ?w0] => pose proof (retryAfter_exact p l1 w0) as HR end.
  cbn in HR. rewrite Hka in HR. unfold t in ER |- *. cbn [Nat.add] in ER |- *. rewrite ER in HR.
  destruct HR as (wd & Ed & Hcd & Hld).
  rewrite (bind_run _ _ _ _ _ Ed). unfold SetHeader. erewrite bind_run by reflexivity.
  match goal with |- context [WriteHeader RWConn 429 ?w0] => set (we := w0) end.
  destruct (conn_WriteHeader_run we 429 ltac:(lia)) as (wf & Ef & Hro & Hse & Hsent & _ & _).
  assert (c_status (w_conn we) = None) as Hsd by (cbn; rewrite Hcd; cbn; by rewrite Hca).
  rewrite Hsd in Hse, Hsent. exists wf. split; [exact Ef|]. split; [done|].
  split; [rewrite Hsent; apply Header_Set_get|].
  rewrite (ro_limiters _ _ Hro). cbn. by rewrite Hld, Hla, !insert_insert_eq.
Qed.

(** The limiters, looked up through the map, are those of the world, and an
    entry of the map was made for its key. *)
Record represents m h (lims : gmap string L) : Prop := {
  rep_lookup p : lims !! p = m !! p ≫= fun a => snd <$> h !! a;
  rep_owner p a : m !! p = Some a -> exists l, h !! a = Some (p, l)
}.

Lemma represents_put m h lims p a l l' :
  represents m h lims -> m !! p = Some a -> h !! a = Some (p, l) ->
  represents m (<[a := (p, l')]> h) (<[p := l']> lims) /\ <[a := (p, l')]> h !! a = Some (p, l').
Proof.
  intros [Hl Ho] Hm Ha. assert (<[a := (p, l')]> h !! a = Some (p, l')) as Hnew
    by (apply list_lookup_insert_eq; by eapply lookup_lt_Some).
  split; [|done]. split.
  - intros q. destruct (decide (p = q)) as [<-|Hne].
    + by rewrite lookup_insert_eq, Hm; cbn; rewrite Hnew.
    + rewrite lookup_insert_ne, Hl by done. destruct (m !! q) as [b|] eqn:Hq; [|done]. cbn.
      rewrite list_lookup_insert_ne; [done|]. intros <-. destruct (Ho q a Hq). congruence.
  - intros q b Hq. destruct (decide (a = b)) as [<-|Hne].
    + destruct (Ho q a Hq) as [x Hx]. rewrite Hnew. exists l'. congruence.
    + rewrite list_lookup_insert_ne by done. by apply Ho.
Qed.

(** The state with request [i] moved on. *)
Definition moved s i t m h pc : admission := mkAdmission m h t (<[i := pc]> (ad_requests s)).

Lemma moved_step s i t m h pc t' m' h' pc' :
  (i < length (ad_requests s))%nat -> t <= t' -> pc_step cfg t' m h pc = Some (m', h', pc') ->
  ad_step cfg (moved s i t m h pc) (moved s i t' m' h' pc').
Proof.
  intros Hi Ht E. unfold moved. rewrite <- (list_insert_insert_eq (ad_requests s) i pc' pc).
  apply (ad_moves cfg (mkAdmission m h t (<[i := pc]> (ad_requests s))) i t' pc); [|done|done].
  by apply list_lookup_insert_eq.
Qed.

Lemma first_step s i t pc m h pc' :
  ad_requests s !! i = Some pc -> ad_now s <= t ->
  pc_step cfg t (ad_limiters s) (ad_heap s) pc = Some (m, h, pc') -> ad_step cfg s (moved s i t m h pc').
Proof. intros Hi Ht E. by eapply ad_moves. Qed.

(** The steps of [getLimiter], with nobody else at work. *)
Lemma get_steps s i p lims :
  represents (ad_limiters s) (ad_heap s) lims -> ad_requests s !! i = Some (Asks (Calling p)) ->
  let lim := default (rate_NewLimiter (RPS cfg) (Burst cfg)) (lims !! p) in
  exists m h a, rtc (ad_step cfg) s (moved s i (ad_now s) m h (Asks (Got p a)))
    /\ represents m h (<[p := lim]> lims) /\ m !! p = Some a /\ h !! a = Some (p, lim).
Proof.
  intros Hrep Hi lim. pose proof Hrep as [Hl Ho]. pose proof (lookup_lt_Some _ _ _ Hi) as Hlt.
  destruct (ad_limiters s !! p) as [a|] eqn:Em.
  - destruct (Ho p a Em) as [l Ha]. assert (lims !! p = Some l) as Hp by (rewrite Hl, Em; cbn; by rewrite Ha).
    exists (ad_limiters s), (ad_heap s), a. unfold lim. rewrite Hp. cbn [default from_option].
    split; [|by rewrite (insert_id lims) by done].
    eapply rtc_once, first_step; [done|lia|]. cbn. rewrite Em. cbn. by rewrite decide_True.
  - assert (lims !! p = None) as Hp by (rewrite Hl, Em; done).
    set (a := length (ad_heap s)). set (h := ad_heap s ++ [(p, lim)]).
    assert (h !! a = Some (p, lim)) as Ha by (by apply list_lookup_middle).
    exists (<[p := a]> (ad_limiters s)), h, a. split; [|split; [|split; [apply lookup_insert_eq|done]]].
    + eapply rtc_l; [apply (first_step s i (ad_now s) _ (ad_limiters s) h (Asks (Missed p a)) Hi); [lia|]|].
      { cbn. rewrite Em. cbn. rewrite decide_False by lia. unfold h, lim. by rewrite Hp. }
      apply rtc_once, moved_step; [done|lia|]. cbn. rewrite Em. cbn. by rewrite decide_True.
    + split.
      * intros q. destruct (decide (p = q)) as [<-|Hne]; [by rewrite !lookup_insert_eq; cbn; rewrite Ha|].
        rewrite !lookup_insert_ne, Hl by done. destruct (ad_limiters s !! q) as [b|] eqn:Eq; [|done].
        destruct (Ho q b Eq) as [x Hx]. cbn. unfold h. by rewrite Hx, (lookup_app_l_Some _ _ _ _ Hx).
      * intros q b [[<- <-]|[_ Hq]]%lookup_insert_Some; [by exists lim|]. destruct (Ho q b Hq) as [x Hx].
        exists x. by apply lookup_app_l_Some.
Qed.

(** From [Allow] on, with nobody else at work: what the limiter holds and
    where the request ends, for calls at instants that do not decrease. *)
Lemma decide_steps s i m h p a l lims (t : nat -> Z) :
  (i < length (ad_requests s))%nat -> represents m h lims -> m !! p = Some a -> h !! a = Some (p, l) ->
  ad_now s <= t 0%nat -> (forall k, t k <= t (S k)) ->
  let '(ok, l1) := limiter_Allow l (t 0%nat) in
  let '(res, l2) := limiter_Reserve l1 (t 1%nat) in
  let '(pc, l') :=
    if ok then (Passed p, l1)
    else if ValidString p then
      (TurnedAway p (retrySeconds (reservation_Delay res (t 2%nat))), reservation_Cancel res l2 (t 3%nat))
    else (Panics p, l1) in
  exists t' h', rtc (ad_step cfg) (moved s i (ad_now s) m h (Asks (Got p a))) (moved s i t' m h' pc)
    /\ represents m h' (<[p := l']> lims).
Proof.
  intros Hi Hrep Hm Ha Ht0 Ht. destruct (limiter_Allow l (t 0%nat)) as [ok l1] eqn:EA.
  destruct (limiter_Reserve l1 (t 1%nat)) as [res l2] eqn:ER.
  destruct (represents_put m h lims p a l l1 Hrep Hm Ha) as [Hrep1 Ha1]. set (h1 := <[a := (p, l1)]> h) in *.
  assert (ad_step cfg (moved s i (ad_now s) m h (Asks (Got p a)))
            (moved s i (t 0%nat) m h1 (if ok then Passed p else Refused p a))) as S0.
  { apply moved_step; [done|done|]. cbn. rewrite Ha. cbn. by rewrite EA. }
  destruct ok; [by exists (t 0%nat), h1; split; [by apply rtc_once|]|].
  assert (ad_step cfg (moved s i (t 0%nat) m h1 (Refused p a))
            (moved s i (t 0%nat) m h1 (if ValidString p then Counted p a else Panics p))) as S1
    by (apply moved_step; [done|lia|done]).
  destruct (ValidString p); [|by exists (t 0%nat), h1; split; [by eapply rtc_l, rtc_once|]].
  destruct (represents_put m h1 _ p a l1 l2 Hrep1 Hm Ha1) as [Hrep2 Ha2]. set (h2 := <[a := (p, l2)]> h1) in *.
  destruct (represents_put m h2 _ p a l2 (reservation_Cancel res l2 (t 3%nat)) Hrep2 Hm Ha2) as [Hrep3 _].
  exists (t 3%nat), (<[a := (p, reservation_Cancel res l2 (t 3%nat))]> h2). rewrite !insert_insert_eq in Hrep3.
  split; [|done]. eapply rtc_l; [exact S0|]. eapply rtc_l; [exact S1|].
  eapply rtc_l; [apply (moved_step s i _ _ _ _ (t 1%nat) m h2 (Holds p a res)); [done|apply Ht|]|].
  { cbn. rewrite Ha1. cbn. by rewrite ER. }
  eapply rtc_l; [apply (moved_step s i _ _ _ _ (t 2%nat)); [done|apply Ht|reflexivity]|].
  apply rtc_once, moved_step; [done|apply Ht|]. cbn. by rewrite Ha2.
Qed.

(** C24: The handler is a run of the steps of one request.  Served
    with nobody else at work, in a world whose limiters are those of the shared
    state, a request takes steps that end with it bypassing the limiter,
    admitted, turned away with the Retry-After of the response, or in the
    panic of a label that is no UTF-8, as the handler decides, and leave the
    limiters the handler leaves. *)
Theorem RateLimit_refines next r w q s i :
  w_requests w !! r = Some q -> fresh w ->
  represents (ad_limiters s) (ad_heap s) (w_limiters w) ->
  ad_requests s !! i = Some (enters (URL_Path q)) ->
  ad_now s <= w_clock w (w_reads w) -> (forall n, w_clock w n <= w_clock w (S n)) ->
  exists s' pc, rtc (ad_step cfg) s s' /\ ad_requests s' = <[i := pc]> (ad_requests s)
    /\ let lasting w1 := represents (ad_limiters s') (ad_heap s') (w_limiters w1) in
       match pc with
       | Bypasses => RateLimit cfg next RWConn r w = next RWConn r w /\ lasting w
       | Passed _ => exists w1, RateLimit cfg next RWConn r w = next RWConn r w1 /\ w_conn w1 = w_conn w /\ lasting w1
       | TurnedAway _ retry => exists w1, RateLimit cfg next RWConn r w = (Ret tt, w1)
           /\ c_status (w_conn w1) = Some 429 /\ Header_Get (c_sent (w_conn w1)) "Retry-After" = Itoa retry /\ lasting w1
       | Panics _ => exists v w1, RateLimit cfg next RWConn r w = (Panic v, w1) /\ w_conn w1 = w_conn w /\ lasting w1
       | _ => False
       end.
Proof.
  intros Hq Hf Hrep Hi Hnow Hclock. unfold enters in Hi.
  pose proof (RateLimit_run next r w q Hq Hf) as Hrun. set (p := providerFromPath (URL_Path q)) in *. cbv zeta in Hrun.
  destruct (String.eqb_spec p "") as [Hp|Hp].
  { exists s, Bypasses. split; [done|]. split; [by rewrite list_insert_id|]. split; [|done].
    unfold RateLimit. erewrite (bind_run (deref_request r)) by (unfold deref_request; rewrite Hq; reflexivity).
    cbv zeta. fold p. by rewrite Hp. }
  destruct (get_steps s i p _ Hrep Hi) as (m & h & a & S1 & Hrep1 & Hm & Ha). cbv zeta in *.
  set (lim := default (rate_NewLimiter (RPS cfg) (Burst cfg)) (w_limiters w !! p)) in *.
  pose proof (decide_steps s i m h p a lim _ (fun k => w_clock w (k + w_reads w)%nat) (lookup_lt_Some _ _ _ Hi)
    Hrep1 Hm Ha Hnow (fun k => Hclock _)) as Hd. cbv beta in Hd, Hrun.
  destruct (limiter_Allow lim _) as [ok l1]. destruct (limiter_Reserve l1 _) as [res l2]. specialize (Hrun Hp).
  destruct ok; [|destruct (ValidString p)]; destruct Hd as (t' & h' & S2 & Hrep2); rewrite insert_insert_eq in Hrep2;
    eexists (moved s i t' m h' _), _; (split; [etrans; [exact S1|exact S2]|]; split; [reflexivity|]); cbn.
  - destruct Hrun as (w1 & E & Hc & Hl). exists w1. by rewrite Hl.
  - destruct Hrun as (w1 & E & Hst & Hra & Hl). exists w1. by rewrite Hl.
  - destruct Hrun as (v & w1 & E & Hc & Hl). exists v, w1. by rewrite Hl.
Qed.

(** ** Retry-After *)

Context `{!TokenBucket L F, !TokenBucketLaws L F}.
Local Notation rate := (limit_rate (RPS cfg)).

(** A bucket from which a reservation was made and cancelled while it waited
    allows an event once the reported delay, rounded up, is over. *)
Lemma cancelled_allows l (t0 t1 t2 T : Z) res l2 :
  configured cfg l -> 1 <= Burst cfg -> (0 < rate)%Q -> limiter_Reserve l t0 = (res, l2) ->
  t0 <= t1 -> t1 <= t2 -> 0 < reservation_Delay res t2 ->
  t2 + retrySeconds (reservation_Delay res t1) * Second <= T ->
  (limiter_Allow (reservation_Cancel res l2 t2) T).1 = true.
Proof.
  intros [HL HB] Hburst Hrate ER H01 H12 Hwait HT.
  destruct (retrySeconds_spec (reservation_Delay res t1)) as (Hpos & Hup & _).
  assert (0 < Second) by done. assert (0 < retrySeconds (reservation_Delay res t1) * Second) by nia.
  pose proof (Reserve_OK l t0) as Hok. rewrite HL, HB, ER in Hok. specialize (Hok Hburst Hrate). cbn in Hok.
  pose proof (Reserve_delay l t0 t1 res l2 ER Hok H01) as Hthere.
  destruct (tokens_refill l2 (t1 + reservation_Delay res t1) T ltac:(lia)) as [Hmore _].
  apply Allow_iff. destruct (Cancel_restores l t0 res l2 t2 T ER Hok ltac:(lia) Hwait ltac:(lia)) as [Hr|Hr]; [lra|].
  rewrite Hr. pose proof (Reserve_settings l t0) as [_ Hb]. rewrite ER in Hb. cbn in Hb. rewrite Hb, HB.
  change 1%Q with (inject_Z 1). by rewrite <- Zle_Qle.
Qed.

(** C25: Retry-After tells the truth.  A request the limiter refuses,
    for a provider whose name is UTF-8, is answered 429 with a number of
    seconds; a request for the same provider
    that comes at least that much later, the provider's bucket having been
    left alone in between, is admitted.  (The reservation by which the delay is
    found must still wait when it is cancelled: otherwise the limiter keeps
    its token.) *)
Theorem retry_after_honest next r w q :
  let p := providerFromPath (URL_Path q) in
  let lim := default (rate_NewLimiter (RPS cfg) (Burst cfg)) (w_limiters w !! p) in
  let t k := w_clock w (k + w_reads w)%nat in
  w_requests w !! r = Some q -> fresh w -> p <> "" -> ValidString p = true ->
  configured cfg lim -> 1 <= Burst cfg -> (0 < rate)%Q -> (forall n, w_clock w n <= w_clock w (S n)) ->
  (limiter_Allow lim (t 0%nat)).1 = false ->
  0 < reservation_Delay (limiter_Reserve (limiter_Allow lim (t 0%nat)).2 (t 1%nat)).1 (t 3%nat) ->
  exists seconds w', RateLimit cfg next RWConn r w = (Ret tt, w') /\ c_status (w_conn w') = Some 429
    /\ Header_Get (c_sent (w_conn w')) "Retry-After" = Itoa seconds /\ 1 <= seconds
    /\ forall next2 r2 w2 q2, w_requests w2 !! r2 = Some q2 -> fresh w2 -> providerFromPath (URL_Path q2) = p ->
         w_limiters w2 !! p = w_limiters w' !! p -> t 3%nat + seconds * Second <= w_clock w2 (w_reads w2) ->
         exists w3, RateLimit cfg next2 RWConn r2 w2 = next2 RWConn r2 w3 /\ w_conn w3 = w_conn w2.
Proof.
  intros p lim t Hq Hf Hp Hv Hc Hburst Hrate Hclock Hrefused Hwait.
  pose proof (RateLimit_run next r w q Hq Hf) as Hrun. cbv beta zeta in Hrun. fold p in Hrun. fold lim in Hrun.
  change (w_clock w (0 + w_reads w)%nat) with (t 0%nat) in Hrun. pose proof (Allow_settings lim (t 0%nat)) as [Ha1 Ha2].
  destruct (limiter_Allow lim (t 0%nat)) as [ok l1]. cbn in Hrefused, Hwait, Ha1, Ha2. subst ok. specialize (Hrun Hp).
  rewrite Hv in Hrun. change (w_clock w (1 + w_reads w)%nat) with (t 1%nat) in Hrun.
  destruct (limiter_Reserve l1 (t 1%nat)) as [res l2] eqn:ER. destruct Hrun as (w' & E & Hst & Hhd & Hl).
  exists (retrySeconds (reservation_Delay res (t 2%nat))), w'. split; [done|]. split; [done|]. split; [done|].
  split; [apply retrySeconds_pos|]. intros next2 r2 w2 q2 Hq2 Hf2 Hp2 Hl2 HT.
  pose proof (RateLimit_run next2 r2 w2 q2 Hq2 Hf2) as Hrun. cbv beta zeta in Hrun.
  rewrite Hp2, Hl2, Hl, lookup_insert_eq in Hrun. cbn [default from_option] in Hrun.
  pose proof (cancelled_allows l1 (t 1%nat) (t 2%nat) (t 3%nat) (w_clock w2 (w_reads w2)) res l2) as Hok.
  change (w_clock w (3 + w_reads w)%nat) with (t 3%nat) in Hrun. cbn [Nat.add] in Hrun.
  destruct (limiter_Allow _ (w_clock w2 (w_reads w2))) as [ok l3]. destruct Hc as [Hc1 Hc2].
  cbn in Hok. rewrite Hok in Hrun; [|by split; congruence|done|done|done|apply Hclock|apply Hclock|done|exact HT].
  destruct (Hrun Hp) as (w3 & E3 & Hc3 & _). by exists w3.
Qed.

End Alone.

(** ** A concrete bucket

    The bucket of the documentation, in exact arithmetic, at a whole number of
    tokens per second. *)

Module AdmissionSample.

Record bucket := mkBucket { b_rate : positive; b_burst : Z; b_tokens : Q; b_last : Z }.
Record ticket := mkTicket { tk_ok : bool; tk_act : Z }.

Definition qmin (a b : Q) : Q := if Qle_bool a b then a else b.

Lemma qmin_spec a b : (qmin a b = a /\ a <= b)%Q \/ (qmin a b = b /\ b <= a)%Q.
Proof.
  unfold qmin. destruct (Qle_bool a b) eqn:E; [left|right]; (split; [done|]).
  - by apply Qle_bool_iff.
  - destruct (Qlt_le_dec b a) as [Hlt|Hle]; [by apply Qlt_le_weak|].
    apply Qle_bool_iff in Hle. congruence.
Qed.

(** Split on which of its arguments a minimum is. *)
Ltac qmin_cases :=
  repeat match goal with |- context [qmin ?a ?b] => destruct (qmin_spec a b) as [[-> ?]|[-> ?]] end.

Definition rate_of (r : positive) : Q := inject_Z (Z.pos r).

Definition b_TokensAt (l : bucket) (t : Z) : Q :=
  qmin (inject_Z (b_burst l)) (b_tokens l + refilled (rate_of (b_rate l)) (Z.max 0 (t - b_last l)))%Q.

(** The bucket with [n] tokens at [t]. *)
Definition refresh (l : bucket) (n : Q) (t : Z) : bucket := mkBucket (b_rate l) (b_burst l) n t.

(** How long until a bucket with [n] tokens has one. *)
Definition wait_for (r : positive) (n : Q) : Z := Z.max 0 (Qceiling ((1 - n) / rate_of r * inject_Z Second)).

#[export] Instance bucket_limiter : RateLimiter bucket positive := {|
  Reservation := ticket;
  rate_NewLimiter r b := mkBucket r b (inject_Z b) 0;
  limiter_Allow l t :=
    let n := b_TokensAt l t in
    if Qle_bool 1 n then (true, refresh l (n - 1) t) else (false, refresh l n t);
  limiter_Reserve l t :=
    let n := b_TokensAt l t in
    if 1 <=? b_burst l then (mkTicket true (t + wait_for (b_rate l) n), refresh l (n - 1) t)
    else (mkTicket false 0, l);
  reservation_Delay r t := if tk_ok r then Z.max 0 (tk_act r - t) else maxInt64;
  reservation_Cancel r l t :=
    if tk_ok r && (t <? tk_act r) then refresh l (qmin (inject_Z (b_burst l)) (b_TokensAt l t + 1)) t else l
|}.

#[export] Instance bucket_tokens : TokenBucket bucket positive := {|
  limit_rate := rate_of;
  TokensAt := b_TokensAt;
  limiter_Limit := b_rate;
  limiter_Burst := b_burst;
  reservation_OK := tk_ok
|}.

Lemma rate_pos r : (0 < rate_of r)%Q.
Proof. done. Qed.

Lemma refilled_mono r d d' : d <= d' -> (refilled (rate_of r) d <= refilled (rate_of r) d')%Q.
Proof.
  intros Hd. pose proof (refilled_add (rate_of r) 0 d d') as Ha. rewrite !Z.sub_0_r in Ha.
  pose proof (refilled_nonneg (rate_of r) (d' - d)). assert (0 <= rate_of r)%Q by (apply Qlt_le_weak, rate_pos).
  specialize (H H0 ltac:(lia)). lra.
Qed.

Lemma refilled_0 r : (refilled (rate_of r) 0 == 0)%Q.
Proof. unfold refilled. change (inject_Z 0) with 0%Q. field. done. Qed.

(** Right after a call the bucket holds what the call left. *)
Lemma refresh_now l n t : (n <= inject_Z (b_burst l))%Q -> (b_TokensAt (refresh l n t) t == n)%Q.
Proof.
  intros Hn. unfold b_TokensAt. cbn. rewrite Z.sub_diag. change (Z.max 0 0) with 0.
  pose proof (refilled_0 (b_rate l)).
  qmin_cases; lra.
Qed.

Lemma b_cap l t : (b_TokensAt l t <= inject_Z (b_burst l))%Q.
Proof. unfold b_TokensAt. qmin_cases; lra. Qed.

Lemma b_refill l t t' : t <= t' ->
  (b_TokensAt l t <= b_TokensAt l t' <= b_TokensAt l t + refilled (rate_of (b_rate l)) (t' - t))%Q.
Proof.
  intros Ht. set (r := b_rate l). unfold b_TokensAt. fold r. set (d := Z.max 0 (t - b_last l)).
  set (d' := Z.max 0 (t' - b_last l)).
  pose proof (refilled_mono r d d' ltac:(lia)) as H1. pose proof (refilled_add (rate_of r) 0 d d') as H2.
  rewrite !Z.sub_0_r in H2. pose proof (refilled_mono r (d' - d) (t' - t) ltac:(lia)) as H3.
  pose proof (refilled_mono r 0 (t' - t) ltac:(lia)) as H4. pose proof (refilled_0 r) as H5.
  qmin_cases; split; lra.
Qed.

(** After the wait the bucket is out of debt. *)
Lemma wait_enough r n d : wait_for r n <= d -> (1 - n <= refilled (rate_of r) d)%Q.
Proof.
  intros Hd. assert ((1 - n) / rate_of r * inject_Z Second <= inject_Z d)%Q as Hq.
  { eapply Qle_trans; [apply Qle_ceiling|]. rewrite <- Zle_Qle. unfold wait_for in Hd. lia. }
  unfold refilled. pose proof (rate_pos r) as Hr.
  assert (1 - n == rate_of r * (((1 - n) / rate_of r * inject_Z Second) / inject_Z Second))%Q as Heq
    by (field; split; done).
  rewrite Heq. apply Qmult_le_l; [done|]. apply Qmult_le_compat_r; [done|]. done.
Qed.

Lemma b_restores l t res l' t1 t2 :
  limiter_Reserve l t = (res, l') -> tk_ok res = true -> t <= t1 -> 0 < reservation_Delay res t1 -> t1 <= t2 ->
  (b_TokensAt l' t2 + 1 <= b_TokensAt (reservation_Cancel res l' t1) t2
   \/ b_TokensAt (reservation_Cancel res l' t1) t2 == inject_Z (b_burst l'))%Q.
Proof.
  intros ER Hok H01 Hw H12. cbn in Hw |- *. rewrite Hok in *. cbn [andb]. replace (t1 <? tk_act res) with true by lia.
  destruct (b_refill l' t1 t2 H12) as [_ Hup]. unfold b_TokensAt at 2 4. cbn. rewrite Z.max_r by lia.
  set (rf := refilled (rate_of (b_rate l')) (t2 - t1)) in *.
  pose proof (refilled_mono (b_rate l') 0 (t2 - t1) ltac:(lia)) as Hpos. fold rf in Hpos.
  pose proof (refilled_0 (b_rate l')).
  destruct (qmin_spec (inject_Z (b_burst l')) (b_TokensAt l' t1 + 1)) as [[-> ?]|[-> ?]]; qmin_cases;
    solve [left; lra|right; lra].
Qed.

#[export] Instance bucket_laws : TokenBucketLaws bucket positive.
Proof.
  split.
  - done.
  - intros f b t. cbn. unfold b_TokensAt. cbn. pose proof (refilled_mono f 0 (Z.max 0 (t - 0)) ltac:(lia)).
    pose proof (refilled_0 f).
    qmin_cases; lra.
  - apply b_cap.
  - apply b_refill.
  - intros l t. cbn. by destruct (Qle_bool 1 _).
  - intros l t. cbn. rewrite <- Qle_bool_iff. by destruct (Qle_bool 1 _).
  - intros l t. pose proof (b_cap l t). cbn. destruct (Qle_bool 1 _); cbn [fst snd taken]; rewrite refresh_now;
      change (inject_Z 1) with 1%Q; change (inject_Z 0) with 0%Q; lra.
  - intros l t. cbn. by destruct (1 <=? b_burst l).
  - intros l t Hb _. cbn in *. by replace (1 <=? b_burst l) with true by lia.
  - intros l t. pose proof (b_cap l t). cbn. destruct (1 <=? b_burst l); cbn [fst snd taken tk_ok]; [rewrite refresh_now|];
      change (inject_Z 1) with 1%Q; change (inject_Z 0) with 0%Q; lra.
  - intros l t t' r l' ER Hok Ht. cbn in ER, Hok |- *. destruct (1 <=? b_burst l) eqn:Eb; simplify_eq/=.
    set (n := b_TokensAt l t). unfold b_TokensAt. cbn. set (T := t' + _).
    pose proof (wait_enough (b_rate l) n (Z.max 0 (T - t)) ltac:(lia)).
    assert (inject_Z 0 <= inject_Z (b_burst l))%Q by (rewrite <- Zle_Qle; bool_to_prop; lia).
    change (inject_Z 0) with 0%Q in *.
    qmin_cases; lra.
  - intros r l t. cbn. by destruct (tk_ok r && _).
  - intros r l t. cbn.
    destruct (tk_ok r); cbn [andb taken]; change (inject_Z 1) with 1%Q; change (inject_Z 0) with 0%Q; [|lra].
    destruct (t <? tk_act r); [|lra].
    destruct (qmin_spec (inject_Z (b_burst l)) (b_TokensAt l t + 1)) as [[-> ?]|[-> ?]]; rewrite refresh_now; lra.
  - intros l t r l' t1 t2. apply b_restores.
Qed.

(** *** Concrete runs *)

(** A schedule: who arrives, who takes a step and when. *)
Inductive event := Arrive (path : string) | Move (i : nat) (t : Z).

Definition play1 (cfg : @RateLimitConfig positive) (s : admission (L:=bucket)) (e : event)
  : option (admission (L:=bucket)) :=
  match e with
  | Arrive path => Some (mkAdmission (ad_limiters s) (ad_heap s) (ad_now s) (ad_requests s ++ [enters path]))
  | Move i t =>
      pc ← ad_requests s !! i;
      if ad_now s <=? t then
        '(m, h, pc') ← pc_step cfg t (ad_limiters s) (ad_heap s) pc;
        Some (mkAdmission m h t (<[i := pc']> (ad_requests s)))
      else None
  end.

Fixpoint play (cfg : @RateLimitConfig positive) (s : admission (L:=bucket)) (es : list event)
  : option (admission (L:=bucket)) :=
  match es with
  | [] => Some s
  | e :: es => s ← play1 cfg s e; play cfg s es
  end.

Lemma play_run cfg s es s' : play cfg s es = Some s' -> rtc (ad_step cfg) s s'.
Proof.
  revert s. induction es as [|e es IH]; intros s E; cbn in E; [by simplify_eq|].
  destruct (play1 cfg s e) as [s1|] eqn:E1; [|done]. eapply rtc_l; [|by apply IH].
  destruct e as [path|i t]; cbn in E1; [simplify_eq; constructor|].
  destruct (ad_requests s !! i) as [pc|] eqn:Ei; [|done]. cbn in E1. destruct (ad_now s <=? t) eqn:Et; [|done].
  destruct (pc_step cfg t (ad_limiters s) (ad_heap s) pc) as [[[m h] pc']|] eqn:Ep; [|done]. cbn in E1. simplify_eq.
  eapply ad_moves; [done|by apply Z.leb_le|done].
Qed.

(** One token a second, one at a time. *)
Definition cfg1 : @RateLimitConfig positive := mkRateLimitConfig 1%positive 1.

(** Two requests at once: the first is admitted, the second, refused, has
    reserved a token; it gives it back, and a third is admitted a second
    later. *)
Definition first_part : list event :=
  [Arrive "/webhook/jsm"; Arrive "/webhook/jsm"; Move 0 0; Move 1 0; Move 1 0; Move 0 0; Move 0 0;
   Move 1 0; Move 1 0; Move 1 0]%string.
Definition second_part : list event :=
  [Move 1 10; Move 1 20; Arrive "/webhook/jsm"; Move 2 Second; Move 2 Second]%string.

Definition state1 : admission (L:=bucket) := default (no_requests 0) (play cfg1 (no_requests 0) first_part).
Definition state2 : admission (L:=bucket) := default (no_requests 0) (play cfg1 state1 second_part).

Lemma played cfg s es d :
  (if play cfg s es is Some _ then true else false) = true -> play cfg s es = Some (default d (play cfg s es)).
Proof. by destruct (play cfg s es). Qed.

Lemma admission_bounded_witness :
  held "jsm" state1 = 1%nat /\ admitted "jsm" state1 = 1%nat /\ admitted "jsm" state2 = 2%nat
  /\ (inject_Z (Z.of_nat (admitted "jsm" state2) - Z.of_nat (admitted "jsm" state1))
      <= inject_Z (Burst cfg1 + Z.of_nat (held "jsm" state1))
         + refilled (limit_rate (RPS cfg1)) (ad_now state2 - ad_now state1))%Q.
Proof.
  split; [vm_compute; reflexivity|]. split; [vm_compute; reflexivity|]. split; [vm_compute; reflexivity|].
  apply (admission_bounded (L:=bucket) cfg1) with (now := 0) (p := "jsm"%string) (s1 := state1) (s2 := state2).
  - discriminate.
  - discriminate.
  - apply (play_run cfg1 _ first_part), played. vm_compute. reflexivity.
  - apply (play_run cfg1 _ second_part), played. vm_compute. reflexivity.
Defined.

(** The reservation of a refused request can cost another one its token: the
    second request is refused a nanosecond before the bucket has one, reserves
    it, and the third, which comes then, is turned away; without the second
    it is admitted. *)
Definition at_once (i : nat) (t : Z) : list event := [Move i t; Move i t].

Definition contended : list event :=
  [Arrive "/webhook/jsm"; Move 0 0; Move 0 0; Move 0 0; Arrive "/webhook/jsm"]%string
  ++ at_once 1 (Second - 1) ++ [Move 1 (Second - 1); Move 1 Second; Arrive "/webhook/jsm"%string]
  ++ at_once 2 Second.

Definition uncontended : list event :=
  [Arrive "/webhook/jsm"; Move 0 0; Move 0 0; Move 0 0; Arrive "/webhook/jsm"]%string ++ at_once 1 Second.

Definition admitted_in (es : list event) : option nat := admitted "jsm" <$> play cfg1 (no_requests 0) es.

Example reservation_starves : admitted_in contended = Some 1%nat /\ admitted_in uncontended = Some 2%nat.
Proof. vm_compute. split; reflexivity. Qed.

(** A request for a provider whose bucket is empty, a nanosecond between
    readings of the clock. *)
Definition empty_bucket : bucket := mkBucket 1 1 0 0.

Definition request1 : Request :=
  mkRequest "POST" "/webhook/jsm" true (mkURL "/webhook/jsm" "/webhook/jsm" "") "" ∅ ∅ 2 (mkBody "{}" None)
    (mkContext None None None).

Definition world1 (clock : nat -> Z) (lims : gmap string bucket) : world unit bucket :=
  set_limiters (fun _ => lims) (start_world tt clock [request1]).

Definition handler1 : Handler unit bucket := fun _ _ => mret tt.

Definition empty_state : admission (L:=bucket) (F:=positive) :=
  mkAdmission {["jsm"%string := 0%nat]} [("jsm"%string, empty_bucket)] 0 [enters "/webhook/jsm"].

Lemma RateLimit_refines_witness :
  exists s' pc, rtc (ad_step cfg1) empty_state s' /\ ad_requests s' = [pc].
Proof.
  destruct (RateLimit_refines cfg1 handler1 0%nat (world1 Z.of_nat {["jsm"%string := empty_bucket]}) request1 empty_state 0)
    as (s' & pc & Hrun & Hreq & _).
  - reflexivity.
  - split; reflexivity.
  - split.
    + intros p. destruct (decide (p = "jsm"%string)) as [->|Hne]; [reflexivity|].
      cbn. rewrite !lookup_singleton_ne by congruence. reflexivity.
    + intros p a Hp. cbn in Hp. apply lookup_singleton_Some in Hp as [<- <-]. exists empty_bucket. reflexivity.
  - reflexivity.
  - discriminate.
  - intros n. cbn. lia.
  - exists s', pc. split; [exact Hrun|exact Hreq].
Defined.

Lemma retry_after_honest_witness :
  exists seconds w', RateLimit cfg1 handler1 RWConn 0%nat (world1 Z.of_nat {["jsm"%string := empty_bucket]}) = (Ret tt, w')
    /\ c_status (w_conn w') = Some 429 /\ Header_Get (c_sent (w_conn w')) "Retry-After" = Itoa seconds
    /\ exists w3, RateLimit cfg1 handler1 RWConn 0%nat (world1 (fun _ => 3 + seconds * Second) (w_limiters w'))
         = handler1 RWConn 0%nat w3.
Proof.
  destruct (retry_after_honest cfg1 handler1 0%nat (world1 Z.of_nat {["jsm"%string := empty_bucket]}) request1)
    as (seconds & w' & E & Hst & Hh & _ & Hlater).
  - reflexivity.
  - split; reflexivity.
  - discriminate.
  - vm_compute. reflexivity.
  - split; reflexivity.
  - discriminate.
  - reflexivity.
  - intros n. cbn. lia.
  - vm_compute. reflexivity.
  - vm_compute. reflexivity.
  - exists seconds, w'. split; [exact E|]. split; [exact Hst|]. split; [exact Hh|].
    destruct (Hlater handler1 0%nat (world1 (fun _ => 3 + seconds * Second) (w_limiters w')) request1) as (w3 & E3 & _).
    + reflexivity.
    + split; reflexivity.
    + reflexivity.
    + reflexivity.
    + cbn. lia.
    + exists w3. exact E3.
Defined.

End AdmissionSample.
